(* ===== verification/_CoqProject ===== *)
-Q . S2P
Prelude.v
GoLib.v
Model.v
Gas.v
FeeHistory.v
Sql.v
Storage.v
Psql.v
Extern.v
BlockModels.v
EthViews.v
StoreBlock.v
IndexBackend.v
Cache.v
Source.v
Indexer.v
IndexerLoop.v
IndexerWorkers.v
Archive.v
EthApi.v
EndToEnd.v
EthCall.v
Filters.v
Worker.v
ReadOnly.v
Migrator.v
OasisApi.v
Pebble.v
NodeClient.v
Config.v
Server.v
ApiMetrics.v
EventLoop.v
FilterApi.v
PushPull.v
GasFeed.v
CacheLogs.v
CacheMetrics.v
StorageMetrics.v
SqlFile.v
LogsMigration.v
Services.v
Main.v
