(* ===== verification/Prelude.v ===== *)
(** * Verification of the Oasis Web3 gateway

    The gateway makes an Oasis runtime with an EVM look like an Ethereum node.
    An indexer follows the runtime block by block, converts each block to
    Ethereum form and stores it in a PostgreSQL database; the JSON-RPC methods
    answer from that database (through a cache of the latest blocks), from the
    runtime node, or from an archive gateway; a gas price oracle and the
    subscriptions to logs and heads are fed by the same blocks.  An HTTP and a
    WebSocket server make the methods available, instrumented if monitoring is
    enabled; the command line starts and stops all of it after migrating the
    database.

    ** How the parts interact, and the files that model them

    The files are listed bottom up; each one requires those it calls.

    - Prelude.v: errors, results, the state monad [M S A] of calls that may fail
      on a mutable receiver, machine integers, tactics, hints, generic lemmas.
    - GoLib.v: what the sources use of Go's standard library: big.Int text and
      bytes, hex, base64, strings, IEEE doubles, stable sorting.
    - Model.v (src/db/model, [BlockData] of src/indexer/backend.go): the rows.
    - Gas.v, FeeHistory.v (src/gas): the gas price oracle.  Its state is
      [gasPriceOracle]; [onBlock], [trackPrice], [fetchMinGasPrice] and
      [trackFeeHistory] are its operations, [gas_run] a run over any sequence of
      blocks and node answers, [GasPrice] and [FeeHistory] its queries; the loop
      of Start with its concurrent query is in GasFeed.v.
    - Sql.v: a SQL database given by laws ([SqlDB], [SqlLaws]): statements on a
      handle (the database or an open transaction) return what the tables allow,
      have their effect, or fail (and a write outside of a transaction whose answer
      is lost may have been applied); [MemDB] is a database in memory with a script
      of faults, which shows that the laws can hold.
    - Storage.v (src/storage/types.go): the storage interface and its laws, the
      contract between the database code and its clients.
    - Psql.v (src/storage/psql/psql.go): [PostDB_*], the queries; they implement
      the contract for every [SqlDB].
    - Extern.v: go-ethereum, oasis-core and the oasis-sdk as parameters
      ([EthLib], [OasisLib]) with the documented facts that are used
      ([EthLibLaws]); concrete instances for the witnesses.
    - BlockModels.v, StoreBlock.v (src/indexer/utils.go): decoding the results of
      a runtime block ([decode]), conversion to rows ([blockToModels]) and
      [StoreBlockData] with its database transaction and the channel of the event
      system ([chain_chan], ten events), on which [send_or_drop] puts the event of
      the block or, when the channel is full, drops it.
    - EthViews.v (src/rpc/utils/utils.go, [db2EthReceipt]): what JSON-RPC shows
      of a row.
    - IndexBackend.v (src/indexer/backend.go): the class [Backend] and its
      implementation on a storage, [Index] and [Prune] included.  The class
      [IndexerBackend] is the contract between a backend and the indexer: what
      [Index], [QueryLastIndexedRound] and [Prune] do to the tables.
    - Cache.v (src/indexer/backend_cache.go): [CachingBackend], a [Backend] in
      front of another one; it keeps the contract of the one it wraps.
    - Source.v (src/source/source.go): the node as a class with laws.
    - Indexer.v (src/indexer/indexer.go): [indexBlock] and one iteration of the
      indexing, pruning and health workers on the state [Service], for every
      [IndexerBackend].
    - IndexerLoop.v (src/indexer/indexer.go): the loops of the workers, and the
      indexing worker on a node that serves a chain ([serves]).
    - IndexerWorkers.v (src/indexer/indexer.go): the three workers running
      concurrently, as a step relation over their database and node calls.
    - Archive.v (src/archive/client.go): the archive client.
    - EthApi.v, EthCall.v (src/rpc/eth/api.go, revert_errors.go): the eth_
      methods on the state [publicAPI].
    - EndToEnd.v: the path of logs from the node through the index to eth_getLogs.
    - Filters.v (src/filters/event_system.go): the event loop of subscriptions.
    - Worker.v (src/worker/log_tx_index_fixer.go): the log index fixer.
    - ReadOnly.v (src/main.go with indexing disabled): what the services do with a
      database opened read-only, on a server that refuses writes in such sessions
      ([Sessions], [SessionLaws]).
    - Migrator.v (src/db/migrator): the migration runner on a database with
      faults.
    - OasisApi.v (src/rpc/oasis, src/rpc/net, src/rpc/txpool): the oasis_ health
      check as a state machine over probes, and the small APIs.
    - Pebble.v (src/source/pebble): the disk cache in front of a node; the
      key-value store is the class [KVStore] with its laws [KVStoreLaws], by which
      calls may fail and a failed write may have been applied.
    - NodeClient.v (src/source/node): the node client on top of the clients of
      the oasis-sdk ([OasisSdk], a parameter), and the disk cache in front of it.
    - Config.v (src/conf, src/log): the options, loading them from the file and
      the environment, validation, and the set-up of logging; the parser, the
      decoder and the logger are the classes [Koanf] and [Logging].
    - Server.v (src/server): [httpServer] and [Web3Gateway] with their
      operations over a network ([Net]) and the RPC server of go-ethereum
      ([RpcLib]); [trace] is a sequence of calls on a gateway.
    - ApiMetrics.v (src/rpc/metrics, src/rpc/eth/metrics, the metrics.go of the
      small APIs): the interface eth.API as a record of methods, its instrumented
      version and the counters it updates; [call_step] interleaves concurrent calls
      at the single updates of the collectors.
    - EventLoop.v (src/filters/event_system.go, src/rpc/eth/filters/api.go): the
      event loop and the goroutines of the subscribers as processes that meet at
      unbuffered channels.
    - FilterApi.v (src/rpc/eth/filters, src/filters/subscribe.go): eth_subscribe,
      the goroutines it starts, and its instrumented version.
    - PushPull.v: the indexer and the event loop at the two ends of their channel;
      the logs pushed to a subscriber while blocks are indexed, and those
      eth_getLogs returns afterwards.
    - GasFeed.v: the gas price oracle on the blocks the indexer sends, and its
      loop (src/gas/backend.go, Start).
    - CacheLogs.v: the logs of the block cache and those of the database.
    - CacheMetrics.v (src/indexer/backend_cache.go): the hit and miss counters of
      the cache and the worker that reports them.
    - StorageMetrics.v (src/storage/psql/metrics.go): the instrumented storage.
    - SqlFile.v (src/db/migrator/migration.go: NewSQLMigrationFunc): migration
      files and their queries.
    - LogsMigration.v (src/db/migrations): the list of migrations, the logs
      migration [LogsUp] and [DropTables].
    - Services.v (src/main.go, Start of src/indexer/indexer.go): groups of
      goroutines with an error channel, and their shutdown.  [must] are the steps
      the code takes once they are enabled, [may] those that depend on the outside
      (a service that ends by itself, a signal, the timer of the second select).
    - Main.v (src/main.go, src/rpc/apis.go, src/version, [InitDB] and
      [RunMigrations] of src/storage/psql): the table of APIs and the commands as
      sequences of fallible steps on the state [Proc] of the process.

    ** What the theorems show

    - Indexing: [StoreBlockData] refines a reference update of the tables, is
      atomic whatever database calls fail, finds again what it stored; decoding
      equals decoding transaction by transaction; logs are numbered through the
      block; no slice index is out of range.  The indexing worker starts after the
      last indexed round, or at the configured or retained round when that is later,
      and skips none from there; the pruning worker never removes recent rounds, [Prune] removes
      exactly the rounds below its argument.  On a node that serves a chain the
      indexing worker catches up with it, becomes healthy and stops at a
      configured end; with all workers interleaved, the rounds that are to be
      kept are stored at every moment, and a gap before them has one of the two
      causes of [gap_cause].
    - Storage: the queries of psql.go satisfy [StorageLaws]: reads, writes of single
      rows, deletes and transactions.  The laws leave the order of the transactions
      of a block open, since the queries do, and do not cover slices of rows.
    - Cache: all its maps hold exactly the last blocks; transactions by hash, rounds
      of blocks by hash, the last indexed round and logs are answered as the database
      answers them; its counters lose no lookup.
    - Gas: the recommended price is the maximum over the window of full blocks;
      the fee history is the last blocks; percentiles are computed as specified.
      The oracle follows the blocks of the indexer without failing and has at
      most one query under way.
    - JSON-RPC: a transaction indexed from the node is shown with the fields it
      had, and the logs of an indexed block are returned as they were decoded;
      eth_getLogs returns exactly the selected logs; lookups never leak a
      database error; invalid requests are refused; historical state comes from
      the archive; revert data of the node arrives unchanged, that of the archive
      is lost.
    - Subscriptions receive exactly what they asked for of the events the loop gets,
      in the order of eth_getLogs, and all logs eth_getLogs returns afterwards when no
      event was dropped; the fixer leaves
      no wrong index and stops; migrations are applied in order and as a whole;
      the disk cache does not change the blocks, transactions and parameters of the
      node, so that the indexer catches up on the cached node as on the node itself
      as long as the store does not fail; the oasis_ API is
      healthy unless three probes in a row have failed.
    - Process: an accepted configuration is well formed; no service starts on a
      database with missing migrations, and with indexing disabled every connection
      is read-only and nothing the services do changes a table; a started process serves every API and a health endpoint that
      tells the health of the indexer and of the oasis_ API; the logs migration
      ends and renumbers the logs; migration files are executed as written.
    - Servers: timeouts are at least one second; a started gateway is frozen.
    - Monitoring changes no answer, of the API or of the storage, and its
      counters add up under every interleaving of calls: failures are the calls that
      returned an error the wrapper sees.
    - Liveness: the event loop and its subscribers never wait for each other for
      ever; a group of services that return once their context is cancelled shuts
      down if its error channel has room, or is cut short by the timer.
    - Deviations from what the code intends are theorems too: a block reported
      as indexed that was not stored ([StoreBlockData_lost_block]), a retained
      round that is not rolled back ([Prune_retained_not_rolled_back]), a stale
      retained round in the cache ([retained_round_stale]), answers for a block
      that change when it leaves the cache ([cached_count_differs],
      [failed_logs_differ]), slices of rows that are not stored
      ([slices_not_stored]), a mismatch in round 0
      that is not fixed ([fixer_skips_round_0]), CORS origins that are never
      applied ([cors_never_applied]), a threshold NaN that is accepted
      ([nan_threshold_accepted]), runtime information that is never asked for again
      ([runtime_info_stays]), revert data lost by the archive client
      ([revert_data_roundtrip]), chain events dropped when the channel is full
      ([StoreBlockData_refines]), a Close that closes nothing and panics the
      second time ([Close_behaviour]), a Start that panics when the port is taken
      ([Start_http_bind_failure_panics]), a New that panics without a section
      ([New_spec]), a subscription that ends the process
      ([wrapper_Logs_invalid_range_panics]) or stays counted
      ([unsupported_subscription_stays_counted]), failures counted as successes
      ([oasis_failure_counted_as_success]), heights never measured
      ([earliest_never_measured]), a shutdown that can hang
      ([main_shutdown_can_hang]), a Start that does not wait for its workers
      ([indexer_Start_returns]), commands that fail with exit status 0
      ([command_exit_status]), a missing timeout ([InitDB_long_timeouts]) and
      tables that stay without an error ([DropTables_ignores_failures]).

    ** Bounds and fuel

    Loops over slices are structural.  [logs_loop] (Cache.v) gets as fuel the
    size of its range and two more, since its range is checked to be smaller
    than the cache first; [retained_loop] gets one step, since without
    concurrent writers the first compare-and-swap succeeds.  [index_rounds],
    [indexing_iteration] and [fixer_Start] take a budget: the number of steps
    after which the context of the service ends; the theorems hold for every
    budget, and say what stopped the loop or which budget is enough.
    [worker_loop] (IndexerLoop.v) is structural on the ticks that wake a worker.
    [migrate_loop] gets one step more than there are migrations, since every
    step but the last records one.  [batch_fuel] (LogsMigration.v) is one more
    than the number of batches between the two rounds.  Shutdown and the event
    loop are step relations; a weight that every step lowers bounds all runs.
    Widths are kept: [uint64] arithmetic wraps
    ([u64]), [int64] conversions are two's complement.

    ** What is not modelled

    Log messages and the texts made only for them; the durations (not the
    numbers) that metrics observe; the lengths of timers; the text of the
    SQL files; the routing of a request to one of the modelled routes, which is the router's; constructors that only
    copy their arguments.  A client that unsubscribes is taken to leave after the
    messages sent to it so far: those drained while it leaves are in EventLoop.v only.
    The database of the migrations (Migrator.v, LogsMigration.v) is a concrete model
    with a script of faults, over which the theorems quantify.  Apart from Services.v,
    EventLoop.v, IndexerWorkers.v, PushPull.v, the calls of ApiMetrics.v and the loop
    of GasFeed.v, concurrency is modelled as sequences of calls: the
    locks and atomics of the sources make each modelled operation one step.
    Timeouts are failing calls. *)

From stdpp Require Export base tactics numbers list gmap strings sorting.
From Stdlib Require Export ZArith Lia ZifyBool.

#[global] Open Scope Z_scope.

(** ** Errors

    Go error values.  The package-level sentinels the program compares with
    [errors.Is] are constructors of their own; [ErrDB] stands for any error of
    a remote party (the database driver, the node connection, a context
    timeout) that is none of the sentinels; [ErrNew] is [errors.New] or an
    [fmt.Errorf] without [%w], [ErrWrap] an [fmt.Errorf] with [%w],
    [ErrRevert] the [revertError] of eth_call with its data (it does not unwrap).  [ErrPanic]
    is not an error value: it marks a run-time panic (an index out of range, a
    nil dereference) of the modelled code. *)
Inductive error :=
  | ErrNoRows
  | ErrNoRoundsIndexed
  | ErrGetLastRetainedRound
  | ErrNotHealthy
  | ErrInternalError
  | ErrIndexOutOfRange
  | ErrMalformedTransaction
  | ErrMalformedBlockNumber
  | ErrInvalidRequest
  | ErrInvalidPercentile
  | ErrPanic
  | ErrDB (code : Z)
  | ErrNew (msg : string)
  | ErrWrap (msg : string) (inner : error)
  | ErrRevert (inner : error) (reason : string).

#[export] Instance error_eq_dec : EqDecision error.
Proof. solve_decision. Defined.

(** [errors.Is(err, target)]: the target is looked for along the wrap chain. *)
Fixpoint errors_Is (e target : error) : bool :=
  bool_decide (e = target) ||
  match e with
  | ErrWrap _ e' => errors_Is e' target
  | _ => false
  end.

(** ** Results and the state monad of fallible calls

    A Go call returning [(A, error)] is a [result A]; a call on a mutable
    receiver or connection of type [S] is a function [S -> result A * S]. *)
Inductive result (A : Type) :=
  | Ok (a : A)
  | Err (e : error).
Arguments Ok {A} _.
Arguments Err {A} _.

#[export] Instance result_eq_dec {A} `{EqDecision A} : EqDecision (result A).
Proof. solve_decision. Defined.

#[export] Instance result_ret : MRet result := fun A a => Ok a.
#[export] Instance result_bind : MBind result := fun A B f m =>
  match m with Ok a => f a | Err e => Err e end.

Definition is_Ok {A} (r : result A) : bool :=
  match r with Ok _ => true | Err _ => false end.

Definition M (S A : Type) : Type := S -> result A * S.

#[export] Instance M_ret {S} : MRet (M S) := fun A a s => (Ok a, s).
#[export] Instance M_bind {S} : MBind (M S) := fun A B f m s =>
  match m s with
  | (Ok a, s') => f a s'
  | (Err e, s') => (Err e, s')
  end.

Definition fail {S A} (e : error) : M S A := fun s => (Err e, s).

(** [x, err := m(); k(x, err)]: the caller looks at the error itself. *)
Definition attempt {S A B} (m : M S A) (k : result A -> M S B) : M S B :=
  fun s => let '(r, s') := m s in k r s'.

(** [for _, x := range l { acc, err = f(acc, x); if err != nil { return err } }] *)
Fixpoint mfold {S A B} (f : B -> A -> M S B) (acc : B) (l : list A) : M S B :=
  match l with
  | [] => mret acc
  | x :: l' => acc' ← f acc x; mfold f acc' l'
  end.

(** A loop whose body may return from the enclosing function without an error:
    the flag tells whether the function goes on. *)
Fixpoint mloop {S A B} (f : B -> A -> M S (bool * B)) (acc : B) (l : list A) : M S (bool * B) :=
  match l with
  | [] => mret (true, acc)
  | x :: l' => '(go, acc') ← f acc x; if (go : bool) then mloop f acc' l' else mret (false, acc')
  end.

(** The same loop over a [result] with no state. *)
Fixpoint rfold {A B} (f : B -> A -> result B) (acc : B) (l : list A) : result B :=
  match l with
  | [] => Ok acc
  | x :: l' => acc' ← f acc x; rfold f acc' l'
  end.

Fixpoint rmapM {A B} (f : A -> result B) (l : list A) : result (list B) :=
  match l with
  | [] => Ok []
  | x :: l' => y ← f x; ys ← rmapM f l'; Ok (y :: ys)
  end.

(** ** Machine integers: [uint64] and [int] (64 bits) as [Z] with wrap-around *)
Definition two64 : Z := 18446744073709551616.
Definition MaxUint64 : Z := 18446744073709551615.
Definition u64 (z : Z) : Z := z mod two64.
Definition is_u64 (z : Z) : Prop := 0 <= z < two64.

(** [uint32] *)
Definition u32 (z : Z) : Z := z mod 4294967296.

(** [int64(x)] for a [uint64] [x]: two's complement reinterpretation. *)
Definition int64 (z : Z) : Z := if z <? 9223372036854775808 then z else z - two64.

Declare Scope u64_scope.
Delimit Scope u64_scope with u64.
Notation "a + b" := (u64 (a + b)%Z) : u64_scope.
Notation "a - b" := (u64 (a - b)%Z) : u64_scope.

#[export] Instance is_u64_dec z : Decision (is_u64 z).
Proof. unfold is_u64. apply _. Defined.

Lemma u64_small z : is_u64 z -> u64 z = z.
Proof. unfold is_u64, u64. intros. apply Z.mod_small. lia. Qed.

Lemma u64_range z : is_u64 (u64 z).
Proof. unfold is_u64, u64. apply Z.mod_pos_bound. reflexivity. Qed.

Lemma u64_add_u64_l a b : u64 (u64 a + b) = u64 (a + b).
Proof. unfold u64. apply Z.add_mod_idemp_l. discriminate. Qed.

Create HintDb gateway.
Create Rewrite HintDb gateway.
Create Rewrite HintDb u64.
#[export] Hint Resolve u64_range : gateway.
#[export] Hint Rewrite u64_small using (unfold is_u64, two64 in *; lia) : u64.

(** Unfolds the width constants for [lia]. *)
Ltac u64_lia := unfold is_u64, u64, two64, MaxUint64, int64 in *; lia.

(** Case analysis on the innermost [match] scrutinee of the goal. *)
Ltac break_match :=
  match goal with
  | |- context [match ?x with _ => _ end] =>
      lazymatch x with
      | context [match _ with _ => _ end] => fail
      | _ => let E := fresh "E" in destruct x eqn:E
      end
  end.
Ltac break_match_in H :=
  match type of H with
  | context [match ?x with _ => _ end] =>
      lazymatch x with
      | context [match _ with _ => _ end] => fail
      | _ => let E := fresh "E" in destruct x eqn:E
      end
  end.

(** ** Generic lemmas *)
Lemma M_bind_ok {S A B} (m : M S A) (f : A -> M S B) s a s' :
  m s = (Ok a, s') -> (m ≫= f) s = f a s'.
Proof. unfold mbind, M_bind. by intros ->. Qed.

Lemma M_bind_err {S A B} (m : M S A) (f : A -> M S B) s e s' :
  m s = (Err e, s') -> (m ≫= f) s = (Err e, s').
Proof. unfold mbind, M_bind. by intros ->. Qed.

(** A call keeps a predicate on the state, whatever its result. *)
Definition keeps {S A} (I : S -> Prop) (m : M S A) : Prop := forall s, I s -> I (m s).2.

Lemma keeps_ret {S A} (I : S -> Prop) (a : A) : keeps I (mret a).
Proof. by intros s. Qed.

Lemma keeps_fail {S A} (I : S -> Prop) e : keeps I (fail (A:=A) e).
Proof. by intros s. Qed.

Lemma keeps_bind {S A B} (I : S -> Prop) (m : M S A) (f : A -> M S B) :
  keeps I m -> (forall a, keeps I (f a)) -> keeps I (m ≫= f).
Proof.
  intros Hm Hf s Hs. unfold mbind, M_bind. specialize (Hm s Hs).
  destruct (m s) as [[a|e] s']; [by apply Hf|done].
Qed.

Lemma keeps_attempt {S A B} (I : S -> Prop) (m : M S A) (k : result A -> M S B) :
  keeps I m -> (forall r, keeps I (k r)) -> keeps I (attempt m k).
Proof.
  intros Hm Hk s Hs. unfold attempt. specialize (Hm s Hs). destruct (m s) as [r s']. by apply Hk.
Qed.

#[export] Hint Resolve keeps_ret keeps_fail keeps_bind keeps_attempt : gateway.

Lemma rfold_app {A B} (f : B -> A -> result B) l1 l2 acc :
  rfold f acc (l1 ++ l2) = (rfold f acc l1 ≫= fun acc' => rfold f acc' l2).
Proof.
  revert acc. induction l1 as [|x l1 IH]; intros acc; [done|]. simpl.
  destruct (f acc x); simpl; [apply IH|done].
Qed.

(** The last [n] elements of a list. *)
Definition lastn {A} (n : nat) (l : list A) : list A := drop (length l - n)%nat l.

Lemma lastn_length {A} n (l : list A) :
  length (lastn n l) = Nat.min n (length l).
Proof. unfold lastn. rewrite length_drop. lia. Qed.

Lemma lastn_all {A} n (l : list A) : (length l <= n)%nat -> lastn n l = l.
Proof. intros. unfold lastn. replace (length l - n)%nat with 0%nat by lia. done. Qed.

(** Appending an element shifts a full window by one. *)
Lemma lastn_snoc_full {A} n (l : list A) x :
  (0 < n)%nat -> (n <= length l)%nat ->
  lastn n (l ++ [x]) = drop 1 (lastn n l) ++ [x].
Proof.
  intros. unfold lastn. rewrite length_app, drop_drop. simpl.
  rewrite drop_app_le by lia. f_equal. f_equal. lia.
Qed.

Lemma lastn_snoc_part {A} n (l : list A) x :
  (length l < n)%nat -> lastn n (l ++ [x]) = lastn n l ++ [x].
Proof. intros. rewrite !lastn_all; rewrite ?length_app; simpl; auto; lia. Qed.

Lemma filter_fmap {A B} (f : A -> B) (P : B -> Prop) `{!forall x, Decision (P x)} (l : list A) :
  filter P (f <$> l) = f <$> filter (fun x => P (f x)) l.
Proof.
  induction l as [|x l IH]; [done|]. rewrite fmap_cons, !filter_cons.
  destruct (decide (P (f x))); by rewrite IH.
Qed.

Lemma StronglySorted_filter {A} (R : A -> A -> Prop) (P : A -> Prop) `{!forall x, Decision (P x)} (l : list A) :
  StronglySorted R l -> StronglySorted R (filter P l).
Proof.
  induction 1 as [|x l Hs IH Hf]; [constructor|]. rewrite filter_cons.
  destruct (decide (P x)); [|done]. constructor; [done|].
  apply Forall_forall. intros y [_ Hy]%list_elem_of_filter. rewrite Forall_forall in Hf. auto.
Qed.

(** Replacing one element of a sum. *)
Lemma sum_list_insert {A} (f : A -> nat) i (x y : A) l : l !! i = Some y ->
  (sum_list_with f (<[i := x]> l) + f y = sum_list_with f l + f x)%nat.
Proof.
  revert i. induction l as [|z l IH]; intros [|i]; cbn [lookup list_lookup]; try done.
  - intros [= ->]. cbn [insert list_insert sum_list_with]. lia.
  - intros Hi. specialize (IH _ Hi). change (<[S i := x]> (z :: l)) with (z :: <[i := x]> l). cbn [sum_list_with]. lia.
Qed.

(** Whatever step is taken next, a state with [P] is reached, and until then there is
    a step. *)
Inductive inevitable {S} (step : S -> S -> Prop) (P : S -> Prop) (s : S) : Prop :=
  | inevitable_now : P s -> inevitable step P s
  | inevitable_step : (exists s', step s s') -> (forall s', step s s' -> inevitable step P s') -> inevitable step P s.

Lemma inevitable_measure {S} (step : S -> S -> Prop) (P I : S -> Prop) (w : S -> nat) :
  (forall s s', I s -> step s s' -> I s' /\ (w s' < w s)%nat) ->
  (forall s, I s -> P s \/ exists s', step s s') ->
  forall s, I s -> inevitable step P s.
Proof.
  intros Hstep Hprog s. remember (w s) as n eqn:En. revert s En.
  induction (lt_wf n) as [n _ IH]; intros s -> Hi.
  destruct (Hprog s Hi) as [Hp|He]; [by apply inevitable_now|].
  apply inevitable_step; [done|]. intros s' Hs. destruct (Hstep _ _ Hi Hs) as [Hi' Hw]. by eapply IH.
Qed.

Lemma filter_none {A} (P : A -> Prop) `{!forall x, Decision (P x)} (l : list A) :
  Forall (fun x => ~ P x) l -> filter P l = [].
Proof. induction 1 as [|x l Hx Hl IH]; [done|]. by rewrite filter_cons_False. Qed.

Lemma filter_all {A} (P : A -> Prop) `{!forall x, Decision (P x)} (l : list A) :
  Forall P l -> filter P l = l.
Proof. induction 1 as [|x l Hx Hl IH]; [done|]. rewrite filter_cons_True by done. by rewrite IH. Qed.

(** The same where only the steps of [must] are sure to be taken in the end, while
    those of [may] can happen or not: until a state with [P] is reached there is a
    step of [must], and no step of either kind leads astray. *)
Inductive compelled {S} (must may : S -> S -> Prop) (P : S -> Prop) (s : S) : Prop :=
  | compelled_now : P s -> compelled must may P s
  | compelled_step : (exists s', must s s') -> (forall s', must s s' \/ may s s' -> compelled must may P s') ->
      compelled must may P s.

Lemma compelled_measure {S} (must may : S -> S -> Prop) (P I : S -> Prop) (w : S -> nat) :
  (forall s, I s -> P s \/ ((exists s', must s s') /\
     forall s', must s s' \/ may s s' -> I s' /\ (w s' < w s)%nat)) ->
  forall s, I s -> compelled must may P s.
Proof.
  intros Hstep s. remember (w s) as n eqn:En. revert s En.
  induction (lt_wf n) as [n _ IH]; intros s -> Hi.
  destruct (Hstep s Hi) as [Hp|[He Hs]]; [by apply compelled_now|].
  apply compelled_step; [done|]. intros s' Hs'. destruct (Hs _ Hs') as [Hi' Hw]. by eapply IH.
Qed.
