(* ===== verification/GoLib.v ===== *)
(** * The parts of the Go standard library the gateway computes with

    [math/big] printing and parsing of integers, [encoding/hex], [float64]
    arithmetic and the stable sort of [slices], each as an executable function
    that follows the library's documented algorithm, with the round trips and
    sortedness facts the components rely on. *)
From Stdlib Require Import Ascii DecimalString DecimalZ DecimalFacts.
From Stdlib Require Import SpecFloat.
From Stdlib Require Export Strings.Byte.
From S2P Require Import Prelude.

(** ** [math/big]: [Int.String], [Int.SetString(s, 10)], [Int.UnmarshalText] *)

(** [x.String()]: decimal digits with a leading minus for negative numbers. *)
Definition big_String (z : Z) : string := NilZero.string_of_int (Z.to_int z).

(** The value of a digit character, [None] for a character that is no digit. *)
Definition digit_val (c : Ascii.ascii) : option Z :=
  let n := Z.of_nat (Ascii.nat_of_ascii c) in
  if (48 <=? n) && (n <=? 57) then Some (n - 48)
  else if (97 <=? n) && (n <=? 122) then Some (n - 97 + 10)
  else if (65 <=? n) && (n <=? 90) then Some (n - 65 + 10)
  else None.

(** The digit loop of [nat.scan]: [us] says that underscores separate digits
    (base 0 only), [digit] that the previous character was a digit or prefix.
    [None] on a bad separator or an unread character; the result is the value
    and the number of digits read. *)
Fixpoint scan_digits (base : Z) (us digit : bool) (acc : Z) (count : nat) (s : string)
    : option (Z * nat) :=
  match s with
  | EmptyString => if digit || bool_decide (count = 0%nat) then Some (acc, count) else None
  | String c s' =>
      if us && bool_decide (c = "_"%char) then
        if digit then
          match s' with
          | EmptyString => None
          | _ => scan_digits base us false acc count s'
          end
        else None
      else
        match digit_val c with
        | Some d =>
            if d <? base then scan_digits base us true (acc * base + d) (S count) s'
            else None
        | None => None
        end
  end.

(** At least one digit has to be read. *)
Definition need_digit (r : option (Z * nat)) : option Z :=
  match r with
  | Some (v, S _) => Some v
  | _ => None
  end.

(** [nat.scan] of the whole text: base 10, or base 0 with its prefixes. *)
Definition scan_nat (base : Z) (s : string) : option Z :=
  if base =? 0 then
    match s with
    | String "0" EmptyString => Some 0
    | String "0" (String c s') =>
        if bool_decide (c = "b"%char) || bool_decide (c = "B"%char)
        then need_digit (scan_digits 2 true true 0 0 s')
        else if bool_decide (c = "o"%char) || bool_decide (c = "O"%char)
        then need_digit (scan_digits 8 true true 0 0 s')
        else if bool_decide (c = "x"%char) || bool_decide (c = "X"%char)
        then need_digit (scan_digits 16 true true 0 0 s')
        else need_digit (scan_digits 8 true true 0 0 (String c s'))
    | _ => need_digit (scan_digits 10 true false 0 0 s)
    end
  else need_digit (scan_digits base false false 0 0 s).

Definition big_scan (base : Z) (s : string) : option Z :=
  match s with
  | String "-" s' => Z.opp <$> scan_nat base s'
  | String "+" s' => scan_nat base s'
  | _ => scan_nat base s
  end.

(** [new(big.Int).SetString(s, 10)] *)
Definition big_SetString (s : string) : option Z := big_scan 10 s.

(** [x.UnmarshalText(s)]: base 0, so prefixes and underscores are accepted. *)
Definition big_UnmarshalText (s : string) : option Z := big_scan 0 s.

(** The value of a sequence of decimal digits, most significant first. *)
Fixpoint uint_val (acc : Z) (u : Decimal.uint) : Z :=
  match u with
  | Decimal.Nil => acc
  | Decimal.D0 u => uint_val (acc * 10) u
  | Decimal.D1 u => uint_val (acc * 10 + 1) u
  | Decimal.D2 u => uint_val (acc * 10 + 2) u
  | Decimal.D3 u => uint_val (acc * 10 + 3) u
  | Decimal.D4 u => uint_val (acc * 10 + 4) u
  | Decimal.D5 u => uint_val (acc * 10 + 5) u
  | Decimal.D6 u => uint_val (acc * 10 + 6) u
  | Decimal.D7 u => uint_val (acc * 10 + 7) u
  | Decimal.D8 u => uint_val (acc * 10 + 8) u
  | Decimal.D9 u => uint_val (acc * 10 + 9) u
  end.

Lemma uint_val_acc u p : Z.pos (Pos.of_uint_acc u p) = uint_val (Z.pos p) u.
Proof.
  revert p. induction u as [|u IH|u IH|u IH|u IH|u IH|u IH|u IH|u IH|u IH|u IH];
    intros p; cbn [Pos.of_uint_acc uint_val]; try done;
    rewrite IH; f_equal; lia.
Qed.

Lemma uint_val_of_uint u : uint_val 0 u = Z.of_uint u.
Proof.
  unfold Z.of_uint.
  induction u; cbn [uint_val Pos.of_uint]; try done;
    try (cbn [Z.of_N]; rewrite uint_val_acc; f_equal; lia).
Qed.

(** Scanning the printed digits of a number yields its value. *)
Lemma scan_digits_uint us u acc count digit :
  digit = true \/ count = 0%nat ->
  exists n, scan_digits 10 us digit acc count (NilEmpty.string_of_uint u) =
            Some (uint_val acc u, n) /\ (u <> Decimal.Nil \/ count <> 0%nat -> n <> 0%nat).
Proof.
  revert acc count digit.
  induction u as [|u IH|u IH|u IH|u IH|u IH|u IH|u IH|u IH|u IH|u IH];
    intros acc count digit Hd; cbn [NilEmpty.string_of_uint scan_digits uint_val].
  { exists count. split; [|by intros [?|?]].
    destruct Hd as [Hd|Hd]; rewrite Hd; [done|]. by rewrite orb_true_r. }
  all: rewrite (bool_decide_eq_false_2 _) by discriminate; rewrite andb_false_r;
    match goal with
    | |- context [digit_val ?c] =>
        let v := eval vm_compute in (digit_val c) in change (digit_val c) with v
    end; cbn [Z.ltb Z.compare Pos.compare Pos.compare_cont];
    match goal with
    | |- context [scan_digits 10 _ true ?a _ _] =>
        destruct (IH a (S count) true) as (n & Hn & Hnz); [by left|]
    end;
    exists n; rewrite Hn, ?Z.add_0_r; split; [done|]; intros _; apply Hnz; by right.
Qed.

Lemma NilZero_uint u : u <> Decimal.Nil ->
  NilZero.string_of_uint u = NilEmpty.string_of_uint u.
Proof. by destruct u. Qed.

(** The digits printed for a number start with no superfluous zero. *)
Definition no_leading_zero (u : Decimal.uint) : Prop :=
  match u with
  | Decimal.Nil => False
  | Decimal.D0 u' => u' = Decimal.Nil
  | _ => True
  end.

Lemma nzhead_not_D0 u v : Decimal.nzhead u <> Decimal.D0 v.
Proof. induction u; cbn; congruence. Qed.

Lemma unorm_no_leading_zero u : Decimal.unorm u = u -> no_leading_zero u.
Proof.
  destruct u as [|u| | | | | | | | |]; try done.
  unfold Decimal.unorm. cbn [Decimal.nzhead].
  destruct (Decimal.nzhead u) eqn:E; cbn; try congruence.
  by apply nzhead_not_D0 in E.
Qed.

Lemma to_int_digits z :
  exists u, no_leading_zero u /\
    Z.to_int z = (if z <? 0 then Decimal.Neg u else Decimal.Pos u) /\
    Z.of_uint u = Z.abs z.
Proof.
  pose proof (DecimalZ.to_of (Z.to_int z)) as Hn. rewrite DecimalZ.of_to in Hn.
  pose proof (DecimalZ.of_to z) as Hv.
  destruct z as [|p|p]; cbn [Z.to_int Z.of_int Z.ltb Z.compare] in *.
  - exists (Decimal.D0 Decimal.Nil). done.
  - exists (Pos.to_uint p). split; [|split; [done|exact Hv]].
    apply unorm_no_leading_zero. cbn in Hn. congruence.
  - exists (Pos.to_uint p). split; [|split; [done|lia]].
    cbn [Decimal.norm] in Hn.
    destruct (Decimal.nzhead (Pos.to_uint p)) eqn:E; [congruence|..];
      apply unorm_no_leading_zero; unfold Decimal.unorm; rewrite E; congruence.
Qed.

Lemma need_digit_scan us u : u <> Decimal.Nil ->
  need_digit (scan_digits 10 us false 0 0 (NilEmpty.string_of_uint u)) = Some (Z.of_uint u).
Proof.
  intros Hu.
  destruct (scan_digits_uint us u 0 0 false) as (n & -> & Hn); [by right|].
  rewrite uint_val_of_uint. destruct n; [|done].
  exfalso. by apply Hn; [left|].
Qed.

Lemma scan_nat_digits base u : base = 10 \/ base = 0 ->
  no_leading_zero u -> scan_nat base (NilZero.string_of_uint u) = Some (Z.of_uint u).
Proof.
  intros Hb Hu. assert (u <> Decimal.Nil) as Hnil by (intros ->; done).
  rewrite NilZero_uint by done. unfold scan_nat. destruct Hb as [-> | ->]; cbn [Z.eqb].
  - by apply need_digit_scan.
  - destruct u; try done; [simpl in Hu; by subst|..]; by rewrite <- (need_digit_scan true) by done.
Qed.

Lemma digits_no_sign u s : u <> Decimal.Nil -> NilZero.string_of_uint u = s ->
  forall base, big_scan base s = scan_nat base s.
Proof. intros Hu <- base. by destruct u. Qed.

Lemma big_scan_String base z : base = 10 \/ base = 0 -> big_scan base (big_String z) = Some z.
Proof.
  intros Hb. unfold big_String.
  destruct (to_int_digits z) as (u & Hu & -> & Hv).
  assert (u <> Decimal.Nil) as Hnil by (intros ->; done).
  destruct (Z.ltb_spec z 0); cbn [NilZero.string_of_int].
  - cbn [big_scan]. rewrite scan_nat_digits by done. simpl. f_equal. lia.
  - erewrite digits_no_sign by done. rewrite scan_nat_digits by done. f_equal. lia.
Qed.

Lemma SetString_String z : big_SetString (big_String z) = Some z.
Proof. apply big_scan_String. by left. Qed.

Lemma UnmarshalText_String z : big_UnmarshalText (big_String z) = Some z.
Proof. apply big_scan_String. by right. Qed.

#[export] Hint Rewrite SetString_String UnmarshalText_String : gateway.

(** ** [encoding/hex] *)
Definition hex_digit (n : N) : ascii :=
  match String.get (N.to_nat n) "0123456789abcdef" with
  | Some c => c
  | None => "0"%char
  end.

(** [hex.EncodeToString] *)
Fixpoint hex_EncodeToString (bs : list byte) : string :=
  match bs with
  | [] => EmptyString
  | b :: bs' =>
      String (hex_digit (N.div (Byte.to_N b) 16))
        (String (hex_digit (N.modulo (Byte.to_N b) 16)) (hex_EncodeToString bs'))
  end.

Definition hex_val (c : ascii) : option Z :=
  match digit_val c with
  | Some d => if d <? 16 then Some d else None
  | None => None
  end.

(** [hex.DecodeString]: the bytes decoded before the first malformed pair, and
    whether the whole text was decoded. *)
Fixpoint hex_DecodeString (s : string) : list byte * bool :=
  match s with
  | EmptyString => ([], true)
  | String _ EmptyString => ([], false)
  | String a (String b s') =>
      match hex_val a, hex_val b with
      | Some x, Some y =>
          match Byte.of_N (Z.to_N (16 * x + y)) with
          | Some c => let '(bs, ok) := hex_DecodeString s' in (c :: bs, ok)
          | None => ([], false)
          end
      | _, _ => ([], false)
      end
  end.

Lemma hex_decode_encode bs : hex_DecodeString (hex_EncodeToString bs) = (bs, true).
Proof.
  induction bs as [|b bs IH]; [done|].
  cbn [hex_EncodeToString hex_DecodeString]. rewrite IH. by destruct b.
Qed.
#[export] Hint Rewrite hex_decode_encode : gateway.

Lemma hex_encode_length bs : String.length (hex_EncodeToString bs) = (2 * length bs)%nat.
Proof. induction bs as [|b bs IH]; [done|]. cbn. rewrite IH. lia. Qed.

(** ** [strings] *)
Definition strings_HasPrefix (s prefix : string) : bool := String.prefix prefix s.

(** [s[n:]] for [n] not above the length. *)
Definition drop_string (n : nat) (s : string) : string := String.substring n (String.length s - n) s.

Definition strings_TrimPrefix (s prefix : string) : string :=
  if strings_HasPrefix s prefix then drop_string (String.length prefix) s else s.

Lemma substring_all s : String.substring 0 (String.length s) s = s.
Proof. induction s as [|c s IH]; [done|]. cbn. by rewrite IH. Qed.

Lemma drop_string_S n c s : drop_string (S n) (String c s) = drop_string n s.
Proof. done. Qed.

Lemma drop_string_0 s : drop_string 0 s = s.
Proof. unfold drop_string. rewrite Nat.sub_0_r. apply substring_all. Qed.

(** ** Big-endian bytes *)
Definition be_value (bs : list byte) : Z := foldl (fun v b => 256 * v + Z.of_N (Byte.to_N b)) 0 bs.

Fixpoint be_bytes (fuel : nat) (n : N) (acc : list byte) : list byte :=
  match fuel with
  | 0%nat => acc
  | S fuel' =>
      if N.eqb n 0 then acc
      else be_bytes fuel' (N.div n 256) (default Byte.x00 (Byte.of_N (N.modulo n 256)) :: acc)
  end.

(** [big.Int.Bytes]: the absolute value without leading zeros; a number has no
    more base-256 digits than binary ones. *)
Definition big_Bytes (z : Z) : list byte := be_bytes (N.size_nat (Z.abs_N z)) (Z.abs_N z) [].

(** [big.Int.Int64]: the low 64 bits. *)
Definition big_Int64 (z : Z) : Z := int64 (u64 z).

Lemma be_value_snoc bs b : be_value (bs ++ [b]) = 256 * be_value bs + Z.of_N (Byte.to_N b).
Proof. unfold be_value. by rewrite foldl_app. Qed.

Lemma be_value_app bs1 bs2 :
  be_value (bs1 ++ bs2) = be_value bs1 * 256 ^ Z.of_nat (length bs2) + be_value bs2.
Proof.
  induction bs2 as [|b bs2 IH] using rev_ind; [cbn; rewrite app_nil_r; lia|].
  rewrite app_assoc, !be_value_snoc, IH, length_app. cbn [length].
  rewrite Nat2Z.inj_add, Z.pow_add_r by lia. change (256 ^ Z.of_nat 1) with 256. lia.
Qed.

Lemma be_value_zeros n : be_value (replicate n Byte.x00) = 0.
Proof. unfold be_value. induction n; cbn; auto. Qed.

Lemma size_nat_div256 n : (N.size_nat (n / 256) <= N.size_nat n - 1)%nat.
Proof.
  destruct n as [|p]; [done|].
  assert (Hs : forall m : N, N.size m = N.of_nat (N.size_nat m)).
  { intros [|q]; [done|]. cbn. induction q; cbn; try rewrite IHq; lia. }
  assert (Hp : (0 < N.size_nat (N.pos p))%nat) by (destruct p; cbn; lia).
  destruct (N.eq_dec (N.pos p / 256) 0) as [->|Hne]; [cbn; lia|].
  pose proof (Hs (N.pos p / 256)%N) as H1. pose proof (Hs (N.pos p)) as H2.
  rewrite (N.size_log2 _ Hne) in H1. rewrite N.size_log2 in H2 by done.
  assert (Hl : (N.log2 (N.pos p / 256) < N.log2 (N.pos p))%N).
  { apply N.log2_lt_pow2; [by apply N.neq_0_lt_0|]. destruct (N.log2_spec (N.pos p)) as [_ Hu]; [lia|].
    apply N.Div0.div_lt_upper_bound. rewrite N.pow_succ_r' in Hu.
    pose proof (N.pow_nonzero 2 (N.log2 (N.pos p))). lia. }
  lia.
Qed.

Lemma be_bytes_value fuel : forall n acc, (N.size_nat n <= fuel)%nat ->
  be_value (be_bytes fuel n acc) = Z.of_N n * 256 ^ Z.of_nat (length acc) + be_value acc.
Proof.
  induction fuel as [|fuel IH]; intros n acc Hf; cbn [be_bytes].
  - destruct n as [|p]; [cbn; lia|]. destruct p; cbn in Hf; lia.
  - destruct (N.eqb_spec n 0) as [->|Hne]; [cbn; lia|].
    rewrite IH by (pose proof (size_nat_div256 n); lia).
    destruct (Byte.of_N (n mod 256)) as [b|] eqn:Eb.
    2: { apply Byte.of_N_None_iff in Eb. pose proof (N.mod_lt n 256). lia. }
    apply Byte.to_of_N in Eb. cbn [from_option id length].
    rewrite (be_value_app [b] acc : be_value (b :: acc) = _).
    change (be_value [b]) with (Z.of_N (Byte.to_N b)). rewrite Eb.
    rewrite Nat2Z.inj_succ, Z.pow_succ_r by lia.
    pose proof (N.div_mod' n 256). nia.
Qed.

Lemma big_Bytes_value z : be_value (big_Bytes z) = Z.abs z.
Proof. unfold big_Bytes. rewrite be_bytes_value by done. cbn. rewrite N2Z.inj_abs_N. lia. Qed.

(** ** [encoding/base64], [StdEncoding] *)
Definition byte_of (n : N) : byte := default Byte.x00 (Byte.of_N n).

Definition b64_char (n : N) : ascii :=
  match String.get (N.to_nat n) "ABCDEFGHIJKLMNOPQRSTUVWXYZabcdefghijklmnopqrstuvwxyz0123456789+/" with
  | Some c => c
  | None => "="%char
  end.

Definition b64_val (c : ascii) : option N :=
  let n := N_of_ascii c in
  if ((65 <=? n) && (n <=? 90))%N then Some (n - 65)%N
  else if ((97 <=? n) && (n <=? 122))%N then Some (n - 71)%N
  else if ((48 <=? n) && (n <=? 57))%N then Some (n + 4)%N
  else if (n =? 43)%N then Some 62%N
  else if (n =? 47)%N then Some 63%N
  else None.

(** [EncodeToString] *)
Fixpoint b64_EncodeToString (bs : list byte) : string :=
  match bs with
  | [] => EmptyString
  | [a] =>
      let a := Byte.to_N a in
      String (b64_char (a / 4)) (String (b64_char (a mod 4 * 16)) "==")
  | [a; b] =>
      let a := Byte.to_N a in let b := Byte.to_N b in
      String (b64_char (a / 4)) (String (b64_char (a mod 4 * 16 + b / 16))
        (String (b64_char (b mod 16 * 4)) "="))
  | a :: b :: c :: bs' =>
      let a := Byte.to_N a in let b := Byte.to_N b in let c := Byte.to_N c in
      String (b64_char (a / 4)) (String (b64_char (a mod 4 * 16 + b / 16))
        (String (b64_char (b mod 16 * 4 + c / 64)) (String (b64_char (c mod 64)) (b64_EncodeToString bs'))))
  end.

(** The quanta of four characters; padding only at the end. *)
Fixpoint b64_quanta (s : string) : option (list byte) :=
  match s with
  | EmptyString => Some []
  | String a (String b (String c (String d s'))) =>
      x ← b64_val a;
      y ← b64_val b;
      let b1 := byte_of (x * 4 + y / 16) in
      if bool_decide (c = "="%char) then
        if bool_decide (d = "="%char /\ s' = EmptyString) then Some [b1] else None
      else
        z ← b64_val c;
        let b2 := byte_of (y mod 16 * 16 + z / 4) in
        if bool_decide (d = "="%char) then
          if bool_decide (s' = EmptyString) then Some [b1; b2] else None
        else
          w ← b64_val d;
          rest ← b64_quanta s';
          Some (b1 :: b2 :: byte_of (z mod 4 * 64 + w) :: rest)
  | _ => None
  end.

Definition is_newline (c : ascii) : bool := let n := N_of_ascii c in ((n =? 10) || (n =? 13))%N.

Fixpoint drop_newlines (s : string) : string :=
  match s with
  | EmptyString => EmptyString
  | String c s' => if is_newline c then drop_newlines s' else String c (drop_newlines s')
  end.

(** [DecodeString]: line breaks are ignored; [None] is an error. *)
Definition b64_DecodeString (s : string) : option (list byte) := b64_quanta (drop_newlines s).

Lemma b64_char_spec n : (n < 64)%N ->
  b64_val (b64_char n) = Some n /\ b64_char n <> "="%char /\ is_newline (b64_char n) = false.
Proof.
  intros Hn. assert (Hall : forallb (fun k => bool_decide (b64_val (b64_char (N.of_nat k)) = Some (N.of_nat k)
    /\ b64_char (N.of_nat k) <> "="%char /\ is_newline (b64_char (N.of_nat k)) = false)) (seq 0 64) = true)
    by (vm_compute; reflexivity).
  rewrite forallb_forall in Hall. specialize (Hall (N.to_nat n)). rewrite bool_decide_eq_true, N2Nat.id in Hall.
  apply Hall, in_seq. lia.
Qed.

Lemma byte_of_to_N b n : n = Byte.to_N b -> byte_of n = b.
Proof. intros ->. unfold byte_of. by rewrite Byte.of_to_N. Qed.

(** Linear arithmetic with quotients and remainders. *)
Ltac div_lia := zify; Z.to_euclidean_division_equations; lia.

Lemma b64_encode_no_newline bs : drop_newlines (b64_EncodeToString bs) = b64_EncodeToString bs.
Proof.
  induction bs as [bs IH] using (induction_ltof1 _ length). unfold ltof in IH.
  destruct bs as [|a [|b [|c bs]]]; cbn [b64_EncodeToString]; [done| | |];
    pose proof (Byte.to_N_bounded a) as Ha; try pose proof (Byte.to_N_bounded b) as Hb;
    try pose proof (Byte.to_N_bounded c) as Hc; cbn [drop_newlines];
    repeat match goal with
    | |- context [is_newline (b64_char ?n)] => rewrite (proj2 (proj2 (b64_char_spec n ltac:(div_lia))))
    end; try done.
  rewrite IH by (cbn; lia). done.
Qed.

Lemma b64_decode_encode bs : b64_DecodeString (b64_EncodeToString bs) = Some bs.
Proof.
  unfold b64_DecodeString. rewrite b64_encode_no_newline.
  induction bs as [bs IH] using (induction_ltof1 _ length). unfold ltof in IH.
  destruct bs as [|a [|b [|c bs]]]; cbn [b64_EncodeToString]; [done| | |];
    pose proof (Byte.to_N_bounded a) as Ha; try pose proof (Byte.to_N_bounded b) as Hb;
    try pose proof (Byte.to_N_bounded c) as Hc; cbn [b64_quanta];
    repeat match goal with
    | |- context [b64_val (b64_char ?n)] => rewrite (proj1 (b64_char_spec n ltac:(div_lia))); cbn [mbind option_bind]
    | |- context [bool_decide (b64_char ?n = "="%char)] =>
        rewrite (bool_decide_eq_false_2 (b64_char n = "="%char)) by (apply b64_char_spec; div_lia)
    | |- context [bool_decide ("="%char = "="%char)] => rewrite (bool_decide_eq_true_2 ("="%char = "="%char)) by done
    end.
  - rewrite bool_decide_eq_true_2 by done. do 2 f_equal. apply byte_of_to_N. div_lia.
  - rewrite bool_decide_eq_true_2 by done. f_equal. f_equal; [|f_equal]; apply byte_of_to_N; div_lia.
  - rewrite IH by (cbn; lia). cbn [mbind option_bind]. f_equal. f_equal; [|f_equal; [|f_equal]];
      apply byte_of_to_N; div_lia.
Qed.

(** ** [float64]: IEEE 754 binary64, round to nearest even *)
Definition float64 : Type := spec_float.
Definition f64_of_Z (z : Z) : float64 := binary_normalize 53 1024 z 0 false.
Definition f64_mul : float64 -> float64 -> float64 := SFmul 53 1024.
Definition f64_div : float64 -> float64 -> float64 := SFdiv 53 1024.
Definition f64_le (x y : float64) : bool := SFleb x y.
Definition f64_lt (x y : float64) : bool := SFltb x y.
Definition f64_eq (x y : float64) : bool := SFeqb x y.

(** [uint64(x)]: truncation toward zero for a value in range. *)
Definition u64_of_f64 (x : float64) : Z :=
  match x with
  | S754_finite false m e => u64 (Z.shiftl (Z.pos m) e)
  | S754_finite true m e => u64 (- Z.shiftl (Z.pos m) e)
  | _ => 0
  end.

(** ** [slices.SortStableFunc] *)
Lemma StronglySorted_lookup {A} (R : A -> A -> Prop) l i j x y :
  StronglySorted R l -> (i < j)%nat -> l !! i = Some x -> l !! j = Some y -> R x y.
Proof.
  intros Hs. revert i j. induction Hs as [|a l Hs IH Hall]; intros [|i] [|j]; cbn; try lia; try done.
  - intros _ [= <-] Hy. rewrite Forall_forall in Hall. apply Hall. by eapply list_elem_of_lookup_2.
  - intros. eapply (IH i j); eauto. lia.
Qed.

Lemma StronglySorted_mono {A} (R1 R2 : A -> A -> Prop) l :
  (forall x y, R1 x y -> R2 x y) -> StronglySorted R1 l -> StronglySorted R2 l.
Proof.
  intros H. induction 1; constructor; [done|]. by eapply Forall_impl; [|intros ?; apply H].
Qed.

Section StableSort.
Context {A : Type} (cmp : A -> A -> Z).

(** [x] comes before the first element that is strictly greater. *)
Fixpoint insert_stable (x : A) (l : list A) : list A :=
  match l with
  | [] => [x]
  | y :: l' => if cmp x y <? 0 then x :: l else y :: insert_stable x l'
  end.

Definition SortStableFunc (l : list A) : list A :=
  foldl (fun acc x => insert_stable x acc) [] l.

Lemma insert_stable_perm x l : insert_stable x l ≡ₚ x :: l.
Proof.
  induction l as [|y l IH]; [done|]. cbn. destruct (_ <? _); [done|].
  rewrite IH. constructor.
Qed.

Lemma SortStableFunc_perm l : SortStableFunc l ≡ₚ l.
Proof.
  unfold SortStableFunc.
  enough (forall acc, foldl (fun acc x => insert_stable x acc) acc l ≡ₚ acc ++ l) as H
    by apply (H []).
  induction l as [|x l IH]; intros acc; cbn; [by rewrite app_nil_r|].
  rewrite IH, insert_stable_perm. apply Permutation_middle.
Qed.

Lemma SortStableFunc_length l : length (SortStableFunc l) = length l.
Proof. apply Permutation_length, SortStableFunc_perm. Qed.

Hypothesis cmp_le_trans : forall x y z, cmp x y <= 0 -> cmp y z <= 0 -> cmp x z <= 0.
Hypothesis cmp_total : forall x y, 0 <= cmp x y -> cmp y x <= 0.

Lemma insert_stable_sorted x l :
  StronglySorted (fun a b => cmp a b <= 0) l ->
  StronglySorted (fun a b => cmp a b <= 0) (insert_stable x l).
Proof.
  induction 1 as [|y l Hl IH Hy]; cbn; [repeat constructor|].
  destruct (Z.ltb_spec (cmp x y) 0).
  - constructor; [by constructor|]. constructor; [lia|].
    eapply Forall_impl; [exact Hy|]. intros z Hz. simpl in Hz.
    eapply cmp_le_trans; [|exact Hz]. lia.
  - constructor; [done|]. rewrite insert_stable_perm. constructor; [by apply cmp_total|done].
Qed.

Lemma SortStableFunc_sorted l :
  StronglySorted (fun a b => cmp a b <= 0) (SortStableFunc l).
Proof.
  unfold SortStableFunc.
  enough (forall acc, StronglySorted (fun a b => cmp a b <= 0) acc ->
    StronglySorted (fun a b => cmp a b <= 0)
      (foldl (fun acc x => insert_stable x acc) acc l)) as H by (apply H; constructor).
  induction l as [|x l IH]; intros acc Hacc; cbn; [done|].
  by apply IH, insert_stable_sorted.
Qed.
End StableSort.

(** [ctx.Err()] of a cancelled context *)
Definition ctx_Err : error := ErrNew "context canceled".
