(* ===== verification/Model.v ===== *)
(** * Database models (src/db/model/model.go)

    The rows the gateway stores, with the fields of the Go structs; numeric
    fields are [Z], big integers, hashes and addresses are the strings the
    structs hold. *)
From S2P Require Import Prelude.

Record AccessTuple := mkAccessTuple {
  at_Address : string;
  at_StorageKeys : list string;
}.

(** [IndexedRoundWithTip] *)
Record IndexedRoundWithTip := mkIndexedRound {
  ir_Tip : string;
  ir_Round : Z;
}.

(** [Continues] and [LastRetained]: the two tips. *)
Definition Continues : string := "continues".
Definition LastRetained : string := "lastRetain".

Record Transaction := mkTransaction {
  tx_Hash : string;
  tx_Type : Z;
  tx_Status : Z;
  tx_ChainID : string;
  tx_BlockHash : string;
  tx_Round : Z;
  tx_Index : Z;
  tx_Gas : Z;
  tx_GasPrice : string;
  tx_GasTipCap : string;
  tx_GasFeeCap : string;
  tx_Nonce : Z;
  tx_FromAddr : string;
  tx_ToAddr : string;
  tx_Value : string;
  tx_Data : string;
  tx_AccessList : list AccessTuple;
  tx_V : string;
  tx_R : string;
  tx_S : string;
}.

Record Header := mkHeader {
  hd_ParentHash : string;
  hd_UncleHash : string;
  hd_Coinbase : string;
  hd_Root : string;
  hd_TxHash : string;
  hd_ReceiptHash : string;
  hd_Bloom : string;
  hd_Difficulty : string;
  hd_Number : Z;
  hd_GasLimit : Z;
  hd_GasUsed : Z;
  hd_Time : Z;
  hd_Extra : string;
  hd_MixDigest : string;
  hd_Nonce : Z;
  hd_BaseFee : string;
}.

Record Block := mkBlock {
  blk_Hash : string;
  blk_Round : Z;
  blk_Header : Header;
  blk_Transactions : list Transaction;
}.

Record Log := mkLog {
  log_Address : string;
  log_Topics : list string;
  log_Data : string;
  log_Round : Z;
  log_BlockHash : string;
  log_TxHash : string;
  log_TxIndex : Z;
  log_Index : Z;
  log_Removed : bool;
}.

Record Receipt := mkReceipt {
  rc_Status : Z;
  rc_CumulativeGasUsed : Z;
  rc_LogsBloom : string;
  rc_Logs : list Log;
  rc_TransactionHash : string;
  rc_BlockHash : string;
  rc_GasUsed : Z;
  rc_Type : Z;
  rc_Round : Z;
  rc_TransactionIndex : Z;
  rc_FromAddr : string;
  rc_ToAddr : string;
  rc_ContractAddress : string;
  rc_EffectiveGasPrice : string;
}.

(** The sizes of rows in bytes. *)
Definition len (s : string) : Z := Z.of_nat (String.length s).
Definition total {A} (f : A -> Z) (l : list A) : Z := foldl (fun sz x => sz + f x) 0 l.

Definition AccessTuple_Size (t : AccessTuple) : Z := foldl (fun sz k => sz + len k) (len (at_Address t)) (at_StorageKeys t).
Definition AccessList_Size (l : list AccessTuple) : Z := total AccessTuple_Size l.

Definition Transaction_Size (tx : Transaction) : Z :=
  len (tx_Hash tx) + 1 + 8 + len (tx_ChainID tx) + len (tx_BlockHash tx) + 8 + 4 + 8 +
  len (tx_GasPrice tx) + len (tx_GasTipCap tx) + len (tx_GasFeeCap tx) + 8 +
  len (tx_FromAddr tx) + len (tx_ToAddr tx) + len (tx_Value tx) + len (tx_Data tx) +
  AccessList_Size (tx_AccessList tx) + len (tx_V tx) + len (tx_R tx) + len (tx_S tx).

Definition Log_Size (l : Log) : Z :=
  foldl (fun sz t => sz + len t) (len (log_Address l)) (log_Topics l) + len (log_Data l) + 8 +
  len (log_BlockHash l) + len (log_TxHash l) + 8 + 8 + 1.

Definition Receipt_Size (r : Receipt) : Z :=
  foldl (fun sz l => sz + Log_Size l) (8 + 8 + len (rc_LogsBloom r)) (rc_Logs r) +
  len (rc_TransactionHash r) + len (rc_BlockHash r) + 8 + 8 + 8 + 8 +
  len (rc_FromAddr r) + len (rc_ToAddr r) + len (rc_ContractAddress r) + len (rc_EffectiveGasPrice r).

#[export] Instance AccessTuple_eq_dec : EqDecision AccessTuple.
Proof. solve_decision. Defined.
#[export] Instance IndexedRound_eq_dec : EqDecision IndexedRoundWithTip.
Proof. solve_decision. Defined.
#[export] Instance Transaction_eq_dec : EqDecision Transaction.
Proof. solve_decision. Defined.
#[export] Instance Header_eq_dec : EqDecision Header.
Proof. solve_decision. Defined.
#[export] Instance Log_eq_dec : EqDecision Log.
Proof. solve_decision. Defined.
#[export] Instance Block_eq_dec : EqDecision Block.
Proof. solve_decision. Defined.
#[export] Instance Receipt_eq_dec : EqDecision Receipt.
Proof. solve_decision. Defined.

(** Transaction and receipt status codes ([ethtypes.ReceiptStatus...]). *)
Definition ReceiptStatusFailed : Z := 0.
Definition ReceiptStatusSuccessful : Z := 1.

(** The rows without the parts bun loads through a has-many relation. *)
Definition with_Transactions (b : Block) (txs : list Transaction) : Block :=
  mkBlock (blk_Hash b) (blk_Round b) (blk_Header b) txs.

Definition with_Logs (r : Receipt) (logs : list Log) : Receipt :=
  mkReceipt (rc_Status r) (rc_CumulativeGasUsed r) (rc_LogsBloom r) logs
    (rc_TransactionHash r) (rc_BlockHash r) (rc_GasUsed r) (rc_Type r) (rc_Round r)
    (rc_TransactionIndex r) (rc_FromAddr r) (rc_ToAddr r) (rc_ContractAddress r)
    (rc_EffectiveGasPrice r).

(** Per block indexed data ([indexer.BlockData], src/indexer/backend.go). *)
Record BlockData := mkBlockData {
  bd_Block : Block;
  bd_Receipts : list Receipt;
  bd_UniqueTxes : list Transaction;
  bd_MedianTransactionGasPrice : option N;
}.

(** Example rows, for witnesses. *)
Definition ex_header : Header :=
  mkHeader "" "" "" "" "" "" "0x" "0" 0 0 0 0 "" "" 0 "0".
