(* ===== verification/Gas.v ===== *)
(** * Gas price oracle (src/gas/backend.go)

    State of [gasPriceOracle], construction from the configuration, the
    rolling window of per-block prices and the recommended price.  A Go panic
    (an index out of range) is [None].  [quantity.Quantity], an unsigned
    integer of arbitrary size, is [N]. *)
From S2P Require Import Prelude GoLib Model.

(** Data of one transaction and one block kept for the fee history
    (src/gas/fee_history.go).  A slot is a pointer: [None] is nil. *)
Record txGasAndReward := mkTxGasAndReward {
  tg_gasUsed : Z;
  tg_reward : Z;
}.

Record feeHistoryBlockData := mkFeeHistoryBlockData {
  fh_height : Z;
  fh_baseFee : Z;
  fh_gasUsedRatio : float64;
  fh_gasUsed : Z;
  fh_sortedTxs : list (option txGasAndReward);
}.

Record gasPriceOracle := mkOracle {
  nodeMinGasPrice : option N;
  computedGasPrice : option N;
  blockPrices : list N;
  blockPricesCurrentIdx : Z;
  feeHistoryData : list feeHistoryBlockData;
  feeHistorySize : Z;
  windowSize : Z;
  fullBlockThreshold : float64;
  defaultGasPrice : N;
  computedPriceMargin : N;
}.

(** [conf.GasConfig] (src/conf/config.go). *)
Record GasConfig := mkGasConfig {
  gc_MinGasPrice : N;
  gc_BlockFullThreshold : float64;
  gc_WindowSize : Z;
  gc_ComputedPriceMargin : N;
  gc_FeeHistorySize : Z;
}.

Definition defaultWindowSize : Z := 6.
(** 0.5 *)
Definition defaultFullBlockThreshold : float64 := f64_div (f64_of_Z 1) (f64_of_Z 2).
Definition dfltComputedPriceMargin : N := 1000000000.
Definition dfltGasPrice : N := 100000000000.
Definition defaultFeeHistorySize : Z := 20.

(** [if x != 0 { v = x }] on each configured parameter. *)
Definition gas_New (cfg : option GasConfig) : gasPriceOracle :=
  let ws := match cfg with
    | Some c => if gc_WindowSize c =? 0 then defaultWindowSize else gc_WindowSize c
    | None => defaultWindowSize end in
  let thr := match cfg with
    | Some c => if f64_eq (gc_BlockFullThreshold c) (f64_of_Z 0)
                then defaultFullBlockThreshold else gc_BlockFullThreshold c
    | None => defaultFullBlockThreshold end in
  let mgp := match cfg with
    | Some c => if (gc_MinGasPrice c =? 0)%N then dfltGasPrice else gc_MinGasPrice c
    | None => dfltGasPrice end in
  let cpm := match cfg with
    | Some c => if (gc_ComputedPriceMargin c =? 0)%N then dfltComputedPriceMargin
                else gc_ComputedPriceMargin c
    | None => dfltComputedPriceMargin end in
  let fhs := match cfg with
    | Some c => if gc_FeeHistorySize c =? 0 then defaultFeeHistorySize else gc_FeeHistorySize c
    | None => defaultFeeHistorySize end in
  mkOracle None None (replicate (Z.to_nat ws) 0%N) 0 [] fhs ws thr mgp cpm.

(** [GasPrice]: the larger of the node's and the computed price, the default
    one when neither is known. *)
Definition GasPrice (g : gasPriceOracle) : N :=
  match computedGasPrice g, nodeMinGasPrice g with
  | None, None => defaultGasPrice g
  | c, n =>
      let maxPrice := match n with Some p => p | None => 0%N end in
      match c with
      | Some p => if (maxPrice <? p)%N then p else maxPrice
      | None => maxPrice
      end
  end.

(** [fetchMinGasPrice], given the node's answer: the entry of the native
    denomination in the returned map (a missing entry is the zero quantity). *)
Definition fetchMinGasPrice (g : gasPriceOracle) (mgp : result (option N)) : gasPriceOracle :=
  match mgp with
  | Err _ => g
  | Ok price =>
      mkOracle (Some (default 0%N price)) (computedGasPrice g) (blockPrices g)
        (blockPricesCurrentIdx g) (feeHistoryData g) (feeHistorySize g) (windowSize g)
        (fullBlockThreshold g) (defaultGasPrice g) (computedPriceMargin g)
  end.

(** The loop of [trackPrice] that finds the maximum gas price. *)
Definition maxPriceLoop (prices : list N) : N :=
  foldl (fun maxPrice price => if (maxPrice <? price)%N then price else maxPrice) 0%N prices.

Definition trackPrice (g : gasPriceOracle) (price : N) : option gasPriceOracle :=
  if (0 <=? blockPricesCurrentIdx g)
     && (blockPricesCurrentIdx g <? Z.of_nat (length (blockPrices g)))
  then
    let prices := <[Z.to_nat (blockPricesCurrentIdx g) := price]> (blockPrices g) in
    if int64 (windowSize g) =? 0 then None else
    let idx := Z.rem (blockPricesCurrentIdx g + 1) (int64 (windowSize g)) in
    let maxPrice := maxPriceLoop prices in
    let computed := if (maxPrice =? 0)%N then None else Some maxPrice in
    Some (mkOracle (nodeMinGasPrice g) computed prices idx (feeHistoryData g)
      (feeHistorySize g) (windowSize g) (fullBlockThreshold g) (defaultGasPrice g)
      (computedPriceMargin g))
  else None.

(** [float64(GasLimit) * threshold <= float64(GasUsed)] *)
Definition blockFull (g : gasPriceOracle) (b : Block) : bool :=
  f64_le (f64_mul (f64_of_Z (hd_GasLimit (blk_Header b))) (fullBlockThreshold g))
         (f64_of_Z (hd_GasUsed (blk_Header b))).

Definition onBlock (g : gasPriceOracle) (b : Block) (medTxPrice : option N)
    : option gasPriceOracle :=
  if negb (blockFull g b) then trackPrice g 0
  else match medTxPrice with
  | None => Some g
  | Some p => trackPrice g (p + computedPriceMargin g)
  end.

(** ** The price window *)

#[local] Arguments N.max : simpl never.

(** Largest element, 0 for the empty list. *)
Definition max_list (l : list N) : N := foldr N.max 0%N l.

Lemma max_list_app l1 l2 : max_list (l1 ++ l2) = N.max (max_list l1) (max_list l2).
Proof.
  unfold max_list. induction l1 as [|x l1 IH]; simpl; [by rewrite N.max_0_l|].
  by rewrite IH, N.max_assoc.
Qed.

#[export] Instance max_list_perm : Proper ((≡ₚ) ==> (=)) max_list.
Proof. unfold max_list. intros l1 l2. induction 1; simpl; [done| |lia|]; congruence. Qed.

Lemma max_list_replicate n : max_list (replicate n 0%N) = 0%N.
Proof. unfold max_list. induction n as [|n IH]; simpl; [done|]. by rewrite IH. Qed.

Lemma max_list_ge l p : p ∈ l -> (p <= max_list l)%N.
Proof. unfold max_list. induction 1; simpl; lia. Qed.

Lemma maxPriceLoop_max l : maxPriceLoop l = max_list l.
Proof.
  unfold maxPriceLoop.
  enough (forall m, foldl (fun maxPrice price => if (maxPrice <? price)%N then price else maxPrice)
                      m l = N.max m (max_list l)) as -> by lia.
  unfold max_list. induction l as [|p l IH]; intros m; simpl; [lia|]. rewrite IH.
  destruct (N.ltb_spec m p); lia.
Qed.

(** The price a window of the last [w] tracked prices recommends. *)
Definition window_price (w : nat) (ps : list N) : option N :=
  let m := max_list (lastn w ps) in if (m =? 0)%N then None else Some m.

(** What [onBlock] tracks for a block; nothing for a full block without a
    median price. *)
Definition block_price (g : gasPriceOracle) (b : Block) (med : option N) : option N :=
  if blockFull g b then (fun p => p + computedPriceMargin g)%N <$> med else Some 0%N.

(** The ring buffer, read from the write position on, holds the last [w]
    prices, oldest first, padded with the initial zeros. *)
Record ring_ok (g : gasPriceOracle) (ps : list N) : Prop := mkRingOk {
  ring_win : 0 < windowSize g < 2 ^ 63;
  ring_len : Z.of_nat (length (blockPrices g)) = windowSize g;
  ring_idx : 0 <= blockPricesCurrentIdx g < windowSize g;
  ring_rot : let i := Z.to_nat (blockPricesCurrentIdx g) in
             drop i (blockPrices g) ++ take i (blockPrices g) =
             lastn (Z.to_nat (windowSize g))
               (replicate (Z.to_nat (windowSize g)) 0%N ++ ps);
}.

Lemma max_list_window w ps : max_list (lastn w (replicate w 0%N ++ ps)) = max_list (lastn w ps).
Proof.
  unfold lastn. rewrite length_app, length_replicate.
  replace (w + length ps - w)%nat with (length ps) by lia.
  destruct (decide (length ps <= w)%nat).
  - replace (length ps - w)%nat with 0%nat by lia. rewrite drop_0.
    rewrite drop_app_le by (rewrite length_replicate; lia).
    rewrite max_list_app, drop_replicate, max_list_replicate. lia.
  - rewrite drop_app_ge by (rewrite length_replicate; lia).
    by rewrite length_replicate.
Qed.

Lemma rotate_insert {A} (l : list A) i p : (i < length l)%nat ->
  drop (S i) (<[i:=p]> l) ++ take (S i) (<[i:=p]> l) = drop 1 (drop i l ++ take i l) ++ [p].
Proof.
  intros Hi. rewrite drop_insert_lt by lia.
  erewrite take_S_r by (by apply list_lookup_insert_eq).
  rewrite take_insert_ge by lia.
  rewrite drop_app_le by (rewrite length_drop; lia).
  rewrite drop_drop. replace (i + 1)%nat with (S i) by lia. by rewrite app_assoc.
Qed.

Lemma rotate_full {A} (l : list A) i : i = length l ->
  drop i l ++ take i l = l.
Proof. intros ->. by rewrite drop_all, firstn_all. Qed.

Lemma max_list_rotate n l : max_list (drop n l ++ take n l) = max_list l.
Proof. rewrite Permutation_app_comm. by rewrite take_drop. Qed.

(** Tracking a price never panics, moves the window by one and recomputes the
    recommended price from it. *)
Lemma trackPrice_ring g ps p : ring_ok g ps ->
  exists g', trackPrice g p = Some g' /\ ring_ok g' (ps ++ [p]) /\
    computedGasPrice g' = window_price (Z.to_nat (windowSize g)) (ps ++ [p]) /\
    feeHistoryData g' = feeHistoryData g /\ feeHistorySize g' = feeHistorySize g /\
    windowSize g' = windowSize g /\ fullBlockThreshold g' = fullBlockThreshold g /\
    computedPriceMargin g' = computedPriceMargin g /\
    nodeMinGasPrice g' = nodeMinGasPrice g /\ defaultGasPrice g' = defaultGasPrice g.
Proof.
  intros [Hw Hl Hi Hr]. unfold trackPrice.
  assert ((0 <=? blockPricesCurrentIdx g) = true) as -> by lia.
  assert ((blockPricesCurrentIdx g <? Z.of_nat (length (blockPrices g))) = true) as -> by lia.
  assert (int64 (windowSize g) = windowSize g) as -> by (unfold int64; destruct (Z.ltb_spec (windowSize g) 9223372036854775808); lia).
  assert ((windowSize g =? 0) = false) as -> by lia. cbn [andb].
  eexists. split; [done|]. cbn [computedGasPrice feeHistoryData feeHistorySize windowSize
    fullBlockThreshold computedPriceMargin].
  set (i := Z.to_nat (blockPricesCurrentIdx g)) in *.
  set (w := Z.to_nat (windowSize g)) in *.
  assert (drop (S i) (<[i:=p]> (blockPrices g)) ++ take (S i) (<[i:=p]> (blockPrices g)) =
          lastn w (replicate w 0%N ++ ps ++ [p])) as Hrot.
  { rewrite rotate_insert by lia. rewrite Hr, app_assoc.
    symmetry. apply lastn_snoc_full; [lia|]. rewrite length_app, length_replicate. lia. }
  split; [|split].
  - constructor; cbn [windowSize blockPrices blockPricesCurrentIdx]; [done|..].
    + by rewrite length_insert.
    + pose proof (Z.rem_bound_pos (blockPricesCurrentIdx g + 1) (windowSize g)). lia.
    + destruct (Z.eq_dec (blockPricesCurrentIdx g + 1) (windowSize g)) as [Heq|Hne].
      * rewrite Heq, Z.rem_same by lia. cbn [Z.to_nat drop take]. rewrite app_nil_r.
        rewrite rotate_full in Hrot by (rewrite length_insert; lia). exact Hrot.
      * rewrite Z.rem_small by lia.
        replace (Z.to_nat (blockPricesCurrentIdx g + 1)) with (S i) by lia. exact Hrot.
  - unfold window_price. by rewrite maxPriceLoop_max, <- max_list_window, <- Hrot, max_list_rotate.
  - done.
Qed.

Lemma New_ring cfg : windowSize (gas_New cfg) < 2 ^ 63 -> 0 <= windowSize (gas_New cfg) ->
  ring_ok (gas_New cfg) [].
Proof.
  intros Hlt Hge.
  assert (windowSize (gas_New cfg) <> 0) as Hnz.
  { destruct cfg as [c|]; cbn; [|done]. destruct (Z.eqb_spec (gc_WindowSize c) 0); done. }
  assert (blockPrices (gas_New cfg) = replicate (Z.to_nat (windowSize (gas_New cfg))) 0%N)
    as Hbp by (by destruct cfg).
  assert (blockPricesCurrentIdx (gas_New cfg) = 0) as Hidx by done.
  constructor; [lia|rewrite Hbp, length_replicate; lia|rewrite Hidx; lia|].
  cbn zeta. rewrite Hidx, Hbp. rewrite Z2Nat.inj_0, drop_0, take_0. rewrite !app_nil_r. symmetry.
  apply lastn_all. by rewrite length_replicate.
Qed.

(** [onBlock] tracks exactly [block_price], and nothing when there is none. *)
Lemma onBlock_track g b med :
  onBlock g b med =
  match block_price g b med with Some p => trackPrice g p | None => Some g end.
Proof. unfold onBlock, block_price. destruct (blockFull g b), med; done. Qed.

Lemma ring_ok_ext g g' ps :
  windowSize g' = windowSize g -> blockPrices g' = blockPrices g ->
  blockPricesCurrentIdx g' = blockPricesCurrentIdx g -> ring_ok g ps -> ring_ok g' ps.
Proof. intros Hw Hb Hi [????]. by constructor; rewrite ?Hw, ?Hb, ?Hi. Qed.

Lemma fetchMinGasPrice_ring g r ps : ring_ok g ps -> ring_ok (fetchMinGasPrice g r) ps.
Proof. destruct r; [by apply ring_ok_ext|done]. Qed.

(** The price an oracle reports is at least every price of its window and at
    least the node's minimum price. *)
Lemma GasPrice_max g :
  GasPrice g =
  match computedGasPrice g, nodeMinGasPrice g with
  | None, None => defaultGasPrice g
  | c, n => N.max (default 0%N n) (default 0%N c)
  end.
Proof.
  unfold GasPrice. destruct (computedGasPrice g) as [c|], (nodeMinGasPrice g) as [n|]; cbn;
    try destruct (N.ltb_spec n c); try destruct (N.ltb_spec 0 c); lia.
Qed.
