(* ===== verification/FeeHistory.v ===== *)
(** * Fee history (src/gas/fee_history.go) and the oracle's event loop

    The per-block data kept for [eth_feeHistory], the percentile computation,
    the query itself, and the steps of [gasPriceOracle.Start]. *)
From S2P Require Import Prelude GoLib Model Gas.

(** The special block numbers of the go-ethereum [rpc] package. *)
Class EthRpc := {
  PendingBlockNumber : Z;
  LatestBlockNumber : Z;
  FinalizedBlockNumber : Z;
  SafeBlockNumber : Z;
  EarliestBlockNumber : Z;
}.

(** They are different constants and none of them is a positive block number. *)
Class EthRpcLaws (R : EthRpc) : Prop := {
  rpc_distinct : NoDup [PendingBlockNumber; LatestBlockNumber; FinalizedBlockNumber;
                        SafeBlockNumber; EarliestBlockNumber];
  rpc_nonpos : Forall (fun n => n <= 0) [PendingBlockNumber; LatestBlockNumber;
                        FinalizedBlockNumber; SafeBlockNumber; EarliestBlockNumber];
}.

Record FeeHistoryResult := mkFeeHistoryResult {
  fr_OldestBlock : Z;
  fr_Reward : list (list Z);
  fr_BaseFee : list Z;
  fr_GasUsedRatio : list float64;
}.

(** [&FeeHistoryResult{OldestBlock: 0}] *)
Definition noHistory : FeeHistoryResult := mkFeeHistoryResult 0 [] [] [].

(** [uint64(float64(d.gasUsed) * p / 100)] *)
Definition thresholdGasUsed (d : feeHistoryBlockData) (p : float64) : Z :=
  u64_of_f64 (f64_div (f64_mul (f64_of_Z (fh_gasUsed d)) p) (f64_of_Z 100)).

(** The inner loop of [rewards]; a nil slot or an index out of range panics. *)
Fixpoint advance (fuel : nat) (txs : list (option txGasAndReward)) (threshold : Z)
    (txIndex : nat) (sumGasUsed : Z) : option (nat * Z) :=
  if (sumGasUsed <? threshold) && (Z.of_nat txIndex <? Z.of_nat (length txs) - 1) then
    match fuel with
    | O => None
    | S fuel' =>
        match mjoin (txs !! S txIndex) with
        | Some t => advance fuel' txs threshold (S txIndex) (u64 (sumGasUsed + tg_gasUsed t))
        | None => None
        end
    end
  else Some (txIndex, sumGasUsed).

Fixpoint rewards_loop (d : feeHistoryBlockData) (txIndex : nat) (sumGasUsed : Z)
    (percentiles : list float64) : option (list Z) :=
  match percentiles with
  | [] => Some []
  | p :: ps =>
      '(i, s) ← advance (length (fh_sortedTxs d)) (fh_sortedTxs d) (thresholdGasUsed d p)
                  txIndex sumGasUsed;
      t ← mjoin (fh_sortedTxs d !! i);
      rest ← rewards_loop d i s ps;
      Some (tg_reward t :: rest)
  end.

Definition rewards (d : feeHistoryBlockData) (percentiles : list float64) : option (list Z) :=
  match percentiles with
  | [] => Some []
  | _ =>
      match fh_sortedTxs d with
      | [] => Some ((fun _ => 0) <$> percentiles)
      | slot :: _ => t ← slot; rewards_loop d 0 (tg_gasUsed t) percentiles
      end
  end.

(** The index of the last block of the query: [None] when there is no data. *)
Definition lastBlockIdx `{EthRpc} (g : gasPriceOracle) (lastBlock : Z) : option nat :=
  if bool_decide (lastBlock ∈ [PendingBlockNumber; LatestBlockNumber;
                               FinalizedBlockNumber; SafeBlockNumber])
  then Some (length (feeHistoryData g) - 1)%nat
  else if bool_decide (lastBlock = EarliestBlockNumber) then None
  else fst <$> list_find (fun d => fh_height d = u64 lastBlock) (feeHistoryData g).

(** [FeeHistory]; the slice indexing of the result panics on [None]. *)
Definition FeeHistory `{EthRpc} (g : gasPriceOracle) (blockCount lastBlock : Z)
    (percentiles : list float64) : option FeeHistoryResult :=
  if bool_decide (length (feeHistoryData g) = 0%nat) then Some noHistory else
  match lastBlockIdx g lastBlock with
  | None => Some noHistory
  | Some last =>
      let oldest := if Z.of_nat last <? blockCount then 0
                    else Z.of_nat last + 1 - int64 blockCount in
      if (0 <=? oldest) && (oldest <=? Z.of_nat last + 1) then
        d0 ← feeHistoryData g !! Z.to_nat oldest;
        let ds := take (last + 1 - Z.to_nat oldest) (drop (Z.to_nat oldest) (feeHistoryData g)) in
        rws ← mapM (fun d => rewards d percentiles) ds;
        Some (mkFeeHistoryResult (int64 (fh_height d0)) rws (fh_baseFee <$> ds)
                (fh_gasUsedRatio <$> ds))
      else None
  end.

(** The loop of [trackFeeHistory] over the transactions: [None] is a panic,
    [Some None] the early return on a price that does not parse. *)
Fixpoint sortedTxs_loop (i : nat) (txs : list Transaction) (receipts : list Receipt)
    (slots : list (option txGasAndReward)) : option (option (list (option txGasAndReward))) :=
  match txs with
  | [] => Some (Some slots)
  | tx :: txs' =>
      match big_UnmarshalText (tx_GasFeeCap tx) with
      | None => Some None
      | Some feeCap =>
          match big_UnmarshalText (tx_GasTipCap tx) with
          | None => Some None
          | Some tipGas =>
              let reward := if feeCap <? tipGas then feeCap else tipGas in
              match receipts !! i with
              | None => None
              | Some r =>
                  sortedTxs_loop (S i) txs' receipts
                    (<[i := Some (mkTxGasAndReward (rc_GasUsed r) reward)]> slots)
              end
          end
      end
  end.

(** [a.reward.Cmp(b.reward)] *)
Definition cmpReward (a b : txGasAndReward) : Z :=
  match tg_reward a ?= tg_reward b with Lt => -1 | Eq => 0 | Gt => 1 end.

(** [slices.SortStableFunc] on the slots: comparing a nil slot panics. *)
Definition sortSlots (slots : list (option txGasAndReward))
    : option (list (option txGasAndReward)) :=
  match mapM id slots with
  | Some txs => Some (Some <$> SortStableFunc cmpReward txs)
  | None => if bool_decide (length slots <= 1)%nat then Some slots else None
  end.

(** The data of one block: [None] is a panic, [Some None] a parse error. *)
Definition blockFeeData (b : Block) (txs : list Transaction) (receipts : list Receipt)
    : option (option feeHistoryBlockData) :=
  match big_UnmarshalText (hd_BaseFee (blk_Header b)) with
  | None => Some None
  | Some baseFee =>
      slots ← sortedTxs_loop 0 txs receipts (replicate (length receipts) None);
      match slots with
      | None => Some None
      | Some slots =>
          sorted ← sortSlots slots;
          Some (Some (mkFeeHistoryBlockData (blk_Round b) baseFee
            (f64_div (f64_of_Z (hd_GasUsed (blk_Header b))) (f64_of_Z (hd_GasLimit (blk_Header b))))
            (hd_GasUsed (blk_Header b)) sorted))
      end
  end.

Definition set_feeHistoryData (g : gasPriceOracle) (l : list feeHistoryBlockData) :=
  mkOracle (nodeMinGasPrice g) (computedGasPrice g) (blockPrices g) (blockPricesCurrentIdx g)
    l (feeHistorySize g) (windowSize g) (fullBlockThreshold g) (defaultGasPrice g)
    (computedPriceMargin g).

Definition trackFeeHistory (g : gasPriceOracle) (b : Block) (txs : list Transaction)
    (receipts : list Receipt) : option gasPriceOracle :=
  fd ← blockFeeData b txs receipts;
  match fd with
  | None => Some g
  | Some d =>
      if Z.of_nat (length (feeHistoryData g)) =? int64 (feeHistorySize g) then
        match feeHistoryData g with
        | [] => None
        | _ :: l => Some (set_feeHistoryData g (l ++ [d]))
        end
      else Some (set_feeHistoryData g (feeHistoryData g ++ [d]))
  end.

(** One message of the loop of [Start]: a block from the watcher, or the
    answer of the concurrent [fetchMinGasPrice] query. *)
Inductive gas_event :=
  | EvBlock (bd : BlockData)
  | EvMinGasPrice (r : result (option N)).

Definition gas_step (g : gasPriceOracle) (ev : gas_event) : option gasPriceOracle :=
  match ev with
  | EvBlock bd =>
      g' ← onBlock g (bd_Block bd) (bd_MedianTransactionGasPrice bd);
      trackFeeHistory g' (bd_Block bd) (bd_UniqueTxes bd) (bd_Receipts bd)
  | EvMinGasPrice r => Some (fetchMinGasPrice g r)
  end.

Fixpoint gas_run (g : gasPriceOracle) (evs : list gas_event) : option gasPriceOracle :=
  match evs with
  | [] => Some g
  | ev :: evs' => g' ← gas_step g ev; gas_run g' evs'
  end.

(** ** Percentiles *)

(** Reference: the reward of the first transaction at which the gas used so far
    reaches the threshold, of the last one when none does. *)
Fixpoint reward_ref (acc threshold : Z) (txs : list txGasAndReward) : Z :=
  match txs with
  | [] => 0
  | [t] => tg_reward t
  | t :: txs' =>
      if threshold <=? acc + tg_gasUsed t then tg_reward t
      else reward_ref (acc + tg_gasUsed t) threshold txs'
  end.

Definition gas_sum (txs : list txGasAndReward) : Z := foldr (fun t s => tg_gasUsed t + s) 0 txs.

Lemma gas_sum_app l1 l2 : gas_sum (l1 ++ l2) = gas_sum l1 + gas_sum l2.
Proof. unfold gas_sum. induction l1 as [|t l IH]; simpl; [done|]. rewrite IH. lia. Qed.

Lemma gas_sum_nonneg l : Forall (fun t => 0 <= tg_gasUsed t) l -> 0 <= gas_sum l.
Proof. unfold gas_sum. induction 1; simpl; lia. Qed.

(** The same search on the part of the list from the current transaction [t]
    on, [acc] being the gas used before it and [i] its index. *)
Fixpoint seek (i : nat) (acc threshold : Z) (t : txGasAndReward) (post : list txGasAndReward)
    : nat * Z * txGasAndReward * list txGasAndReward :=
  match post with
  | [] => (i, acc, t, post)
  | t' :: post' =>
      if threshold <=? acc + tg_gasUsed t then (i, acc, t, post)
      else seek (S i) (acc + tg_gasUsed t) threshold t' post'
  end.

Lemma reward_ref_seek i acc threshold t post :
  reward_ref acc threshold (t :: post) = tg_reward (seek i acc threshold t post).1.2.
Proof.
  revert i acc t. induction post as [|t' post IH]; intros i acc t; [done|].
  cbn [seek]. change (reward_ref acc threshold (t :: t' :: post)) with
    (if threshold <=? acc + tg_gasUsed t then tg_reward t
     else reward_ref (acc + tg_gasUsed t) threshold (t' :: post)).
  destruct (_ <=? _); [done|]. apply IH.
Qed.

(** Searching for a larger threshold can resume where the search for a smaller
    one stopped. *)
Lemma seek_resume i acc th th' t post : th <= th' ->
  let '(i', acc', t', post') := seek i acc th t post in
  seek i acc th' t post = seek i' acc' th' t' post'.
Proof.
  intros Hle. revert i acc t. induction post as [|t2 post IH]; intros i acc t; [done|].
  cbn [seek]. destruct (Z.leb_spec th (acc + tg_gasUsed t)); [done|].
  rewrite (proj2 (Z.leb_gt th' _)) by lia. apply IH.
Qed.

Definition slots_of (txs : list txGasAndReward) : list (option txGasAndReward) := Some <$> txs.

Lemma slots_middle pre t post :
  mjoin (slots_of (pre ++ t :: post) !! length pre) = Some t.
Proof.
  unfold slots_of. rewrite list_lookup_fmap, lookup_app_r, Nat.sub_diag by done. done.
Qed.

(** The position a search ends at lies in the same list, at the index and
    after the gas it reports. *)
Lemma seek_split l i acc th t post : forall pre,
  l = pre ++ t :: post -> i = length pre -> acc = gas_sum pre ->
  let '(i', acc', t', post') := seek i acc th t post in
  exists pre', l = pre' ++ t' :: post' /\ i' = length pre' /\ acc' = gas_sum pre'.
Proof.
  revert i acc t. induction post as [|t2 post IH]; intros i acc t pre -> -> ->.
  { exists pre. done. }
  cbn [seek]. destruct (_ <=? _); [by exists pre|].
  apply (IH _ _ _ (pre ++ [t])).
  - by rewrite <- app_assoc.
  - rewrite length_app. simpl. lia.
  - rewrite gas_sum_app. unfold gas_sum. simpl. lia.
Qed.

Definition gas_ok (l : list txGasAndReward) : Prop :=
  Forall (fun t => 0 <= tg_gasUsed t) l /\ gas_sum l < two64.

(** No sum of a prefix wraps around. *)
Lemma gas_ok_prefix pre t post : gas_ok (pre ++ t :: post) ->
  is_u64 (gas_sum pre + tg_gasUsed t).
Proof.
  intros [Hnn Hsum].
  rewrite gas_sum_app in Hsum. apply Forall_app in Hnn as [H1 H2].
  apply Forall_cons in H2 as [H2 H3].
  apply gas_sum_nonneg in H1, H3. cbn in Hsum. unfold gas_sum in *. u64_lia.
Qed.

(** The loop of the code is that search: it never panics, and its running sum
    is the gas used up to the current transaction. *)
Lemma advance_seek l th fuel : forall i acc t post pre,
  gas_ok l -> l = pre ++ t :: post -> i = length pre -> acc = gas_sum pre ->
  (length post <= fuel)%nat ->
  let '(i', acc', t', _) := seek i acc th t post in
  advance fuel (slots_of l) th i (acc + tg_gasUsed t) = Some (i', acc' + tg_gasUsed t').
Proof.
  intros i acc t post. revert fuel i acc t.
  induction post as [|t2 post IH]; intros fuel i acc t pre Hok Hl -> -> Hf.
  - cbn [seek]. assert ((Z.of_nat (length pre) <? Z.of_nat (length (slots_of l)) - 1) = false) as E.
    { unfold slots_of. rewrite Hl, length_fmap, length_app. cbn [length]. lia. }
    destruct fuel; cbn [advance]; by rewrite E, andb_false_r.
  - cbn [seek]. destruct (Z.leb_spec th (gas_sum pre + tg_gasUsed t)) as [Hle|Hgt].
    { destruct fuel; cbn [advance]; by rewrite (proj2 (Z.ltb_ge _ _)) by lia. }
    assert (l = (pre ++ [t]) ++ t2 :: post) as Hl' by (by rewrite <- app_assoc).
    assert (S (length pre) = length (pre ++ [t])) as Hlen by (rewrite length_app; cbn [length]; lia).
    assert (gas_sum pre + tg_gasUsed t = gas_sum (pre ++ [t])) as Hs.
    { rewrite gas_sum_app. unfold gas_sum. simpl. lia. }
    destruct fuel as [|fuel]; [simpl in Hf; lia|].
    specialize (IH fuel (S (length pre)) (gas_sum pre + tg_gasUsed t) t2 (pre ++ [t])
      Hok Hl' Hlen Hs ltac:(simpl in Hf; lia)).
    cbn [advance]. rewrite (proj2 (Z.ltb_lt _ _)) by lia.
    assert ((Z.of_nat (length pre) <? Z.of_nat (length (slots_of l)) - 1) = true) as ->.
    { unfold slots_of. rewrite Hl, length_fmap, length_app. cbn [length]. lia. }
    cbn [andb]. assert (mjoin (slots_of l !! S (length pre)) = Some t2) as ->.
    { rewrite Hlen, Hl'. apply slots_middle. }
    rewrite u64_small; [exact IH|]. rewrite Hs. apply (gas_ok_prefix _ _ post). by rewrite <- Hl'.
Qed.

(** Whatever the percentiles are, the code returns one reward per percentile. *)
Lemma rewards_loop_ref d l : forall ps i acc t post pre lo,
  fh_sortedTxs d = slots_of l -> gas_ok l -> l = pre ++ t :: post ->
  i = length pre -> acc = gas_sum pre ->
  StronglySorted Z.le (lo :: (thresholdGasUsed d <$> ps)) ->
  seek 0 0 lo (default t (head l)) (tail l) = (i, acc, t, post) ->
  rewards_loop d i (acc + tg_gasUsed t) ps =
  Some ((fun p => reward_ref 0 (thresholdGasUsed d p) l) <$> ps).
Proof.
  induction ps as [|p ps IH]; intros i acc t post pre lo Hd Hok Hl Hi Hacc Hs Hseek; [done|].
  cbn [rewards_loop]. rewrite Hd.
  apply StronglySorted_inv in Hs as [Hs Hlo]. apply Forall_cons in Hlo as [Hlo _].
  pose proof (advance_seek l (thresholdGasUsed d p) (length (slots_of l)) i acc t post pre
    Hok Hl Hi Hacc) as Hadv.
  pose proof (seek_split l i acc (thresholdGasUsed d p) t post pre Hl Hi Hacc) as Hsplit.
  pose proof (seek_resume 0 0 lo (thresholdGasUsed d p) (default t (head l)) (tail l) Hlo) as Hres.
  rewrite Hseek in Hres.
  pose proof (reward_ref_seek 0 0 (thresholdGasUsed d p) (default t (head l)) (tail l)) as Href.
  rewrite Hres in Href.
  destruct (seek i acc (thresholdGasUsed d p) t post) as [[[i' acc'] t'] post'] eqn:E.
  destruct Hsplit as (pre' & Hl' & Hi' & Hacc').
  rewrite Hadv. 2:{ unfold slots_of. rewrite length_fmap, Hl, length_app. cbn [length]. lia. }
  cbn [mbind option_bind].
  assert (mjoin (slots_of l !! i') = Some t') as ->.
  { rewrite Hi', Hl'. apply slots_middle. }
  cbn [option_bind mbind].
  rewrite (IH i' acc' t' post' pre' (thresholdGasUsed d p) Hd Hok Hl' Hi' Hacc' Hs).
  - cbn in Href |- *. rewrite <- Href. destruct l; [by destruct pre|done].
  - rewrite <- Hres. destruct l; [by destruct pre|done].
Qed.

(** ** Tracking blocks *)

(** The effective reward of a transaction: its tip, capped by its fee cap. *)
Definition tx_reward (tx : Transaction) : option Z :=
  feeCap ← big_UnmarshalText (tx_GasFeeCap tx);
  tipGas ← big_UnmarshalText (tx_GasTipCap tx);
  Some (Z.min tipGas feeCap).

Definition tx_fee_entry (p : Transaction * Receipt) : option txGasAndReward :=
  rw ← tx_reward p.1; Some (mkTxGasAndReward (rc_GasUsed p.2) rw).

(** The fee data of a block whose transactions and receipts are aligned. *)
Definition fee_data (bd : BlockData) : option feeHistoryBlockData :=
  let b := bd_Block bd in
  baseFee ← big_UnmarshalText (hd_BaseFee (blk_Header b));
  txs ← mapM tx_fee_entry (zip (bd_UniqueTxes bd) (bd_Receipts bd));
  Some (mkFeeHistoryBlockData (blk_Round b) baseFee
    (f64_div (f64_of_Z (hd_GasUsed (blk_Header b))) (f64_of_Z (hd_GasLimit (blk_Header b))))
    (hd_GasUsed (blk_Header b)) (slots_of (SortStableFunc cmpReward txs))).

Definition aligned (bd : BlockData) : Prop :=
  length (bd_UniqueTxes bd) = length (bd_Receipts bd).

Lemma min_reward a b : (if a <? b then a else b) = Z.min b a.
Proof. destruct (Z.ltb_spec a b); lia. Qed.

Lemma tx_fee_entry_eq tx r :
  tx_fee_entry (tx, r) =
  (feeCap ← big_UnmarshalText (tx_GasFeeCap tx);
   tipGas ← big_UnmarshalText (tx_GasTipCap tx);
   Some (mkTxGasAndReward (rc_GasUsed r) (Z.min tipGas feeCap))).
Proof.
  unfold tx_fee_entry, tx_reward. cbn [fst snd].
  by destruct (big_UnmarshalText (tx_GasFeeCap tx)), (big_UnmarshalText (tx_GasTipCap tx)).
Qed.

Lemma sortedTxs_loop_spec txs : forall pre rpre receipts,
  length rpre = length pre -> length txs = length receipts ->
  sortedTxs_loop (length pre) txs (rpre ++ receipts)
    (slots_of pre ++ replicate (length receipts) None) =
  Some ((fun l => slots_of (pre ++ l)) <$> mapM tx_fee_entry (zip txs receipts)).
Proof.
  induction txs as [|tx txs IH]; intros pre rpre [|r receipts] Hr Hlen; try done.
  { cbn. by rewrite !app_nil_r. }
  cbn [sortedTxs_loop zip zip_with mapM]. rewrite tx_fee_entry_eq.
  destruct (big_UnmarshalText (tx_GasFeeCap tx)) as [fc|]; [|done].
  destruct (big_UnmarshalText (tx_GasTipCap tx)) as [tip|]; [|done].
  cbn [mbind option_bind].
  rewrite <- Hr, lookup_app_r, Nat.sub_diag by done. cbn.
  rewrite Hr, min_reward. unfold slots_of.
  rewrite insert_app_r_alt by (rewrite length_fmap; done).
  rewrite length_fmap, Nat.sub_diag. cbn.
  set (t := mkTxGasAndReward (rc_GasUsed r) (Z.min tip fc)).
  specialize (IH (pre ++ [t]) (rpre ++ [r]) receipts).
  rewrite !length_app in IH. cbn [length] in IH.
  rewrite <- app_assoc, !Nat.add_1_r in IH. unfold slots_of in IH.
  rewrite fmap_app, <- app_assoc in IH. cbn in IH. rewrite IH by (try injection Hlen; lia).
  destruct (mapM tx_fee_entry (zip txs receipts)); cbn; [|done]. by rewrite <- app_assoc.
Qed.

Lemma mapM_id_slots l : mapM id (slots_of l) = Some l.
Proof.
  unfold slots_of. induction l as [|t l IH]; cbn; [done|]. cbn in IH. by rewrite IH.
Qed.

Lemma blockFeeData_aligned bd : aligned bd ->
  blockFeeData (bd_Block bd) (bd_UniqueTxes bd) (bd_Receipts bd) = Some (fee_data bd).
Proof.
  intros Ha. unfold blockFeeData, fee_data.
  destruct (big_UnmarshalText _) as [bf|]; [|done]. cbn.
  pose proof (sortedTxs_loop_spec (bd_UniqueTxes bd) [] [] (bd_Receipts bd) eq_refl Ha) as Hl.
  cbn in Hl. rewrite Hl.
  destruct (mapM tx_fee_entry _) as [l|]; [|done]. cbn [fmap option_fmap option_map mbind option_bind].
  unfold sortSlots. by rewrite mapM_id_slots.
Qed.

Lemma cmpReward_le a b : cmpReward a b <= 0 <-> tg_reward a <= tg_reward b.
Proof. unfold cmpReward. destruct (Z.compare_spec (tg_reward a) (tg_reward b)); lia. Qed.

Lemma cmpReward_ge a b : 0 <= cmpReward a b <-> tg_reward b <= tg_reward a.
Proof. unfold cmpReward. destruct (Z.compare_spec (tg_reward a) (tg_reward b)); lia. Qed.

Lemma sort_rewards l :
  StronglySorted (fun a b => tg_reward a <= tg_reward b) (SortStableFunc cmpReward l) /\
  SortStableFunc cmpReward l ≡ₚ l.
Proof.
  split; [|apply SortStableFunc_perm].
  apply (StronglySorted_mono (fun a b => cmpReward a b <= 0)); [apply cmpReward_le|].
  apply SortStableFunc_sorted.
  - intros x y z. rewrite !cmpReward_le. lia.
  - intros x y. rewrite cmpReward_ge, cmpReward_le. lia.
Qed.

(** ** The oracle after any sequence of events *)
Definition ev_price (g0 : gasPriceOracle) (ev : gas_event) : option N :=
  match ev with
  | EvBlock bd => block_price g0 (bd_Block bd) (bd_MedianTransactionGasPrice bd)
  | EvMinGasPrice _ => None
  end.

Definition ev_fee (ev : gas_event) : option feeHistoryBlockData :=
  match ev with EvBlock bd => fee_data bd | EvMinGasPrice _ => None end.

Definition ev_node (ev : gas_event) : option N :=
  match ev with EvMinGasPrice (Ok p) => Some (default 0%N p) | _ => None end.

Definition ev_aligned (ev : gas_event) : Prop :=
  match ev with EvBlock bd => aligned bd | EvMinGasPrice _ => True end.

(** What the oracle state holds after the events [evs]. *)
Record oracle_ok (g0 g : gasPriceOracle) (evs : list gas_event) : Prop := mkOracleOk {
  oo_ring : ring_ok g (omap (ev_price g0) evs);
  oo_computed : computedGasPrice g =
    window_price (Z.to_nat (windowSize g0)) (omap (ev_price g0) evs);
  oo_node : nodeMinGasPrice g = last (omap ev_node evs);
  oo_fees : feeHistoryData g = lastn (Z.to_nat (feeHistorySize g0)) (omap ev_fee evs);
  oo_win : windowSize g = windowSize g0;
  oo_size : feeHistorySize g = feeHistorySize g0;
  oo_thr : fullBlockThreshold g = fullBlockThreshold g0;
  oo_margin : computedPriceMargin g = computedPriceMargin g0;
  oo_dflt : defaultGasPrice g = defaultGasPrice g0;
}.

Definition size_ok (g0 : gasPriceOracle) : Prop := 0 < feeHistorySize g0 < 2 ^ 63.

Lemma omap_snoc {A B} (f : A -> option B) l x :
  omap f (l ++ [x]) = omap f l ++ option_list (f x).
Proof. rewrite omap_app. cbn. by destruct (f x). Qed.

Lemma block_price_ext g g0 b med :
  fullBlockThreshold g = fullBlockThreshold g0 ->
  computedPriceMargin g = computedPriceMargin g0 -> block_price g b med = block_price g0 b med.
Proof. unfold block_price, blockFull. by intros -> ->. Qed.

Lemma int64_small z : 0 <= z < 2 ^ 63 -> int64 z = z.
Proof. intros. unfold int64. destruct (Z.ltb_spec z 9223372036854775808); [done|]. lia. Qed.

(** A block's fee data is appended, and the oldest entry dropped at capacity. *)
Lemma trackFeeHistory_window g bd evs :
  size_ok g -> aligned bd ->
  feeHistoryData g = lastn (Z.to_nat (feeHistorySize g)) (omap ev_fee evs) ->
  trackFeeHistory g (bd_Block bd) (bd_UniqueTxes bd) (bd_Receipts bd) =
  Some (set_feeHistoryData g
    (lastn (Z.to_nat (feeHistorySize g)) (omap ev_fee (evs ++ [EvBlock bd])))).
Proof.
  intros Hsz Ha Hd. unfold trackFeeHistory, size_ok in *.
  rewrite blockFeeData_aligned by done. rewrite omap_snoc. cbn [mbind option_bind ev_fee].
  destruct (fee_data bd) as [d|].
  2:{ cbn. rewrite app_nil_r, <- Hd. by destruct g. }
  change (option_list (Some d)) with [d].
  rewrite int64_small by lia. pose proof (lastn_length (Z.to_nat (feeHistorySize g)) (omap ev_fee evs)) as Hlen.
  rewrite <- Hd in Hlen.
  destruct (Z.eqb_spec (Z.of_nat (length (feeHistoryData g))) (feeHistorySize g)) as [He|He].
  - rewrite lastn_snoc_full by lia. rewrite <- Hd.
    destruct (feeHistoryData g); [cbn in He; lia|done].
  - rewrite lastn_snoc_part by lia. by rewrite <- Hd.
Qed.

Lemma onBlock_ok g0 g evs bd : oracle_ok g0 g evs ->
  exists g', onBlock g (bd_Block bd) (bd_MedianTransactionGasPrice bd) = Some g' /\
    ring_ok g' (omap (ev_price g0) (evs ++ [EvBlock bd])) /\
    computedGasPrice g' = window_price (Z.to_nat (windowSize g0))
      (omap (ev_price g0) (evs ++ [EvBlock bd])) /\
    nodeMinGasPrice g' = nodeMinGasPrice g /\ feeHistoryData g' = feeHistoryData g /\
    feeHistorySize g' = feeHistorySize g /\ windowSize g' = windowSize g /\
    fullBlockThreshold g' = fullBlockThreshold g /\ computedPriceMargin g' = computedPriceMargin g /\
    defaultGasPrice g' = defaultGasPrice g.
Proof.
  intros []. rewrite onBlock_track, (block_price_ext g g0), omap_snoc by done. cbn [ev_price].
  destruct (block_price g0 (bd_Block bd) _) as [p|]; cbn [option_list].
  - destruct (trackPrice_ring g _ p oo_ring0) as (g' & Htr & Hr & Hc & Hrest).
    exists g'. rewrite oo_win0 in Hc. tauto.
  - rewrite app_nil_r. by exists g.
Qed.

Lemma gas_step_ok g0 g evs ev : size_ok g0 -> ev_aligned ev -> oracle_ok g0 g evs ->
  exists g', gas_step g ev = Some g' /\ oracle_ok g0 g' (evs ++ [ev]).
Proof.
  intros Hsz Ha Hok. destruct ev as [bd|r].
  - destruct (onBlock_ok g0 g evs bd Hok)
      as (g' & Hb & Hr & Hc & Hn & Hf & Hs & Hw & Ht & Hm & Hd).
    destruct Hok. cbn [gas_step]. rewrite Hb. cbn [mbind option_bind].
    rewrite (trackFeeHistory_window g' bd evs);
      [|by unfold size_ok; rewrite Hs, oo_size0|done|by rewrite Hf, Hs, oo_size0].
    eexists. split; [done|].
    constructor; cbn; try congruence.
    + by apply (ring_ok_ext g').
    + rewrite omap_snoc. cbn. rewrite app_nil_r. congruence.
  - eexists. split; [done|]. destruct Hok.
    constructor; rewrite ?omap_snoc; cbn [ev_price ev_fee ev_node option_list];
      rewrite ?app_nil_r; try (by destruct r).
    + by apply fetchMinGasPrice_ring.
    + destruct r; cbn; rewrite ?app_nil_r, ?last_snoc; congruence.
Qed.

Lemma gas_run_ok g0 : size_ok g0 -> forall evs g pre, Forall ev_aligned evs ->
  oracle_ok g0 g pre -> exists g', gas_run g evs = Some g' /\ oracle_ok g0 g' (pre ++ evs).
Proof.
  intros Hsz. induction evs as [|ev evs IH]; intros g pre Ha Hok.
  { exists g. by rewrite app_nil_r. }
  apply Forall_cons in Ha as [Ha Has].
  destruct (gas_step_ok g0 g pre ev Hsz Ha Hok) as (g1 & Hs & Hok1).
  destruct (IH g1 (pre ++ [ev]) Has Hok1) as (g2 & Hr & Hok2).
  exists g2. cbn [gas_run]. rewrite Hs. cbn. rewrite Hr. by rewrite <- app_assoc in Hok2.
Qed.

Lemma New_ok cfg : 0 <= windowSize (gas_New cfg) < 2 ^ 63 ->
  oracle_ok (gas_New cfg) (gas_New cfg) [].
Proof. intros [? ?]. constructor; try done. by apply New_ring. Qed.

(** ** The query *)

Lemma slots_lookup l i : (i < length l)%nat -> exists t, mjoin (slots_of l !! i) = Some t.
Proof.
  intros Hi. apply lookup_lt_is_Some in Hi as [t Ht]. exists t.
  unfold slots_of. by rewrite list_lookup_fmap, Ht.
Qed.

(** Without assumptions on the percentiles or the gas sums the loop still ends
    at an index of the list. *)
Lemma advance_total l th fuel : forall i s, (i < length l)%nat -> (length l <= i + S fuel)%nat ->
  exists i' s', advance fuel (slots_of l) th i s = Some (i', s') /\ (i' < length l)%nat.
Proof.
  assert (length (slots_of l) = length l) as Hlen by apply length_fmap.
  induction fuel as [|fuel IH]; intros i s Hi Hf; cbn [advance]; rewrite Hlen.
  - rewrite (proj2 (Z.ltb_ge (Z.of_nat i) _)) by lia. rewrite andb_false_r. eauto.
  - destruct (_ && _) eqn:E; [|eauto].
    destruct (slots_lookup l (S i)) as [t ->]; [lia|]. apply IH; lia.
Qed.

Lemma rewards_total d l ps : fh_sortedTxs d = slots_of l ->
  exists rs, rewards d ps = Some rs /\ length rs = length ps.
Proof.
  intros Hd. unfold rewards. rewrite Hd. destruct ps as [|p ps]; [by exists []|].
  destruct l as [|t l]; cbn [slots_of fmap list_fmap].
  { eexists. split; [done|]. cbn. f_equal. apply length_fmap. }
  cbn [mbind option_bind].
  enough (forall ps i s, (i < length (t :: l))%nat ->
    exists rs, rewards_loop d i s ps = Some rs /\ length rs = length ps) as H
    by (apply H; cbn; lia).
  clear p ps. induction ps as [|p ps IH]; intros i s Hi; [by exists []|].
  cbn [rewards_loop]. rewrite Hd.
  destruct (advance_total (t :: l) (thresholdGasUsed d p) (length (slots_of (t :: l))) i s)
    as (i' & s' & -> & Hi'); [done|unfold slots_of; rewrite length_fmap; lia|].
  cbn [mbind option_bind]. destruct (slots_lookup (t :: l) i' Hi') as [t' ->].
  cbn [mbind option_bind]. destruct (IH i' s' Hi') as (rs & -> & Hlen).
  eexists. split; [done|]. cbn. by f_equal.
Qed.

(** Every entry of the history has its transactions sorted by reward. *)
Definition fee_entry_ok (d : feeHistoryBlockData) : Prop :=
  exists l, fh_sortedTxs d = slots_of l /\
    StronglySorted (fun a b => tg_reward a <= tg_reward b) l.

Lemma fee_data_ok bd d : fee_data bd = Some d -> fee_entry_ok d.
Proof.
  unfold fee_data. intros H.
  destruct (big_UnmarshalText _); [|done]. cbn [mbind option_bind] in H.
  destruct (mapM _ _); [|done]. cbn [mbind option_bind] in H. simplify_eq.
  eexists. split; [done|]. apply sort_rewards.
Qed.

Lemma mapM_rewards ds ps : Forall fee_entry_ok ds ->
  exists rws, mapM (fun d => rewards d ps) ds = Some rws /\
    Forall2 (fun d rw => rewards d ps = Some rw /\ length rw = length ps) ds rws.
Proof.
  induction 1 as [|d ds (l & Hl & _) _ (rws & Hm & Hf)]; [by exists []|].
  destruct (rewards_total d l ps Hl) as (rs & Hr & Hlen).
  exists (rs :: rws). cbn. rewrite Hr. cbn. cbn in Hm. rewrite Hm. split; [done|]. by constructor.
Qed.

(** The entries a query for [n] blocks ending at index [last] covers. *)
Definition history_range (g : gasPriceOracle) (n : Z) (last : nat) : list feeHistoryBlockData :=
  lastn (Z.to_nat n) (take (S last) (feeHistoryData g)).

Lemma FeeHistory_unfold `{EthRpc} g n lb ps last :
  lastBlockIdx g lb = Some last -> (last < length (feeHistoryData g))%nat -> 1 <= n < two64 ->
  Z.of_nat (length (feeHistoryData g)) < 2 ^ 63 -> Forall fee_entry_ok (feeHistoryData g) ->
  exists d0 rws, head (history_range g n last) = Some d0 /\
    Forall2 (fun d rw => rewards d ps = Some rw /\ length rw = length ps)
      (history_range g n last) rws /\
    FeeHistory g n lb ps = Some (mkFeeHistoryResult (int64 (fh_height d0)) rws
      (fh_baseFee <$> history_range g n last) (fh_gasUsedRatio <$> history_range g n last)).
Proof.
  intros Hlast Hlt Hn Hsz Hok. unfold FeeHistory.
  rewrite bool_decide_eq_false_2 by lia. rewrite Hlast.
  set (oldest := if Z.of_nat last <? n then 0 else Z.of_nat last + 1 - int64 n).
  assert (oldest = Z.of_nat (S last - Z.to_nat n)) as Ho.
  { subst oldest. destruct (Z.ltb_spec (Z.of_nat last) n); [lia|].
    unfold int64. destruct (Z.ltb_spec n 9223372036854775808); unfold two64 in *; lia. }
  clearbody oldest.
  assert (((0 <=? oldest) && (oldest <=? Z.of_nat last + 1)) = true) as -> by lia.
  assert (take (last + 1 - Z.to_nat oldest) (drop (Z.to_nat oldest) (feeHistoryData g)) =
          history_range g n last) as ->.
  { unfold history_range, lastn. rewrite length_take, Nat.min_l by lia.
    rewrite Ho, Nat2Z.id, skipn_firstn_comm. f_equal. lia. }
  assert (Forall fee_entry_ok (history_range g n last)) as Hr
    by (unfold history_range, lastn; apply Forall_drop, Forall_take, Hok).
  destruct (lookup_lt_is_Some_2 (feeHistoryData g) (Z.to_nat oldest)) as [d0 Hd0]; [lia|].
  rewrite Hd0. cbn [mbind option_bind].
  destruct (mapM_rewards _ ps Hr) as (rws & -> & Hf). exists d0, rws.
  split; [|split; [done|reflexivity]].
  unfold history_range, lastn. rewrite length_take, Nat.min_l by lia.
  rewrite head_lookup, lookup_drop, lookup_take_lt by lia.
  rewrite <- Hd0. f_equal. lia.
Qed.

(** ** Properties of the oracle *)

(** From its construction on, whatever blocks and node answers arrive and in
    whatever order, the oracle never panics and its computed price is the
    maximum of the prices of the last [windowSize] tracked blocks (none when
    that maximum is zero), its node price the last price the node reported. *)
Theorem oracle_window_price cfg evs :
  0 <= windowSize (gas_New cfg) < 2 ^ 63 -> 0 < feeHistorySize (gas_New cfg) < 2 ^ 63 ->
  Forall ev_aligned evs ->
  exists g, gas_run (gas_New cfg) evs = Some g /\
    computedGasPrice g = window_price (Z.to_nat (windowSize (gas_New cfg)))
      (omap (ev_price (gas_New cfg)) evs) /\
    nodeMinGasPrice g = last (omap ev_node evs).
Proof.
  intros Hw Hs Ha.
  destruct (gas_run_ok (gas_New cfg) Hs evs _ [] Ha (New_ok cfg Hw)) as (g & Hr & []).
  by exists g.
Qed.

(** In every state the oracle reaches, the reported gas price is the default
    one when nothing is known, and otherwise at least the last price the node
    reported and at least the price of each of the last [windowSize] tracked
    blocks. *)
Theorem oracle_price_covers cfg evs g :
  0 <= windowSize (gas_New cfg) < 2 ^ 63 -> 0 < feeHistorySize (gas_New cfg) < 2 ^ 63 ->
  Forall ev_aligned evs -> gas_run (gas_New cfg) evs = Some g ->
  (forall p, last (omap ev_node evs) = Some p -> (p <= GasPrice g)%N) /\
  (forall p, p ∈ lastn (Z.to_nat (windowSize (gas_New cfg))) (omap (ev_price (gas_New cfg)) evs) ->
             (p <= GasPrice g)%N) /\
  (omap ev_node evs = [] -> Forall (eq 0%N) (omap (ev_price (gas_New cfg)) evs) ->
     GasPrice g = defaultGasPrice (gas_New cfg)).
Proof.
  intros Hw Hs Ha Hrun.
  destruct (gas_run_ok (gas_New cfg) Hs evs _ [] Ha (New_ok cfg Hw)) as (g' & Hr & []).
  simplify_eq. cbn [app] in *.
  rewrite GasPrice_max, oo_computed0, oo_node0, oo_dflt0. unfold window_price.
  set (W := lastn _ (omap (ev_price _) evs)) in *. split; [|split].
  - intros p ->. destruct (max_list W =? 0)%N; cbn; lia.
  - intros p Hp%max_list_ge. destruct (N.eqb_spec (max_list W) 0), (last (omap ev_node evs)); cbn; lia.
  - intros -> Hz. assert (max_list W = 0%N) as ->; [|done].
    assert (Forall (eq 0%N) W) as HW by (by apply Forall_drop).
    clearbody W. induction HW as [|x l <- _ IH]; [done|]. cbn. unfold max_list in IH. by rewrite IH.
Qed.

(** In every state the oracle reaches, the fee history is the data of the
    last [feeHistorySize] blocks that parsed, in order, each with its
    transactions sorted by reward. *)
Theorem fee_history_window cfg evs g :
  0 <= windowSize (gas_New cfg) < 2 ^ 63 -> 0 < feeHistorySize (gas_New cfg) < 2 ^ 63 ->
  Forall ev_aligned evs -> gas_run (gas_New cfg) evs = Some g ->
  feeHistoryData g = lastn (Z.to_nat (feeHistorySize (gas_New cfg))) (omap ev_fee evs) /\
  Forall fee_entry_ok (feeHistoryData g).
Proof.
  intros Hw Hs Ha Hrun.
  destruct (gas_run_ok (gas_New cfg) Hs evs _ [] Ha (New_ok cfg Hw)) as (g' & Hr & []).
  simplify_eq. split; [done|]. rewrite oo_fees0. apply Forall_drop.
  apply Forall_forall. intros d (ev & _ & Hev)%list_elem_of_omap.
  destruct ev; [|done]. by eapply fee_data_ok.
Qed.

(** [FeeHistory] for at least one block, whose last block is at index [last]
    of the history, returns without a panic exactly the data of the
    [min blockCount (last + 1)] blocks that end there: one row of rewards per
    block with one reward per percentile, and the height of the oldest. *)
Theorem FeeHistory_blocks `{EthRpc} g n lb ps last :
  Forall fee_entry_ok (feeHistoryData g) -> Z.of_nat (length (feeHistoryData g)) < 2 ^ 63 ->
  lastBlockIdx g lb = Some last -> (last < length (feeHistoryData g))%nat -> 1 <= n < two64 ->
  exists res d0, FeeHistory g n lb ps = Some res /\
    head (history_range g n last) = Some d0 /\ fr_OldestBlock res = int64 (fh_height d0) /\
    Z.of_nat (length (history_range g n last)) = Z.min n (Z.of_nat last + 1) /\
    fr_BaseFee res = fh_baseFee <$> history_range g n last /\
    fr_GasUsedRatio res = fh_gasUsedRatio <$> history_range g n last /\
    Forall2 (fun d rw => rewards d ps = Some rw /\ length rw = length ps)
      (history_range g n last) (fr_Reward res).
Proof.
  intros Hok Hsz Hlast Hlt Hn.
  destruct (FeeHistory_unfold g n lb ps last) as (d0 & rws & Hh & Hf & ->); try done.
  eexists _, d0. split; [reflexivity|]. split; [done|]. split; [reflexivity|].
  split; [|split; [reflexivity|split; [reflexivity|exact Hf]]].
  unfold history_range. rewrite lastn_length, length_take. lia.
Qed.

(** C25: The single pass of [rewards] over the sorted transactions computes, for
    ascending thresholds and gas that fits in 64 bits, the same rewards as the
    reference that starts afresh for every percentile: the reward of the first
    transaction at which the cumulative gas reaches the threshold, or of the
    last transaction. *)
Theorem rewards_reference d l ps :
  fh_sortedTxs d = slots_of l -> l <> [] -> gas_ok l ->
  StronglySorted Z.le (thresholdGasUsed d <$> ps) ->
  rewards d ps = Some ((fun p => reward_ref 0 (thresholdGasUsed d p) l) <$> ps).
Proof.
  intros Hd Hne Hok Hs. unfold rewards. rewrite Hd.
  destruct ps as [|p ps]; [done|].
  destruct l as [|t post]; [done|]. cbn [slots_of fmap list_fmap].
  set (lo := Z.min (thresholdGasUsed d p) (tg_gasUsed t)).
  apply (rewards_loop_ref d (t :: post) (p :: ps) 0 0 t post [] lo); try done.
  - constructor; [done|]. cbn in Hs. apply StronglySorted_inv in Hs as [_ Hs].
    cbn. constructor; [subst lo; lia|]. eapply Forall_impl; [exact Hs|]. subst lo. cbn. lia.
  - destruct post; [done|]. cbn [head tail from_option seek id].
    by rewrite (proj2 (Z.leb_le _ _)) by (subst lo; lia).
Qed.

(** ** Witnesses *)
Definition ex_tx (hash tip cap : string) : Transaction :=
  mkTransaction hash 2 1 "1" "b" 7 0 21000 cap tip cap 0 "a" "c" "0" "" [] "0" "0" "0".
Definition ex_receipt (hash : string) (gas : Z) : Receipt :=
  mkReceipt 1 gas "" [] hash "b" gas 2 7 0 "a" "c" "" "10".
Definition ex_full_header (used : Z) : Header :=
  mkHeader "" "" "" "" "" "" "0x" "0" 7 100 used 0 "" "" 0 "3".
Definition ex_bd (round used : Z) (med : option N) : BlockData :=
  mkBlockData (mkBlock "b" round (ex_full_header used) [])
    [ex_receipt "t1" 30; ex_receipt "t2" 50] [ex_tx "t1" "9" "12"; ex_tx "t2" "8" "5"] med.
Definition ex_events : list gas_event :=
  [EvBlock (ex_bd 7 80 (Some 4%N)); EvMinGasPrice (Ok (Some 11%N)); EvBlock (ex_bd 8 10 (Some 6%N))].
Definition ex_oracle : gasPriceOracle :=
  Eval vm_compute in default (gas_New None) (gas_run (gas_New None) ex_events).

#[export] Instance ex_EthRpc : EthRpc := {|
  PendingBlockNumber := -1; LatestBlockNumber := -2; FinalizedBlockNumber := -3;
  SafeBlockNumber := -4; EarliestBlockNumber := -5 |}.
#[export] Instance ex_EthRpcLaws : EthRpcLaws ex_EthRpc.
Proof.
  split; [|repeat constructor; cbn; lia].
  repeat (constructor; [rewrite ?list_elem_of_In; cbn; lia|]). constructor.
Qed.

Lemma ex_events_aligned : Forall ev_aligned ex_events.
Proof. repeat constructor. Qed.

Lemma oracle_window_price_witness :
  exists g, gas_run (gas_New None) ex_events = Some g /\
    computedGasPrice g = Some 1000000004%N /\ nodeMinGasPrice g = Some 11%N.
Proof.
  apply (oracle_window_price None ex_events);
    [vm_compute; split; congruence|vm_compute; split; congruence|apply ex_events_aligned].
Defined.

Lemma oracle_price_covers_witness : (11 <= GasPrice ex_oracle)%N.
Proof.
  refine (proj1 (oracle_price_covers None ex_events ex_oracle _ _ ex_events_aligned _) 11%N _);
    [vm_compute; split; congruence|vm_compute; split; congruence
    |vm_compute; reflexivity|vm_compute; reflexivity].
Defined.

Lemma fee_history_window_witness :
  map fh_height (feeHistoryData ex_oracle) = [7; 8] /\ Forall fee_entry_ok (feeHistoryData ex_oracle).
Proof.
  split; [reflexivity|].
  apply (fee_history_window None ex_events ex_oracle);
    [vm_compute; split; congruence|vm_compute; split; congruence|apply ex_events_aligned
    |vm_compute; reflexivity].
Defined.

Definition ex_percentiles : list float64 := map f64_of_Z [10; 60; 90].

Lemma ex_entries_ok : Forall fee_entry_ok (feeHistoryData ex_oracle).
Proof.
  repeat constructor;
    (eexists [_; _]; split; [reflexivity|repeat constructor; cbn; lia]).
Qed.

Lemma FeeHistory_blocks_witness :
  exists res d0, FeeHistory ex_oracle 1 (-2) ex_percentiles = Some res /\
    head (history_range ex_oracle 1 1) = Some d0 /\ fr_OldestBlock res = int64 (fh_height d0) /\
    Z.of_nat (length (history_range ex_oracle 1 1)) = Z.min 1 (Z.of_nat 1 + 1) /\
    fr_BaseFee res = fh_baseFee <$> history_range ex_oracle 1 1 /\
    fr_GasUsedRatio res = fh_gasUsedRatio <$> history_range ex_oracle 1 1 /\
    Forall2 (fun d rw => rewards d ex_percentiles = Some rw /\ length rw = length ex_percentiles)
      (history_range ex_oracle 1 1) (fr_Reward res).
Proof.
  apply (FeeHistory_blocks ex_oracle 1 (-2) ex_percentiles 1);
    [apply ex_entries_ok|vm_compute; reflexivity|vm_compute; reflexivity
    |cbn; lia|vm_compute; split; congruence].
Defined.

Definition ex_rewards : list txGasAndReward := [mkTxGasAndReward 50 5; mkTxGasAndReward 30 9].
Definition ex_fee_block : feeHistoryBlockData :=
  mkFeeHistoryBlockData 7 3 (f64_of_Z 0) 80 (slots_of ex_rewards).

Lemma rewards_reference_witness : rewards ex_fee_block ex_percentiles = Some [5; 5; 9].
Proof.
  etransitivity; [apply (rewards_reference ex_fee_block ex_rewards ex_percentiles)|reflexivity];
    [reflexivity|discriminate|split; [repeat constructor; cbn; lia|reflexivity]|].
  vm_compute. repeat constructor; discriminate.
Defined.
