(* ===== verification/Sql.v ===== *)
(** * The database the gateway talks to

    PostgreSQL and the bun query builder are not part of the sources, so they
    are a parameter: a type of connections with the statements the gateway
    issues ([SqlDB]), and the documented behaviour of those statements as laws
    ([SqlLaws]).  Every statement may fail because of the connection; only a
    database that is [db_up] never does.  A transaction collects its writes and
    applies them to the committed tables at commit; statements on the plain
    handle see and change the committed tables at once.

    [MemDB] is a concrete database with a scripted sequence of faults that
    satisfies the laws; witnesses evaluate on it. *)
From S2P Require Import Prelude Model.

Inductive table := TBlock | TTransaction | TReceipt | TLog | TIndexedRound.

Definition row (t : table) : Type :=
  match t with
  | TBlock => Block
  | TTransaction => Transaction
  | TReceipt => Receipt
  | TLog => Log
  | TIndexedRound => IndexedRoundWithTip
  end.

Notation key := (string * Z)%type.

(** The primary key columns ([bun:",pk"] tags of the models). *)
Definition pk (t : table) : row t -> key :=
  match t with
  | TBlock => fun b => (blk_Hash b, 0)
  | TTransaction => fun x => (tx_Hash x, 0)
  | TReceipt => fun r => (rc_TransactionHash r, 0)
  | TLog => fun l => (log_TxHash l, log_Index l)
  | TIndexedRound => fun i => (ir_Tip i, 0)
  end.

(** The columns of a row: has-many relations are not columns. *)
Definition columns (t : table) : row t -> row t :=
  match t with
  | TBlock => fun b => with_Transactions b []
  | TReceipt => fun r => with_Logs r []
  | _ => fun r => r
  end.

(** The [round] column. *)
Definition col_round (t : table) : row t -> Z :=
  match t with
  | TBlock => blk_Round
  | TTransaction => tx_Round
  | TReceipt => rc_Round
  | TLog => log_Round
  | TIndexedRound => ir_Round
  end.

Record Tables := mkTables {
  t_blocks : gmap key Block;
  t_txs : gmap key Transaction;
  t_receipts : gmap key Receipt;
  t_logs : gmap key Log;
  t_rounds : gmap key IndexedRoundWithTip;
}.

Definition empty_tables : Tables := mkTables ∅ ∅ ∅ ∅ ∅.

Definition rows (t : table) (T : Tables) : gmap key (row t) :=
  match t with
  | TBlock => t_blocks T
  | TTransaction => t_txs T
  | TReceipt => t_receipts T
  | TLog => t_logs T
  | TIndexedRound => t_rounds T
  end.

Definition set_rows (t : table) (T : Tables) : gmap key (row t) -> Tables :=
  match t with
  | TBlock => fun m => mkTables m (t_txs T) (t_receipts T) (t_logs T) (t_rounds T)
  | TTransaction => fun m => mkTables (t_blocks T) m (t_receipts T) (t_logs T) (t_rounds T)
  | TReceipt => fun m => mkTables (t_blocks T) (t_txs T) m (t_logs T) (t_rounds T)
  | TLog => fun m => mkTables (t_blocks T) (t_txs T) (t_receipts T) m (t_rounds T)
  | TIndexedRound => fun m => mkTables (t_blocks T) (t_txs T) (t_receipts T) (t_logs T) m
  end.

#[export] Instance table_eq_dec : EqDecision table.
Proof. solve_decision. Defined.

Lemma rows_set_rows t T m : rows t (set_rows t T m) = m.
Proof. by destruct t. Qed.

Lemma rows_set_rows_ne t t' T m : t <> t' -> rows t (set_rows t' T m) = rows t T.
Proof. by destruct t, t'. Qed.

Lemma tables_eq T T' : (forall t, rows t T = rows t T') -> T = T'.
Proof.
  intros H. destruct T, T'. f_equal;
    [apply (H TBlock)|apply (H TTransaction)|apply (H TReceipt)|apply (H TLog)
    |apply (H TIndexedRound)].
Qed.

(** ** Statements *)

(** [SELECT ... WHERE w ORDER BY key LIMIT n]; a descending column is ordered
    by its negation. *)
Record query (t : table) := mkQuery {
  q_where : row t -> bool;
  q_order : row t -> list Z;
  q_limit : option nat;
}.
Arguments mkQuery {t} _ _ _.
Arguments q_where {t} _ _.
Arguments q_order {t} _ _.
Arguments q_limit {t} _.

Definition no_order {t} : row t -> list Z := fun _ => [].

Fixpoint lexle (k1 k2 : list Z) : bool :=
  match k1, k2 with
  | [], _ => true
  | _, [] => false
  | x :: k1', y :: k2' => (x <? y) || (x =? y) && lexle k1' k2'
  end.

(** What a query may return: the matching rows, in an order that respects the
    [ORDER BY] clause and is otherwise unspecified, cut at the limit. *)
Definition select_spec {t} (q : query t) (m : gmap key (row t)) (l : list (row t)) : Prop :=
  exists full, full ≡ₚ filter (fun r => q_where q r = true) (map_to_list m).*2 /\
    Sorted (fun a b => lexle (q_order q a) (q_order q b)) full /\
    l = match q_limit q with Some n => take n full | None => full end.

(** The [ON CONFLICT] clause of an insert. *)
Inductive conflict := NoClause | DoNothing | DoUpdate.

Inductive write :=
  | WInsert (t : table) (r : row t) (c : conflict)
  | WDelete (t : table) (p : row t -> bool)
  | WUpdate (t : table) (f : Tables -> row t -> option (row t)).

(** [unique_violation] *)
Definition ErrConflict : error := ErrDB 23505.

(** Rows a statement changes: the new row where [f] gives one. *)
Definition update_rows {t} (f : row t -> option (row t)) (m : gmap key (row t))
    : gmap key (row t) := (fun r => default r (f r)) <$> m.

Definition count_rows {t} (p : row t -> bool) (m : gmap key (row t)) : Z :=
  Z.of_nat (size (filter (fun kr => p kr.2 = true) m)).

(** The documented effect of a write: rows affected and the new tables. *)
Definition sem_write (w : write) (T : Tables) : result Z * Tables :=
  match w with
  | WInsert t r c =>
      match rows t T !! pk t r, c with
      | None, _ | Some _, DoUpdate =>
          (Ok 1, set_rows t T (<[pk t r := columns t r]> (rows t T)))
      | Some _, NoClause => (Err ErrConflict, T)
      | Some _, DoNothing => (Ok 0, T)
      end
  | WDelete t p =>
      (Ok (count_rows p (rows t T)),
       set_rows t T (filter (fun kr => p kr.2 = false) (rows t T)))
  | WUpdate t f =>
      (Ok (count_rows (fun r => bool_decide (is_Some (f T r))) (rows t T)),
       set_rows t T (update_rows (f T) (rows t T)))
  end.

Inductive handle := HDb | HTx.

Class SqlDB (D : Type) := {
  db_view : D -> Tables;
  db_pending : D -> Tables -> Tables;
  db_up : D -> Prop;
  db_live : D -> Prop;
  db_select : forall t, handle -> query t -> M D (list (row t));
  db_write : handle -> write -> M D Z;
  db_begin : M D unit;
  db_commit : M D unit;
  db_rollback : D -> D;
}.

(** The tables a handle sees: a transaction sees its own writes on top of the
    committed tables. *)
Definition db_tabs `{SqlDB D} (h : handle) (d : D) : Tables :=
  match h with HDb => db_view d | HTx => db_pending d (db_view d) end.

(** Statements on the handle are executed: the database is up and, for a
    transaction, no earlier statement of it has failed. *)
Definition db_ready `{SqlDB D} (h : handle) (d : D) : Prop :=
  db_up d /\ match h with HDb => True | HTx => db_live d end.

Definition db_keeps `{SqlDB D} (d d' : D) : Prop :=
  (db_up d -> db_up d') /\ (db_live d -> db_live d').

Definition db_same `{SqlDB D} (d d' : D) : Prop :=
  db_view d' = db_view d /\ (forall T, db_pending d' T = db_pending d T) /\ db_keeps d d'.

(** A write took effect on the tables of its handle. *)
Definition db_wrote `{SqlDB D} (h : handle) (w : write) (d d' : D) : Prop :=
  db_keeps d d' /\
  match h with
  | HDb => db_view d' = snd (sem_write w (db_view d)) /\
           (forall T, db_pending d' T = db_pending d T)
  | HTx => db_view d' = db_view d /\
           (forall T, db_pending d' T = snd (sem_write w (db_pending d T)))
  end.

(** A statement failed: nothing is changed, and an error in a transaction
    aborts the transaction, whose commit then has no effect. *)
Definition db_failed `{SqlDB D} (h : handle) (d d' : D) : Prop :=
  db_view d' = db_view d /\
  match h with
  | HDb => forall T, db_pending d' T = db_pending d T
  | HTx => forall T, db_pending d' T = T
  end.

(** The answer to a write was lost: in a transaction that is a failure like any
    other; outside of one the write may have been applied all the same. *)
Definition db_lost `{SqlDB D} (h : handle) (w : write) (d d' : D) : Prop :=
  db_failed h d d' \/
  (h = HDb /\ db_view d' = snd (sem_write w (db_view d)) /\ (forall T, db_pending d' T = db_pending d T)).

Class SqlLaws (D : Type) `{SqlDB D} : Prop := {
  (** A select returns what the query asks for and changes nothing, or fails. *)
  law_select : forall t h (q : query t) (d : D), exists r d',
    db_select t h q d = (r, d') /\
    ((exists l, r = Ok l /\ select_spec q (rows t (db_tabs h d)) l /\ db_same d d') \/
     (exists c, r = Err (ErrDB c) /\ ~ db_ready h d /\ db_failed h d d'));
  (** A write takes effect, or fails without an effect on a violated primary key;
      otherwise it fails only when the handle is not ready. *)
  law_write : forall h w (d : D), exists r d',
    db_write h w d = (r, d') /\
    ((exists n, r = Ok n /\ fst (sem_write w (db_tabs h d)) = Ok n /\ db_wrote h w d d') \/
     (exists c, r = Err (ErrDB c) /\
       ((db_failed h d d' /\ fst (sem_write w (db_tabs h d)) = r /\ (db_up d -> db_up d')) \/
        (~ db_ready h d /\ db_lost h w d d'))));
  law_begin : forall d : D, exists r d',
    db_begin d = (r, d') /\ db_view d' = db_view d /\
    ((r = Ok tt /\ (forall T, db_pending d' T = T) /\ (db_up d -> db_ready HTx d')) \/
     (exists c, r = Err (ErrDB c) /\ ~ db_up d));
  (** A failed commit may have been applied as a whole or not at all. *)
  law_commit : forall d : D, exists r d',
    db_commit d = (r, d') /\
    ((r = Ok tt /\ db_view d' = db_pending d (db_view d) /\ (db_up d -> db_up d')) \/
     (exists c, r = Err (ErrDB c) /\ ~ db_ready HTx d /\
       (db_view d' = db_view d \/ db_view d' = db_pending d (db_view d))));
  law_rollback : forall d : D, db_view (db_rollback d) = db_view d /\
    (db_up d -> db_up (db_rollback d));
}.

(** ** A database in memory, with a script of connection faults *)
Record MemDB := mkMemDB {
  mem_view : Tables;
  mem_pend : Tables -> Tables;
  mem_live : bool;
  mem_plan : list (option Z);
}.

Definition with_plan (d : MemDB) (plan : list (option Z)) : MemDB :=
  mkMemDB (mem_view d) (mem_pend d) (mem_live d) plan.

(** The state after a failed statement. *)
Definition mem_abort (h : handle) (d : MemDB) : MemDB :=
  match h with
  | HDb => d
  | HTx => mkMemDB (mem_view d) id false (mem_plan d)
  end.

(** Runs one statement unless the script says that it fails, or the
    transaction is aborted. *)
Definition mem_guard {A} (h : handle) (k : M MemDB A) : M MemDB A := fun d =>
  match mem_plan d with
  | Some c :: plan => (Err (ErrDB c), mem_abort h (with_plan d plan))
  | plan =>
      let d1 := with_plan d (drop 1 plan) in
      match h, mem_live d with
      | HTx, false => (Err (ErrDB 25), mem_abort h d1)
      | _, _ => k d1
      end
  end.

Definition mem_tabs (h : handle) (d : MemDB) : Tables :=
  match h with HDb => mem_view d | HTx => mem_pend d (mem_view d) end.

Definition order_le {t} (q : query t) (a b : row t) : Prop := lexle (q_order q a) (q_order q b).
#[export] Instance order_le_dec {t} (q : query t) a b : Decision (order_le q a b).
Proof. unfold order_le. apply _. Defined.

Definition mem_select (t : table) (h : handle) (q : query t) : M MemDB (list (row t)) :=
  mem_guard h (fun d =>
    let full := merge_sort (order_le q)
      (filter (fun r => q_where q r = true) (map_to_list (rows t (mem_tabs h d))).*2) in
    (Ok (match q_limit q with Some n => take n full | None => full end), d)).

Definition mem_write (h : handle) (w : write) : M MemDB Z :=
  mem_guard h (fun d =>
    match sem_write w (mem_tabs h d) with
    | (Ok n, T) =>
        (Ok n, match h with
               | HDb => mkMemDB T (mem_pend d) (mem_live d) (mem_plan d)
               | HTx => mkMemDB (mem_view d) (fun T => snd (sem_write w (mem_pend d T)))
                          (mem_live d) (mem_plan d)
               end)
    | (Err e, _) => (Err e, mem_abort h d)
    end).

#[export] Instance MemDB_SqlDB : SqlDB MemDB := {|
  db_view := mem_view;
  db_pending := mem_pend;
  db_up d := Forall (eq None) (mem_plan d);
  db_live d := mem_live d = true;
  db_select := mem_select;
  db_write := mem_write;
  db_begin := mem_guard HDb (fun d => (Ok tt, mkMemDB (mem_view d) id true (mem_plan d)));
  db_commit := mem_guard HDb (fun d =>
    (Ok tt, mkMemDB (mem_pend d (mem_view d)) id false (mem_plan d)));
  db_rollback d := mkMemDB (mem_view d) id false (mem_plan d);
|}.

Lemma lexle_trans k1 k2 k3 : lexle k1 k2 -> lexle k2 k3 -> lexle k1 k3.
Proof.
  rewrite !Is_true_true. revert k2 k3.
  induction k1 as [|x k1 IH]; intros [|y k2] [|z k3]; cbn [lexle]; try done.
  rewrite !orb_true_iff, !andb_true_iff, !Z.ltb_lt, !Z.eqb_eq.
  intros [?|[-> Hl]] [?|[-> Hr]]; [left; lia|left; lia|left; lia|right]. by split; [|eapply IH].
Qed.

Lemma lexle_total k1 k2 : lexle k1 k2 || lexle k2 k1 = true.
Proof.
  revert k2. induction k1 as [|x k1 IH]; intros [|y k2]; cbn; try done.
  specialize (IH k2). destruct (Z.ltb_spec x y), (Z.eqb_spec x y), (Z.ltb_spec y x),
    (Z.eqb_spec y x); cbn; try lia; done.
Qed.

#[export] Instance order_le_total {t} (q : query t) : Total (order_le q).
Proof.
  intros a b. unfold order_le.
  pose proof (lexle_total (q_order q a) (q_order q b)) as [->| ->]%orb_true_iff; auto.
Qed.

(** The next statement either fails, which an up and live database does not,
    or runs and the database stays up. *)
Lemma mem_guard_cases {A} h (k : M MemDB A) d :
  exists plan, let d1 := with_plan d plan in
  (Forall (eq None) (mem_plan d) -> Forall (eq None) plan) /\
  (mem_guard h k d = k d1 \/
   exists c, mem_guard h k d = (Err (ErrDB c), mem_abort h d1) /\ ~ db_ready h d).
Proof.
  unfold mem_guard, db_ready. destruct d as [v p live [|[c|] plan]]; cbn.
  - exists []. split; [done|]. destruct h, live; eauto. right. eexists. split; [done|]. by intros [_ ?].
  - exists plan. split; [by intros ?%Forall_inv|]. right. exists c. split; [done|].
    by intros [?%Forall_inv _].
  - exists plan. split; [by intros [??]%Forall_cons|].
    destruct h, live; eauto. right. eexists. split; [done|]. by intros [_ ?].
Qed.

Lemma sem_write_err w T e : fst (sem_write w T) = Err e -> exists c, e = ErrDB c.
Proof. destruct w; cbn; repeat case_match; cbn; intros; simplify_eq; by exists 23505. Qed.

Lemma mem_abort_failed h d plan : db_failed h d (mem_abort h (with_plan d plan)).
Proof. by destruct h. Qed.

Lemma mem_tabs_plan h d plan : mem_tabs h (with_plan d plan) = mem_tabs h d.
Proof. by destruct h. Qed.

#[export] Instance MemDB_laws : SqlLaws MemDB.
Proof.
  split.
  - intros t h q d. cbn [db_select MemDB_SqlDB]. unfold mem_select.
    match goal with |- context [mem_guard h ?k] =>
      destruct (mem_guard_cases h k d) as (plan & Hup & [->|(c & -> & Hd)]) end;
      eexists _, _; (split; [done|]).
    + left. eexists. split; [done|]. split; [|by destruct h].
      rewrite mem_tabs_plan. change (db_tabs h d) with (mem_tabs h d).
      eexists. split; [apply (merge_sort_Permutation (order_le q))|]. split; [|done].
      apply (Sorted_merge_sort (order_le q)).
    + right. exists c. auto using mem_abort_failed.
  - intros h w d. cbn [db_write MemDB_SqlDB]. unfold mem_write.
    match goal with |- context [mem_guard h ?k] =>
      destruct (mem_guard_cases h k d) as (plan & Hup & [->|(c & -> & Hd)]) end.
    + rewrite mem_tabs_plan. change (db_tabs h d) with (mem_tabs h d).
      destruct (sem_write w (mem_tabs h d)) as [[n|e] T] eqn:E; eexists _, _; (split; [done|]).
      * left. exists n. split; [done|]. split; [done|].
        split; destruct h; cbn in *; rewrite ?E; done.
      * right. destruct (sem_write_err w (mem_tabs h d) e) as [c ->]; [by rewrite E|].
        exists c. split; [done|]. left. split; [apply mem_abort_failed|]. split; [done|].
        by destruct h.
    + eexists _, _. split; [done|]. right. exists c. split; [done|]. right. split; [done|]. left. apply mem_abort_failed.
  - intros d. cbn [db_begin MemDB_SqlDB].
    match goal with |- context [mem_guard HDb ?k] =>
      destruct (mem_guard_cases HDb k d) as (plan & Hup & [->|(c & -> & Hd)]) end;
      eexists _, _; (split; [done|]); (split; [done|]); [left|right].
    + split; [done|]. split; [done|]. intros ?. split; [by apply Hup|done].
    + exists c. split; [done|]. intros ?. by apply Hd.
  - intros d. cbn [db_commit MemDB_SqlDB].
    match goal with |- context [mem_guard HDb ?k] =>
      destruct (mem_guard_cases HDb k d) as (plan & Hup & [->|(c & -> & Hd)]) end;
      eexists _, _; (split; [done|]); [left; done|right]. exists c. split; [done|].
    split; [|by left]. intros [? _]. by apply Hd.
  - intros d. done.
Qed.
