(* ===== verification/Storage.v ===== *)
(** * The storage interface (src/storage/types.go)

    [Storage] has the operations of the Go interface; a [handle] tells whether
    a call goes to the database itself or to the [Storage] value
    [RunInTransaction] passes to its argument.  [StorageLaws] is what the
    clients (the indexer and its backend) rely on, in terms of the stored tables, and
    they are verified against these laws only.  In two points the laws promise less
    than the comments of the Go interface, as its only implementation does not keep
    these: the transactions of a block come in no particular order, so that
    [GetBlockTransaction] returns one of them and not the one with the index, and the
    writes take single rows, not slices. *)
From S2P Require Import Prelude Model Sql.

Class Storage (D : Type) := {
  st_view : D -> Tables;
  st_pending : D -> Tables -> Tables;
  st_up : D -> Prop;
  st_live : D -> Prop;
  st_Insert : handle -> forall t, row t -> M D unit;
  st_InsertIfNotExists : handle -> forall t, row t -> M D unit;
  st_Upsert : handle -> forall t, row t -> M D unit;
  st_Delete : handle -> table -> Z -> M D unit;
  st_GetBlockRound : handle -> string -> M D Z;
  st_GetBlockHash : handle -> Z -> M D string;
  st_GetLatestBlockHash : handle -> M D string;
  st_GetLastIndexedRound : handle -> M D Z;
  st_GetLastRetainedRound : handle -> M D Z;
  st_GetTransaction : handle -> string -> M D Transaction;
  st_GetLatestBlockNumber : handle -> M D Z;
  st_GetBlockByHash : handle -> string -> M D Block;
  st_GetBlockByNumber : handle -> Z -> M D Block;
  st_GetBlockTransactionCountByNumber : handle -> Z -> M D Z;
  st_GetBlockTransactionCountByHash : handle -> string -> M D Z;
  st_GetBlockTransaction : handle -> string -> Z -> M D Transaction;
  st_GetTransactionReceipt : handle -> string -> M D Receipt;
  st_GetLogs : handle -> Z -> Z -> M D (list Log);
  st_RunInTransaction : forall A, handle -> (handle -> M D A) -> M D A;
}.
Arguments st_RunInTransaction {D _ A} _ _ _.

Definition st_tabs `{Storage D} (h : handle) (d : D) : Tables :=
  match h with HDb => st_view d | HTx => st_pending d (st_view d) end.

(** Calls on the handle are executed: the database is up and, in a transaction,
    no earlier call has failed. *)
Definition st_ready `{Storage D} (h : handle) (d : D) : Prop :=
  st_up d /\ match h with HDb => True | HTx => st_live d end.

Definition st_keeps `{Storage D} (d d' : D) : Prop :=
  (st_up d -> st_up d') /\ (st_live d -> st_live d').

Definition st_same `{Storage D} (d d' : D) : Prop :=
  st_view d' = st_view d /\ (forall T, st_pending d' T = st_pending d T) /\ st_keeps d d'.

(** A failed call changes nothing; in a transaction it aborts the transaction,
    which then has nothing to commit. *)
Definition st_failed `{Storage D} (h : handle) (d d' : D) : Prop :=
  st_view d' = st_view d /\
  match h with
  | HDb => forall T, st_pending d' T = st_pending d T
  | HTx => forall T, st_pending d' T = T
  end.

(** A read: a value the tables allow and no change, or a failure of the
    database. *)
Definition st_read `{Storage D} {A} (h : handle) (m : M D A)
    (P : Tables -> result A -> Prop) : Prop :=
  forall d : D, exists r d', m d = (r, d') /\
    ((P (st_tabs h d) r /\ st_same d d') \/
     (exists c, r = Err (ErrDB c) /\ ~ st_ready h d /\ st_failed h d d')).

Definition st_wrote `{Storage D} (h : handle) (w : write) (d d' : D) : Prop :=
  st_keeps d d' /\
  match h with
  | HDb => st_view d' = snd (sem_write w (st_view d)) /\
           (forall T, st_pending d' T = st_pending d T)
  | HTx => st_view d' = st_view d /\
           (forall T, st_pending d' T = snd (sem_write w (st_pending d T)))
  end.

(** The answer to a write was lost: a failure in a transaction; on the plain handle
    the write may have been applied. *)
Definition st_lost `{Storage D} (h : handle) (w : write) (d d' : D) : Prop :=
  st_failed h d d' \/
  (h = HDb /\ st_view d' = snd (sem_write w (st_view d)) /\ (forall T, st_pending d' T = st_pending d T)).

(** A write: it has the effect [w], or it fails; on a ready handle it fails
    only when [w] violates a primary key, and then changes nothing. *)
Definition st_writes `{Storage D} (h : handle) (m : M D unit) (w : write) : Prop :=
  forall d : D, exists r d', m d = (r, d') /\
    ((r = Ok tt /\ (exists n, fst (sem_write w (st_tabs h d)) = Ok n) /\ st_wrote h w d d') \/
     (exists c, r = Err (ErrDB c) /\
       ((st_failed h d d' /\ fst (sem_write w (st_tabs h d)) = Err (ErrDB c) /\ (st_up d -> st_up d')) \/
        (~ st_ready h d /\ st_lost h w d d')))).

(** ** What the reads may return *)

(** Every stored row is under its primary key, and has no relation fields. *)
Definition tables_wf (T : Tables) : Prop :=
  forall t k r, rows t T !! k = Some r -> pk t r = k /\ columns t r = r.

(** One of the matching rows, or [sql.ErrNoRows] when there is none. *)
Definition one_row {t} (p : row t -> bool) (T : Tables) (r : result (row t)) : Prop :=
  match r with
  | Ok x => p x = true /\ exists k, rows t T !! k = Some x
  | Err e => e = ErrNoRows /\ forall k x, rows t T !! k = Some x -> p x = false
  end.

(** The row with the given primary key. *)
Definition by_key {t} (k : key) (T : Tables) : result (row t) :=
  match rows t T !! k with Some r => Ok r | None => Err ErrNoRows end.

Definition rmap {A B} (f : A -> B) (r : result A) : result B :=
  match r with Ok a => Ok (f a) | Err e => Err e end.

Definition latest_block (T : Tables) (r : result Block) : Prop :=
  one_row (t:=TBlock) (fun _ => true) T r /\
  match r with
  | Ok b => forall k b', t_blocks T !! k = Some b' -> blk_Round b' <= blk_Round b
  | Err _ => True
  end.

(** A block with its transactions, in no particular order. *)
Definition block_txs (T : Tables) (hash : string) (txs : list Transaction) : Prop :=
  txs ≡ₚ filter (fun x => tx_BlockHash x = hash) (map_to_list (t_txs T)).*2.

Definition loaded_block (p : Block -> bool) (T : Tables) (r : result Block) : Prop :=
  exists r0, one_row (t:=TBlock) p T r0 /\
    match r0 with
    | Ok b => exists txs, block_txs T (blk_Hash b) txs /\ r = Ok (with_Transactions b txs)
    | Err e => r = Err e
    end.

Definition loaded_receipt (hash : string) (T : Tables) (r : result Receipt) : Prop :=
  exists r0, one_row (t:=TReceipt) (fun x => bool_decide (rc_TransactionHash x = hash)) T r0 /\
    match r0 with
    | Ok x => exists logs,
        logs ≡ₚ filter (fun l => log_TxHash l = rc_TransactionHash x) (map_to_list (t_logs T)).*2 /\
        r = Ok (with_Logs x logs)
    | Err e => r = Err e
    end.

(** The block position of a log, and the order of positions. *)
Definition log_key (l : Log) : list Z := [log_Round l; log_TxIndex l; log_Index l].

Definition logs_between (start stop : Z) (T : Tables) (r : result (list Log)) : Prop :=
  exists l, r = Ok l /\
    l ≡ₚ filter (fun x => start <= log_Round x <= stop) (map_to_list (t_logs T)).*2 /\
    Sorted (fun a b => lexle (log_key a) (log_key b)) l.

(** The entry of a block's transaction list, with the errors and the panic of
    the source. *)
Definition nth_tx (i : Z) (txs : list Transaction) : result Transaction :=
  match txs with
  | [] => Err (ErrNew "the block doesn't have any transactions")
  | _ =>
      if Z.of_nat (length txs) - 1 <? i then Err (ErrNew "index out of range")
      else if i <? 0 then Err ErrPanic
      else match txs !! Z.to_nat i with Some x => Ok x | None => Err ErrPanic end
  end.

Definition hash_is (hash : string) (b : Block) : bool := bool_decide (blk_Hash b = hash).
Definition round_is (n : Z) (b : Block) : bool := bool_decide (blk_Round b = n).

(** The laws, for calls with single rows. *)
Class StorageLaws (D : Type) `{Storage D} : Prop := {
  st_law_Insert : forall h t r, st_writes h (st_Insert h t r) (WInsert t r NoClause);
  st_law_InsertIfNotExists : forall h t r,
    st_writes h (st_InsertIfNotExists h t r) (WInsert t r DoNothing);
  st_law_Upsert : forall h t r, st_writes h (st_Upsert h t r) (WInsert t r DoUpdate);
  st_law_Delete : forall h t n, st_writes h (st_Delete h t n) (WDelete t (fun r => col_round t r <? n));
  st_law_GetBlockRound : forall h hash, st_read h (st_GetBlockRound h hash)
    (fun T r => exists b, one_row (t:=TBlock) (hash_is hash) T b /\ r = rmap blk_Round b);
  st_law_GetBlockHash : forall h n, st_read h (st_GetBlockHash h n)
    (fun T r => exists b, one_row (t:=TBlock) (round_is n) T b /\ r = rmap blk_Hash b);
  st_law_GetLatestBlockHash : forall h, st_read h (st_GetLatestBlockHash h)
    (fun T r => exists b, latest_block T b /\ r = rmap blk_Hash b);
  st_law_GetLatestBlockNumber : forall h, st_read h (st_GetLatestBlockNumber h)
    (fun T r => exists b, latest_block T b /\ r = rmap blk_Round b);
  st_law_GetLastIndexedRound : forall h, st_read h (st_GetLastIndexedRound h)
    (fun T r => exists i, one_row (t:=TIndexedRound) (fun x => bool_decide (ir_Tip x = Continues)) T i /\
      r = match i with Ok x => Ok (ir_Round x) | Err _ => Err ErrNoRoundsIndexed end);
  st_law_GetLastRetainedRound : forall h, st_read h (st_GetLastRetainedRound h)
    (fun T r => exists i, one_row (t:=TIndexedRound) (fun x => bool_decide (ir_Tip x = LastRetained)) T i /\
      r = match i with Ok x => Ok (ir_Round x) | Err _ => Ok 0 end);
  st_law_GetTransaction : forall h hash, st_read h (st_GetTransaction h hash)
    (one_row (t:=TTransaction) (fun x => bool_decide (tx_Hash x = hash)));
  st_law_GetBlockByHash : forall h hash, st_read h (st_GetBlockByHash h hash)
    (loaded_block (hash_is hash));
  st_law_GetBlockByNumber : forall h n, st_read h (st_GetBlockByNumber h n)
    (loaded_block (round_is n));
  st_law_GetBlockTransactionCountByNumber : forall h n,
    st_read h (st_GetBlockTransactionCountByNumber h n)
    (fun T r => exists b, loaded_block (round_is n) T b /\
       r = rmap (fun b => Z.of_nat (length (blk_Transactions b))) b);
  st_law_GetBlockTransactionCountByHash : forall h hash,
    st_read h (st_GetBlockTransactionCountByHash h hash)
    (fun T r => exists b, loaded_block (hash_is hash) T b /\
       r = rmap (fun b => Z.of_nat (length (blk_Transactions b))) b);
  st_law_GetBlockTransaction : forall h hash i,
    st_read h (st_GetBlockTransaction h hash i)
    (fun T r => exists b, loaded_block (hash_is hash) T b /\
       r = (b ≫= fun b => nth_tx i (blk_Transactions b)));
  st_law_GetTransactionReceipt : forall h hash,
    st_read h (st_GetTransactionReceipt h hash) (loaded_receipt hash);
  st_law_GetLogs : forall h start stop, st_read h (st_GetLogs h start stop) (logs_between start stop);
  (** A nested transaction is refused. *)
  st_law_nested : forall A (fn : handle -> M D A) d,
    st_RunInTransaction HTx fn d = (Err (ErrNew "already in a transaction"), d);
  (** The function runs on a transaction that has no writes yet; its error
      rolls the transaction back, otherwise the writes are committed. *)
  st_law_RunInTransaction : forall A (fn : handle -> M D A) d, exists r d',
    st_RunInTransaction HDb fn d = (r, d') /\
    ((exists c, r = Err (ErrDB c) /\ st_view d' = st_view d /\ ~ st_up d) \/
     exists d1, st_view d1 = st_view d /\ (forall T, st_pending d1 T = T) /\
       (st_up d -> st_ready HTx d1) /\
       match fn HTx d1 with
       | (Err e, d2) => r = Err e /\ st_view d' = st_view d2 /\ (st_up d2 -> st_up d')
       | (Ok a, d2) =>
           (r = Ok a /\ st_view d' = st_pending d2 (st_view d2) /\ (st_up d2 -> st_up d')) \/
           (exists c, r = Err (ErrDB c) /\ ~ st_ready HTx d2 /\
              (st_view d' = st_view d2 \/ st_view d' = st_pending d2 (st_view d2)))
       end);
}.

(** ** Consequences of the laws *)
Lemma one_row_key {t} (p : row t -> bool) k T r :
  tables_wf T -> (forall x, p x = true <-> pk t x = k) -> one_row p T r -> r = by_key k T.
Proof.
  intros Hwf Hp. unfold one_row, by_key. destruct r as [x|e].
  - intros [Hx [k' Hk']]. destruct (Hwf t k' x Hk') as [<- _].
    apply Hp in Hx. rewrite <- Hx, Hk'. done.
  - intros [-> Hn]. destruct (rows t T !! k) as [x|] eqn:E; [|done].
    specialize (Hn _ _ E). destruct (Hwf _ _ _ E) as [Hk _]. apply Hp in Hk. congruence.
Qed.

Lemma sem_write_wf w T :
  (forall t f, w <> WUpdate t f) -> tables_wf T -> tables_wf (snd (sem_write w T)).
Proof.
  intros Hw Hwf t k r. destruct w as [t' r' c|t' p|t' f]; [| |by destruct (Hw t' f)].
  - assert (Hins : forall k r, rows t (set_rows t' T (<[pk t' r' := columns t' r']> (rows t' T))) !! k
      = Some r -> pk t r = k /\ columns t r = r).
    { intros k' r1. destruct (decide (t = t')) as [->|Hne].
      - rewrite rows_set_rows. intros [[<- <-]|[? ?]]%lookup_insert_Some; [|by apply Hwf].
        by destruct t'.
      - rewrite rows_set_rows_ne by done. apply Hwf. }
    cbn. destruct (rows t' T !! pk t' r'), c; cbn; try apply Hins; apply Hwf.
  - cbn. destruct (decide (t = t')) as [->|Hne].
    + rewrite rows_set_rows. intros [? _]%map_lookup_filter_Some. by apply Hwf.
    + rewrite rows_set_rows_ne by done. apply Hwf.
Qed.

Lemma empty_tables_wf : tables_wf empty_tables.
Proof. intros t k r. destruct t; cbn; by rewrite lookup_empty. Qed.

#[export] Hint Resolve empty_tables_wf : gateway.

(** ** Programs in a transaction

    [tx_prog m f] says that the program [m], run on the handle of an open
    transaction, computes the pure function [f] on the tables the transaction
    sees, or fails; a ready database fails only when [f] does.  [tx_loop] is the
    same for a body that may also leave the enclosing function, which happens
    only when a call has failed and the transaction is aborted. *)
Section Transactions.
Context `{StorageLaws D}.

Definition tx_ok {A} (f : Tables -> result (A * Tables)) (d : D) (a : A) (d' : D) : Prop :=
  exists T, f (st_tabs HTx d) = Ok (a, T) /\ st_tabs HTx d' = T /\ st_keeps d d'.

Definition tx_err {A} (f : Tables -> result (A * Tables)) (d : D) (e : error) (d' : D) : Prop :=
  (f (st_tabs HTx d) = Err e /\ (st_up d -> st_up d')) \/ ~ st_ready HTx d.

Definition tx_prog {A} (m : M D A) (f : Tables -> result (A * Tables)) : Prop :=
  forall d, tables_wf (st_tabs HTx d) -> exists r d', m d = (r, d') /\ st_view d' = st_view d /\
    match r with Ok a => tx_ok f d a d' | Err e => tx_err f d e d' end.

Definition tx_loop {A} (m : M D (bool * A)) (f : Tables -> result (A * Tables)) : Prop :=
  forall d, tables_wf (st_tabs HTx d) -> exists r d', m d = (r, d') /\ st_view d' = st_view d /\
    match r with
    | Ok (true, a) => tx_ok f d a d'
    | Ok (false, _) => ~ st_ready HTx d /\ st_tabs HTx d' = st_view d
    | Err e => tx_err f d e d'
    end.

Definition wf_fun {A} (f : Tables -> result (A * Tables)) : Prop :=
  forall T a T', tables_wf T -> f T = Ok (a, T') -> tables_wf T'.

(** A row is put under its key. *)
Definition put (t : table) (r : row t) (T : Tables) : Tables :=
  set_rows t T (<[pk t r := columns t r]> (rows t T)).

(** An insert that must not find the key. *)
Definition put_new (t : table) (T : Tables) (r : row t) : result Tables :=
  match rows t T !! pk t r with None => Ok (put t r T) | Some _ => Err ErrConflict end.

Definition with_unit (r : result Tables) : result (unit * Tables) :=
  match r with Ok T => Ok (tt, T) | Err e => Err e end.

Lemma put_wf t r T : tables_wf T -> tables_wf (put t r T).
Proof.
  intros Hwf t' k r' Hl. unfold put in Hl. destruct (decide (t' = t)) as [->|Hne].
  - rewrite rows_set_rows in Hl. apply lookup_insert_Some in Hl as [[<- <-]|[_ ?]]; [|by apply Hwf].
    by destruct t.
  - rewrite rows_set_rows_ne in Hl by done. by apply Hwf.
Qed.

Lemma put_new_wf t r T T' : tables_wf T -> put_new t T r = Ok T' -> tables_wf T'.
Proof. unfold put_new. case_match; [done|]. intros ? [= <-]. by apply put_wf. Qed.

(** A write statement as a program. *)
Lemma writes_prog m w g :
  st_writes HTx m w ->
  (forall T, match sem_write w T with (Ok _, T') => g T = Ok T' | (Err e, _) => g T = Err e end) ->
  tx_prog m (fun T => with_unit (g T)).
Proof.
  intros Hm Hg d _. destruct (Hm d) as (r & d' & E & Hr). exists r, d'. split; [done|].
  specialize (Hg (st_tabs HTx d)).
  assert (Hlost : st_lost HTx w d d' -> st_view d' = st_view d) by (intros [[? _]|[? _]]; done).
  destruct Hr as [(-> & (n & Hn) & Hk & Hv & Hp)|(c & -> & [([Hv _] & Hf & Hu)|[Hr Hl]])]; (split; [by auto|]).
  - destruct (sem_write w (st_tabs HTx d)) as [rw Tw] eqn:Es. cbn in Hn. subst rw.
    exists Tw. rewrite Hg. split; [done|]. split; [|done].
    cbn. rewrite Hp, Hv. cbn in Es. by rewrite Es.
  - left. destruct (sem_write w (st_tabs HTx d)) as [rw Tw]. cbn in Hf. subst rw. rewrite Hg. done.
  - by right.
Qed.

Lemma Insert_prog t r : tx_prog (st_Insert HTx t r) (fun T => with_unit (put_new t T r)).
Proof.
  eapply writes_prog; [apply st_law_Insert|]. intros T. cbn. unfold put_new.
  by destruct (rows t T !! pk t r).
Qed.

Lemma Upsert_prog t r : tx_prog (st_Upsert HTx t r) (fun T => with_unit (Ok (put t r T))).
Proof.
  eapply (writes_prog _ _ (fun T => Ok (put t r T))); [apply st_law_Upsert|]. intros T. cbn.
  by destruct (rows t T !! pk t r).
Qed.

Lemma InsertIfNotExists_prog t r : tx_prog (st_InsertIfNotExists HTx t r)
  (fun T => with_unit (Ok (match rows t T !! pk t r with None => put t r T | Some _ => T end))).
Proof.
  eapply (writes_prog _ _ (fun T => Ok (match rows t T !! pk t r with None => put t r T | Some _ => T end)));
    [apply st_law_InsertIfNotExists|].
  intros T. cbn. by destruct (rows t T !! pk t r).
Qed.

Lemma ready_keeps (d d' : D) : st_keeps d d' -> ~ st_ready HTx d' -> ~ st_ready HTx d.
Proof. intros [Hu Hl] Hn [? ?]. apply Hn. split; auto. Qed.

(** Sequencing. *)
Lemma tx_prog_bind {A B} (m : M D A) (k : A -> M D B) f g :
  tx_prog m f -> wf_fun f -> (forall a, tx_prog (k a) (g a)) ->
  tx_prog (m ≫= k) (fun T => '(a, T') ← f T; g a T').
Proof.
  intros Hm Hwf Hk d Hd. destruct (Hm d Hd) as (r & d1 & E & Hv & Hr). destruct r as [a|e].
  - destruct Hr as (T & Hf & HT & Hkeep). rewrite (M_bind_ok _ _ _ _ _ E).
    destruct (Hk a d1) as (r2 & d2 & E2 & Hv2 & Hr2); [rewrite HT; by eapply Hwf|].
    exists r2, d2. split; [done|]. split; [congruence|]. unfold tx_ok, tx_err in *.
    rewrite Hf. cbn. rewrite <- HT. destruct r2 as [b|e].
    + destruct Hr2 as (T2 & ? & ? & ? & ?). exists T2. split; [done|]. split; [done|].
      destruct Hkeep. split; auto.
    + destruct Hr2 as [[? ?]|?]; [left; split; [done|destruct Hkeep; auto]|right].
      by eapply ready_keeps.
  - rewrite (M_bind_err _ _ _ _ _ E). eexists _, d1. split; [done|]. split; [done|].
    destruct Hr as [[Hf ?]|?]; [left|by right]. by rewrite Hf.
Qed.

Lemma tx_prog_ret {A} (a : A) : tx_prog (mret a) (fun T => Ok (a, T)).
Proof. intros d _. exists (Ok a), d. split; [done|]. split; [done|]. eexists. by repeat split. Qed.

Lemma tx_prog_ext {A} (m : M D A) f g : tx_prog m f -> (forall T, f T = g T) -> tx_prog m g.
Proof.
  intros Hm He d Hd. destruct (Hm d Hd) as (r & d' & ? & ? & Hr). exists r, d'. split; [done|].
  split; [done|]. unfold tx_ok, tx_err in *. destruct r; by rewrite <- He.
Qed.

(** A loop of statements. *)
Lemma tx_prog_mfold {A} (body : unit -> A -> M D unit) (g : Tables -> A -> result Tables) l :
  (forall u x, tx_prog (body u x) (fun T => with_unit (g T x))) ->
  (forall T x T', tables_wf T -> g T x = Ok T' -> tables_wf T') ->
  tx_prog (mfold body tt l) (fun T => with_unit (rfold g T l)).
Proof.
  intros Hb Hwf. induction l as [|x l IH]; [apply (tx_prog_ret tt)|]. cbn [mfold].
  eapply tx_prog_ext;
    [eapply (tx_prog_bind _ _ _ (fun _ T => with_unit (rfold g T l))); [apply Hb| |by intros []]|].
  - intros T [] T' HT Hg. eapply (Hwf T x); [done|]. by destruct (g T x); simplify_eq/=.
  - intros T. cbn. by destruct (g T x).
Qed.

(** The lookup of a row by its key in a transaction. *)
Lemma st_lookup {A} (m : M D A) (P : Tables -> result A -> Prop) (d : D) :
  st_read HTx m P -> exists r d', m d = (r, d') /\
    ((P (st_tabs HTx d) r /\ st_same d d') \/
     (exists c, r = Err (ErrDB c) /\ ~ st_ready HTx d /\ st_view d' = st_view d /\
        st_tabs HTx d' = st_view d)).
Proof.
  intros Hm. destruct (Hm d) as (r & d' & E & Hr). exists r, d'. split; [done|].
  destruct Hr as [?|(c & ? & ? & Hv & Hp)]; [by left|right]. exists c. split; [done|]. split; [done|].
  split; [done|]. cbn. by rewrite Hp, Hv.
Qed.

(** A statement as the last one of a loop body. *)
Lemma tx_prog_loop {B} (m : M D unit) g (b : B) :
  tx_prog m (fun T => with_unit (g T)) ->
  tx_loop (_ ← m; mret (true, b)) (fun T => T' ← g T; Ok (b, T')).
Proof.
  intros Hm d Hd. destruct (Hm d Hd) as (r & d' & E & Hv & Hr). unfold tx_ok, tx_err in *.
  destruct r as [[]|e].
  - rewrite (M_bind_ok _ _ _ _ _ E). eexists _, d'. split; [done|]. split; [done|].
    destruct Hr as (T & Hg & ? & ?). exists T.
    destruct (g (st_tabs HTx d)); simplify_eq/=. done.
  - rewrite (M_bind_err _ _ _ _ _ E). eexists _, d'. split; [done|]. split; [done|].
    destruct Hr as [[Hg ?]|?]; [left|by right].
    destruct (g (st_tabs HTx d)); simplify_eq/=. done.
Qed.

(** A body that looks a row up and then goes on by what it has found; a failed
    lookup leaves the function. *)
Lemma tx_lookup_loop {A B X} (m : M D A) (P : Tables -> result A -> Prop)
    (k : result A -> M D (bool * B)) (b : B) (look : Tables -> result X)
    (kk : result X -> M D (bool * B)) (g : result X -> Tables -> result (B * Tables)) :
  st_read HTx m P -> (forall T r, tables_wf T -> P T r -> k r = kk (look T)) ->
  (forall c, k (Err (ErrDB c)) = mret (false, b)) ->
  (forall T, tx_loop (kk (look T)) (g (look T))) ->
  tx_loop (attempt m k) (fun T => g (look T) T).
Proof.
  intros Hm HP Hk Hg d Hd. destruct (st_lookup m P d Hm) as (r & d1 & E & Hr). unfold attempt. rewrite E.
  destruct Hr as [[Hr (Hv & Hp & Hkeep)]|(c & -> & Hn & Hv & Ht)].
  - apply HP in Hr; [|done]. rewrite Hr.
    assert (Ht : st_tabs HTx d1 = st_tabs HTx d) by (cbn; by rewrite Hp, Hv).
    destruct (Hg (st_tabs HTx d) d1) as (r2 & d2 & E2 & Hv2 & Hr2); [by rewrite Ht|].
    exists r2, d2. split; [done|]. split; [congruence|]. unfold tx_ok, tx_err in *. rewrite Ht in Hr2.
    destruct r2 as [[[|] b2]|e2].
    + destruct Hr2 as (T2 & ? & ? & []). destruct Hkeep. exists T2. repeat split; auto.
    + destruct Hr2 as [? ?]. split; [by eapply ready_keeps|congruence].
    + destruct Hr2 as [[? ?]|?]; [left; split; [done|destruct Hkeep; auto]|right].
      by eapply ready_keeps.
  - rewrite Hk. eexists _, d1. split; [done|]. done.
Qed.

Lemma tx_loop_mloop {A B} (body : B -> A -> M D (bool * B)) (g : B -> A -> Tables -> result (B * Tables)) :
  (forall b x, tx_loop (body b x) (g b x)) -> (forall b x, wf_fun (g b x)) ->
  forall l b, tx_loop (mloop body b l)
    (fun T => rfold (fun '(b, T) x => g b x T) (b, T) l).
Proof.
  intros Hb Hwf. induction l as [|x l IH]; intros b d Hd.
  - exists (Ok (true, b)), d. split; [done|]. split; [done|]. eexists. by repeat split.
  - destruct (Hb b x d Hd) as (r & d1 & E & Hv & Hr). cbn [mloop]. unfold tx_ok, tx_err in *.
    cbn [rfold]. destruct r as [[[|] b1]|e].
    + destruct Hr as (T & Hg & HT & Hkeep). rewrite (M_bind_ok _ _ _ _ _ E).
      destruct (IH b1 d1) as (r2 & d2 & E2 & Hv2 & Hr2); [rewrite HT; by eapply Hwf|].
      exists r2, d2. split; [done|]. split; [congruence|]. unfold tx_ok, tx_err in *.
      rewrite Hg. cbn [mbind result_bind]. rewrite HT in Hr2. destruct r2 as [[[|] b2]|e2].
      * destruct Hr2 as (T2 & ? & ? & ?). exists T2. split; [done|]. split; [done|].
        destruct Hkeep. destruct H3. split; auto.
      * destruct Hr2 as [? ->]. split; [by eapply ready_keeps|done].
      * destruct Hr2 as [[? ?]|?]; [left; split; [done|destruct Hkeep; auto]|right].
        by eapply ready_keeps.
    + rewrite (M_bind_ok _ _ _ _ _ E). eexists _, d1. split; [done|]. split; [done|]. done.
    + rewrite (M_bind_err _ _ _ _ _ E). eexists _, d1. split; [done|]. split; [done|].
      destruct Hr as [[Hf ?]|?]; [left|by right]. by rewrite Hf.
Qed.
End Transactions.
