(* ===== verification/Psql.v ===== *)
(** * The PostgreSQL storage (src/storage/psql/psql.go)

    The methods of [PostDB] as the statements they issue on the database
    [SqlDB].  [db.DB] is the [handle]: the connection pool, or the transaction
    [transactionStorage] wraps.  The instance [PostDB_Storage] makes [PostDB]
    an implementation of the storage interface, and [PostDB_StorageLaws] shows
    that it satisfies [StorageLaws]. *)
From S2P Require Import Prelude Model Sql Storage.

Section PostDB.
Context `{SqlDB D}.

(** [.Scan(ctx)] into one struct: the first row, the others are discarded. *)
Definition scan_one {t} (h : handle) (q : query t) : M D (row t) :=
  l ← db_select t h q;
  match l with
  | [] => fail ErrNoRows
  | x :: _ => mret x
  end.

Definition where_ {t} (p : row t -> bool) : query t := mkQuery p no_order None.

(** [.Relation("Transactions")] and [.Relation("Logs")]: a second select on
    the joined column fills the field of the scanned row. *)
Definition relation_Transactions (h : handle) (b : Block) : M D Block :=
  txs ← db_select TTransaction h (where_ (t:=TTransaction) (fun x => bool_decide (tx_BlockHash x = blk_Hash b)));
  mret (with_Transactions b txs).

Definition relation_Logs (h : handle) (r : Receipt) : M D Receipt :=
  logs ← db_select TLog h (where_ (t:=TLog) (fun l => bool_decide (log_TxHash l = rc_TransactionHash r)));
  mret (with_Logs r logs).

Definition scan_block (h : handle) (q : query TBlock) : M D Block :=
  b ← scan_one h q; relation_Transactions h b.

Definition PostDB_GetTransaction (h : handle) (hash : string) : M D Transaction :=
  tx ← scan_one h (where_ (t:=TTransaction) (fun x => bool_decide (tx_Hash x = hash)));
  mret tx.

Definition PostDB_Insert (h : handle) (t : table) (value : row t) : M D unit :=
  _ ← db_write h (WInsert t value NoClause);
  mret tt.

Definition insertSingle (h : handle) (t : table) (value : row t) (upsert : bool) : M D unit :=
  let onConflictAction := match upsert with true => DoUpdate | false => DoNothing end in
  _ ← db_write h (WInsert t value onConflictAction);
  mret tt.

Definition PostDB_InsertIfNotExists (h : handle) (t : table) (value : row t) : M D unit :=
  insertSingle h t value false.

Definition PostDB_Upsert (h : handle) (t : table) (value : row t) : M D unit :=
  insertSingle h t value true.

Definition PostDB_Delete (h : handle) (t : table) (round : Z) : M D unit :=
  _ ← db_write h (WDelete t (fun r => col_round t r <? round));
  mret tt.

Definition PostDB_GetBlockRound (h : handle) (hash : string) : M D Z :=
  block ← scan_one h (where_ (t:=TBlock) (fun b => bool_decide (blk_Hash b = hash)));
  mret (blk_Round block).

Definition PostDB_GetBlockHash (h : handle) (round : Z) : M D string :=
  block ← scan_one h (where_ (t:=TBlock) (fun b => bool_decide (blk_Round b = round)));
  mret (blk_Hash block).

(** [.Order("round DESC").Limit(1)] *)
Definition latest_query : query TBlock :=
  @mkQuery TBlock (fun _ => true) (fun b => [- blk_Round b]) (Some 1%nat).

Definition PostDB_GetLatestBlockHash (h : handle) : M D string :=
  block ← scan_one h latest_query;
  mret (blk_Hash block).

Definition PostDB_GetLastIndexedRound (h : handle) : M D Z :=
  attempt (scan_one h (where_ (t:=TIndexedRound) (fun i => bool_decide (ir_Tip i = Continues))))
    (fun r => match r with
      | Err err => if errors_Is err ErrNoRows then fail ErrNoRoundsIndexed else fail err
      | Ok indexedRound => mret (ir_Round indexedRound)
      end).

Definition PostDB_GetLastRetainedRound (h : handle) : M D Z :=
  attempt (scan_one h (where_ (t:=TIndexedRound) (fun i => bool_decide (ir_Tip i = LastRetained))))
    (fun r => match r with
      | Err err => if errors_Is err ErrNoRows then mret 0 else fail err
      | Ok retainedRound => mret (ir_Round retainedRound)
      end).

Definition PostDB_GetLatestBlockNumber (h : handle) : M D Z :=
  block ← scan_one h latest_query;
  mret (blk_Round block).

Definition PostDB_GetBlockByHash (h : handle) (blockHash : string) : M D Block :=
  scan_block h (where_ (t:=TBlock) (fun b => bool_decide (blk_Hash b = blockHash))).

Definition PostDB_GetBlockByNumber (h : handle) (round : Z) : M D Block :=
  scan_block h (where_ (t:=TBlock) (fun b => bool_decide (blk_Round b = round))).

Definition PostDB_GetBlockTransactionCountByNumber (h : handle) (round : Z) : M D Z :=
  block ← scan_block h (where_ (t:=TBlock) (fun b => bool_decide (blk_Round b = round)));
  mret (Z.of_nat (length (blk_Transactions block))).

Definition PostDB_GetBlockTransactionCountByHash (h : handle) (blockHash : string) : M D Z :=
  block ← scan_block h (where_ (t:=TBlock) (fun b => bool_decide (blk_Hash b = blockHash)));
  mret (Z.of_nat (length (blk_Transactions block))).

Definition PostDB_GetBlockTransaction (h : handle) (blockHash : string) (txIndex : Z) : M D Transaction :=
  block ← scan_block h (where_ (t:=TBlock) (fun b => bool_decide (blk_Hash b = blockHash)));
  let n := Z.of_nat (length (blk_Transactions block)) in
  if n =? 0 then fail (ErrNew "the block doesn't have any transactions")
  else if n - 1 <? txIndex then fail (ErrNew "index out of range")
  else if txIndex <? 0 then fail ErrPanic
  else match blk_Transactions block !! Z.to_nat txIndex with
       | Some tx => mret tx
       | None => fail ErrPanic
       end.

Definition PostDB_GetTransactionReceipt (h : handle) (txHash : string) : M D Receipt :=
  r ← scan_one h (where_ (t:=TReceipt) (fun x => bool_decide (rc_TransactionHash x = txHash)));
  relation_Logs h r.

Definition PostDB_GetLogs (h : handle) (startRound endRound : Z) : M D (list Log) :=
  logs ← db_select TLog h (@mkQuery TLog
    (fun l => (startRound <=? log_Round l) && (log_Round l <=? endRound))
    (fun l => [log_Round l; log_TxIndex l; log_Index l]) None);
  mret logs.

(** [bun.DB.RunInTx]: the transaction is rolled back when the function fails,
    committed otherwise. *)
Definition PostDB_RunInTransaction {A} (h : handle) (fn : handle -> M D A) : M D A :=
  match h with
  | HTx => fail (ErrNew "already in a transaction")
  | HDb =>
      _ ← db_begin;
      attempt (fn HTx) (fun r => match r with
        | Err e => fun d => (Err e, db_rollback d)
        | Ok a => _ ← db_commit; mret a
        end)
  end.

(** [Insert], [InsertIfNotExists] and [Upsert] take a value of any type and switch on
    it.  For a slice the variable of [range] is the index, so the query builder is
    given an integer as its model; what it does with one is a parameter. *)
Inductive any_value :=
  | AnyRow (t : table) (value : row t)
  | AnySlice (values : list any_value).

Section AnyValues.
Context (insert_int : handle -> Z -> conflict -> M D unit).

Definition write_any (single : forall t, row t -> M D unit) (of_int : Z -> M D unit) (value : any_value) : M D unit :=
  match value with
  | AnySlice values => mfold (fun _ v => of_int v) tt (seqZ 0 (Z.of_nat (length values)))
  | AnyRow t value => single t value
  end.

Definition Insert_any (h : handle) : any_value -> M D unit :=
  write_any (PostDB_Insert h) (fun v => insert_int h v NoClause).
Definition InsertIfNotExists_any (h : handle) : any_value -> M D unit :=
  write_any (PostDB_InsertIfNotExists h) (fun v => insert_int h v DoNothing).
Definition Upsert_any (h : handle) : any_value -> M D unit :=
  write_any (PostDB_Upsert h) (fun v => insert_int h v DoUpdate).

(** A slice of rows is not stored: what happens depends on its length only. *)
Lemma slices_not_stored h vs ws : length vs = length ws ->
  Insert_any h (AnySlice vs) = Insert_any h (AnySlice ws) /\
  InsertIfNotExists_any h (AnySlice vs) = InsertIfNotExists_any h (AnySlice ws) /\
  Upsert_any h (AnySlice vs) = Upsert_any h (AnySlice ws).
Proof. intros E. unfold Insert_any, InsertIfNotExists_any, Upsert_any, write_any. by rewrite E. Qed.
End AnyValues.

#[export] Instance PostDB_Storage : Storage D := {|
  st_view := db_view;
  st_pending := db_pending;
  st_up := db_up;
  st_live := db_live;
  st_Insert := PostDB_Insert;
  st_InsertIfNotExists := PostDB_InsertIfNotExists;
  st_Upsert := PostDB_Upsert;
  st_Delete := PostDB_Delete;
  st_GetBlockRound := PostDB_GetBlockRound;
  st_GetBlockHash := PostDB_GetBlockHash;
  st_GetLatestBlockHash := PostDB_GetLatestBlockHash;
  st_GetLastIndexedRound := PostDB_GetLastIndexedRound;
  st_GetLastRetainedRound := PostDB_GetLastRetainedRound;
  st_GetTransaction := PostDB_GetTransaction;
  st_GetLatestBlockNumber := PostDB_GetLatestBlockNumber;
  st_GetBlockByHash := PostDB_GetBlockByHash;
  st_GetBlockByNumber := PostDB_GetBlockByNumber;
  st_GetBlockTransactionCountByNumber := PostDB_GetBlockTransactionCountByNumber;
  st_GetBlockTransactionCountByHash := PostDB_GetBlockTransactionCountByHash;
  st_GetBlockTransaction := PostDB_GetBlockTransaction;
  st_GetTransactionReceipt := PostDB_GetTransactionReceipt;
  st_GetLogs := PostDB_GetLogs;
  st_RunInTransaction := @PostDB_RunInTransaction;
|}.

(** ** The laws hold *)
Context `{!SqlLaws D}.

(** Every select is a read. *)
Lemma select_read t h (q : query t) :
  st_read h (db_select t h q) (fun T r => exists l, r = Ok l /\ select_spec q (rows t T) l).
Proof.
  intros d. destruct (law_select t h q d) as (r & d' & E & Hr).
  exists r, d'. split; [done|]. destruct Hr as [(l & -> & Hl & Hs)|Hr]; [left|by right]. eauto.
Qed.

Lemma keeps_trans (d d1 d2 : D) : st_keeps d d1 -> st_keeps d1 d2 -> st_keeps d d2.
Proof. intros [] []. split; auto. Qed.

Lemma same_tabs h (d d' : D) : st_same d d' -> st_tabs h d' = st_tabs h d.
Proof. intros (Hv & Hp & _). destruct h; cbn in *; congruence. Qed.

Lemma same_ready h (d d' : D) : st_same d d' -> st_ready h d -> st_ready h d'.
Proof. intros (_ & _ & Hu & Hl) [? ?]. split; [auto|]. destruct h; auto. Qed.

(** A read followed by another read. *)
Lemma read_bind {A B} h (m : M D A) (k : A -> M D B) P Q :
  st_read h m P ->
  (forall a, st_read h (k a) (Q a)) ->
  st_read h (m ≫= k) (fun T r => exists ra, P T ra /\
    match ra with Ok a => Q a T r | Err e => r = Err e end).
Proof.
  intros Hm Hk d. destruct (Hm d) as (r & d1 & E & Hr). destruct r as [a|e].
  - destruct (Hk a d1) as (r2 & d2 & E2 & Hr2).
    exists r2, d2. split; [by rewrite (M_bind_ok _ _ _ _ _ E)|].
    destruct Hr as [(HP & Hs)|(c & ? & _)]; [|done].
    pose proof Hs as (Hs1 & Hs2 & Hs3).
    destruct Hr2 as [(HQ & Hs4 & Hs5 & Hs6)|(c & -> & Hnu & Hf1 & Hf2)].
    + left. rewrite (same_tabs h d d1) in HQ by done. split; [by exists (Ok a)|].
      split; [congruence|]. split; [|by eapply keeps_trans]. intros T. by rewrite Hs5, Hs2.
    + right. exists c. split; [done|]. split; [intros Hr; by apply Hnu, (same_ready h d)|].
      split; [congruence|]. destruct h; [|done]. intros T. by rewrite Hf2, Hs2.
  - exists (Err e), d1. split; [by apply M_bind_err|].
    destruct Hr as [(HP & Hs)|(c & [= ->] & Hu)]; [left|right; by exists c].
    split; [by exists (Err e)|done].
Qed.

(** A read followed by a computation on its result. *)
Lemma read_then {A B} h (m : M D A) (k : A -> M D B) (f : A -> result B) P :
  st_read h m P -> (forall a d, k a d = (f a, d)) ->
  st_read h (m ≫= k) (fun T r => exists ra, P T ra /\ r = (ra ≫= f)).
Proof.
  intros Hm Hk d.
  destruct (read_bind h m k P (fun a _ r => r = f a) Hm) with d as (r & d' & ? & Hr).
  - intros a d0. exists (f a), d0. rewrite Hk. split; [done|]. left. by repeat split.
  - exists r, d'. split; [done|].
    destruct Hr as [((ra & ? & Hra) & ?)|?]; [left|by right]. split; [|done].
    exists ra. split; [done|]. by destruct ra.
Qed.

Lemma read_weaken {A} h (m : M D A) (P Q : Tables -> result A -> Prop) :
  st_read h m P -> (forall T r, P T r -> Q T r) -> st_read h m Q.
Proof.
  intros Hm HPQ d. destruct (Hm d) as (r & d' & ? & [[? ?]|?]); exists r, d'; eauto 10.
Qed.

Lemma read_attempt {A B} h (m : M D A) (k : result A -> M D B) (f : result A -> result B) P :
  st_read h m P -> (forall r d, k r d = (f r, d)) -> (forall c, f (Err (ErrDB c)) = Err (ErrDB c)) ->
  st_read h (attempt m k) (fun T r => exists ra, P T ra /\ r = f ra).
Proof.
  intros Hm Hk Hf d. destruct (Hm d) as (r & d' & E & Hr).
  exists (f r), d'. unfold attempt. rewrite E, Hk. split; [done|].
  destruct Hr as [(?&?)|(c & -> & ?)]; [left; eauto 10|right]. exists c. by rewrite Hf.
Qed.

Lemma select_where t (p : row t -> bool) m l :
  select_spec (where_ p) m l -> l ≡ₚ filter (fun r => p r = true) (map_to_list m).*2.
Proof. by intros (full & Hp & _ & ->). Qed.

Lemma elem_of_rows {A} (m : gmap key A) x :
  x ∈ (map_to_list m).*2 <-> exists k, m !! k = Some x.
Proof.
  rewrite list_elem_of_fmap. split.
  - intros ([k y] & -> & Hin%elem_of_map_to_list). eauto.
  - intros [k Hk]. exists (k, x). split; [done|]. by apply elem_of_map_to_list.
Qed.

Lemma scan_one_read t h (p : row t -> bool) :
  st_read h (scan_one h (where_ p)) (one_row p).
Proof.
  eapply read_weaken.
  - eapply (read_then _ _ _ (fun l => match l with [] => Err ErrNoRows | x :: _ => Ok x end));
      [apply select_read|]. by intros [|x l] d.
  - intros T r (ra & (l & -> & Hl%select_where) & Hr).
    destruct l as [|x l]; cbn in Hr; subst r; cbn.
    + split; [done|]. intros k x Hk. apply not_true_is_false. intros Hp.
      assert (x ∈ @nil (row t)); [|by apply not_elem_of_nil in H0]. rewrite Hl.
      apply list_elem_of_filter. split; [done|]. apply elem_of_rows. eauto.
    + assert (Hx : x ∈ x :: l) by left. rewrite Hl in Hx.
      apply list_elem_of_filter in Hx as [? ?]. split; [done|]. by apply elem_of_rows.
Qed.

Lemma lexle_single x y : lexle [x] [y] <-> x <= y.
Proof. cbn. destruct (Z.ltb_spec x y), (Z.eqb_spec x y); cbn; split; intros; try done; lia. Qed.

Lemma scan_latest_read h : st_read h (scan_one h latest_query) latest_block.
Proof.
  eapply read_weaken.
  - eapply (read_then _ _ _ (fun l => match l with [] => Err ErrNoRows | x :: _ => Ok x end));
      [apply select_read|]. by intros [|x l] d.
  - intros T r (ra & (l & -> & full & Hf & Hsort & Hl) & Hr). cbn in Hl.
    assert (Hin : forall b, b ∈ full <-> exists k, t_blocks T !! k = Some b).
    { intros b. rewrite Hf, list_elem_of_filter, elem_of_rows. by split; [intros [_ ?]|split]. }
    destruct full as [|b full]; subst l; cbn in Hr; subst r; split; cbn; auto.
    + split; [done|]. intros k x Hk. assert (x ∈ @nil Block); [apply Hin; eauto|].
      by apply not_elem_of_nil in H0.
    + split; [done|]. apply Hin. left.
    + intros k b' Hk. apply (Sorted_StronglySorted) in Hsort.
      * assert (Hb : b' ∈ b :: full) by (apply Hin; eauto).
        apply StronglySorted_inv in Hsort as [_ Hall]. rewrite Forall_forall in Hall.
        apply elem_of_cons in Hb as [->|Hb]; [lia|]. specialize (Hall _ Hb). apply lexle_single in Hall. lia.
      * intros x y z Hxy%lexle_single Hyz%lexle_single. apply lexle_single. lia.
Qed.

Lemma select_eq_read {t} h (p : row t -> bool) (P : row t -> Prop) `{forall x, Decision (P x)} :
  (forall x, p x = true <-> P x) ->
  st_read h (db_select t h (where_ p))
    (fun T r => exists l, r = Ok l /\ l ≡ₚ filter P (map_to_list (rows t T)).*2).
Proof.
  intros Hp. eapply read_weaken; [apply select_read|].
  intros T r (l & -> & Hl%select_where). exists l. split; [done|]. rewrite Hl.
  by rewrite (list_filter_iff _ P _ Hp).
Qed.

Lemma scan_block_read h p : st_read h (scan_block h (where_ (t:=TBlock) p)) (loaded_block p).
Proof.
  eapply read_weaken.
  - eapply (read_bind _ _ _ _ (fun b T r => exists ra,
      (exists l, ra = Ok l /\ block_txs T (blk_Hash b) l) /\
      r = (ra ≫= fun txs => Ok (with_Transactions b txs)))); [apply (scan_one_read TBlock)|].
    intros b. eapply read_then; [|done].
    apply (select_eq_read (t:=TTransaction) h _ (fun x => tx_BlockHash x = blk_Hash b)).
    intros x. apply bool_decide_eq_true.
  - intros T r (r0 & H0 & Hr). exists r0. split; [done|].
    destruct r0; [|done]. destruct Hr as (ra & (l & -> & Hl) & ->). by exists l.
Qed.

Lemma scan_receipt_read h hash :
  st_read h (PostDB_GetTransactionReceipt h hash) (loaded_receipt hash).
Proof.
  eapply read_weaken.
  - eapply (read_bind _ _ _ _ (fun x T r => exists ra,
      (exists l, ra = Ok l /\
        l ≡ₚ filter (fun l => log_TxHash l = rc_TransactionHash x) (map_to_list (t_logs T)).*2) /\
      r = (ra ≫= fun logs => Ok (with_Logs x logs)))); [apply (scan_one_read TReceipt)|].
    intros x. eapply read_then; [|done].
    apply (select_eq_read (t:=TLog) h _ (fun l => log_TxHash l = rc_TransactionHash x)).
    intros l. apply bool_decide_eq_true.
  - intros T r (r0 & H0 & Hr). exists r0. split; [done|].
    destruct r0; [|done]. destruct Hr as (ra & (l & -> & Hl) & ->). by exists l.
Qed.

Lemma GetLogs_read h start stop : st_read h (PostDB_GetLogs h start stop) (logs_between start stop).
Proof.
  eapply read_weaken; [eapply read_then; [apply select_read|done]|].
  intros T r (ra & (l & -> & full & Hf & Hs & ->) & ->). exists full. split; [done|]. split; [|done].
  rewrite Hf. erewrite list_filter_iff; [reflexivity|]. intros x. cbn. lia.
Qed.

Lemma write_writes h w (m : M D unit) :
  (forall d, m d = (match fst (db_write h w d) with Ok _ => Ok tt | Err e => Err e end,
                    snd (db_write h w d))) ->
  st_writes h m w.
Proof.
  intros Hm d. rewrite Hm. destruct (law_write h w d) as (r & d' & -> & Hr). cbn.
  destruct Hr as [(n & -> & Hn & Hw)|(c & -> & Hr)]; eexists _, d'; (split; [done|]).
  - left. eauto.
  - right. exists c. split; [done|exact Hr].
Qed.

Lemma db_write_then h w :
  forall d, (db_write h w ≫= fun _ => mret tt) d =
    (match fst (db_write h w d) with Ok _ => Ok tt | Err e => Err e end, snd (db_write h w d)).
Proof. intros d. unfold mbind, M_bind. by destruct (db_write h w d) as [[?|?] ?]. Qed.

Lemma RunInTransaction_law A (fn : handle -> M D A) d : exists r d',
  PostDB_RunInTransaction HDb fn d = (r, d') /\
  ((exists c, r = Err (ErrDB c) /\ st_view d' = st_view d /\ ~ st_up d) \/
   exists d1, st_view d1 = st_view d /\ (forall T, st_pending d1 T = T) /\
     (st_up d -> st_ready HTx d1) /\
     match fn HTx d1 with
     | (Err e, d2) => r = Err e /\ st_view d' = st_view d2 /\ (st_up d2 -> st_up d')
     | (Ok a, d2) =>
         (r = Ok a /\ st_view d' = st_pending d2 (st_view d2) /\ (st_up d2 -> st_up d')) \/
         (exists c, r = Err (ErrDB c) /\ ~ st_ready HTx d2 /\
            (st_view d' = st_view d2 \/ st_view d' = st_pending d2 (st_view d2)))
     end).
Proof.
  unfold PostDB_RunInTransaction. cbn.
  destruct (law_begin d) as (r & d1 & E & Hv & [(-> & Hp & Hu)|(c & -> & Hnu)]).
  - rewrite (M_bind_ok _ _ _ _ _ E). unfold attempt.
    destruct (fn HTx d1) as [[a|e] d2] eqn:Ef.
    + destruct (law_commit d2) as (r & d3 & E3 & Hc).
      destruct Hc as [(-> & Hv3 & Hu3)|(c & -> & Hnu & Hv3)].
      * rewrite (M_bind_ok _ _ _ _ _ E3). eexists _, d3. split; [done|]. right.
        exists d1. rewrite Ef. auto 10.
      * rewrite (M_bind_err _ _ _ _ _ E3). eexists _, d3. split; [done|]. right.
        exists d1. rewrite Ef. eauto 10.
    + destruct (law_rollback d2). eexists _, _. split; [done|]. right. exists d1. rewrite Ef. auto 10.
  - rewrite (M_bind_err _ _ _ _ _ E). eexists _, d1. split; [done|]. left. eauto.
Qed.

Lemma nth_tx_eq i txs (d : D) :
  (let n := Z.of_nat (length txs) in
   if n =? 0 then fail (ErrNew "the block doesn't have any transactions")
   else if n - 1 <? i then fail (ErrNew "index out of range")
   else if i <? 0 then fail ErrPanic
   else match txs !! Z.to_nat i with Some tx => mret tx | None => fail ErrPanic end) d
  = (nth_tx i txs, d).
Proof. unfold nth_tx. destruct txs; cbn -[Z.sub Z.of_nat]; repeat case_match; try done; lia. Qed.

(** A method that scans one row and computes its result from it. *)
Ltac scan_method l f :=
  eapply read_weaken; [eapply (read_then _ _ _ f); [apply l|try done]
    |intros ? ? (ra & ? & ->); exists ra; split; [done|]; by destruct ra].

Lemma PostDB_laws : StorageLaws D.
Proof.
  split; intros.
  - apply write_writes, db_write_then.
  - apply write_writes, db_write_then.
  - apply write_writes, db_write_then.
  - apply write_writes, db_write_then.
  - scan_method (scan_one_read TBlock) (fun b => Ok (blk_Round b)).
  - scan_method (scan_one_read TBlock) (fun b => Ok (blk_Hash b)).
  - scan_method scan_latest_read (fun b => Ok (blk_Hash b)).
  - scan_method scan_latest_read (fun b => Ok (blk_Round b)).
  - eapply read_weaken; [eapply (read_attempt _ _ _ (fun r => match r with
      | Err err => if errors_Is err ErrNoRows then Err ErrNoRoundsIndexed else Err err
      | Ok i => Ok (ir_Round i) end)); [apply (scan_one_read TIndexedRound)| |done]|].
    + intros [i|err] d; [done|]. by destruct (errors_Is err ErrNoRows).
    + intros T r (ra & Hra & ->). exists ra. split; [done|].
      destruct ra as [|e]; [done|]. by destruct Hra as [-> _].
  - eapply read_weaken; [eapply (read_attempt _ _ _ (fun r => match r with
      | Err err => if errors_Is err ErrNoRows then Ok 0 else Err err
      | Ok i => Ok (ir_Round i) end)); [apply (scan_one_read TIndexedRound)| |done]|].
    + intros [i|err] d; [done|]. by destruct (errors_Is err ErrNoRows).
    + intros T r (ra & Hra & ->). exists ra. split; [done|].
      destruct ra as [|e]; [done|]. by destruct Hra as [-> _].
  - eapply read_weaken; [eapply (read_then _ _ _ Ok); [apply (scan_one_read TTransaction)|done]|].
    intros T r (ra & Hra & ->). by destruct ra.
  - apply scan_block_read.
  - apply scan_block_read.
  - scan_method scan_block_read (fun b => Ok (Z.of_nat (length (blk_Transactions b)))).
  - scan_method scan_block_read (fun b => Ok (Z.of_nat (length (blk_Transactions b)))).
  - scan_method scan_block_read (fun b => nth_tx i (blk_Transactions b)).
    intros b d. apply nth_tx_eq.
  - apply scan_receipt_read.
  - apply GetLogs_read.
  - done.
  - apply RunInTransaction_law.
Qed.
End PostDB.

#[export] Instance PostDB_StorageLaws `{SqlLaws D} : StorageLaws D := PostDB_laws.

(** C13: [PostDB] satisfies [StorageLaws]: on any database that executes SQL
    statements as documented, every read returns what the stored tables hold or fails
    (logs sorted by round, transaction and index; the transactions of a block in no
    particular order, so that the one at an index is only one of them), every write of
    a single row or by round has its effect, or fails, without an effect unless its
    answer was lost outside of a transaction, and the function passed to
    [RunInTransaction] takes effect as a whole or not at all.  Slices of rows are not
    covered (see [slices_not_stored]). *)
Theorem PostDB_refines_Storage (D : Type) `{SqlDB D, !SqlLaws D} :
  @StorageLaws D PostDB_Storage /\
  (forall h start stop, st_read h (PostDB_GetLogs h start stop) (logs_between start stop)) /\
  (forall h t r, st_writes h (PostDB_Upsert h t r) (WInsert t r DoUpdate)).
Proof.
  split; [apply PostDB_laws|]. split; [apply GetLogs_read|].
  intros h t r. apply write_writes, db_write_then.
Qed.

Lemma PostDB_refines_Storage_witness : @StorageLaws MemDB PostDB_Storage.
Proof. apply (PostDB_refines_Storage MemDB). Defined.
