(* ===== verification/Extern.v ===== *)
(** * Third-party libraries: go-ethereum, oasis-core and the oasis-sdk

    The gateway only calls these libraries, so their types and functions are
    parameters ([EthLib], [OasisLib]) and what the gateway relies on is stated
    as laws ([EthLibLaws]): the textual forms of hashes, addresses and bloom
    filters are read back, and a bloom filter has no false negatives.  The
    plain structs [ethtypes.Log] and [ethtypes.Header] and the results of the
    node client are records.  [ex_EthLib] and [ex_OasisLib] are concrete
    instances for witnesses. *)
From S2P Require Import Prelude GoLib Model.

(** ** go-ethereum *)
Class EthLib := {
  ehash : Type;
  eaddr : Type;
  ebloom : Type;
  etx : Type;
  ehash_eq_dec :: EqDecision ehash;
  eaddr_eq_dec :: EqDecision eaddr;
  (** [common.Hash], [common.Address] *)
  Hash_Hex : ehash -> string;
  HexToHash : string -> ehash;
  Hash_Bytes : ehash -> list byte;
  BytesToHash : list byte -> ehash;
  Address_Hex : eaddr -> string;
  HexToAddress : string -> eaddr;
  Address_Bytes : eaddr -> list byte;
  BytesToAddress : list byte -> eaddr;
  Hex2Bytes : string -> list byte;
  EncodeNonce : Z -> list byte;
  zeroAddress : eaddr;
  EmptyRootHash : ehash;
  EmptyUncleHash : ehash;
  (** [ethtypes.Bloom]; [Bloom_zero] is its zero value *)
  Bloom_zero : ebloom;
  Bloom_Add : ebloom -> list byte -> ebloom;
  Bloom_Test : ebloom -> list byte -> bool;
  Bloom_Bytes : ebloom -> list byte;
  BytesToBloom : list byte -> ebloom;
  Bloom_MarshalText : ebloom -> string;
  (** [ethtypes.Transaction]; [LatestSignerForChainID(id).Sender(tx)] with its
      error ignored is [Sender id tx] *)
  UnmarshalBinary : list byte -> result etx;
  Tx_Hash : etx -> ehash;
  Tx_RawSignatureValues : etx -> Z * Z * Z;
  Tx_ChainId : etx -> option Z;
  Sender : option Z -> etx -> eaddr;
  Tx_AccessList : etx -> list (eaddr * list ehash);
  Tx_Type : etx -> Z;
  Tx_Gas : etx -> Z;
  Tx_GasPrice : etx -> Z;
  Tx_GasTipCap : etx -> Z;
  Tx_GasFeeCap : etx -> Z;
  Tx_Nonce : etx -> Z;
  Tx_Value : etx -> Z;
  Tx_Data : etx -> list byte;
  Tx_To : etx -> option eaddr;
}.

(** [ethtypes.Log] *)
Record EthLog `{EthLib} := mkEthLog {
  el_Address : eaddr;
  el_Topics : list ehash;
  el_Data : list byte;
  el_BlockNumber : Z;
  el_TxHash : ehash;
  el_TxIndex : Z;
  el_BlockHash : ehash;
  el_Index : Z;
  el_Removed : bool;
}.

(** [ethtypes.Header], the fields the gateway fills *)
Record EthHeader `{EthLib} := mkEthHeader {
  eh_ParentHash : ehash;
  eh_UncleHash : ehash;
  eh_Coinbase : eaddr;
  eh_Root : ehash;
  eh_TxHash : ehash;
  eh_ReceiptHash : ehash;
  eh_Bloom : ebloom;
  eh_Difficulty : option Z;
  eh_Number : Z;
  eh_GasLimit : Z;
  eh_GasUsed : Z;
  eh_Time : Z;
  eh_Extra : string;
  eh_MixDigest : ehash;
  eh_Nonce : list byte;
  eh_BaseFee : option Z;
}.

Class EthLibLaws (E : EthLib) : Prop := {
  HexToHash_Hex : forall h, HexToHash (Hash_Hex h) = h;
  HexToAddress_Hex : forall a, HexToAddress (Address_Hex a) = a;
  Address_Hex_nonempty : forall a, Address_Hex a <> ""%string;
  Hex2Bytes_hex : forall bs, Hex2Bytes (hex_EncodeToString bs) = bs;
  BytesToBloom_Bytes : forall b, BytesToBloom (Bloom_Bytes b) = b;
  Hash_Bytes_BytesToHash : forall bs, (length bs <= 32)%nat ->
    Hash_Bytes (BytesToHash bs) = replicate (32 - length bs)%nat Byte.x00 ++ bs;
  Bloom_text : forall b, Bloom_MarshalText b = ("0x" +:+ hex_EncodeToString (Bloom_Bytes b))%string;
  Bloom_Add_Test : forall b x, Bloom_Test (Bloom_Add b x) x = true;
  Bloom_Add_mono : forall b x y, Bloom_Test b y = true -> Bloom_Test (Bloom_Add b x) y = true;
}.

#[export] Hint Rewrite @HexToHash_Hex @HexToAddress_Hex @BytesToBloom_Bytes @Hex2Bytes_hex using apply _ : gateway.

Lemma Hash_Hex_inj `{EthLib, !EthLibLaws H} h1 h2 : Hash_Hex h1 = Hash_Hex h2 -> h1 = h2.
Proof. intros E. rewrite <- (HexToHash_Hex h1), <- (HexToHash_Hex h2). by rewrite E. Qed.

(** ** oasis-core and the oasis-sdk *)

(** The Oasis EVM log of an event value ([indexer.Log], src/indexer/utils.go) *)
Record OasisLog `{EthLib} := mkOasisLog {
  ol_Address : eaddr;
  ol_Topics : list ehash;
  ol_Data : list byte;
}.

(** [types.Event] *)
Record Event := mkEvent {
  ev_Module : string;
  ev_Code : Z;
  ev_Value : list byte;
}.

(** [core.Parameters], the fields used; prices by denomination *)
Record CoreParameters := mkCoreParameters {
  cp_MinGasPrice : gmap string N;
  cp_MaxBatchGas : Z;
}.

(** [accounts.TransferEvent] *)
Record TransferEvent (A : Type) := mkTransferEvent {
  te_To : A;
  te_Denomination : string;
  te_Amount : N;
}.
Arguments mkTransferEvent {A} _ _ _.
Arguments te_To {A} _.
Arguments te_Denomination {A} _.
Arguments te_Amount {A} _.

Class OasisLib `{EthLib} := {
  ohash : Type;
  oheader : Type;
  oaddr : Type;
  CallResult : Type;
  RuntimeInfoResponse : Type;
  oaddr_eq_dec :: EqDecision oaddr;
  (** [hash.Hash] and [block.Header] *)
  ohash_Hex : ohash -> string;
  EncodedHash : oheader -> ohash;
  PreviousHash : oheader -> ohash;
  StateRoot : oheader -> ohash;
  IORoot : oheader -> ohash;
  oh_Round : oheader -> Z;
  oh_Timestamp : oheader -> Z;
  oh_HeaderType : oheader -> Z;
  EpochTransition : Z;
  Normal : Z;
  (** [types.CallResult] *)
  IsSuccess : CallResult -> bool;
  cr_Ok : CallResult -> list byte;
  (** [cbor.Marshal] of a block row *)
  cbor_Marshal : Block -> list byte;
  (** [cbor.Unmarshal] at the types the gateway decodes *)
  cbor_bytes : list byte -> result (list byte);
  cbor_logs : list byte -> result (list OasisLog);
  cbor_log : list byte -> result OasisLog;
  (** the fee's gas price of an encoded [types.Transaction], possibly nil *)
  cbor_tx_GasPrice : list byte -> result (option N);
  (** [core.DecodeEvent]: the amounts of the [GasUsed] fields; an element that
      is not a [*core.Event] is [None] *)
  core_DecodeEvent : Event -> result (list (option (option Z)));
  accounts_DecodeEvent : Event -> result (list (option (option (TransferEvent oaddr))));
  FeeAccumulatorAddress : oaddr;
  NativeDenomination : string;
  IsNative : string -> bool;
  evm_ModuleName : string;
  core_ModuleName : string;
  accounts_ModuleName : string;
  TransferEventCode : Z;
  (** [quantity.Quantity.FromBigInt] *)
  FromBigInt : Z -> result N;
  (** [types.NewAddressRaw(types.AddressV0Secp256k1EthContext, addr)] *)
  NewAddressRaw_Secp256k1Eth : list byte -> oaddr;
  (** [rtInfo.Modules[evm.ModuleName].Version], 0 when the module is absent *)
  rt_evm_Version : RuntimeInfoResponse -> Z;
  (** [types.Transaction] of the SDK, built for a gas estimate *)
  otransaction : Type;
  SignatureAddressSpec : Type;
  NewSignatureAddressSpecSecp256k1Eth : list byte -> SignatureAddressSpec;
  secp256k1_NewSigner_Public : list byte -> list byte;
  sha512_Sum512_256 : list byte -> list byte;
  AppendAuthSignature : SignatureAddressSpec -> Z -> otransaction -> otransaction;
  (** [client.RoundLatest] *)
  RoundLatest : Z;
}.

(** [client.TransactionWithResults] *)
Record TxWithResults `{OasisLib} := mkTxWithResults {
  it_AuthProofs : list string;
  it_Body : list byte;
  it_Result : CallResult;
  it_Events : list Event;
}.

(** ** Concrete instances for witnesses *)
Record ExTx := mkExTx {
  xt_hash : string;
  xt_gas : Z;
  xt_price : Z;
  xt_to : option string;
}.

Definition ex_addr (s : string) : string := ("@" +:+ s)%string.

Fixpoint starts_with (p l : list byte) : bool :=
  match p, l with
  | [], _ => true
  | x :: p', y :: l' => Byte.eqb x y && starts_with p' l'
  | _ :: _, [] => false
  end.

Fixpoint contains (x l : list byte) : bool :=
  starts_with x l || match l with [] => false | _ :: l' => contains x l' end.

Lemma starts_with_app p l : starts_with p (p ++ l) = true.
Proof. induction p as [|x p IH]; cbn; [done|]. by rewrite Byte.byte_dec_lb. Qed.

Lemma contains_prefix x l : contains x (x ++ l) = true.
Proof.
  pose proof (starts_with_app x l) as E. destruct (x ++ l) eqn:Exl; cbn [contains]; by rewrite E.
Qed.

Lemma contains_app x y l : contains y l = true -> contains y (x ++ l) = true.
Proof. intros. induction x; cbn -[starts_with]; [done|]. rewrite IHx. apply orb_true_r. Qed.

Definition bytes_of_string (s : string) : list byte := String.list_byte_of_string s.

(** Hashes and addresses are strings with a one-letter textual prefix, a
    transaction body is its hash, a bloom filter concatenates its elements. *)
#[export] Instance ex_EthLib : EthLib := {|
  ehash := string;
  eaddr := string;
  ebloom := list byte;
  etx := ExTx;
  Hash_Hex h := ("#" +:+ h)%string;
  HexToHash := drop_string 1;
  Hash_Bytes := bytes_of_string;
  BytesToHash bs := String.string_of_list_byte (replicate (32 - length bs)%nat Byte.x00 ++ bs);
  Address_Hex := ex_addr;
  HexToAddress := drop_string 1;
  Address_Bytes := bytes_of_string;
  BytesToAddress := String.string_of_list_byte;
  Hex2Bytes s := fst (hex_DecodeString s);
  EncodeNonce n := bytes_of_string (big_String n);
  zeroAddress := "0";
  EmptyRootHash := "empty-root";
  EmptyUncleHash := "empty-uncle";
  Bloom_zero := [];
  Bloom_Add b x := x ++ b;
  Bloom_Test b x := contains x b;
  Bloom_Bytes b := b;
  BytesToBloom b := b;
  Bloom_MarshalText b := ("0x" +:+ hex_EncodeToString b)%string;
  UnmarshalBinary body := match body with
    | [] => Err (ErrNew "typed transaction too short")
    | b :: body' => Ok (mkExTx (String.string_of_list_byte body') 21000 (Z.of_N (Byte.to_N b)) (Some "to"))
    end;
  Tx_Hash := xt_hash;
  Tx_RawSignatureValues _ := (27, 1, 2);
  Tx_ChainId _ := Some 0;
  Sender _ _ := "from";
  Tx_AccessList _ := [("acc", ["key"])];
  Tx_Type _ := 0;
  Tx_Gas := xt_gas;
  Tx_GasPrice := xt_price;
  Tx_GasTipCap := xt_price;
  Tx_GasFeeCap := xt_price;
  Tx_Nonce _ := 0;
  Tx_Value _ := 7;
  Tx_Data _ := [];
  Tx_To := xt_to;
|}.

Lemma drop_string_cons c s : drop_string 1 (String c s) = s.
Proof.
  unfold drop_string. cbn. rewrite Nat.sub_0_r. induction s as [|c' s IH]; [done|]. cbn. by rewrite IH.
Qed.

#[export] Instance ex_EthLibLaws : EthLibLaws ex_EthLib.
Proof.
  split; try done; intros; cbn.
  - apply drop_string_cons.
  - apply drop_string_cons.
  - by rewrite hex_decode_encode.
  - apply String.list_byte_of_string_of_list_byte.
  - apply contains_prefix.
  - by apply contains_app.
Qed.

Record ExHeader := mkExHeader { xh_hash : string; xh_round : Z }.

(** A call result is its output, [None] when it failed; an EVM event value is
    the data of one log of contract "c". *)
#[export] Instance ex_OasisLib : OasisLib := {|
  ohash := string;
  oheader := ExHeader;
  oaddr := string;
  CallResult := option (list byte);
  RuntimeInfoResponse := string;
  ohash_Hex h := ("#" +:+ h)%string;
  EncodedHash := xh_hash;
  PreviousHash _ := "prev";
  StateRoot _ := "root";
  IORoot _ := "io";
  oh_Round := xh_round;
  oh_Timestamp := xh_round;
  oh_HeaderType h := if xh_round h mod 10 =? 0 then 3 else 1;
  EpochTransition := 3;
  Normal := 1;
  IsSuccess r := match r with Some _ => true | None => false end;
  cr_Ok r := default [] r;
  cbor_Marshal b := bytes_of_string (blk_Hash b);
  cbor_bytes bs := Ok bs;
  cbor_logs bs := Ok [mkOasisLog _ "c" ["t"] bs];
  cbor_log _ := Err (ErrNew "cbor");
  cbor_tx_GasPrice bs := match bs with [] => Err (ErrNew "cbor") | b :: _ => Ok (Some (Byte.to_N b)) end;
  core_DecodeEvent ev := match ev_Value ev with
    | [] => Err (ErrNew "core") | b :: _ => Ok [Some (Some (Z.of_N (Byte.to_N b)))] end;
  accounts_DecodeEvent ev := match ev_Value ev with
    | [] => Err (ErrNew "accounts")
    | b :: _ => Ok [Some (Some (mkTransferEvent "fees" "" (Byte.to_N b)))] end;
  FeeAccumulatorAddress := "fees";
  NativeDenomination := "";
  IsNative d := bool_decide (d = ""%string);
  evm_ModuleName := "evm";
  core_ModuleName := "core";
  accounts_ModuleName := "accounts";
  TransferEventCode := 1;
  FromBigInt z := if z <? 0 then Err (ErrNew "quantity: invalid amount") else Ok (Z.to_N z);
  NewAddressRaw_Secp256k1Eth bs := String.string_of_list_byte bs;
  rt_evm_Version i := if bool_decide (i = "evm1"%string) then 1 else 2;
  otransaction := list byte * nat;
  SignatureAddressSpec := list byte;
  NewSignatureAddressSpecSecp256k1Eth pk := pk;
  secp256k1_NewSigner_Public sk := sk;
  sha512_Sum512_256 bs := bs;
  AppendAuthSignature _ _ tx := (fst tx, S (snd tx));
  RoundLatest := MaxUint64;
|}.
