(* ===== verification/BlockModels.v ===== *)
(** * From runtime blocks to database models (src/indexer/utils.go)

    Conversion of the logs, transactions and receipts of a block to the rows
    of the database ([Logs2EthLogs], [logsBloom], [ethToModelLogs],
    [blockToModels]). *)
From S2P Require Import Prelude GoLib Model Extern.

Section BlockModels.
Context `{O : OasisLib}.

(** [defaultValidatorAddr] *)
Definition defaultValidatorAddr : string := "0x0000000000000000000000000000000088888888".

Definition Logs2EthLogs (logs : list OasisLog) (round : Z) (blockHash txHash : ehash)
    (startIndex txIndex : Z) : list EthLog :=
  imap (fun i log => mkEthLog _ (ol_Address log) (ol_Topics log) (ol_Data log) round txHash txIndex
    blockHash (startIndex + Z.of_nat i)%u64 false) logs.

(** Adds the address and the topics of one log to the filter. *)
Definition bloom_log (bin : ebloom) (log : EthLog) : ebloom :=
  foldl (fun bin b => Bloom_Add bin (Hash_Bytes b))
    (Bloom_Add bin (Address_Bytes (el_Address log))) (el_Topics log).

Definition logsBloom (logs : list EthLog) : list byte :=
  Bloom_Bytes (foldl bloom_log Bloom_zero logs).

Definition modelLog (log : EthLog) : Log :=
  mkLog (Address_Hex (el_Address log)) (map Hash_Hex (el_Topics log))
    (hex_EncodeToString (el_Data log)) (el_BlockNumber log) (Hash_Hex (el_BlockHash log))
    (Hash_Hex (el_TxHash log)) (el_TxIndex log) (el_Index log) (el_Removed log).

(** The rows of the logs, and the same rows grouped by transaction hash. *)
Definition ethToModelLogs (ethLogs : list EthLog) : list Log * gmap string (list Log) :=
  foldl (fun '(res, txLogs) log =>
    let txHash := Hash_Hex (el_TxHash log) in
    let log := modelLog log in
    (res ++ [log], <[txHash := default [] (txLogs !! txHash) ++ [log]]> txLogs))
    ([], ∅) ethLogs.

(** [txGas] *)
Record txGas := mkTxGas {
  tg_used : Z;
  tg_effectivePrice : Z;
}.

(** [String()] of a possibly nil [*big.Int] *)
Definition big_ptr_String (z : option Z) : string :=
  match z with Some z => big_String z | None => "<nil>" end.

Definition modelAccessList (l : list (eaddr * list ehash)) : list AccessTuple :=
  map (fun acc => mkAccessTuple (Address_Hex acc.1) (map Hash_Hex acc.2)) l.

(** The chain id the signer is chosen by: nil for 0. *)
Definition signerChainId (tx : etx) : option Z :=
  match Tx_ChainId tx with
  | Some chainID => if chainID =? 0 then None else Some chainID
  | None => None
  end.

(** The transaction row of the loop body of [blockToModels]. *)
Definition modelTransaction (bhash : string) (round : Z) (idx : nat) (status : Z) (ethTx : etx)
    : Transaction :=
  let '(v, r, s) := Tx_RawSignatureValues ethTx in
  mkTransaction (Hash_Hex (Tx_Hash ethTx)) (Tx_Type ethTx) status (big_ptr_String (Tx_ChainId ethTx))
    bhash round (u32 (Z.of_nat idx)) (Tx_Gas ethTx) (big_String (Tx_GasPrice ethTx))
    (big_String (Tx_GasTipCap ethTx)) (big_String (Tx_GasFeeCap ethTx)) (Tx_Nonce ethTx)
    (Address_Hex (Sender (signerChainId ethTx) ethTx))
    (match Tx_To ethTx with None => "" | Some to => Address_Hex to end)
    (big_String (Tx_Value ethTx)) (hex_EncodeToString (Tx_Data ethTx))
    (modelAccessList (Tx_AccessList ethTx)) (big_String v) (big_String r) (big_String s).

(** The receipt row, without the contract address. *)
Definition modelReceipt (tx : Transaction) (bloomHex : string) (idx : nat) (cumulativeGasUsed : Z)
    (gas : txGas) (logs : list Log) (contract : string) : Receipt :=
  mkReceipt (tx_Status tx) cumulativeGasUsed bloomHex logs (tx_Hash tx) (tx_BlockHash tx) (tg_used gas)
    (tx_Type tx) (tx_Round tx) (Z.of_nat idx) (tx_FromAddr tx) (tx_ToAddr tx) contract
    (big_String (tg_effectivePrice gas)).

(** An index expression on a slice: panics out of range. *)
Definition index {A} (l : list A) (i : nat) : result A :=
  match l !! i with Some x => Ok x | None => Err ErrPanic end.

(** The address of the created contract, for a successful creation. *)
Definition contractAddress (tx : Transaction) (results : list CallResult) (idx : nat) : result string :=
  if bool_decide (tx_ToAddr tx = ""%string) then
    res ← index results idx;
    if IsSuccess res then
      out ← cbor_bytes (cr_Ok res);
      Ok (Address_Hex (BytesToAddress out))
    else Ok ""%string
  else Ok ""%string.

(** The loop of [blockToModels] over the transactions, from index [idx] on. *)
Fixpoint models_loop (bhash bloomHex : string) (round : Z) (txLogs : gmap string (list Log))
    (txsStatus : list Z) (txsGas : list txGas) (results : list CallResult)
    (transactions : list etx) (idx : nat) (innerTxs : list Transaction)
    (innerReceipts : list Receipt) (cumulativeGasUsed : Z)
    : result (list Transaction * list Receipt * Z) :=
  match transactions with
  | [] => Ok (innerTxs, innerReceipts, cumulativeGasUsed)
  | ethTx :: rest =>
      status ← index txsStatus idx;
      let tx := modelTransaction bhash round idx status ethTx in
      gas ← index txsGas idx;
      let cumulativeGasUsed := (cumulativeGasUsed + tg_used gas)%u64 in
      let logs := default [] (txLogs !! tx_Hash tx) in
      contract ← contractAddress tx results idx;
      let receipt := modelReceipt tx bloomHex idx cumulativeGasUsed gas logs contract in
      models_loop bhash bloomHex round txLogs txsStatus txsGas results rest (S idx)
        (innerTxs ++ [tx]) (innerReceipts ++ [receipt]) cumulativeGasUsed
  end.

(** [common.HexToHash(encoded.Hex())] *)
Definition blockHash (block : oheader) : ehash := HexToHash (ohash_Hex (EncodedHash block)).

Definition blockToModels (block : oheader) (transactions : list etx) (logs : list EthLog)
    (txsStatus : list Z) (txsGas : list txGas) (results : list CallResult)
    (blockGasLimit baseFee : Z)
    : result (Block * list Transaction * list Receipt * list Log) :=
  let '(dbLogs, txLogs) := ethToModelLogs logs in
  let bhash := Hash_Hex (blockHash block) in
  let bprehash := ohash_Hex (PreviousHash block) in
  let bshash := ohash_Hex (StateRoot block) in
  let bloomData := Bloom_MarshalText (BytesToBloom (logsBloom logs)) in
  let bloomHex := hex_EncodeToString (String.list_byte_of_string bloomData) in
  let btxHash := match transactions with
    | [] => Hash_Hex EmptyRootHash
    | _ => ohash_Hex (IORoot block)
    end in
  '(innerTxs, innerReceipts, cumulativeGasUsed) ←
    models_loop bhash bloomHex (oh_Round block) txLogs txsStatus txsGas results transactions 0 [] [] 0;
  let innerHeader := mkHeader bprehash (Hash_Hex EmptyUncleHash)
    (Address_Hex (HexToAddress defaultValidatorAddr)) bshash btxHash (Hash_Hex EmptyRootHash)
    bloomData (big_String 0) (oh_Round block) blockGasLimit cumulativeGasUsed (oh_Timestamp block)
    "" "" 0 (big_String baseFee) in
  let innerBlock := mkBlock bhash (oh_Round block) innerHeader innerTxs in
  Ok (innerBlock, innerTxs, innerReceipts, dbLogs).

(** ** Lemmas *)

(** The two results of [ethToModelLogs]. *)
Lemma ethToModelLogs_spec ls :
  fst (ethToModelLogs ls) = map modelLog ls /\
  forall h, default [] (snd (ethToModelLogs ls) !! h) =
    filter (fun l => log_TxHash l = h) (map modelLog ls).
Proof.
  unfold ethToModelLogs.
  induction ls as [|l ls [IH1 IH2]] using rev_ind; [split; [done|]; intros h; cbn; by rewrite lookup_empty|].
  rewrite foldl_app. cbn.
  destruct (foldl _ _ ls) as [res m]; cbn in *. subst res. rewrite map_app. split; [done|].
  intros h. rewrite filter_app, <- IH2. cbn [snd map]. destruct (decide (Hash_Hex (el_TxHash l) = h)) as [<-|Hne].
  - rewrite lookup_insert_eq. rewrite filter_cons_True by done. done.
  - rewrite lookup_insert_ne by done. rewrite filter_cons_False by done. cbn. by rewrite app_nil_r.
Qed.

Lemma length_Logs2EthLogs logs r bh th s t : length (Logs2EthLogs logs r bh th s t) = length logs.
Proof. apply length_imap. Qed.

(** The gas used by a list of transactions. *)
Definition gas_used_sum (l : list txGas) : Z := foldr (fun g s => tg_used g + s) 0 l.

Lemma gas_used_sum_app l1 l2 : gas_used_sum (l1 ++ l2) = gas_used_sum l1 + gas_used_sum l2.
Proof. induction l1; cbn; [done|]. unfold gas_used_sum in *. lia. Qed.

Lemma result_bind_ok {A B} (m : result A) (f : A -> result B) b :
  m ≫= f = Ok b -> exists a, m = Ok a /\ f a = Ok b.
Proof. destruct m; cbn; [eauto|done]. Qed.

Lemma index_ok {A} (l : list A) i x : index l i = Ok x <-> l !! i = Some x.
Proof. unfold index. destruct (l !! i); split; congruence. Qed.

(** What the loop appends for the transaction at position [i]. *)
Definition model_at (bhash bloomHex : string) (round : Z) (txLogs : gmap string (list Log))
    (txsStatus : list Z) (txsGas : list txGas) (results : list CallResult)
    (i : nat) (ethTx : etx) (cum : Z) (tx : Transaction) (rc : Receipt) : Prop :=
  exists status gas contract,
    txsStatus !! i = Some status /\ txsGas !! i = Some gas /\
    tx = modelTransaction bhash round i status ethTx /\
    contractAddress tx results i = Ok contract /\
    rc = modelReceipt tx bloomHex i cum gas (default [] (txLogs !! tx_Hash tx)) contract.

Lemma models_loop_spec bhash bloomHex round txLogs sts gas res : forall txs idx itx irc txs' rcs' cum',
  models_loop bhash bloomHex round txLogs sts gas res txs idx itx irc
    (u64 (gas_used_sum (take idx gas))) = Ok (txs', rcs', cum') ->
  exists ntx nrc, txs' = itx ++ ntx /\ rcs' = irc ++ nrc /\
    length ntx = length txs /\ length nrc = length txs /\
    cum' = u64 (gas_used_sum (take (idx + length txs) gas)) /\
    forall i ethTx, txs !! i = Some ethTx -> exists tx rc, ntx !! i = Some tx /\ nrc !! i = Some rc /\
      model_at bhash bloomHex round txLogs sts gas res (idx + i) ethTx
        (u64 (gas_used_sum (take (S (idx + i)) gas))) tx rc.
Proof.
  induction txs as [|e txs IH]; intros idx itx irc txs' rcs' cum'; cbn [models_loop].
  - intros [= <- <- <-]. exists [], []. rewrite !app_nil_r, Nat.add_0_r. by repeat split.
  - intros (status & Hst%index_ok & (g & Hg%index_ok & (c & Hc & Hloop)%result_bind_ok)
      %result_bind_ok)%result_bind_ok.
    assert (Hsum : u64 (u64 (gas_used_sum (take idx gas)) + tg_used g) =
                   u64 (gas_used_sum (take (S idx) gas))).
    { rewrite u64_add_u64_l, (take_S_r _ _ _ Hg), gas_used_sum_app. cbn. f_equal. lia. }
    rewrite Hsum in Hloop.
    apply IH in Hloop as (ntx & nrc & -> & -> & Hl1 & Hl2 & -> & Hi).
    eexists (_ :: ntx), (_ :: nrc). rewrite <- !app_assoc. split; [done|]. split; [done|].
    cbn [length]. split; [lia|]. split; [lia|]. split; [f_equal; f_equal; f_equal; lia|].
    intros [|i] ethTx; cbn [lookup list_lookup].
    + intros [= <-]. eexists _, _. split; [done|]. split; [done|]. rewrite Nat.add_0_r.
      exists status, g, c. done.
    + intros (tx & rc & ? & ? & ?)%Hi. exists tx, rc. rewrite Nat.add_succ_r. done.
Qed.

Lemma blockToModels_inv block txs logs sts gas res lim fee blk mtx rcs dbl :
  blockToModels block txs logs sts gas res lim fee = Ok (blk, mtx, rcs, dbl) ->
  dbl = map modelLog logs /\
  blk_Hash blk = Hash_Hex (blockHash block) /\ blk_Round blk = oh_Round block /\
  blk_Transactions blk = mtx /\ length mtx = length txs /\ length rcs = length txs /\
  hd_GasUsed (blk_Header blk) = u64 (gas_used_sum (take (length txs) gas)) /\
  hd_GasLimit (blk_Header blk) = lim /\ hd_BaseFee (blk_Header blk) = big_String fee /\
  hd_Bloom (blk_Header blk) = Bloom_MarshalText (BytesToBloom (logsBloom logs)) /\
  exists bloomHex, forall i ethTx, txs !! i = Some ethTx ->
    exists tx rc, mtx !! i = Some tx /\ rcs !! i = Some rc /\
      model_at (blk_Hash blk) bloomHex (oh_Round block) (snd (ethToModelLogs logs)) sts gas res i ethTx
        (u64 (gas_used_sum (take (S i) gas))) tx rc.
Proof.
  unfold blockToModels. pose proof (ethToModelLogs_spec logs) as [Hdb _].
  destruct (ethToModelLogs logs) as [dbLogs txLogs]. cbn in Hdb. subst dbLogs.
  intros ([[innerTxs innerRcs] cum] & Hloop & [= <- <- <- <-])%result_bind_ok. cbn.
  apply (models_loop_spec _ _ _ _ _ _ _ txs 0%nat) in Hloop as (ntx & nrc & -> & -> & ? & ? & -> & Hi).
  cbn. repeat (split; [done|]). eexists. exact Hi.
Qed.

(** The loop succeeds when the three parallel slices are long enough and the
    outputs of the contract creations decode. *)
Lemma models_loop_total bhash bloomHex round txLogs sts gas res : forall txs idx itx irc cum,
  (forall i ethTx, txs !! i = Some ethTx ->
     (idx + i < length sts)%nat /\ (idx + i < length gas)%nat /\
     forall status, exists c,
       contractAddress (modelTransaction bhash round (idx + i) status ethTx) res (idx + i) = Ok c) ->
  exists r, models_loop bhash bloomHex round txLogs sts gas res txs idx itx irc cum = Ok r.
Proof.
  induction txs as [|e txs IH]; intros idx itx irc cum Hi; [by eexists|]. cbn [models_loop].
  destruct (Hi 0%nat e eq_refl) as (H1 & H2 & Hc). rewrite Nat.add_0_r in *.
  apply lookup_lt_is_Some_2 in H1 as [st Hst], H2 as [g Hg].
  rewrite (proj2 (index_ok _ _ _) Hst). cbn [mbind result_bind].
  rewrite (proj2 (index_ok _ _ _) Hg). cbn [mbind result_bind]. destruct (Hc st) as [c ->]. cbn [mbind result_bind].
  apply IH. intros i ethTx Hlook. specialize (Hi (S i) ethTx Hlook). by rewrite Nat.add_succ_r in Hi.
Qed.
End BlockModels.
