(* ===== verification/EthViews.v ===== *)
(** * Ethereum views of the database rows (src/rpc/utils/utils.go)

    [NewRPCTransaction], [ConvertToEthBlock], [DB2EthLogs], [DB2EthHeader],
    [TopicsMatch], and [db2EthReceipt] (src/indexer/utils.go): what the JSON-RPC
    interface shows of a stored block, transaction, receipt or log.  The maps
    the source builds for JSON are records, a key that holds nil is [None]. *)
From Stdlib Require Import Ascii.
From S2P Require Import Prelude GoLib Model Extern BlockModels.

Section EthViews.
Context `{O : OasisLib}.

(** [RPCTransaction] (src/rpc/utils/types.go) *)
Record RPCTransaction := mkRPCTransaction {
  rt_BlockHash : ehash;
  rt_BlockNumber : Z;
  rt_From : eaddr;
  rt_Gas : Z;
  rt_GasPrice : option Z;
  rt_GasFeeCap : option Z;
  rt_GasTipCap : option Z;
  rt_Hash : ehash;
  rt_Input : list byte;
  rt_Nonce : Z;
  rt_To : option eaddr;
  rt_TransactionIndex : Z;
  rt_Value : option Z;
  rt_Type : Z;
  rt_Accesses : list (eaddr * list ehash);
  rt_ChainID : option Z;
  rt_V : option Z;
  rt_R : option Z;
  rt_S : option Z;
}.

Definition NewRPCTransaction (dbTx : Transaction) : RPCTransaction :=
  let accesses := map (fun item =>
    (HexToAddress (at_Address item), map HexToHash (at_StorageKeys item))) (tx_AccessList dbTx) in
  mkRPCTransaction (HexToHash (tx_BlockHash dbTx)) (tx_Round dbTx)
    (if bool_decide (tx_FromAddr dbTx = ""%string) then zeroAddress else HexToAddress (tx_FromAddr dbTx))
    (tx_Gas dbTx) (big_SetString (tx_GasPrice dbTx)) (big_SetString (tx_GasFeeCap dbTx))
    (big_SetString (tx_GasTipCap dbTx)) (HexToHash (tx_Hash dbTx)) (Hex2Bytes (tx_Data dbTx))
    (tx_Nonce dbTx)
    (if bool_decide (tx_ToAddr dbTx = ""%string) then None else Some (HexToAddress (tx_ToAddr dbTx)))
    (tx_Index dbTx) (big_SetString (tx_Value dbTx)) (tx_Type dbTx) accesses
    (big_SetString (tx_ChainID dbTx)) (big_SetString (tx_V dbTx)) (big_SetString (tx_R dbTx))
    (big_SetString (tx_S dbTx)).

Definition db2EthLog (log : Log) : EthLog :=
  mkEthLog _ (HexToAddress (log_Address log)) (map HexToHash (log_Topics log))
    (fst (hex_DecodeString (log_Data log))) (log_Round log) (HexToHash (log_TxHash log))
    (log_TxIndex log) (HexToHash (log_BlockHash log)) (log_Index log) (log_Removed log).

Definition DB2EthLogs (dbLogs : list Log) : list EthLog := map db2EthLog dbLogs.

(** [block.Header.Bloom[2:]] panics on a shorter string. *)
Definition DB2EthHeader (block : Block) : result EthHeader :=
  let h := blk_Header block in
  if (String.length (hd_Bloom h) <? 2)%nat then Err ErrPanic else
  let noPrefix := drop_string 2 (hd_Bloom h) in
  let bloomData := fst (hex_DecodeString noPrefix) in
  Ok (mkEthHeader _ (HexToHash (hd_ParentHash h)) (HexToHash (hd_UncleHash h))
    (HexToAddress (hd_Coinbase h)) (HexToHash (hd_Root h)) (HexToHash (hd_TxHash h))
    (HexToHash (hd_ReceiptHash h)) (BytesToBloom bloomData) (big_SetString (hd_Difficulty h))
    (blk_Round block) (hd_GasLimit h) (hd_GasUsed h) (hd_Time h) (hd_Extra h)
    (HexToHash (hd_MixDigest h)) (EncodeNonce (hd_Nonce h)) (big_SetString (hd_BaseFee h))).

(** The JSON object of [ConvertToEthBlock]; a transaction is shown in full or
    by its hash. *)
Record RPCBlock := mkRPCBlock {
  rb_header : EthHeader;
  rb_number : Z;
  rb_extraData : string;
  rb_transactions : list (RPCTransaction + ehash);
  rb_hash : ehash;
  rb_size : Z;
  rb_totalDifficulty : Z;
}.

Definition ConvertToEthBlock (block : Block) (fullTx : bool) : result RPCBlock :=
  let transactions := map (fun dbTx =>
    let tx := NewRPCTransaction dbTx in
    if fullTx then inl tx else inr (rt_Hash tx)) (blk_Transactions block) in
  header ← DB2EthHeader block;
  Ok (mkRPCBlock header (blk_Round block)
    (if bool_decide (eh_Extra header = ""%string) then "0x" else eh_Extra header)
    transactions (HexToHash (blk_Hash block)) (Z.of_nat (length (cbor_Marshal block))) 0).

(** The JSON object of [db2EthReceipt]. *)
Record RPCReceipt := mkRPCReceipt {
  rr_status : Z;
  rr_cumulativeGasUsed : Z;
  rr_logsBloom : ebloom;
  rr_logs : list EthLog;
  rr_transactionHash : string;
  rr_gasUsed : Z;
  rr_type : Z;
  rr_blockHash : string;
  rr_blockNumber : Z;
  rr_transactionIndex : Z;
  rr_from : option string;
  rr_to : option string;
  rr_contractAddress : option string;
  rr_effectiveGasPrice : option Z;
}.

Definition nonempty (s : string) : option string :=
  if bool_decide (s = ""%string) then None else Some s.

Definition db2EthReceipt (dbReceipt : Receipt) : RPCReceipt :=
  let ethLogs := map db2EthLog (rc_Logs dbReceipt) in
  mkRPCReceipt (rc_Status dbReceipt) (rc_CumulativeGasUsed dbReceipt)
    (BytesToBloom (logsBloom ethLogs)) ethLogs (rc_TransactionHash dbReceipt) (rc_GasUsed dbReceipt)
    (rc_Type dbReceipt) (rc_BlockHash dbReceipt) (rc_Round dbReceipt) (rc_TransactionIndex dbReceipt)
    (nonempty (rc_FromAddr dbReceipt)) (nonempty (rc_ToAddr dbReceipt))
    (nonempty (rc_ContractAddress dbReceipt)) (big_SetString (rc_EffectiveGasPrice dbReceipt)).

(** The loop of [TopicsMatch] over the positions of the filter; an index out
    of range of [log.Topics] does not occur after the length check. *)
Fixpoint topics_loop (topics : list ehash) (filterTopics : list (list ehash)) (i : nat) : bool :=
  match filterTopics with
  | [] => true
  | positionFilters :: rest =>
      if (length positionFilters =? 0)%nat then topics_loop topics rest (S i)
      else if existsb (fun topic => bool_decide (topics !! i = Some topic)) positionFilters
      then topics_loop topics rest (S i)
      else false
  end.

Definition TopicsMatch (log : EthLog) (filterTopics : list (list ehash)) : bool :=
  if (length (el_Topics log) <? length filterTopics)%nat then false
  else topics_loop (el_Topics log) filterTopics 0.

(** ** Lemmas *)
Context `{!EthLibLaws H}.

Lemma map_cancel {A B} (f : A -> B) (g : B -> A) l : (forall x, g (f x) = x) -> map g (map f l) = l.
Proof. intros Hgf. rewrite map_map. rewrite (map_ext _ id) by done. apply map_id. Qed.

Lemma db2EthLog_modelLog l : db2EthLog (modelLog l) = l.
Proof.
  destruct l. unfold db2EthLog, modelLog. cbn -[hex_DecodeString hex_EncodeToString].
  rewrite hex_decode_encode, map_cancel by apply HexToHash_Hex.
  autorewrite with gateway. done.
Qed.

Lemma DB2EthLogs_modelLogs ls : DB2EthLogs (map modelLog ls) = ls.
Proof. apply map_cancel, db2EthLog_modelLog. Qed.

(** Membership in a filter built by [bloom_log]. *)
Lemma foldl_Add_elem (xs : list (list byte)) b x :
  x ∈ xs \/ Bloom_Test b x = true -> Bloom_Test (foldl Bloom_Add b xs) x = true.
Proof.
  revert b. induction xs as [|y xs IH]; intros b; cbn.
  - intros [[]%not_elem_of_nil|]; done.
  - intros Hx. apply IH. destruct Hx as [[->|?]%elem_of_cons|Hb]; [right|by left|right].
    + apply Bloom_Add_Test.
    + by apply Bloom_Add_mono.
Qed.

(** The bytes a log adds to the filter. *)
Definition log_bytes (log : EthLog) : list (list byte) :=
  Address_Bytes (el_Address log) :: map Hash_Bytes (el_Topics log).

Lemma foldl_map {A B C} (f : A -> B -> A) (g : C -> B) l a :
  foldl (fun a c => f a (g c)) a l = foldl f a (map g l).
Proof. revert a. induction l; intros; cbn; auto. Qed.

Lemma bloom_log_bytes b log : bloom_log b log = foldl Bloom_Add b (log_bytes log).
Proof. unfold bloom_log, log_bytes. cbn. apply foldl_map. Qed.

Lemma logsBloom_elem logs log x :
  log ∈ logs -> x ∈ log_bytes log -> Bloom_Test (BytesToBloom (logsBloom logs)) x = true.
Proof.
  intros Hl Hx. unfold logsBloom. rewrite BytesToBloom_Bytes.
  generalize Bloom_zero. induction logs as [|l logs IH]; intros b; [by apply not_elem_of_nil in Hl|].
  cbn. apply elem_of_cons in Hl as [<-|Hl]; [|by apply IH].
  assert (Hb : Bloom_Test (bloom_log b log) x = true)
    by (rewrite bloom_log_bytes; apply foldl_Add_elem; by left).
  clear IH Hx. revert Hb. generalize (bloom_log b log). induction logs as [|l' logs IH]; [done|].
  intros b' Hb'. cbn. apply IH. rewrite bloom_log_bytes. apply foldl_Add_elem. by right.
Qed.

Lemma topics_loop_spec topics filters i :
  topics_loop topics filters i = true <->
  forall j f, filters !! j = Some f -> f = [] \/ exists t, topics !! (i + j)%nat = Some t /\ t ∈ f.
Proof.
  revert i. induction filters as [|f filters IH]; intros i; cbn [topics_loop]; [by split|].
  assert (Hstep : forall P : Prop, (P <-> (f = [] \/ exists t, topics !! i = Some t /\ t ∈ f)) ->
    (P /\ topics_loop topics filters (S i) = true) <->
    forall j g, (f :: filters) !! j = Some g -> g = [] \/ exists t, topics !! (i + j)%nat = Some t /\ t ∈ g).
  { intros P HP. rewrite IH, HP. split.
    - intros [Hf Hrest] [|j] g; cbn; [intros [= <-]; by rewrite Nat.add_0_r|].
      intros Hg. rewrite Nat.add_succ_r. by apply Hrest.
    - intros Hall. split; [specialize (Hall 0%nat f eq_refl); by rewrite Nat.add_0_r in Hall|].
      intros j g Hg. specialize (Hall (S j) g Hg). by rewrite Nat.add_succ_r in Hall. }
  destruct f as [|a f']; cbn [length Nat.eqb].
  - rewrite <- (Hstep True); [tauto|]. split; [by left|done].
  - rewrite <- (Hstep (existsb (fun topic => bool_decide (topics !! i = Some topic)) (a :: f') = true)).
    + destruct (existsb _ _); [tauto|]. split; [done|by intros [? _]].
    + rewrite existsb_exists. setoid_rewrite bool_decide_eq_true. split.
      * intros (t & Hin & Ht). right. exists t. split; [done|]. by apply list_elem_of_In.
      * intros [?|(t & Ht & Hin)]; [done|]. exists t. split; [by apply list_elem_of_In|done].
Qed.

Lemma drop_0x s : drop_string 2 ("0x" +:+ s) = s.
Proof.
  unfold drop_string. change ("0x" +:+ s)%string with (String "0"%char (String "x"%char s)). cbn.
  rewrite Nat.sub_0_r. induction s as [|c s IH]; [done|]. cbn. by rewrite IH.
Qed.

Lemma nonempty_Some s : s <> ""%string -> nonempty s = Some s.
Proof. intros. unfold nonempty. by rewrite bool_decide_false. Qed.

(** The rows with a transaction's hash are the rows of its logs. *)
Lemma filter_modelLogs logs h :
  map db2EthLog (filter (fun l => log_TxHash l = Hash_Hex h) (map modelLog logs)) =
  filter (fun l => el_TxHash l = h) logs.
Proof.
  induction logs as [|l logs IH]; [done|]. cbn [map]. rewrite !filter_cons. cbn [log_TxHash modelLog].
  destruct (decide (el_TxHash l = h)) as [<-|Hne].
  - rewrite decide_True by done. cbn [map]. by rewrite db2EthLog_modelLog, IH.
  - rewrite decide_False; [done|]. intros ?%Hash_Hex_inj. done.
Qed.

(** Logs survive the database: converting Ethereum logs to rows and the
    rows back to Ethereum logs gives the original logs, in order. *)
Theorem log_roundtrip logs : DB2EthLogs (fst (ethToModelLogs logs)) = logs.
Proof. rewrite (proj1 (ethToModelLogs_spec logs)). apply DB2EthLogs_modelLogs. Qed.

(** Every field of the RPC object is the field of the Ethereum transaction. *)
Definition shows_tx (bhash : ehash) (round : Z) (idx : nat) (tx : etx) (rt : RPCTransaction) : Prop :=
  rt_Hash rt = Tx_Hash tx /\ rt_BlockHash rt = bhash /\ rt_BlockNumber rt = round /\
  rt_From rt = Sender (signerChainId tx) tx /\ rt_To rt = Tx_To tx /\
  rt_Gas rt = Tx_Gas tx /\ rt_Nonce rt = Tx_Nonce tx /\ rt_Type rt = Tx_Type tx /\
  rt_GasPrice rt = Some (Tx_GasPrice tx) /\ rt_GasFeeCap rt = Some (Tx_GasFeeCap tx) /\
  rt_GasTipCap rt = Some (Tx_GasTipCap tx) /\ rt_Value rt = Some (Tx_Value tx) /\
  rt_Input rt = Tx_Data tx /\ rt_Accesses rt = Tx_AccessList tx /\
  rt_ChainID rt = Tx_ChainId tx /\
  (rt_V rt, rt_R rt, rt_S rt) =
    (let '(v, r, s) := Tx_RawSignatureValues tx in (Some v, Some r, Some s)) /\
  (Z.of_nat idx < 2 ^ 32 -> rt_TransactionIndex rt = Z.of_nat idx).

Lemma NewRPCTransaction_shows bhash round idx status tx :
  shows_tx bhash round idx tx (NewRPCTransaction (modelTransaction (Hash_Hex bhash) round idx status tx)).
Proof.
  unfold shows_tx, modelTransaction. destruct (Tx_RawSignatureValues tx) as [[v r] s].
  unfold NewRPCTransaction. cbn [rt_Hash rt_BlockHash rt_BlockNumber rt_From rt_To rt_Gas rt_Nonce
    rt_Type rt_GasPrice rt_GasFeeCap rt_GasTipCap rt_Value rt_Input rt_Accesses rt_ChainID rt_V rt_R
    rt_S rt_TransactionIndex tx_Hash tx_BlockHash tx_Round tx_FromAddr tx_ToAddr tx_Gas tx_Nonce tx_Type
    tx_GasPrice tx_GasFeeCap tx_GasTipCap tx_Value tx_Data tx_AccessList tx_ChainID tx_V tx_R tx_S
    tx_Index].
  autorewrite with gateway.
  rewrite bool_decide_false by apply Address_Hex_nonempty. repeat split; try done.
  - destruct (Tx_To tx) as [a|]; [|done]. rewrite bool_decide_false by apply Address_Hex_nonempty.
    by autorewrite with gateway.
  - unfold modelAccessList. apply map_cancel. intros [a ks]. cbn.
    rewrite map_cancel by apply HexToHash_Hex. by autorewrite with gateway.
  - destruct (Tx_ChainId tx); [apply SetString_String|done].
  - intros. unfold u32. apply Z.mod_small. lia.
Qed.

(** A transaction shown over JSON-RPC is the transaction of the block: every
    field of the RPC object that is decoded from the stored row equals the
    field of the Ethereum transaction the row was made from, the sender and
    the recipient (absent for a contract creation) included. *)
Theorem rpc_transaction_faithful bhash round idx status tx :
  let rt := NewRPCTransaction (modelTransaction (Hash_Hex bhash) round idx status tx) in
  rt_Hash rt = Tx_Hash tx /\ rt_BlockHash rt = bhash /\ rt_BlockNumber rt = round /\
  rt_From rt = Sender (signerChainId tx) tx /\ rt_To rt = Tx_To tx /\
  rt_Gas rt = Tx_Gas tx /\ rt_Nonce rt = Tx_Nonce tx /\ rt_Type rt = Tx_Type tx /\
  rt_GasPrice rt = Some (Tx_GasPrice tx) /\ rt_GasFeeCap rt = Some (Tx_GasFeeCap tx) /\
  rt_GasTipCap rt = Some (Tx_GasTipCap tx) /\ rt_Value rt = Some (Tx_Value tx) /\
  rt_Input rt = Tx_Data tx /\ rt_Accesses rt = Tx_AccessList tx /\
  rt_ChainID rt = Tx_ChainId tx /\
  (rt_V rt, rt_R rt, rt_S rt) =
    (let '(v, r, s) := Tx_RawSignatureValues tx in (Some v, Some r, Some s)) /\
  (Z.of_nat idx < 2 ^ 32 -> rt_TransactionIndex rt = Z.of_nat idx).
Proof. apply NewRPCTransaction_shows. Qed.

(** The header shown for an indexed block: its number, gas limit, gas used
    and base fee are those of the block, and its bloom filter contains the
    address and every topic of every log of the block. *)
Theorem rpc_header_faithful block txs logs sts gas res lim fee blk mtx rcs dbl :
  blockToModels block txs logs sts gas res lim fee = Ok (blk, mtx, rcs, dbl) ->
  exists header, DB2EthHeader blk = Ok header /\
    eh_Number header = oh_Round block /\ eh_GasLimit header = lim /\
    eh_GasUsed header = u64 (gas_used_sum (take (length txs) gas)) /\
    eh_BaseFee header = Some fee /\
    forall log x, log ∈ logs -> x ∈ log_bytes log -> Bloom_Test (eh_Bloom header) x = true.
Proof.
  intros (_ & _ & Hr & _ & _ & _ & Hg & Hl & Hf & Hb & _)%blockToModels_inv.
  unfold DB2EthHeader. rewrite Hr, Hg, Hl, Hf, Hb, Bloom_text, drop_0x, hex_decode_encode.
  rewrite SetString_String. eexists. split; [done|]. cbn. rewrite !BytesToBloom_Bytes.
  repeat split. intros log x Hlog Hx.
  pose proof (logsBloom_elem logs log x Hlog Hx) as Ht. done.
Qed.

(** Receipts: the i-th receipt of an indexed block is the one of its i-th
    transaction: its hash, position and sender are those of the transaction,
    the logs shown are exactly the block's logs of that transaction, in order,
    and the cumulative gas is the gas used by the transactions up to and
    including it. *)
Theorem rpc_receipt_faithful block txs logs sts gas res lim fee blk mtx rcs dbl i tx :
  blockToModels block txs logs sts gas res lim fee = Ok (blk, mtx, rcs, dbl) ->
  txs !! i = Some tx ->
  exists rc, rcs !! i = Some rc /\
    let rr := db2EthReceipt rc in
    rr_transactionHash rr = Hash_Hex (Tx_Hash tx) /\ rr_transactionIndex rr = Z.of_nat i /\
    rr_blockNumber rr = oh_Round block /\ rr_blockHash rr = Hash_Hex (blockHash block) /\
    rr_from rr = Some (Address_Hex (Sender (signerChainId tx) tx)) /\
    rr_to rr = Address_Hex <$> Tx_To tx /\
    rr_logs rr = filter (fun l => el_TxHash l = Tx_Hash tx) logs /\
    (forall x log, log ∈ rr_logs rr -> x ∈ log_bytes log -> Bloom_Test (rr_logsBloom rr) x = true) /\
    rr_cumulativeGasUsed rr = u64 (gas_used_sum (take (S i) gas)) /\
    exists g, gas !! i = Some g /\ rr_gasUsed rr = tg_used g /\
      rr_effectiveGasPrice rr = Some (tg_effectivePrice g).
Proof.
  intros (_ & Hh & _ & _ & _ & _ & _ & _ & _ & _ & bl & Hi)%blockToModels_inv Htx.
  destruct (Hi i tx Htx) as (mt & rc & _ & Hrc & status & g & c & _ & Hg & Hmt & _ & Hrc').
  exists rc. split; [done|]. subst rc mt. rewrite Hh.
  unfold db2EthReceipt, modelTransaction. destruct (Tx_RawSignatureValues tx) as [[v r] s]. cbn.
  rewrite (proj2 (ethToModelLogs_spec logs)), SetString_String.
  repeat (split; [done|]). split; [apply nonempty_Some, Address_Hex_nonempty|].
  split; [destruct (Tx_To tx); cbn; [apply nonempty_Some, Address_Hex_nonempty|done]|].
  split; [apply filter_modelLogs|]. split; [intros ? ? ? ?; by eapply logsBloom_elem|].
  split; [done|]. by exists g.
Qed.

(** [TopicsMatch] implements the documented filter semantics: a log matches
    when it has at least as many topics as the filter has positions and, at
    each position, the filter is empty or contains the topic. *)
Theorem TopicsMatch_spec log filters :
  TopicsMatch log filters = true <->
  (length filters <= length (el_Topics log))%nat /\
  forall j f, filters !! j = Some f -> f = [] \/ exists t, el_Topics log !! j = Some t /\ t ∈ f.
Proof.
  unfold TopicsMatch. destruct (Nat.ltb_spec (length (el_Topics log)) (length filters)).
  - split; [done|]. intros [? _]. lia.
  - rewrite topics_loop_spec. split; [intros Hj; split; [lia|done]|by intros [_ ?]].
Qed.
End EthViews.

(** ** Witnesses: a block with two transactions and two logs *)
Definition ex_etx1 : ExTx := mkExTx "a" 21000 10 (Some "to").
Definition ex_etx2 : ExTx := mkExTx "b" 50000 12 None.

Definition ex_eth_logs : list EthLog :=
  [mkEthLog ex_EthLib "c" ["t"%string] [Byte.x01] 5 "a" 0 "h" 0 false;
   mkEthLog ex_EthLib "c" ["u"%string] [] 5 "b" 1 "h" 1 false].

Definition ex_models : result (Block * list Transaction * list Receipt * list Log) :=
  blockToModels (mkExHeader "h" 5) [ex_etx1; ex_etx2] ex_eth_logs [1; 1]
    [mkTxGas 21000 10; mkTxGas 40000 12] [Some []; Some [Byte.x41]] 100000 3.

Definition ex_model_parts : Block * list Transaction * list Receipt * list Log :=
  match ex_models with Ok p => p | Err _ => (mkBlock "" 0 ex_header [], [], [], []) end.

Definition ex_blk : Block := ex_model_parts.1.1.1.
Definition ex_rcs : list Receipt := ex_model_parts.1.2.

Lemma log_roundtrip_witness : DB2EthLogs (fst (ethToModelLogs ex_eth_logs)) = ex_eth_logs.
Proof. apply log_roundtrip. Defined.

Lemma rpc_transaction_faithful_witness :
  rt_To (NewRPCTransaction (modelTransaction "#h" 5 1 1 ex_etx2)) = None /\
  rt_TransactionIndex (NewRPCTransaction (modelTransaction "#h" 5 1 1 ex_etx2)) = 1.
Proof.
  destruct (rpc_transaction_faithful (H:=ex_EthLib) "h" 5 1 1 ex_etx2)
    as (_ & _ & _ & _ & Hto & _ & _ & _ & _ & _ & _ & _ & _ & _ & _ & _ & Hi).
  split; [exact Hto|]. apply Hi. reflexivity.
Defined.

Lemma rpc_header_faithful_witness : exists header, DB2EthHeader ex_blk = Ok header /\
  eh_GasUsed header = 61000 /\ Bloom_Test (eh_Bloom header) (bytes_of_string "u") = true.
Proof.
  destruct (rpc_header_faithful (O:=ex_OasisLib) (mkExHeader "h" 5) [ex_etx1; ex_etx2] ex_eth_logs [1; 1]
    [mkTxGas 21000 10; mkTxGas 40000 12] [Some []; Some [Byte.x41]] 100000 3 ex_blk
    ex_model_parts.1.1.2 ex_rcs ex_model_parts.2 ltac:(vm_compute; reflexivity))
    as (header & Hh & _ & _ & Hg & _ & Hb).
  exists header. split; [exact Hh|]. split; [rewrite Hg; reflexivity|].
  apply (Hb (mkEthLog ex_EthLib "c" ["u"%string] [] 5 "b" 1 "h" 1 false)).
  - right. left.
  - right. left.
Defined.

Lemma rpc_receipt_faithful_witness : exists rc, ex_rcs !! 1%nat = Some rc /\
  rr_cumulativeGasUsed (db2EthReceipt rc) = 61000 /\ rr_to (db2EthReceipt rc) = None.
Proof.
  destruct (rpc_receipt_faithful (O:=ex_OasisLib) (mkExHeader "h" 5) [ex_etx1; ex_etx2] ex_eth_logs [1; 1]
    [mkTxGas 21000 10; mkTxGas 40000 12] [Some []; Some [Byte.x41]] 100000 3 ex_blk
    ex_model_parts.1.1.2 ex_rcs ex_model_parts.2 1 ex_etx2 ltac:(vm_compute; reflexivity) eq_refl)
    as (rc & Hrc & _ & _ & _ & _ & _ & Hto & _ & _ & Hc & _).
  exists rc. split; [exact Hrc|]. split; [exact Hc|exact Hto].
Defined.
