(* ===== verification/StoreBlock.v ===== *)
(** * Indexing a block: [StoreBlockData] (src/indexer/utils.go)

    The decoding of the transaction results of a runtime block, the database
    transaction that stores the resulting rows, and the event for the event
    system, which is sent on a channel of ten slots and dropped when there is no
    room.  The result of the method is the event it has offered and the block data
    for the observer and the block notifier. *)
From S2P Require Import Prelude GoLib Model Sql Storage Psql Extern BlockModels EthViews.

(** [filters.ChainEvent] (src/filters/event_system.go) *)
Record ChainEvent `{EthLib} := mkChainEvent {
  ce_Block : Block;
  ce_Hash : ehash;
  ce_Logs : list Log;
}.

Section StoreBlock.
Context `{O : OasisLib}.

(** ** Decoding *)

(** The variables of the loop over the transaction results. *)
Record decodeState := mkDecodeState {
  ds_ethTxs : list etx;
  ds_logs : list EthLog;
  ds_txsStatus : list Z;
  ds_txsGas : list txGas;
  ds_results : list CallResult;
  ds_median : option N;
}.

Definition decode_init : decodeState := mkDecodeState [] [] [] [] [] None.

(** [txGasUsed], [txGasSpent] and [oasisLogs] of one transaction. *)
Record eventState := mkEventState {
  es_gasUsed : Z;
  es_gasSpent : Z;
  es_logs : list OasisLog;
}.

(** One decoded core event; at most one may report the gas used. *)
Definition core_event (gasUsed : Z) (ev : option (option Z)) : result Z :=
  match ev with
  | None => Err (ErrNew "invalid core event")
  | Some None => Ok gasUsed
  | Some (Some amount) =>
      if gasUsed =? 0 then Ok amount else Err (ErrNew "multiple GasUsedEvent for a transaction")
  end.

(** One decoded accounts event: fees are the transfers of native tokens to the
    fee accumulator. *)
Definition transfer_event (gasSpent : Z) (ev : option (option (TransferEvent oaddr))) : Z :=
  match ev with
  | None => gasSpent
  | Some None => gasSpent
  | Some (Some te) =>
      if negb (bool_decide (te_To te = FeeAccumulatorAddress)) then gasSpent
      else if negb (IsNative (te_Denomination te)) then gasSpent
      else gasSpent + Z.of_N (te_Amount te)
  end.

(** The body of the loop over the events of a transaction. *)
Definition event_step (s : eventState) (event : Event) : result eventState :=
  if bool_decide (ev_Module event = evm_ModuleName) && (ev_Code event =? 1) then
    match cbor_logs (ev_Value event) with
    | Err err =>
        match cbor_log (ev_Value event) with
        | Err _ => Err err
        | Ok log => Ok (mkEventState (es_gasUsed s) (es_gasSpent s) (es_logs s ++ [log]))
        end
    | Ok logs => Ok (mkEventState (es_gasUsed s) (es_gasSpent s) (es_logs s ++ logs))
    end
  else if bool_decide (ev_Module event = core_ModuleName) then
    events ← core_DecodeEvent event;
    gasUsed ← rfold core_event (es_gasUsed s) events;
    Ok (mkEventState gasUsed (es_gasSpent s) (es_logs s))
  else if bool_decide (ev_Module event = accounts_ModuleName) && (ev_Code event =? TransferEventCode) then
    match accounts_DecodeEvent event with
    | Err _ => Ok s
    | Ok events =>
        Ok (mkEventState (es_gasUsed s) (foldl transfer_event (es_gasSpent s) events) (es_logs s))
    end
  else Ok s.

Definition is_ethereum (item : TxWithResults) : bool :=
  match it_AuthProofs item with
  | [m] => bool_decide (m = "evm.ethereum.v0"%string)
  | _ => false
  end.

Definition set_median (st : decodeState) (m : option N) : decodeState :=
  mkDecodeState (ds_ethTxs st) (ds_logs st) (ds_txsStatus st) (ds_txsGas st) (ds_results st) m.

(** [txEffectivePrice]; [big.Int.Div] panics on a zero divisor. *)
Definition effectivePrice (ethTx : etx) (gasSpent gasUsed : Z) : result Z :=
  if 0 <? gasSpent then if gasUsed =? 0 then Err ErrPanic else Ok (gasSpent / gasUsed)
  else Ok (Tx_GasPrice ethTx).

(** The body of the loop over [txResults] ([n] of them) at [txIndex]. *)
Definition decode_item (bhash : ehash) (blockNum n : Z) (st : decodeState)
    (ix : nat * TxWithResults) : result decodeState :=
  let '(txIndex, item) := ix in
  let half := n / 2 - 1 in
  if negb (is_ethereum item) then
    match ds_median st with
    | None =>
        if half <=? Z.of_nat txIndex then
          match cbor_tx_GasPrice (it_Body item) with
          | Err _ => Ok st
          | Ok price => Ok (set_median st price)
          end
        else Ok st
    | Some _ => Ok st
    end
  else
    ethTx ← UnmarshalBinary (it_Body item);
    let median := match ds_median st with
      | None =>
          if half <? Z.of_nat txIndex then
            match FromBigInt (Tx_GasPrice ethTx) with
            | Err _ => None
            | Ok gasPrice => Some gasPrice
            end
          else None
      | Some m => Some m
      end in
    let status := if IsSuccess (it_Result item) then ReceiptStatusSuccessful else ReceiptStatusFailed in
    let ethTxs := ds_ethTxs st ++ [ethTx] in
    ev ← rfold event_step (mkEventState 0 0 []) (it_Events item);
    let logs := ds_logs st ++ Logs2EthLogs (es_logs ev) blockNum bhash (Tx_Hash ethTx)
      (Z.of_nat (length (ds_logs st))) (u32 (Z.of_nat (length ethTxs) - 1)) in
    let gasUsed := if es_gasUsed ev =? 0 then Tx_Gas ethTx else es_gasUsed ev in
    price ← effectivePrice ethTx (es_gasSpent ev) gasUsed;
    Ok (mkDecodeState ethTxs logs (ds_txsStatus st ++ [status])
      (ds_txsGas st ++ [mkTxGas gasUsed price]) (ds_results st ++ [it_Result item]) median).

Definition decode (header : oheader) (txResults : list TxWithResults) : result decodeState :=
  rfold (decode_item (blockHash header) (oh_Round header) (Z.of_nat (length txResults)))
    decode_init (imap (fun i x => (i, x)) txResults).

(** The rows of a block. *)
Record blockModels := mkBlockModels {
  bm_blk : Block;
  bm_txs : list Transaction;
  bm_receipts : list Receipt;
  bm_logs : list Log;
  bm_median : option N;
}.

(** [StoreBlockData] up to the database transaction. *)
Definition toModels (header : oheader) (txResults : list TxWithResults)
    (coreParameters : option CoreParameters) : result blockModels :=
  st ← decode header txResults;
  let minGasPrice := match coreParameters with
    | Some p => Z.of_N (default 0%N (cp_MinGasPrice p !! NativeDenomination))
    | None => 0 end in
  let blockGasLimit := match coreParameters with Some p => cp_MaxBatchGas p | None => 0 end in
  '(blk, txs, receipts, dbLogs) ← blockToModels header (ds_ethTxs st) (ds_logs st) (ds_txsStatus st)
    (ds_txsGas st) (ds_results st) blockGasLimit minGasPrice;
  Ok (mkBlockModels blk txs receipts dbLogs (ds_median st)).

(** ** Storing *)
Section Storing.
Context `{Storage D}.

(** One transaction.  A failed transaction does not replace a stored one; a
    successful one replaces a failed one.  When the lookup fails with another
    error than [sql.ErrNoRows] the function passed to [RunInTransaction]
    returns [err], which is nil at that point. *)
Definition store_tx (h : handle) (upserted : list Transaction) (tx : Transaction)
    : M D (bool * list Transaction) :=
  let upsert :=
    _ ← st_Upsert h TTransaction tx;
    mret (true, upserted ++ [tx]) in
  if tx_Status tx =? ReceiptStatusFailed then
    _ ← st_InsertIfNotExists h TTransaction tx;
    mret (true, upserted)
  else
    attempt (st_GetTransaction h (tx_Hash tx)) (fun earlierTx => match earlierTx with
      | Err e => if errors_Is e ErrNoRows then upsert else mret (false, upserted)
      | Ok earlierTx =>
          if tx_Status earlierTx =? ReceiptStatusFailed then upsert
          else fail (ErrNew "duplicate tx hash")
      end).

Definition store_receipt (h : handle) (upserted : list Receipt) (receipt : Receipt)
    : M D (bool * list Receipt) :=
  let upsert :=
    _ ← st_Upsert h TReceipt receipt;
    mret (true, upserted ++ [receipt]) in
  if rc_Status receipt =? ReceiptStatusFailed then
    _ ← st_InsertIfNotExists h TReceipt receipt;
    mret (true, upserted)
  else
    attempt (st_GetTransactionReceipt h (rc_TransactionHash receipt)) (fun earlier => match earlier with
      | Err e => if errors_Is e ErrNoRows then upsert else mret (false, upserted)
      | Ok earlier =>
          if rc_Status earlier =? ReceiptStatusFailed then upsert
          else fail (ErrNew "duplicate receipt tx hash")
      end).

Definition store_log (h : handle) (_ : unit) (log : Log) : M D unit := st_Insert h TLog log.

(** The function run in the transaction; the captured variables
    [upsertedTxes] and [upsertedReceipts] are its result. *)
Definition store_models (m : blockModels) (h : handle)
    : M D (list Transaction * list Receipt) :=
  '(go, upsertedTxes) ← mloop (store_tx h) [] (bm_txs m);
  if (go : bool) then
    '(go, upsertedReceipts) ← mloop (store_receipt h) [] (bm_receipts m);
    if (go : bool) then
      _ ← mfold (store_log h) tt (bm_logs m);
      _ ← st_Insert h TBlock (bm_blk m);
      _ ← st_Upsert h TIndexedRound (mkIndexedRound Continues (blk_Round (bm_blk m)));
      mret (upsertedTxes, upsertedReceipts)
    else mret (upsertedTxes, upsertedReceipts)
  else mret (upsertedTxes, []).

(** The method up to the end of the database transaction: the chain event and the
    block data are made of what was stored. *)
Definition store_block (header : oheader) (txResults : list TxWithResults)
    (coreParameters : option CoreParameters) : M D (ChainEvent * BlockData) :=
  match toModels header txResults coreParameters with
  | Err e => fail e
  | Ok m =>
      '(upsertedTxes, upsertedReceipts) ← st_RunInTransaction HDb (store_models m);
      let chainEvent := mkChainEvent _ (bm_blk m) (blockHash header) (bm_logs m) in
      let bd := mkBlockData (bm_blk m) upsertedReceipts upsertedTxes (bm_median m) in
      mret (chainEvent, bd)
  end.

(** What [ib.subscribe.ChainChan()] returns: nil until an event system has
    subscribed, and then its channel, with the events it holds. *)
Definition chain_chan : Type := option (list ChainEvent).

Definition chainEvChanSize : nat := 10.

(** [select { case ch <- ev: default: }]: a send on a nil channel, or on one with no
    room, is not done. *)
Definition send_or_drop (ev : ChainEvent) (ch : chain_chan) : chain_chan :=
  match ch with
  | None => None
  | Some buf => if (length buf <? chainEvChanSize)%nat then Some (buf ++ [ev]) else Some buf
  end.

Definition StoreBlockData (header : oheader) (txResults : list TxWithResults)
    (coreParameters : option CoreParameters) : M (D * chain_chan) (ChainEvent * BlockData) := fun '(d, ch) =>
  match store_block header txResults coreParameters d with
  | (Err e, d') => (Err e, (d', ch))
  | (Ok (chainEvent, bd), d') => (Ok (chainEvent, bd), (d', send_or_drop chainEvent ch))
  end.

(** ** Reference: the effect of indexing a block on the tables

    A transaction that is stored already is kept unless the stored one had
    failed and the new one has not; a second success is an error.  The same for
    receipts.  Logs and the block itself must be new. *)
Definition put_tx (T : Tables) (tx : Transaction) : result Tables :=
  match t_txs T !! (tx_Hash tx, 0) with
  | None => Ok (put TTransaction tx T)
  | Some earlier =>
      if tx_Status tx =? ReceiptStatusFailed then Ok T
      else if tx_Status earlier =? ReceiptStatusFailed then Ok (put TTransaction tx T)
      else Err (ErrNew "duplicate tx hash")
  end.

Definition put_receipt (T : Tables) (rc : Receipt) : result Tables :=
  match t_receipts T !! (rc_TransactionHash rc, 0) with
  | None => Ok (put TReceipt rc T)
  | Some earlier =>
      if rc_Status rc =? ReceiptStatusFailed then Ok T
      else if rc_Status earlier =? ReceiptStatusFailed then Ok (put TReceipt rc T)
      else Err (ErrNew "duplicate receipt tx hash")
  end.

(** The logs, the block and the last indexed round. *)
Definition put_rest (m : blockModels) (T : Tables) : result Tables :=
  T ← rfold (put_new TLog) T (bm_logs m);
  T ← put_new TBlock T (bm_blk m);
  Ok (put TIndexedRound (mkIndexedRound Continues (blk_Round (bm_blk m))) T).

Definition put_models (m : blockModels) (T : Tables) : result Tables :=
  T ← rfold put_tx T (bm_txs m);
  T ← rfold put_receipt T (bm_receipts m);
  put_rest m T.

Definition succeeded_txs (l : list Transaction) : list Transaction :=
  filter (fun tx => tx_Status tx <> ReceiptStatusFailed) l.
Definition succeeded_receipts (l : list Receipt) : list Receipt :=
  filter (fun rc => rc_Status rc <> ReceiptStatusFailed) l.

(** ** The storing function implements the reference *)
Context `{!StorageLaws D}.

Lemma put_tx_wf T tx T' : tables_wf T -> put_tx T tx = Ok T' -> tables_wf T'.
Proof. unfold put_tx. intros. repeat case_match; simplify_eq; try done; by apply (put_wf TTransaction). Qed.

Lemma put_receipt_wf T rc T' : tables_wf T -> put_receipt T rc = Ok T' -> tables_wf T'.
Proof. unfold put_receipt. intros. repeat case_match; simplify_eq; try done; by apply (put_wf TReceipt). Qed.

Definition put_tx_step (ups : list Transaction) (tx : Transaction) (T : Tables)
    : result (list Transaction * Tables) :=
  T' ← put_tx T tx; Ok (ups ++ succeeded_txs [tx], T').

Definition put_receipt_step (ups : list Receipt) (rc : Receipt) (T : Tables)
    : result (list Receipt * Tables) :=
  T' ← put_receipt T rc; Ok (ups ++ succeeded_receipts [rc], T').

Lemma tx_loop_ext {A} (m : M D (bool * A)) f g :
  tx_loop m f -> (forall T, f T = g T) -> tx_loop m g.
Proof.
  intros Hm He d Hd. destruct (Hm d Hd) as (r & d' & ? & ? & Hr). exists r, d'. split; [done|].
  split; [done|]. unfold tx_ok, tx_err in *. destruct r as [[[|] ?]|]; rewrite <- ?He; done.
Qed.

Lemma tx_loop_fail {A} e : tx_loop (fail e : M D (bool * A)) (fun _ => Err e).
Proof. intros d _. exists (Err e), d. split; [done|]. split; [done|]. left. done. Qed.

Lemma GetTransaction_key T hash r : tables_wf T ->
  one_row (t:=TTransaction) (fun x => bool_decide (tx_Hash x = hash)) T r ->
  r = by_key (t:=TTransaction) (hash, 0) T.
Proof.
  intros Hwf. apply one_row_key; [done|]. intros x. rewrite bool_decide_eq_true. cbn.
  split; [by intros <-|by intros [= <-]].
Qed.

Lemma store_tx_loop ups tx : tx_loop (store_tx HTx ups tx) (put_tx_step ups tx).
Proof.
  unfold store_tx, put_tx_step, put_tx, succeeded_txs.
  destruct (Z.eqb_spec (tx_Status tx) ReceiptStatusFailed) as [Hs|Hs].
  - eapply tx_loop_ext; [apply tx_prog_loop, (InsertIfNotExists_prog TTransaction)|]. intros T.
    rewrite filter_cons_False by (by intros ?). rewrite app_nil_r. cbn.
    by destruct (t_txs T !! (tx_Hash tx, 0)).
  - rewrite filter_cons_True by done.
    eapply tx_loop_ext; [eapply (tx_lookup_loop _ _ _ ups (by_key (t:=TTransaction) (tx_Hash tx, 0))
      (fun r => match r with
        | Ok e => if tx_Status e =? ReceiptStatusFailed
                  then _ ← st_Upsert HTx TTransaction tx; mret (true, ups ++ [tx])
                  else fail (ErrNew "duplicate tx hash")
        | Err e => if errors_Is e ErrNoRows
                   then _ ← st_Upsert HTx TTransaction tx; mret (true, ups ++ [tx]) else mret (false, ups) end)
      (fun r T => match r with
        | Ok e => if tx_Status e =? ReceiptStatusFailed
                  then Ok (ups ++ [tx], put TTransaction tx T) else Err (ErrNew "duplicate tx hash")
        | Err _ => Ok (ups ++ [tx], put TTransaction tx T) end))|].
    + apply st_law_GetTransaction.
    + intros T r ? Hr%GetTransaction_key; [|done]. by rewrite Hr.
    + done.
    + intros T. unfold by_key. destruct (rows TTransaction T !! _) as [e|].
      * destruct (tx_Status e =? ReceiptStatusFailed); [|apply tx_loop_fail].
        eapply tx_loop_ext; [apply tx_prog_loop, (Upsert_prog TTransaction)|done].
      * eapply tx_loop_ext; [apply tx_prog_loop, (Upsert_prog TTransaction)|done].
    + intros T. unfold by_key. cbn. destruct (t_txs T !! _) as [e|]; [|done].
      by destruct (tx_Status e =? ReceiptStatusFailed).
Qed.

(** The stored receipt without its logs, as the status check sees it. *)
Lemma loaded_receipt_key T hash r : tables_wf T -> loaded_receipt hash T r ->
  rmap (fun rc => with_Logs rc []) r = by_key (t:=TReceipt) (hash, 0) T.
Proof.
  intros Hwf (r0 & H0' & Hr).
  assert (Hk : r0 = by_key (t:=TReceipt) (hash, 0) T).
  { eapply one_row_key; [done| |done]. intros x. rewrite bool_decide_eq_true. cbn.
    split; [by intros <-|by intros [= <-]]. }
  rewrite <- Hk. destruct r0 as [x|e]; [|by subst r]. destruct Hr as (logs & _ & ->). cbn. f_equal.
  destruct H0' as [_ [k Hx]]. destruct (Hwf TReceipt k x Hx) as [_ Hc]. cbn in Hc. rewrite <- Hc at 2.
  by destruct x.
Qed.

Lemma store_receipt_loop ups rc : tx_loop (store_receipt HTx ups rc) (put_receipt_step ups rc).
Proof.
  unfold store_receipt, put_receipt_step, put_receipt, succeeded_receipts.
  destruct (Z.eqb_spec (rc_Status rc) ReceiptStatusFailed) as [Hs|Hs].
  - eapply tx_loop_ext; [apply tx_prog_loop, (InsertIfNotExists_prog TReceipt)|]. intros T.
    rewrite filter_cons_False by (by intros ?). rewrite app_nil_r. cbn.
    by destruct (t_receipts T !! (rc_TransactionHash rc, 0)).
  - rewrite filter_cons_True by done.
    eapply tx_loop_ext; [eapply (tx_lookup_loop _ _ _ ups
      (fun T => rmap rc_Status (by_key (t:=TReceipt) (rc_TransactionHash rc, 0) T))
      (fun r => match r with
        | Ok st => if st =? ReceiptStatusFailed
                   then _ ← st_Upsert HTx TReceipt rc; mret (true, ups ++ [rc])
                   else fail (ErrNew "duplicate receipt tx hash")
        | Err e => if errors_Is e ErrNoRows
                   then _ ← st_Upsert HTx TReceipt rc; mret (true, ups ++ [rc]) else mret (false, ups) end)
      (fun r T => match r with
        | Ok st => if st =? ReceiptStatusFailed
                   then Ok (ups ++ [rc], put TReceipt rc T) else Err (ErrNew "duplicate receipt tx hash")
        | Err _ => Ok (ups ++ [rc], put TReceipt rc T) end))|].
    + apply st_law_GetTransactionReceipt.
    + intros T r ? Hr%loaded_receipt_key; [|done]. rewrite <- Hr. by destruct r.
    + done.
    + intros T. unfold by_key. destruct (rows TReceipt T !! _) as [e|]; cbn [rmap].
      * destruct (rc_Status e =? ReceiptStatusFailed); [|apply tx_loop_fail].
        eapply tx_loop_ext; [apply tx_prog_loop, (Upsert_prog TReceipt)|done].
      * eapply tx_loop_ext; [apply tx_prog_loop, (Upsert_prog TReceipt)|done].
    + intros T. unfold by_key. cbn. destruct (t_receipts T !! _) as [e|]; [|done].
      cbn. by destruct (rc_Status e =? ReceiptStatusFailed).
Qed.

(** The whole function of the transaction. *)
Lemma put_tx_steps l : forall ups T,
  rfold (fun '(ups, T) tx => put_tx_step ups tx T) (ups, T) l =
  (T' ← rfold put_tx T l; Ok (ups ++ succeeded_txs l, T')).
Proof.
  induction l as [|tx l IH]; intros ups T; cbn [rfold]; [cbn; by rewrite app_nil_r|].
  assert (Hs : put_tx_step ups tx T = (T' ← put_tx T tx; Ok (ups ++ succeeded_txs [tx], T'))) by done.
  rewrite Hs. destruct (put_tx T tx) as [T'|e]; [|done]. cbn [mbind result_bind].
  rewrite IH. rewrite <- app_assoc. unfold succeeded_txs. by rewrite <- filter_app.
Qed.

Lemma put_receipt_steps l : forall ups T,
  rfold (fun '(ups, T) rc => put_receipt_step ups rc T) (ups, T) l =
  (T' ← rfold put_receipt T l; Ok (ups ++ succeeded_receipts l, T')).
Proof.
  induction l as [|rc l IH]; intros ups T; cbn [rfold]; [cbn; by rewrite app_nil_r|].
  assert (Hs : put_receipt_step ups rc T = (T' ← put_receipt T rc; Ok (ups ++ succeeded_receipts [rc], T'))) by done.
  rewrite Hs. destruct (put_receipt T rc) as [T'|e]; [|done]. cbn [mbind result_bind].
  rewrite IH. rewrite <- app_assoc. unfold succeeded_receipts. by rewrite <- filter_app.
Qed.

Lemma rfold_wf {A} (g : Tables -> A -> result Tables) :
  (forall T x T', tables_wf T -> g T x = Ok T' -> tables_wf T') ->
  forall l T T', tables_wf T -> rfold g T l = Ok T' -> tables_wf T'.
Proof.
  intros Hg. induction l as [|x l IH]; intros T T' HT; cbn; [by intros [= <-]|].
  destruct (g T x) as [T1|] eqn:E; [|done]. cbn. eauto.
Qed.

Lemma with_unit_wf {A} (g : Tables -> A -> result Tables) (x : A) :
  (forall T T', tables_wf T -> g T x = Ok T' -> tables_wf T') ->
  wf_fun (fun T => with_unit (g T x)).
Proof. intros Hg T [] T' HT E. destruct (g T x) eqn:Eg; simplify_eq/=. eauto. Qed.

Lemma store_rest_prog {X} (m : blockModels) (x : X) :
  tx_prog
    (_ ← mfold (store_log HTx) tt (bm_logs m);
     _ ← st_Insert HTx TBlock (bm_blk m);
     _ ← st_Upsert HTx TIndexedRound (mkIndexedRound Continues (blk_Round (bm_blk m)));
     mret x) (fun T => T' ← put_rest m T; Ok (x, T')).
Proof.
  pose (ir := mkIndexedRound Continues (blk_Round (bm_blk m))).
  eapply tx_prog_ext.
  - eapply (tx_prog_bind _ _ (fun T => with_unit (rfold (put_new TLog) T (bm_logs m)))
      (fun _ T => T' ← put_new TBlock T (bm_blk m); Ok (x, put TIndexedRound ir T'))).
    + apply tx_prog_mfold; [intros u l; apply (Insert_prog TLog)|].
      intros T l T'. apply (put_new_wf TLog).
    + apply (with_unit_wf (rfold (put_new TLog))). intros T T'. apply rfold_wf.
      intros T1 l T2. apply (put_new_wf TLog).
    + intros _. eapply tx_prog_ext.
      * eapply (tx_prog_bind _ _ (fun T => with_unit (put_new TBlock T (bm_blk m)))
          (fun _ T => Ok (x, put TIndexedRound ir T))); [apply (Insert_prog TBlock)| |].
        -- apply (with_unit_wf (put_new TBlock)). intros T T'. apply (put_new_wf TBlock).
        -- intros _. eapply tx_prog_ext; [eapply (tx_prog_bind _ _ _ (fun _ T => Ok (x, T)))|].
           ++ apply (Upsert_prog TIndexedRound).
           ++ intros T [] T' HT [= <-]. by apply (put_wf TIndexedRound).
           ++ intros _. apply tx_prog_ret.
           ++ done.
      * intros T. cbn beta. by destruct (put_new TBlock T (bm_blk m)).
  - intros T. unfold put_rest. cbn beta. destruct (rfold (put_new TLog) T (bm_logs m)) as [T1|]; [|done].
    cbn [with_unit mbind result_bind]. by destruct (put_new TBlock T1 (bm_blk m)).
Qed.

Lemma store_receipts_spec m (ut : list Transaction) (d : D) : tables_wf (st_tabs HTx d) ->
  exists r d',
    ('(go, ur) ← mloop (store_receipt HTx) [] (bm_receipts m);
     if (go : bool) then
       _ ← mfold (store_log HTx) tt (bm_logs m);
       _ ← st_Insert HTx TBlock (bm_blk m);
       _ ← st_Upsert HTx TIndexedRound (mkIndexedRound Continues (blk_Round (bm_blk m)));
       mret (ut, ur)
     else mret (ut, ur)) d = (r, d') /\ st_view d' = st_view d /\
  match r with
  | Ok (ut', ur) =>
      (exists T, (T ← rfold put_receipt (st_tabs HTx d) (bm_receipts m); put_rest m T) = Ok T /\
         st_tabs HTx d' = T /\ st_keeps d d' /\ ut' = ut /\ ur = succeeded_receipts (bm_receipts m)) \/
      (~ st_ready HTx d /\ st_tabs HTx d' = st_view d)
  | Err e => ((T ← rfold put_receipt (st_tabs HTx d) (bm_receipts m); put_rest m T) = Err e /\
              (st_up d -> st_up d')) \/ ~ st_ready HTx d
  end.
Proof.
  intros Hwf.
  destruct (tx_loop_mloop _ _ store_receipt_loop) with (l := bm_receipts m) (b := @nil Receipt) (d := d)
    as (r1 & d1 & E1 & Hv1 & H1); [|done|].
  { intros b x T ur T' HT (T1 & E & [= <- <-])%result_bind_ok. by eapply put_receipt_wf. }
  unfold tx_ok, tx_err in H1. rewrite put_receipt_steps in H1.
  destruct r1 as [[[|] ur]|e]; [| |rewrite (M_bind_err _ _ _ _ _ E1); eexists _, d1; do 2 (split; [done|]);
    destruct H1 as [[H1 ?]|?]; [left|by right]; destruct (rfold put_receipt _ _); simplify_eq/=; done].
  2: { rewrite (M_bind_ok _ _ _ _ _ E1). eexists _, d1. do 2 (split; [done|]). by right. }
  destruct H1 as (T1 & H1 & HT1 & Hk1).
  apply result_bind_ok in H1 as (T1' & HT & [= <- ->]). rewrite HT. cbn [mbind result_bind].
  rewrite (M_bind_ok _ _ _ _ _ E1).
  assert (Hwf1 : tables_wf (st_tabs HTx d1)).
  { rewrite HT1. eapply rfold_wf; [apply put_receipt_wf|exact Hwf|exact HT]. }
  destruct (store_rest_prog m (ut, succeeded_receipts (bm_receipts m)) d1 Hwf1) as (r2 & d2 & E2 & Hv2 & H2).
  exists r2, d2. split; [exact E2|]. split; [congruence|]. unfold tx_ok, tx_err in H2. rewrite HT1 in H2.
  destruct r2 as [[ut' ur]|e].
  - destruct H2 as (T & H2 & ? & Hk2). apply result_bind_ok in H2 as (T' & -> & [= <- <- <-]).
    left. exists T'. split; [done|]. split; [done|]. split; [|done].
    destruct Hk1, Hk2. split; auto.
  - destruct H2 as [[H2 ?]|?]; [left|right].
    + split; [|destruct Hk1; auto]. destruct (put_rest m T1); simplify_eq/=; done.
    + by eapply ready_keeps.
Qed.

Lemma store_models_spec m (d : D) : tables_wf (st_tabs HTx d) ->
  exists r d', store_models m HTx d = (r, d') /\ st_view d' = st_view d /\
  match r with
  | Ok (ut, ur) =>
      (exists T, put_models m (st_tabs HTx d) = Ok T /\ st_tabs HTx d' = T /\ st_keeps d d' /\
         ut = succeeded_txs (bm_txs m) /\ ur = succeeded_receipts (bm_receipts m)) \/
      (~ st_ready HTx d /\ st_tabs HTx d' = st_view d)
  | Err e => (put_models m (st_tabs HTx d) = Err e /\ (st_up d -> st_up d')) \/ ~ st_ready HTx d
  end.
Proof.
  intros Hwf. unfold store_models, put_models.
  destruct (tx_loop_mloop _ _ store_tx_loop) with (l := bm_txs m) (b := @nil Transaction) (d := d)
    as (r1 & d1 & E1 & Hv1 & H1); [|done|].
  { intros b x T ut T' HT (T1 & E & [= <- <-])%result_bind_ok. by eapply put_tx_wf. }
  unfold tx_ok, tx_err in H1. rewrite put_tx_steps in H1.
  destruct r1 as [[[|] ut]|e]; [| |rewrite (M_bind_err _ _ _ _ _ E1); eexists _, d1; do 2 (split; [done|]);
    destruct H1 as [[H1 ?]|?]; [left|by right]; destruct (rfold put_tx _ _); simplify_eq/=; done].
  2: { rewrite (M_bind_ok _ _ _ _ _ E1). eexists _, d1. do 2 (split; [done|]). by right. }
  destruct H1 as (T1 & H1 & HT1 & Hk1).
  apply result_bind_ok in H1 as (T1' & HT & [= <- ->]). rewrite HT. cbn [mbind result_bind].
  rewrite (M_bind_ok _ _ _ _ _ E1).
  assert (Hwf1 : tables_wf (st_tabs HTx d1)).
  { rewrite HT1. eapply rfold_wf; [apply put_tx_wf|exact Hwf|exact HT]. }
  destruct (store_receipts_spec m (succeeded_txs (bm_txs m)) d1 Hwf1) as (r2 & d2 & E2 & Hv2 & H2).
  exists r2, d2. split; [exact E2|]. split; [congruence|]. rewrite HT1 in H2.
  destruct r2 as [[ut' ur]|e].
  - destruct H2 as [(T & -> & ? & [] & -> & ->)|[? ->]]; [left|right].
    + exists T. split; [done|]. split; [done|]. split; [|done]. destruct Hk1. split; auto.
    + split; [by eapply ready_keeps|done].
  - destruct H2 as [[-> ?]|?]; [left|right].
    + split; [done|]. destruct Hk1. auto.
    + by eapply ready_keeps.
Qed.

Lemma put_models_wf m T T' : tables_wf T -> put_models m T = Ok T' -> tables_wf T'.
Proof.
  intros HT (T1 & H1 & (T2 & H2 & (T3 & H3 & (T4 & H4 & [= <-])%result_bind_ok)
    %result_bind_ok)%result_bind_ok)%result_bind_ok.
  apply (put_wf TIndexedRound). eapply (put_new_wf TBlock); [|exact H4].
  eapply rfold_wf; [|eapply rfold_wf; [apply put_receipt_wf|
    eapply rfold_wf; [apply put_tx_wf|exact HT|exact H1]|exact H2]|exact H3].
  intros T5 l T6. apply (put_new_wf TLog).
Qed.

(** The transaction as a whole: stored, or nothing has changed. *)
Lemma run_store_spec m (d : D) : tables_wf (st_view d) ->
  exists r d', st_RunInTransaction HDb (store_models m) d = (r, d') /\
  ((exists T, put_models m (st_view d) = Ok T /\ st_view d' = T /\
      (r = Ok (succeeded_txs (bm_txs m), succeeded_receipts (bm_receipts m)) /\ (st_up d -> st_up d') \/
       (exists e, r = Err e) /\ ~ st_up d)) \/
   (st_view d' = st_view d /\
      ((exists e, r = Err e /\ put_models m (st_view d) = Err e /\ (st_up d -> st_up d')) \/ ~ st_up d))).
Proof.
  intros Hwf. destruct (st_law_RunInTransaction _ (store_models m) d) as (r & d' & E & Hr).
  exists r, d'. split; [done|]. destruct Hr as [(c & -> & ? & ?)|(d1 & Hv1 & Hp1 & Hu1 & Hr)];
    [right; by auto|].
  assert (Ht1 : st_tabs HTx d1 = st_view d) by (cbn; by rewrite Hp1, Hv1).
  destruct (store_models_spec m d1) as (r1 & d2 & E1 & Hv2 & H1); [by rewrite Ht1|].
  rewrite Ht1 in H1. rewrite E1 in Hr.
  assert (Hn : ~ st_ready HTx d1 -> ~ st_up d) by auto.
  destruct r1 as [[ut ur]|e].
  - assert (Hc : st_pending d2 (st_view d2) = st_tabs HTx d2) by done.
    destruct H1 as [(T & HT & Ht2 & Hk & -> & ->)|[Hnr Ht2]].
    + destruct Hr as [(-> & Hv & Hu)|(c & -> & Hnr & Hv)].
      * left. exists T. split; [done|]. split; [congruence|]. left. split; [done|].
        intros Hd. apply Hu. apply Hk. by apply Hu1.
      * destruct Hv as [Hv|Hv]; [right|left].
        -- split; [congruence|]. right. apply Hn. by eapply ready_keeps.
        -- exists T. split; [done|]. split; [congruence|]. right. split; [by eexists|].
           apply Hn. by eapply ready_keeps.
    + right. split; [|right; by apply Hn]. destruct Hr as [(_ & Hv & _)|(c & _ & _ & [Hv|Hv])]; congruence.
  - destruct Hr as (-> & Hv & Hu). right. split; [congruence|].
    destruct H1 as [[? Hu2]|?]; [left|right; auto]. exists e. split; [done|]. split; [done|].
    intros Hd. apply Hu, Hu2. by apply Hu1.
Qed.

Lemma store_block_healthy header items cp (d : D) :
  st_up d -> tables_wf (st_view d) ->
  exists r d', store_block header items cp d = (r, d') /\ st_up d' /\
    match (m ← toModels header items cp; T ← put_models m (st_view d); Ok (m, T)) with
    | Ok (m, T) => st_view d' = T /\
        r = Ok (mkChainEvent _ (bm_blk m) (blockHash header) (bm_logs m),
                mkBlockData (bm_blk m) (succeeded_receipts (bm_receipts m))
                  (succeeded_txs (bm_txs m)) (bm_median m))
    | Err e => r = Err e /\ st_view d' = st_view d
    end.
Proof.
  intros Hup Hwf. unfold store_block. destruct (toModels header items cp) as [m|e]; cbn [mbind result_bind].
  2: { eexists _, d. split; [done|]. auto. }
  destruct (run_store_spec m d Hwf) as (r & d' & E & Hr).
  destruct Hr as [(T & -> & Hv & [[-> Hu]|[_ ?]])|[Hv [(e & -> & -> & Hu)|?]]]; [|done| |done].
  - eexists _, d'. split; [by rewrite (M_bind_ok _ _ _ _ _ E)|]. split; [by apply Hu|]. done.
  - eexists _, d'. split; [by rewrite (M_bind_err _ _ _ _ _ E)|]. split; [by apply Hu|]. done.
Qed.

(** C1: Indexing a block on a healthy database does exactly what the reference
    [put_models] says: when the block decodes and no duplicate is found, the
    new tables are the reference's, the observers get the block with the
    transactions and receipts that did not fail, and the event with the block and
    its logs is put on the channel of the event system if there is one and it holds
    less than ten events, and dropped otherwise; when the block does not decode or
    has a duplicate, the error of the first failing step is returned and the
    database and the channel are unchanged. *)
Theorem StoreBlockData_refines header items cp (d : D) (ch : chain_chan) :
  st_up d -> tables_wf (st_view d) ->
  exists r d' ch', StoreBlockData header items cp (d, ch) = (r, (d', ch')) /\ st_up d' /\
    match (m ← toModels header items cp; T ← put_models m (st_view d); Ok (m, T)) with
    | Ok (m, T) =>
        let ev := mkChainEvent _ (bm_blk m) (blockHash header) (bm_logs m) in
        st_view d' = T /\
        r = Ok (ev, mkBlockData (bm_blk m) (succeeded_receipts (bm_receipts m))
                      (succeeded_txs (bm_txs m)) (bm_median m)) /\
        match ch with
        | None => ch' = None
        | Some buf => ch' = Some (if decide (length buf < 10)%nat then buf ++ [ev] else buf)
        end
    | Err e => r = Err e /\ st_view d' = st_view d /\ ch' = ch
    end.
Proof.
  intros Hup Hwf. destruct (store_block_healthy header items cp d Hup Hwf) as (r & d' & E & Hu & Hr).
  unfold StoreBlockData. rewrite E. destruct (toModels header items cp) as [m|e]; cbn [mbind result_bind] in *;
    [destruct (put_models m (st_view d)) as [T|e]; cbn [mbind result_bind] in *|]; destruct Hr as [Hr1 Hr2]; subst;
    eexists _, _, _; (split; [done|]); (split; [done|]); [|done..].
  split; [done|]. split; [done|]. destruct ch as [buf|]; [|done]. cbn [send_or_drop]. unfold chainEvChanSize.
  destruct (Nat.ltb_spec (length buf) 10); case_decide; (done || lia).
Qed.

(** Failing calls: the tables are the old ones or have the whole block, and only a
    success is reported to the channel. *)
Lemma store_block_atomic header items cp (d : D) :
  tables_wf (st_view d) ->
  exists r d', store_block header items cp d = (r, d') /\ tables_wf (st_view d') /\
    (st_view d' = st_view d \/
     exists m T, toModels header items cp = Ok m /\ put_models m (st_view d) = Ok T /\
       st_view d' = T /\ (is_Ok r = true \/ ~ st_up d)).
Proof.
  intros Hwf. unfold store_block. destruct (toModels header items cp) as [m|e].
  2: { eexists _, d. split; [done|]. auto. }
  destruct (run_store_spec m d Hwf) as (r & d' & E & Hr).
  assert (Hwf' : forall T, put_models m (st_view d) = Ok T -> tables_wf T).
  { intros T HT. by eapply put_models_wf. }
  destruct r as [[ut ur]|e]; [rewrite (M_bind_ok _ _ _ _ _ E)|rewrite (M_bind_err _ _ _ _ _ E)];
    eexists _, d'; (split; [done|]);
    destruct Hr as [(T & HT & Hv & Hr)|[Hv _]]; rewrite Hv; (split; [by auto|]); auto; right;
    exists m, T; (do 3 (split; [done|])); cbn; [by left|right].
  by destruct Hr as [[? _]|[_ ?]].
Qed.

(** C2: Indexing is atomic on any database, whatever calls fail: afterwards the
    tables are the old ones or the ones with the whole block stored, and they
    are well formed again.  An error that is reported after the block was
    stored can only come from a database that was not up, and with an error no
    event is sent. *)
Theorem StoreBlockData_atomic header items cp (d : D) (ch : chain_chan) :
  tables_wf (st_view d) ->
  exists r d' ch', StoreBlockData header items cp (d, ch) = (r, (d', ch')) /\ tables_wf (st_view d') /\
    (st_view d' = st_view d \/
     exists m T, toModels header items cp = Ok m /\ put_models m (st_view d) = Ok T /\
       st_view d' = T /\ (is_Ok r = true \/ ~ st_up d)) /\
    (is_Ok r = false -> ch' = ch).
Proof.
  intros Hwf. destruct (store_block_atomic header items cp d Hwf) as (r & d' & E & Hwf' & Hr).
  unfold StoreBlockData. rewrite E. destruct r as [[ev bd]|e]; eexists _, _, _; (split; [done|]); by split_and!.
Qed.
End Storing.

(** ** What the stored tables contain *)
Lemma rfold_rel {A} (g : Tables -> A -> result Tables) (R : Tables -> Tables -> Prop) `{!PreOrder R} :
  (forall T x T', g T x = Ok T' -> R T T') -> forall l T T', rfold g T l = Ok T' -> R T T'.
Proof.
  intros Hg. induction l as [|x l IH]; intros T T'; cbn; [by intros [= <-]|].
  intros (T1 & H1 & H2)%result_bind_ok. etrans; eauto.
Qed.

Lemma rfold_elem {A} (g : Tables -> A -> result Tables) (R : Tables -> Tables -> Prop) `{!PreOrder R} :
  (forall T x T', g T x = Ok T' -> R T T') ->
  forall x l T T', rfold g T l = Ok T' -> x ∈ l ->
    exists T1 T2, R T T1 /\ g T1 x = Ok T2 /\ R T2 T'.
Proof.
  intros Hg x. induction l as [|y l IH]; intros T T'; cbn; [by intros _ ?%not_elem_of_nil|].
  intros (T1 & H1 & H2)%result_bind_ok [->|Hin]%elem_of_cons.
  - exists T, T1. split; [done|]. split; [done|]. by eapply rfold_rel.
  - destruct (IH _ _ H2 Hin) as (T2 & T3 & ? & ? & ?). exists T2, T3. split; [|done].
    etrans; eauto.
Qed.

Lemma rows_put_ne t t' r T : t' <> t -> rows t' (put t r T) = rows t' T.
Proof. apply rows_set_rows_ne. Qed.

Lemma lookup_put t r T : rows t (put t r T) !! pk t r = Some (columns t r).
Proof. unfold put. rewrite rows_set_rows. apply lookup_insert_eq. Qed.

Lemma lookup_put_ne t r T k : k <> pk t r -> rows t (put t r T) !! k = rows t T !! k.
Proof. intros. unfold put. rewrite rows_set_rows. by apply lookup_insert_ne. Qed.

(** Tables other than [t] are kept, and in [t] the rows [P] holds of. *)
Definition keeps_rows (t : table) (P : row t -> Prop) (T T' : Tables) : Prop :=
  (forall t', t' <> t -> rows t' T' = rows t' T) /\
  (forall k r, rows t T !! k = Some r -> P r -> rows t T' !! k = Some r).

#[export] Instance keeps_rows_preorder t P : PreOrder (keeps_rows t P).
Proof.
  split; [by intros T|]. intros T1 T2 T3 [H1 H2] [H3 H4]. split.
  - intros t' Ht. by rewrite H3, H1.
  - eauto.
Qed.

Lemma keeps_put t P r T :
  (forall e, rows t T !! pk t r = Some e -> ~ P e) -> keeps_rows t P T (put t r T).
Proof.
  intros He. split; [intros; by apply rows_put_ne|]. intros k e Hk HP.
  destruct (decide (k = pk t r)) as [->|]; [by destruct (He e Hk)|]. by rewrite lookup_put_ne.
Qed.

Definition tx_success (tx : Transaction) : Prop := tx_Status tx <> ReceiptStatusFailed.
Definition rc_success (rc : Receipt) : Prop := rc_Status rc <> ReceiptStatusFailed.

Lemma put_tx_keeps T tx T' : put_tx T tx = Ok T' -> keeps_rows TTransaction tx_success T T'.
Proof.
  unfold put_tx. destruct (t_txs T !! (tx_Hash tx, 0)) as [e|] eqn:E.
  - repeat case_match; intros; simplify_eq; [reflexivity|]. apply (keeps_put TTransaction).
    intros e'. cbn. rewrite E. intros [= <-]. unfold tx_success. lia.
  - intros [= <-]. apply (keeps_put TTransaction). cbn. intros e'. by rewrite E.
Qed.

Lemma put_receipt_keeps T rc T' : put_receipt T rc = Ok T' -> keeps_rows TReceipt rc_success T T'.
Proof.
  unfold put_receipt. destruct (t_receipts T !! (rc_TransactionHash rc, 0)) as [e|] eqn:E.
  - repeat case_match; intros; simplify_eq; [reflexivity|]. apply (keeps_put TReceipt).
    intros e'. cbn. rewrite E. intros [= <-]. unfold rc_success. lia.
  - intros [= <-]. apply (keeps_put TReceipt). cbn. intros e'. by rewrite E.
Qed.

Lemma put_new_keeps t T r T' : put_new t T r = Ok T' -> keeps_rows t (fun _ => True) T T'.
Proof.
  unfold put_new. destruct (rows t T !! pk t r) eqn:E; [done|]. intros [= <-].
  apply keeps_put. intros e. by rewrite E.
Qed.

Lemma put_new_stored t T r T' : put_new t T r = Ok T' -> rows t T' !! pk t r = Some (columns t r).
Proof. unfold put_new. case_match; [done|]. intros [= <-]. apply lookup_put. Qed.

Lemma put_tx_stored T tx T' : put_tx T tx = Ok T' -> tx_success tx ->
  t_txs T' !! (tx_Hash tx, 0) = Some tx.
Proof.
  unfold put_tx, tx_success. destruct (t_txs T !! (tx_Hash tx, 0)); intros; repeat case_match;
    simplify_eq; try lia; apply (lookup_put TTransaction tx).
Qed.

Lemma put_receipt_stored T rc T' : put_receipt T rc = Ok T' -> rc_success rc ->
  t_receipts T' !! (rc_TransactionHash rc, 0) = Some (with_Logs rc []).
Proof.
  unfold put_receipt, rc_success. destruct (t_receipts T !! (rc_TransactionHash rc, 0)); intros;
    repeat case_match; simplify_eq; try lia; apply (lookup_put TReceipt rc).
Qed.

(** The tables between the stages of [put_models]. *)
Lemma put_models_inv m T T' : put_models m T = Ok T' -> exists T1 T2 T3 T4,
  rfold put_tx T (bm_txs m) = Ok T1 /\ rfold put_receipt T1 (bm_receipts m) = Ok T2 /\
  rfold (put_new TLog) T2 (bm_logs m) = Ok T3 /\ put_new TBlock T3 (bm_blk m) = Ok T4 /\
  T' = put TIndexedRound (mkIndexedRound Continues (blk_Round (bm_blk m))) T4 /\
  keeps_rows TTransaction tx_success T T1 /\ keeps_rows TReceipt rc_success T1 T2 /\
  keeps_rows TLog (fun _ => True) T2 T3 /\ keeps_rows TBlock (fun _ => True) T3 T4.
Proof.
  intros (T1 & H1 & (T2 & H2 & (T3 & H3 & (T4 & H4 & [= <-])%result_bind_ok)
    %result_bind_ok)%result_bind_ok)%result_bind_ok.
  exists T1, T2, T3, T4. do 5 (split; [done|]).
  split; [by eapply rfold_rel; [apply _|apply put_tx_keeps|]|].
  split; [by eapply rfold_rel; [apply _|apply put_receipt_keeps|]|].
  split; [by eapply rfold_rel; [apply _|apply (put_new_keeps TLog)|]|by eapply put_new_keeps].
Qed.

(** What storing a block does to the tables: the block is there under its hash,
    with every log, every transaction and receipt that did not fail, and its
    round as the last indexed one; other blocks and logs, the retained round,
    and the successful transactions and receipts stay as they are. *)
Definition block_found (m : blockModels) (T T' : Tables) : Prop :=
  t_blocks T' !! (blk_Hash (bm_blk m), 0) = Some (with_Transactions (bm_blk m) []) /\
  t_rounds T' !! (Continues, 0) = Some (mkIndexedRound Continues (blk_Round (bm_blk m))) /\
  (forall l, l ∈ bm_logs m -> t_logs T' !! (log_TxHash l, log_Index l) = Some l) /\
  (forall tx, tx ∈ bm_txs m -> tx_success tx -> t_txs T' !! (tx_Hash tx, 0) = Some tx) /\
  (forall rc, rc ∈ bm_receipts m -> rc_success rc ->
     t_receipts T' !! (rc_TransactionHash rc, 0) = Some (with_Logs rc [])) /\
  (forall k b, t_blocks T !! k = Some b -> t_blocks T' !! k = Some b) /\
  (forall k l, t_logs T !! k = Some l -> t_logs T' !! k = Some l) /\
  (forall k tx, t_txs T !! k = Some tx -> tx_success tx -> t_txs T' !! k = Some tx) /\
  (forall k rc, t_receipts T !! k = Some rc -> rc_success rc -> t_receipts T' !! k = Some rc) /\
  t_rounds T' !! (LastRetained, 0) = t_rounds T !! (LastRetained, 0).

Lemma put_models_found m T T' : put_models m T = Ok T' -> block_found m T T'.
Proof.
  intros (T1 & T2 & T3 & T4 & H1 & H2 & H3 & H4 & -> & K1 & K2 & K3 & K4)%put_models_inv.
  pose proof (proj1 K1) as N1. pose proof (proj1 K2) as N2. pose proof (proj1 K3) as N3.
  pose proof (proj1 K4) as N4.
  split; [exact (put_new_stored TBlock T3 (bm_blk m) T4 H4)|].
  split; [apply (lookup_put TIndexedRound (mkIndexedRound Continues (blk_Round (bm_blk m))))|].
  assert (Etx : t_txs T4 = t_txs T1).
  { transitivity (rows TTransaction T2); [|by apply (N2 TTransaction)].
    transitivity (rows TTransaction T3); [|by apply (N3 TTransaction)].
    by apply (N4 TTransaction). }
  assert (Erc : t_receipts T4 = t_receipts T2).
  { transitivity (rows TReceipt T3); [|by apply (N3 TReceipt)]. by apply (N4 TReceipt). }
  assert (Elog : t_logs T4 = t_logs T3) by (by apply (N4 TLog)).
  split; [intros l Hl|].
  { destruct (rfold_elem (put_new TLog) (keeps_rows TLog (fun _ => True)) (put_new_keeps TLog) l _ _ _ H3 Hl)
      as (Ta & Tb & _ & Hp & [_ Hk]). cbn. rewrite Elog. apply (Hk (log_TxHash l, log_Index l) l); [|done].
    exact (put_new_stored TLog Ta l Tb Hp). }
  split; [intros tx Hl Hs|].
  { destruct (rfold_elem put_tx (keeps_rows TTransaction tx_success) put_tx_keeps tx _ _ _ H1 Hl)
      as (Ta & Tb & _ & Hp & [_ Hk]). cbn. rewrite Etx. apply (Hk (tx_Hash tx, 0) tx); [|done].
    exact (put_tx_stored Ta tx Tb Hp Hs). }
  split; [intros rc Hl Hs|].
  { destruct (rfold_elem put_receipt (keeps_rows TReceipt rc_success) put_receipt_keeps rc _ _ _ H2 Hl)
      as (Ta & Tb & _ & Hp & [_ Hk]). cbn. rewrite Erc.
    apply (Hk (rc_TransactionHash rc, 0) (with_Logs rc [])); [|done].
    exact (put_receipt_stored Ta rc Tb Hp Hs). }
  split; [intros k b Hb; apply (proj2 K4 k b); [|done]; rewrite (N3 TBlock), (N2 TBlock), (N1 TBlock) by done; exact Hb|].
  split; [intros k l Hl; cbn; rewrite Elog; apply (proj2 K3 k l); [|done];
    rewrite (N2 TLog), (N1 TLog) by done; exact Hl|].
  split; [intros k tx Hl Hs; cbn; rewrite Etx; by apply (proj2 K1 k tx)|].
  split; [intros k rc Hl Hs; cbn; rewrite Erc; apply (proj2 K2 k rc); [|done];
    rewrite (N1 TReceipt) by done; exact Hl|].
  change (rows TIndexedRound (put TIndexedRound (mkIndexedRound Continues (blk_Round (bm_blk m))) T4)
    !! (LastRetained, 0) = rows TIndexedRound T !! (LastRetained, 0)).
  rewrite lookup_put_ne by done. by rewrite N4, N3, N2, N1.
Qed.

(** A block that was indexed on a healthy database can be found: the block
    under its hash, every log of it, every transaction and receipt of it that
    did not fail, and its round as the last indexed one.  Nothing that was
    stored before is lost: other blocks and logs, the retained round, and the
    successful transactions and receipts of earlier blocks stay as they are. *)
Theorem stored_block_found `{StorageLaws D} header items cp (d d' : D) out :
  st_up d -> tables_wf (st_view d) ->
  store_block header items cp d = (Ok out, d') ->
  exists m, toModels header items cp = Ok m /\ ce_Block (fst out) = bm_blk m /\
    block_found m (st_view d) (st_view d').
Proof.
  intros Hup Hwf Hs. destruct (store_block_healthy header items cp d Hup Hwf) as (r & d1 & E & _ & Hr).
  rewrite Hs in E. injection E as <- <-. destruct (toModels header items cp) as [m|e]; [|by destruct Hr].
  cbn [mbind result_bind] in Hr. destruct (put_models m (st_view d)) as [T|e] eqn:HT; [|by destruct Hr].
  destruct Hr as [-> [= ->]]. exists m. split; [done|]. split; [done|]. by apply put_models_found.
Qed.

(** ** Reference for the decoding

    Each Ethereum transaction is decoded by itself; the logs are then numbered
    through the whole block, and the median price is the first one available
    from the middle of the block on. *)
Record decoded := mkDecoded {
  dc_tx : etx;
  dc_status : Z;
  dc_gas : txGas;
  dc_result : CallResult;
  dc_logs : list OasisLog;
}.

Definition decode_tx (item : TxWithResults) : result decoded :=
  ethTx ← UnmarshalBinary (it_Body item);
  ev ← rfold event_step (mkEventState 0 0 []) (it_Events item);
  let gasUsed := if es_gasUsed ev =? 0 then Tx_Gas ethTx else es_gasUsed ev in
  price ← effectivePrice ethTx (es_gasSpent ev) gasUsed;
  Ok (mkDecoded ethTx
    (if IsSuccess (it_Result item) then ReceiptStatusSuccessful else ReceiptStatusFailed)
    (mkTxGas gasUsed price) (it_Result item) (es_logs ev)).

(** The logs of the transactions from position [txi] on, numbered from [start]. *)
Fixpoint number_logs (bhash : ehash) (round : Z) (start txi : nat) (ds : list decoded) : list EthLog :=
  match ds with
  | [] => []
  | d :: ds' =>
      imap (fun i log => mkEthLog _ (ol_Address log) (ol_Topics log) (ol_Data log) round
        (Tx_Hash (dc_tx d)) (u32 (Z.of_nat txi)) bhash (u64 (Z.of_nat (start + i))) false) (dc_logs d)
      ++ number_logs bhash round (start + length (dc_logs d)) (S txi) ds'
  end.

Definition median_candidate (n : Z) (ix : nat * TxWithResults) : option N :=
  let '(i, item) := ix in
  if is_ethereum item then
    if n / 2 - 1 <? Z.of_nat i then
      match UnmarshalBinary (it_Body item) with
      | Ok tx => match FromBigInt (Tx_GasPrice tx) with Ok p => Some p | Err _ => None end
      | Err _ => None
      end
    else None
  else if n / 2 - 1 <=? Z.of_nat i then
    match cbor_tx_GasPrice (it_Body item) with Ok p => p | Err _ => None end
  else None.

Definition extend (bhash : ehash) (round n : Z) (st : decodeState)
    (items : list (nat * TxWithResults)) (ds : list decoded) : decodeState :=
  mkDecodeState (ds_ethTxs st ++ map dc_tx ds)
    (ds_logs st ++ number_logs bhash round (length (ds_logs st)) (length (ds_ethTxs st)) ds)
    (ds_txsStatus st ++ map dc_status ds) (ds_txsGas st ++ map dc_gas ds)
    (ds_results st ++ map dc_result ds)
    (match ds_median st with Some m => Some m | None => head (omap (median_candidate n) items) end).

Definition eth_items (items : list (nat * TxWithResults)) : list TxWithResults :=
  filter (fun it => is_ethereum it = true) items.*2.

Lemma extend_nil bhash round n st : extend bhash round n st [] [] = st.
Proof. destruct st as [????? [|]]; unfold extend; cbn; by rewrite !app_nil_r. Qed.

Lemma extend_app bhash round n st x d items ds :
  extend bhash round n (extend bhash round n st [x] [d]) items ds =
  extend bhash round n st (x :: items) (d :: ds).
Proof.
  unfold extend. cbn [ds_ethTxs ds_logs ds_txsStatus ds_txsGas ds_results ds_median map number_logs omap list_omap].
  rewrite !app_nil_r, <- !app_assoc. cbn [app]. rewrite !length_app, length_imap. cbn [length].
  f_equal.
  - do 2 f_equal. f_equal. lia.
  - destruct (ds_median st), (median_candidate n x); done.
Qed.

Lemma decode_item_skip bhash round n st i it : is_ethereum it = false ->
  decode_item bhash round n st (i, it) = Ok (extend bhash round n st [(i, it)] []).
Proof.
  intros E. unfold decode_item, extend. cbn [map number_logs omap list_omap median_candidate].
  rewrite E, !app_nil_r. cbn [negb]. unfold set_median.
  destruct st as [a b c d e [m|]]; cbn [ds_ethTxs ds_logs ds_txsStatus ds_txsGas ds_results ds_median]; [done|].
  destruct (n / 2 - 1 <=? Z.of_nat i); [|done].
  by destruct (cbor_tx_GasPrice (it_Body it)) as [[p|]|].
Qed.

Lemma decode_item_eth bhash round n st i it : is_ethereum it = true ->
  decode_item bhash round n st (i, it) =
  (d ← decode_tx it; Ok (extend bhash round n st [(i, it)] [d])).
Proof.
  intros E. unfold decode_item, decode_tx, extend. cbn [omap list_omap median_candidate].
  rewrite E. cbn [negb]. destruct (UnmarshalBinary (it_Body it)) as [e|] eqn:Eu; [|done].
  cbn [mbind result_bind].
  destruct (rfold event_step _ (it_Events it)) as [ev|]; [|done]. cbn [mbind result_bind].
  destruct (effectivePrice _ _ _) as [price|]; [|done]. cbn [mbind result_bind map number_logs dc_tx
    dc_status dc_gas dc_result dc_logs]. rewrite app_nil_r. do 2 f_equal.
  - f_equal. unfold Logs2EthLogs. apply imap_ext. intros j log _. rewrite length_app. cbn [length].
    f_equal; [f_equal; lia|f_equal; lia].
  - destruct (ds_median st); [done|]. destruct (n / 2 - 1 <? Z.of_nat i); [|done].
    by destruct (FromBigInt (Tx_GasPrice e)).
Qed.

Lemma decode_fold bhash round n : forall items st,
  rfold (decode_item bhash round n) st items =
  match rmapM decode_tx (eth_items items) with
  | Ok ds => Ok (extend bhash round n st items ds)
  | Err e => Err e
  end.
Proof.
  induction items as [|[i it] items IH]; intros st; [cbn; by rewrite extend_nil|].
  cbn [rfold]. unfold eth_items. rewrite fmap_cons, filter_cons. fold (eth_items items). cbn [snd].
  destruct (is_ethereum it) eqn:E.
  - rewrite decode_item_eth by done. rewrite decide_True by done. cbn [rmapM].
    destruct (decode_tx it) as [d|e]; [|done]. cbn [mbind result_bind]. rewrite IH.
    destruct (rmapM decode_tx (eth_items items)); [|done]. cbn [mbind result_bind]. by rewrite extend_app.
  - rewrite decode_item_skip by done. rewrite decide_False by done. cbn [mbind result_bind]. rewrite IH.
    destruct (rmapM decode_tx (eth_items items)) as [ds|]; [|done].
    f_equal. unfold extend. cbn [ds_ethTxs ds_logs ds_txsStatus ds_txsGas ds_results ds_median map
      number_logs omap list_omap]. rewrite !app_nil_r.
    f_equal. destruct (ds_median st), (median_candidate n (i, it)); done.
Qed.

Lemma decode_eq header items :
  decode header items =
  match rmapM decode_tx (filter (fun it => is_ethereum it = true) items) with
  | Ok ds => Ok (extend (blockHash header) (oh_Round header) (Z.of_nat (length items)) decode_init
                  (imap (fun i x => (i, x)) items) ds)
  | Err e => Err e
  end.
Proof.
  unfold decode. rewrite decode_fold. unfold eth_items.
  replace ((imap (fun i x => (i, x)) items).*2) with items; [done|].
  rewrite fmap_imap. symmetry. rewrite (imap_ext _ (fun _ x => x)) by done.
  induction items using rev_ind; [done|]. rewrite imap_app. cbn. by rewrite IHitems.
Qed.

Lemma sorted_shift n js : StronglySorted le js -> StronglySorted le (replicate n 0%nat ++ map S js).
Proof.
  intros Hsort. induction n as [|n IHn]; cbn.
  - induction Hsort as [|j js Hs IH Hall]; cbn; constructor; [done|].
    apply Forall_map. eapply Forall_impl; [exact Hall|]. cbn. lia.
  - constructor; [done|]. apply Forall_forall. lia.
Qed.

(** The position of every log: [js] gives the transaction of each. *)
Lemma number_logs_pos bhash round : forall ds start txi,
  exists js, length js = length (number_logs bhash round start txi ds) /\ StronglySorted le js /\
  forall k log, number_logs bhash round start txi ds !! k = Some log -> exists j d,
    js !! k = Some j /\ ds !! j = Some d /\
    el_BlockNumber log = round /\ el_BlockHash log = bhash /\ el_Removed log = false /\
    el_TxHash log = Tx_Hash (dc_tx d) /\ el_TxIndex log = u32 (Z.of_nat (txi + j)) /\
    el_Index log = u64 (Z.of_nat (start + k)).
Proof.
  induction ds as [|d ds IH]; intros start txi; [exists []; split; [done|]; split; [constructor|done]|].
  destruct (IH (start + length (dc_logs d))%nat (S txi)) as (js & Hlen & Hsort & Hjs).
  exists (replicate (length (dc_logs d)) 0%nat ++ map S js). cbn [number_logs].
  split; [by rewrite !length_app, length_replicate, length_imap, length_map, Hlen|]. split.
  - by apply sorted_shift.
  - intros k log. rewrite lookup_app. destruct (imap _ _ !! k) as [l|] eqn:E.
    + intros [= ->]. rewrite list_lookup_imap in E. apply fmap_Some in E as (ol & Hol & ->).
      exists 0%nat, d. cbn. rewrite Nat.add_0_r. split; [|done].
      rewrite lookup_app_l by (rewrite length_replicate; by eapply lookup_lt_Some).
      apply lookup_replicate_2. by eapply lookup_lt_Some.
    + rewrite length_imap. intros Hk. apply lookup_ge_None in E. rewrite length_imap in E.
      destruct (Hjs _ _ Hk) as (j & d' & ? & ? & ? & ? & ? & ? & ? & ?). exists (S j), d'.
      rewrite lookup_app_r by (by rewrite length_replicate). rewrite length_replicate.
      split; [by apply list_lookup_fmap_Some_2|]. do 5 (split; [done|]).
      split; [rewrite H6; f_equal; lia|]. rewrite H7. f_equal. lia.
Qed.

(** Only the Ethereum transactions of a runtime block are indexed, in block
    order and each decoded by itself; the first one that cannot be decoded
    makes the indexing fail.  The median price reported for the block is the
    first price available from the middle of the block on. *)
Theorem decode_reference header items :
  decode header items =
  (ds ← rmapM decode_tx (filter (fun it => is_ethereum it = true) items);
   Ok (mkDecodeState (map dc_tx ds) (number_logs (blockHash header) (oh_Round header) 0 0 ds)
     (map dc_status ds) (map dc_gas ds) (map dc_result ds)
     (head (omap (median_candidate (Z.of_nat (length items))) (imap (fun i x => (i, x)) items))))).
Proof. rewrite decode_eq. by destruct (rmapM decode_tx _). Qed.

(** The logs of a block are numbered from 0 through the whole block, and each
    carries the round and hash of the block and the hash and position (among
    the Ethereum transactions) of its transaction; the transaction positions
    of the logs never decrease. *)
Theorem decode_logs_positions header items st :
  decode header items = Ok st ->
  Z.of_nat (length (ds_logs st)) < 2 ^ 64 -> Z.of_nat (length (ds_ethTxs st)) < 2 ^ 32 ->
  (forall k log, ds_logs st !! k = Some log ->
     el_Index log = Z.of_nat k /\ el_BlockNumber log = oh_Round header /\
     el_BlockHash log = blockHash header /\ el_Removed log = false /\
     exists j tx, ds_ethTxs st !! j = Some tx /\ el_TxIndex log = Z.of_nat j /\
       el_TxHash log = Tx_Hash tx) /\
  (forall k1 k2 log1 log2, (k1 <= k2)%nat -> ds_logs st !! k1 = Some log1 ->
     ds_logs st !! k2 = Some log2 -> el_TxIndex log1 <= el_TxIndex log2).
Proof.
  intros Hd Hlogs Htxs. rewrite decode_eq in Hd.
  destruct (rmapM decode_tx _) as [ds|]; [|done]. injection Hd as <-. cbn in Hlogs, Htxs |- *.
  destruct (number_logs_pos (blockHash header) (oh_Round header) ds 0 0) as (js & Hlen & Hsort & Hjs).
  assert (Hj : forall k j, js !! k = Some j -> (j < length ds)%nat).
  { intros k j Hk. assert (Hlt : (k < length js)%nat) by (by eapply lookup_lt_Some).
    rewrite Hlen in Hlt. apply lookup_lt_is_Some_2 in Hlt as [log Hl].
    destruct (Hjs k log Hl) as (j' & d & Hj' & Hd & _). simplify_eq. by eapply lookup_lt_Some. }
  assert (Htx : forall k j log, js !! k = Some j ->
    el_TxIndex log = u32 (Z.of_nat (0 + j)) -> el_TxIndex log = Z.of_nat j).
  { intros k j log Hk ->. apply Z.mod_small. rewrite length_map in Htxs. pose proof (Hj k j Hk). lia. }
  split.
  - intros k log Hk. destruct (Hjs k log Hk) as (j & d & Hkj & Hd & ? & ? & ? & ? & Hti & Hidx).
    split; [rewrite Hidx; apply u64_small; apply lookup_lt_Some in Hk; u64_lia|].
    do 3 (split; [done|]). exists j, (dc_tx d). split; [by apply list_lookup_fmap_Some_2|]. eauto.
  - intros k1 k2 log1 log2 Hle H1 H2.
    destruct (Hjs k1 log1 H1) as (j1 & d1 & Hk1 & _ & _ & _ & _ & _ & Ht1 & _).
    destruct (Hjs k2 log2 H2) as (j2 & d2 & Hk2 & _ & _ & _ & _ & _ & Ht2 & _).
    rewrite (Htx k1 j1 log1), (Htx k2 j2 log2) by done. apply inj_le.
    destruct (decide (k1 = k2)) as [->|Hne]; [by simplify_eq|].
    apply (StronglySorted_lookup le js k1 k2); [done|lia|done|done].
Qed.

(** Rows that correspond position by position, filtered by the same test. *)
Lemma Forall2_filter {A B} (R : A -> B -> Prop) (P : A -> Prop) (Q : B -> Prop)
    `{forall x, Decision (P x), forall y, Decision (Q y)} l k :
  Forall2 R l k -> (forall x y, R x y -> P x <-> Q y) -> Forall2 R (filter P l) (filter Q k).
Proof.
  intros Hlk HPQ. induction Hlk as [|x y l k Hxy Hlk IH]; [constructor|].
  rewrite !filter_cons. specialize (HPQ x y Hxy). repeat case_decide; try tauto. by constructor.
Qed.

Definition receipt_of (tx : Transaction) (rc : Receipt) : Prop :=
  rc_TransactionHash rc = tx_Hash tx /\ rc_Status rc = tx_Status tx /\
  rc_BlockHash rc = tx_BlockHash tx /\ rc_Round rc = tx_Round tx /\
  rc_FromAddr rc = tx_FromAddr tx /\ rc_ToAddr rc = tx_ToAddr tx.

Lemma toModels_paired header items cp m : toModels header items cp = Ok m ->
  Forall2 receipt_of (bm_txs m) (bm_receipts m).
Proof.
  intros (st & _ & ([[[blk txs] rcs] dbl] & Hb & [= <-])%result_bind_ok)%result_bind_ok. cbn.
  apply blockToModels_inv in Hb as (_ & _ & _ & _ & Hl1 & Hl2 & _ & _ & _ & _ & bh & Hi).
  apply Forall2_same_length_lookup_2; [congruence|]. intros i tx rc Htx Hrc.
  assert (Hlt : (i < length (ds_ethTxs st))%nat) by (rewrite <- Hl1; by eapply lookup_lt_Some).
  apply lookup_lt_is_Some_2 in Hlt as [e He].
  destruct (Hi i e He) as (tx' & rc' & Htx' & Hrc' & status & gas & c & _ & _ & -> & _ & ->).
  simplify_eq. by repeat split.
Qed.

(** The block data given to the observers pairs every transaction with its
    own receipt: the two lists have the same length and agree position by
    position on hash, status, block, sender and recipient. *)
Theorem observed_receipts_paired header items cp m :
  toModels header items cp = Ok m ->
  Forall2 receipt_of (succeeded_txs (bm_txs m)) (succeeded_receipts (bm_receipts m)).
Proof.
  intros Hm. eapply Forall2_filter; [by eapply toModels_paired|].
  intros tx rc (_ & -> & _). done.
Qed.

(** Conversion never fails on its own account: when every Ethereum transaction
    of the block decodes, and so do the outputs of its successful contract
    creations, the rows of the block are built; in particular no slice index
    is out of range. *)
Theorem toModels_total `{!EthLibLaws H} header items cp ds :
  rmapM decode_tx (filter (fun it => is_ethereum it = true) items) = Ok ds ->
  (forall d, d ∈ ds -> Tx_To (dc_tx d) = None -> IsSuccess (dc_result d) = true ->
     is_Ok (cbor_bytes (cr_Ok (dc_result d))) = true) ->
  exists m, toModels header items cp = Ok m /\ length (bm_txs m) = length ds.
Proof.
  intros Hds Hout. unfold toModels. rewrite decode_eq, Hds. cbn [mbind result_bind].
  match goal with |- context [blockToModels ?a ?b ?c ?d ?e ?f ?g ?h] =>
    assert (Hb : exists r, blockToModels a b c d e f g h = Ok r) end.
  { unfold blockToModels. destruct (ethToModelLogs _) as [dbLogs txLogs].
    match goal with |- context [models_loop ?a ?b ?c ?d ?e ?f ?g ?h ?i ?j ?k ?l] =>
      destruct (models_loop_total a b c d e f g h i j k l) as [[[x y] z] Hl] end.
    - cbn. intros i ethTx Hi. apply list_lookup_fmap_Some in Hi as (d & -> & Hd).
      pose proof (lookup_lt_Some _ _ _ Hd) as Hlt. rewrite !length_map. split; [done|]. split; [done|].
      intros status. unfold contractAddress, modelTransaction.
      destruct (Tx_RawSignatureValues (dc_tx d)) as [[v r] s]. cbn [tx_ToAddr].
      case_bool_decide as Hto; [|by eexists].
      assert (Htx : Tx_To (dc_tx d) = None).
      { destruct (Tx_To (dc_tx d)); [|done]. by apply Address_Hex_nonempty in Hto. }
      unfold index. rewrite list_lookup_fmap, Hd. cbn [fmap option_fmap option_map mbind result_bind].
      destruct (IsSuccess (dc_result d)) eqn:Es; [|by eexists].
      specialize (Hout d ltac:(by eapply list_elem_of_lookup_2) Htx Es).
      destruct (cbor_bytes _); [by eexists|done].
    - rewrite Hl. by eexists. }
  destruct Hb as [[[[blk txs] rcs] dbl] Hb]. rewrite Hb. eexists. split; [done|]. cbn.
  apply blockToModels_inv in Hb as (_ & _ & _ & _ & Hl & _). rewrite Hl. cbn. by rewrite length_map.
Qed.
End StoreBlock.

(** ** Witnesses: a block with three results, on the database in memory *)
Definition ex_item (proof : string) (body : list byte) (res : option (list byte)) (evs : list Event)
    : TxWithResults := mkTxWithResults ex_EthLib ex_OasisLib [proof] body res evs.

Definition ex_items : list TxWithResults :=
  [ex_item "evm.ethereum.v0" [Byte.x0a; Byte.x61] (Some [])
     [mkEvent "evm" 1 [Byte.x07]; mkEvent "core" 1 [Byte.x64]; mkEvent "accounts" 1 [Byte.xc8]];
   ex_item "other" [Byte.x09] (Some []) [];
   ex_item "evm.ethereum.v0" [Byte.x0b; Byte.x62] None [mkEvent "evm" 1 [Byte.x08]]].

Definition ex_oheader : @oheader _ ex_OasisLib := mkExHeader "h5" 5.

Definition ex_db (plan : list (option Z)) : MemDB := mkMemDB empty_tables id false plan.

Definition ex_bm : blockModels :=
  match toModels ex_oheader ex_items None with
  | Ok m => m
  | Err _ => mkBlockModels (mkBlock "" 0 ex_header []) [] [] [] None
  end.

Definition ex_stored : Tables :=
  match put_models ex_bm empty_tables with Ok T => T | Err _ => empty_tables end.

Definition ex_decoded : list decoded :=
  match rmapM decode_tx (filter (fun it => is_ethereum it = true) ex_items) with
  | Ok ds => ds | Err _ => [] end.

Lemma ex_decoded_ok :
  rmapM decode_tx (filter (fun it => is_ethereum it = true) ex_items) = Ok ex_decoded.
Proof.
  unfold ex_decoded.
  assert (Hok : is_Ok (rmapM decode_tx (filter (fun it => is_ethereum it = true) ex_items)) = true)
    by (vm_compute; reflexivity).
  by destruct (rmapM decode_tx _).
Qed.

(** A channel with ten events. *)
Definition ex_chan : chain_chan := Some (replicate 10 (mkChainEvent _ (bm_blk ex_bm) "h5" [])).

Lemma StoreBlockData_refines_witness : exists r d' ch',
  StoreBlockData ex_oheader ex_items None (ex_db [], ex_chan) = (r, (d', ch')) /\ is_Ok r = true /\
  mem_view d' = ex_stored /\ ch' = ex_chan.
Proof.
  destruct (StoreBlockData_refines ex_oheader ex_items None (ex_db []) ex_chan) as (r & d' & ch' & E & _ & Hr).
  - constructor.
  - apply empty_tables_wf.
  - exists r, d', ch'. split; [exact E|]. revert Hr.
    replace (toModels ex_oheader ex_items None) with (Ok ex_bm) by (vm_compute; reflexivity).
    cbn [mbind result_bind].
    replace (put_models ex_bm (st_view (ex_db []))) with (Ok ex_stored) by (vm_compute; reflexivity).
    cbn [mbind result_bind]. cbv zeta. intros (Hv & -> & Hc). split; [reflexivity|]. split; [exact Hv|exact Hc].
Defined.

Lemma StoreBlockData_atomic_witness : exists r d' ch',
  StoreBlockData ex_oheader ex_items None (ex_db [None; None; None; Some 7], Some []) = (r, (d', ch')) /\
  tables_wf (mem_view d').
Proof.
  destruct (StoreBlockData_atomic ex_oheader ex_items None (ex_db [None; None; None; Some 7]) (Some []))
    as (r & d' & ch' & E & Hwf & _).
  - apply empty_tables_wf.
  - exists r, d', ch'. split; [exact E|exact Hwf].
Defined.

Lemma ex_store_ok : exists out d', store_block ex_oheader ex_items None (ex_db []) = (Ok out, d').
Proof.
  destruct (store_block ex_oheader ex_items None (ex_db [])) as [r d'] eqn:E.
  assert (Hok : is_Ok (fst (store_block ex_oheader ex_items None (ex_db []))) = true)
    by (vm_compute; reflexivity).
  rewrite E in Hok. destruct r; [|done]. by eexists _, _.
Qed.

Lemma stored_block_found_witness : exists m d',
  t_rounds (mem_view d') !! (Continues, 0) = Some (mkIndexedRound Continues (blk_Round (bm_blk m))).
Proof.
  destruct ex_store_ok as (out & d' & E).
  destruct (stored_block_found ex_oheader ex_items None (ex_db []) d' out)
    as (m & _ & _ & _ & Hr & _).
  - constructor.
  - apply empty_tables_wf.
  - exact E.
  - exists m, d'. exact Hr.
Defined.

Definition ex_ds : decodeState :=
  match decode ex_oheader ex_items with Ok st => st | Err _ => decode_init end.

Lemma ex_ds_log : exists log, ds_logs ex_ds !! 1%nat = Some log.
Proof.
  assert (Hl : (1 < length (ds_logs ex_ds))%nat) by (apply Nat.ltb_lt; vm_compute; reflexivity).
  by apply lookup_lt_is_Some_2 in Hl.
Qed.

Lemma ex_ds_ok : decode ex_oheader ex_items = Ok ex_ds.
Proof.
  unfold ex_ds. assert (Hok : is_Ok (decode ex_oheader ex_items) = true) by (vm_compute; reflexivity).
  by destruct (decode ex_oheader ex_items).
Qed.

Lemma decode_logs_positions_witness : exists log, ds_logs ex_ds !! 1%nat = Some log /\
  el_Index log = 1.
Proof.
  assert (H1 : Z.of_nat (length (ds_logs ex_ds)) < 2 ^ 64) by (vm_compute; reflexivity).
  assert (H2 : Z.of_nat (length (ds_ethTxs ex_ds)) < 2 ^ 32) by (vm_compute; reflexivity).
  destruct ex_ds_log as [log E]. exists log. split; [exact E|].
  exact (proj1 (proj1 (decode_logs_positions ex_oheader ex_items ex_ds ex_ds_ok H1 H2) 1%nat log E)).
Defined.

Lemma observed_receipts_paired_witness :
  Forall2 receipt_of (succeeded_txs (bm_txs ex_bm)) (succeeded_receipts (bm_receipts ex_bm)) /\
  length (succeeded_txs (bm_txs ex_bm)) = 1%nat.
Proof.
  split; [|vm_compute; reflexivity].
  apply (observed_receipts_paired ex_oheader ex_items None). vm_compute; reflexivity.
Defined.

Lemma toModels_total_witness : exists m,
  toModels ex_oheader ex_items None = Ok m /\ length (bm_txs m) = length ex_decoded.
Proof.
  apply (toModels_total ex_oheader ex_items None ex_decoded).
  - exact ex_decoded_ok.
  - intros d _ _ _. reflexivity.
Defined.

(** ** A lookup that fails *)
Section LostBlock.
Context `{O : OasisLib} `{DB : SqlDB D} `{!SqlLaws D}.

Lemma mloop_stop {S A B} (f : B -> A -> M S (bool * B)) pre x post acc acc1 acc2 s s1 s2 :
  mloop f acc pre s = (Ok (true, acc1), s1) -> f acc1 x s1 = (Ok (false, acc2), s2) ->
  mloop f acc (pre ++ x :: post) s = (Ok (false, acc2), s2).
Proof.
  revert acc s. induction pre as [|y pre IH]; intros acc s; cbn [mloop app].
  - intros [= -> ->] Hx. by rewrite (M_bind_ok _ _ _ _ _ Hx).
  - unfold mbind, M_bind. destruct (f acc y s) as [[[[|] a]|e] s']; [|done..]. intros Hp Hx. by apply IH.
Qed.

(** C40: A lookup that fails while a block is stored makes the block disappear.  On any
    database: when the lookup of the earlier transaction for a successful transaction
    of the block fails with another error than that there are no rows, and the commit
    then succeeds, the block is reported as indexed to the caller, the observers and
    the event system, although nothing of it is in the database. *)
Theorem StoreBlockData_lost_block header items cp m pre tx post (d d1 d2 d3 d4 : D) upserted e ch :
  tables_wf (db_view d) -> toModels header items cp = Ok m -> bm_txs m = pre ++ tx :: post ->
  db_begin d = (Ok tt, d1) ->
  mloop (store_tx HTx) [] pre d1 = (Ok (true, upserted), d2) ->
  tx_success tx -> PostDB_GetTransaction HTx (tx_Hash tx) d2 = (Err e, d3) -> errors_Is e ErrNoRows = false ->
  db_commit d3 = (Ok tt, d4) ->
  let ev := mkChainEvent _ (bm_blk m) (blockHash header) (bm_logs m) in
  StoreBlockData header items cp (d, ch) =
    (Ok (ev, mkBlockData (bm_blk m) [] upserted (bm_median m)), (d4, send_or_drop ev ch)) /\
  db_view d4 = db_view d.
Proof.
  intros Hwf Hm Htxs Hb Hpre Hs Hl He Hc ev.
  assert (Hstop : store_tx HTx upserted tx d2 = (Ok (false, upserted), d3)).
  { unfold store_tx. rewrite (proj2 (Z.eqb_neq _ _) Hs). unfold attempt. cbn [st_GetTransaction PostDB_Storage].
    by rewrite Hl, He. }
  pose proof (mloop_stop (store_tx HTx) pre tx post [] _ _ _ _ _ Hpre Hstop) as Hloop. rewrite <- Htxs in Hloop. split.
  - unfold StoreBlockData, store_block. rewrite Hm. unfold mbind, M_bind. cbn [st_RunInTransaction PostDB_Storage].
    unfold PostDB_RunInTransaction. rewrite (M_bind_ok _ _ _ _ _ Hb). unfold attempt, store_models.
    rewrite (M_bind_ok _ _ _ _ _ Hloop). cbn [mret M_ret]. by rewrite (M_bind_ok _ _ _ _ _ Hc).
  - destruct (law_begin d) as (r & d1' & E & Hv1 & Hr). rewrite Hb in E. injection E as <- <-.
    destruct Hr as [(_ & Hp & _)|(c & ? & _)]; [|done].
    assert (Ht : st_tabs HTx d1 = db_view d) by (cbn; by rewrite Hp, Hv1).
    destruct (tx_loop_mloop (store_tx HTx) put_tx_step store_tx_loop) with (l := pre) (b := @nil Transaction) (d := d1)
      as (r & d2' & E & Hv2 & _); [|by rewrite Ht|].
    { intros b x T ut T' HT (T1 & E & [= <- <-])%result_bind_ok. by eapply put_tx_wf. }
    rewrite Hpre in E. injection E as <- <-.
    destruct (st_lookup _ _ d2 (st_law_GetTransaction HTx (tx_Hash tx))) as (r & d3' & E & Hr).
    cbn [st_GetTransaction PostDB_Storage] in E. rewrite Hl in E. injection E as <- <-.
    destruct (law_commit d3) as (r & d4' & E & Hr4). rewrite Hc in E. injection E as <- <-.
    destruct Hr4 as [(_ & Hv4 & _)|(c & ? & _)]; [|done]. rewrite Hv4.
    destruct Hr as [[Hr _]|(c & _ & _ & _ & Ht3)]; [destruct Hr as [-> _]; done|]. cbn in Ht3, Hv2. congruence.
Qed.
End LostBlock.

(** The block of the witnesses on an empty database whose second statement, the
    lookup of the first transaction, is cancelled. *)
Definition ex_lost_db : MemDB := ex_db [None; Some 57014].
Definition ex_lost_begun : MemDB := snd (db_begin ex_lost_db).
Definition ex_lost_tx : string :=
  match bm_txs ex_bm with tx :: _ => tx_Hash tx | [] => ""%string end.
Definition ex_lost_failed : MemDB := snd (PostDB_GetTransaction HTx ex_lost_tx ex_lost_begun).

Lemma StoreBlockData_lost_block_witness : exists out d4,
  StoreBlockData ex_oheader ex_items None (ex_lost_db, Some []) = (Ok out, (d4, Some [fst out])) /\
  mem_view d4 = empty_tables.
Proof.
  destruct (bm_txs ex_bm) as [|tx post] eqn:Et; [exfalso; revert Et; vm_compute; discriminate|].
  assert (Hh : ex_lost_tx = tx_Hash tx) by (unfold ex_lost_tx; rewrite Et; reflexivity).
  destruct (StoreBlockData_lost_block ex_oheader ex_items None ex_bm [] tx post ex_lost_db ex_lost_begun ex_lost_begun
    ex_lost_failed (snd (db_commit ex_lost_failed)) [] (ErrDB 57014) (Some [])) as [E V].
  - apply empty_tables_wf.
  - vm_compute; reflexivity.
  - exact Et.
  - vm_compute; reflexivity.
  - reflexivity.
  - assert (Hs : forallb (fun x => tx_Status x =? 1) (take 1 (bm_txs ex_bm)) = true) by (vm_compute; reflexivity).
    rewrite Et in Hs. cbn in Hs. unfold tx_success. intros Hf. rewrite Hf in Hs. discriminate.
  - rewrite <- Hh. vm_compute; reflexivity.
  - reflexivity.
  - vm_compute; reflexivity.
  - eexists _, _. split; [exact E|exact V].
Defined.
