(* ===== verification/IndexBackend.v ===== *)
(** * The index backend (src/indexer/backend.go)

    [Backend] is the interface of the same name: the queries the RPC layer and
    the indexer use, and the operations that change the index.  [indexBackend]
    implements it on a [Storage] and the channel of the event system.  What [Index]
    returns is the chain event it has offered to that channel, and the block data
    that the observer and the subscribers of the backend get. *)
From S2P Require Import Prelude GoLib Model Sql Storage Psql Extern BlockModels EthViews StoreBlock.

Class Backend `{O : OasisLib} (B : Type) := {
  bk_QueryBlockRound : ehash -> M B Z;
  bk_QueryBlockHash : Z -> M B ehash;
  bk_QueryLastIndexedRound : M B Z;
  bk_QueryLastRetainedRound : M B Z;
  bk_QueryTransaction : ehash -> M B Transaction;
  bk_GetBlockByRound : Z -> M B Block;
  bk_GetBlockByHash : ehash -> M B Block;
  bk_GetBlockTransactionCountByRound : Z -> M B Z;
  bk_GetBlockTransactionCountByHash : ehash -> M B Z;
  bk_GetTransactionByBlockHashAndIndex : ehash -> Z -> M B Transaction;
  bk_GetTransactionReceipt : ehash -> M B RPCReceipt;
  bk_BlockNumber : M B Z;
  bk_GetLogs : Z -> Z -> M B (list Log);
  bk_Index : oheader -> list TxWithResults -> option CoreParameters -> option RuntimeInfoResponse ->
    M B (ChainEvent * BlockData);
  bk_Prune : Z -> M B unit;
  bk_RuntimeInfo : B -> option RuntimeInfoResponse;
}.

Section IndexBackend.
Context `{O : OasisLib} `{S : Storage D}.

Record indexBackend := mkIndexBackend {
  ib_storage : D;
  ib_rtInfo : option RuntimeInfoResponse;
  ib_chainCh : chain_chan;
}.

(** A call on [ib.storage]. *)
Definition on_storage {A} (m : M D A) : M indexBackend A := fun ib =>
  let '(r, d) := m (ib_storage ib) in (r, mkIndexBackend d (ib_rtInfo ib) (ib_chainCh ib)).

(** A call that also sends on [ib.subscribe.ChainChan()]. *)
Definition on_storage_chan {A} (m : M (D * chain_chan) A) : M indexBackend A := fun ib =>
  let '(r, (d, ch)) := m (ib_storage ib, ib_chainCh ib) in (r, mkIndexBackend d (ib_rtInfo ib) ch).

Definition set_rtInfo (rtInfo : option RuntimeInfoResponse) : M indexBackend unit := fun ib =>
  (Ok tt, match rtInfo with
    | Some i => mkIndexBackend (ib_storage ib) (Some i) (ib_chainCh ib)
    | None => ib
    end).

Definition indexBackend_Index (header : oheader) (txResults : list TxWithResults)
    (coreParameters : option CoreParameters) (rtInfo : option RuntimeInfoResponse)
    : M indexBackend (ChainEvent * BlockData) :=
  out ← on_storage_chan (StoreBlockData header txResults coreParameters);
  _ ← set_rtInfo rtInfo;
  mret out.

(** [storeLastRetainedRound] writes through [ib.storage]. *)
Definition storeLastRetainedRound (round : Z) : M D unit :=
  st_Upsert HDb TIndexedRound (mkIndexedRound LastRetained round).

Definition prune_fn (round : Z) (s : handle) : M D unit :=
  _ ← storeLastRetainedRound round;
  _ ← st_Delete s TBlock round;
  _ ← st_Delete s TLog round;
  _ ← st_Delete s TTransaction round;
  st_Delete s TReceipt round.

Definition indexBackend_Prune (round : Z) : M indexBackend unit :=
  on_storage (st_RunInTransaction HDb (prune_fn round)).

Definition indexBackend_BlockNumber : M indexBackend Z := on_storage (st_GetLatestBlockNumber HDb).

Definition indexBackend_blockNumberFromRound (round : Z) : M indexBackend Z :=
  if round =? RoundLatest then indexBackend_BlockNumber else mret round.

Definition indexBackend_QueryBlockRound (blockHash : ehash) : M indexBackend Z :=
  on_storage (st_GetBlockRound HDb (Hash_Hex blockHash)).

Definition indexBackend_QueryBlockHash (round : Z) : M indexBackend ehash :=
  blockHash ← on_storage (if round =? RoundLatest then st_GetLatestBlockHash HDb
                          else st_GetBlockHash HDb round);
  mret (HexToHash blockHash).

Definition indexBackend_QueryLastIndexedRound : M indexBackend Z :=
  on_storage (st_GetLastIndexedRound HDb).

Definition indexBackend_QueryLastRetainedRound : M indexBackend Z :=
  attempt (on_storage (st_GetLastRetainedRound HDb)) (fun r => match r with
    | Err _ => fail ErrGetLastRetainedRound
    | Ok lastRetainedRound => mret lastRetainedRound
    end).

Definition indexBackend_QueryTransaction (txHash : ehash) : M indexBackend Transaction :=
  on_storage (st_GetTransaction HDb (Hash_Hex txHash)).

Definition indexBackend_GetBlockByRound (round : Z) : M indexBackend Block :=
  blockNumber ← indexBackend_blockNumberFromRound round;
  on_storage (st_GetBlockByNumber HDb blockNumber).

Definition indexBackend_GetBlockByHash (blockHash : ehash) : M indexBackend Block :=
  on_storage (st_GetBlockByHash HDb (Hash_Hex blockHash)).

Definition indexBackend_GetBlockTransactionCountByRound (round : Z) : M indexBackend Z :=
  blockNumber ← indexBackend_blockNumberFromRound round;
  on_storage (st_GetBlockTransactionCountByNumber HDb blockNumber).

Definition indexBackend_GetBlockTransactionCountByHash (blockHash : ehash) : M indexBackend Z :=
  on_storage (st_GetBlockTransactionCountByHash HDb (Hash_Hex blockHash)).

Definition indexBackend_GetTransactionByBlockHashAndIndex (blockHash : ehash) (txIndex : Z)
    : M indexBackend Transaction :=
  on_storage (st_GetBlockTransaction HDb (Hash_Hex blockHash) txIndex).

Definition indexBackend_GetTransactionReceipt (txHash : ehash) : M indexBackend RPCReceipt :=
  dbReceipt ← on_storage (st_GetTransactionReceipt HDb (Hash_Hex txHash));
  mret (db2EthReceipt dbReceipt).

Definition indexBackend_GetLogs (startRound endRound : Z) : M indexBackend (list Log) :=
  on_storage (st_GetLogs HDb startRound endRound).

(** [NewIndexBackend]; no event system has subscribed yet. *)
Definition NewIndexBackend (storage : D) : indexBackend := mkIndexBackend storage None None.

#[export] Instance indexBackend_Backend : Backend indexBackend := {|
  bk_QueryBlockRound := indexBackend_QueryBlockRound;
  bk_QueryBlockHash := indexBackend_QueryBlockHash;
  bk_QueryLastIndexedRound := indexBackend_QueryLastIndexedRound;
  bk_QueryLastRetainedRound := indexBackend_QueryLastRetainedRound;
  bk_QueryTransaction := indexBackend_QueryTransaction;
  bk_GetBlockByRound := indexBackend_GetBlockByRound;
  bk_GetBlockByHash := indexBackend_GetBlockByHash;
  bk_GetBlockTransactionCountByRound := indexBackend_GetBlockTransactionCountByRound;
  bk_GetBlockTransactionCountByHash := indexBackend_GetBlockTransactionCountByHash;
  bk_GetTransactionByBlockHashAndIndex := indexBackend_GetTransactionByBlockHashAndIndex;
  bk_GetTransactionReceipt := indexBackend_GetTransactionReceipt;
  bk_BlockNumber := indexBackend_BlockNumber;
  bk_GetLogs := indexBackend_GetLogs;
  bk_Index := indexBackend_Index;
  bk_Prune := indexBackend_Prune;
  bk_RuntimeInfo := ib_rtInfo;
|}.

(** ** Pruning *)

(** Reference: the rows of a table before the round are gone. *)
Definition delete_before (t : table) (round : Z) (T : Tables) : Tables :=
  set_rows t T (filter (fun kr => (col_round t kr.2 <? round) = false) (rows t T)).

Definition prune_ref (round : Z) (T : Tables) : Tables :=
  delete_before TReceipt round (delete_before TTransaction round (delete_before TLog round
    (delete_before TBlock round (put TIndexedRound (mkIndexedRound LastRetained round) T)))).

Context `{!StorageLaws D}.

(** A write on a ready handle that violates no key takes effect. *)
Lemma write_ready h m w (d : D) n :
  st_writes h m w -> st_ready h d -> fst (sem_write w (st_tabs h d)) = Ok n ->
  exists d', m d = (Ok tt, d') /\ st_wrote h w d d'.
Proof.
  intros Hm Hr Hn. destruct (Hm d) as (r & d' & E & Hr').
  destruct Hr' as [(-> & _ & Hw)|(c & -> & [(_ & Hc & _)|[? _]])]; [eauto|congruence|done].
Qed.

Lemma delete_ready t round (d : D) :
  st_ready HTx d -> exists d', st_Delete HTx t round d = (Ok tt, d') /\ st_keeps d d' /\
    st_view d' = st_view d /\ (forall T, st_pending d' T = delete_before t round (st_pending d T)).
Proof.
  intros Hr. destruct (write_ready HTx _ _ d _ (st_law_Delete HTx t round) Hr eq_refl)
    as (d' & E & Hk & Hv & Hp). exists d'. repeat split; try done; apply Hk.
Qed.

Lemma ready_of_keeps (d d' : D) : st_keeps d d' -> st_ready HTx d -> st_ready HTx d'.
Proof. intros [] []. split; auto. Qed.

Lemma prune_fn_ready round (d : D) : st_ready HTx d -> (forall T, st_pending d T = T) ->
  exists d', prune_fn round HTx d = (Ok tt, d') /\ st_keeps d d' /\
    st_pending d' (st_view d') = prune_ref round (st_view d).
Proof.
  intros Hr Hp. unfold prune_fn, storeLastRetainedRound.
  assert (Hup : exists n, fst (sem_write (WInsert TIndexedRound (mkIndexedRound LastRetained round) DoUpdate)
    (st_tabs HDb d)) = Ok n) by (cbn; case_match; eauto).
  destruct Hup as [n Hn].
  destruct (write_ready HDb _ _ d n (st_law_Upsert HDb TIndexedRound (mkIndexedRound LastRetained round)))
    as (d1 & E1 & K1 & V1 & P1); [by split; [apply Hr|]|done|].
  rewrite (M_bind_ok _ _ _ _ _ E1).
  pose proof (ready_of_keeps _ _ K1 Hr) as R1.
  destruct (delete_ready TBlock round d1 R1) as (d2 & E2 & K2 & V2 & P2).
  pose proof (ready_of_keeps _ _ K2 R1) as R2.
  destruct (delete_ready TLog round d2 R2) as (d3 & E3 & K3 & V3 & P3).
  pose proof (ready_of_keeps _ _ K3 R2) as R3.
  destruct (delete_ready TTransaction round d3 R3) as (d4 & E4 & K4 & V4 & P4).
  pose proof (ready_of_keeps _ _ K4 R3) as R4.
  destruct (delete_ready TReceipt round d4 R4) as (d5 & E5 & K5 & V5 & P5).
  rewrite (M_bind_ok _ _ _ _ _ E2), (M_bind_ok _ _ _ _ _ E3), (M_bind_ok _ _ _ _ _ E4).
  exists d5. split; [done|]. split; [destruct K1, K2, K3, K4, K5; split; auto 10|].
  rewrite P5, P4, P3, P2, P1, Hp, V5, V4, V3, V2, V1. unfold prune_ref. do 4 f_equal.
  cbn. unfold put. by case_match.
Qed.

Lemma delete_before_rows t round T t' : rows t' (delete_before t round T) =
  if decide (t' = t) then filter (fun kr => (col_round t' kr.2 <? round) = false) (rows t' T)
  else rows t' T.
Proof.
  unfold delete_before. case_decide as Ht; [subst; by rewrite rows_set_rows|by apply rows_set_rows_ne].
Qed.

Lemma prune_ref_rows round T t : t <> TIndexedRound ->
  rows t (prune_ref round T) = filter (fun kr => (col_round t kr.2 <? round) = false) (rows t T).
Proof. intros Ht. unfold prune_ref. rewrite !delete_before_rows. by destruct t. Qed.

Lemma prune_ref_spec round T :
  (forall t k r, t <> TIndexedRound ->
     rows t (prune_ref round T) !! k = Some r <-> rows t T !! k = Some r /\ round <= col_round t r) /\
  t_rounds (prune_ref round T) !! (LastRetained, 0) = Some (mkIndexedRound LastRetained round) /\
  t_rounds (prune_ref round T) !! (Continues, 0) = t_rounds T !! (Continues, 0).
Proof.
  split; [|split].
  - intros t k r Ht. rewrite prune_ref_rows by done. rewrite map_lookup_filter_Some. cbn.
    destruct (Z.ltb_spec (col_round t r) round); split; intros []; split; auto; lia.
  - change (rows TIndexedRound (prune_ref round T) !! (LastRetained, 0)
      = Some (mkIndexedRound LastRetained round)). unfold prune_ref. rewrite !delete_before_rows.
    apply (lookup_put TIndexedRound (mkIndexedRound LastRetained round)).
  - change (rows TIndexedRound (prune_ref round T) !! (Continues, 0)
      = rows TIndexedRound T !! (Continues, 0)).
    unfold prune_ref. rewrite !delete_before_rows. by apply (lookup_put_ne TIndexedRound).
Qed.

Lemma delete_before_wf t round T : tables_wf T -> tables_wf (delete_before t round T).
Proof.
  intros Hwf t' k r. rewrite delete_before_rows. case_decide; [|apply Hwf].
  rewrite map_lookup_filter_Some. intros [Hk _]. by apply Hwf.
Qed.

Lemma prune_ref_wf round T : tables_wf T -> tables_wf (prune_ref round T).
Proof. intros Hwf. unfold prune_ref. do 4 apply delete_before_wf. by apply (put_wf TIndexedRound). Qed.

Lemma Prune_prunes round ib : st_up (ib_storage ib) ->
  exists ib', indexBackend_Prune round ib = (Ok tt, ib') /\ st_up (ib_storage ib') /\
    st_view (ib_storage ib') = prune_ref round (st_view (ib_storage ib)).
Proof.
  destruct ib as [d rt]. cbn [ib_storage]. intros Hup. unfold indexBackend_Prune, on_storage.
  destruct (st_law_RunInTransaction _ (prune_fn round) d) as (r & d' & E & Hr).
  cbn [ib_storage ib_rtInfo]. rewrite E.
  destruct Hr as [(c & _ & _ & ?)|(d1 & V1 & P1 & R1 & Hr)]; [done|]. specialize (R1 Hup).
  destruct (prune_fn_ready round d1 R1 P1) as (d2 & E2 & K2 & Hv2). rewrite E2 in Hr.
  pose proof (ready_of_keeps _ _ K2 R1) as R2.
  destruct Hr as [(-> & Hv & Hu)|(c & _ & ? & _)]; [|done].
  eexists. split; [done|]. cbn [ib_storage]. split; [by apply Hu, R2|]. by rewrite Hv, Hv2, V1.
Qed.

(** C23: Pruning on a healthy database succeeds, removes exactly the blocks, logs,
    transactions and receipts of rounds below the given one, records that round
    as the last retained one and leaves the last indexed round alone. *)
Theorem Prune_correct round ib :
  st_up (ib_storage ib) ->
  exists ib', indexBackend_Prune round ib = (Ok tt, ib') /\ st_up (ib_storage ib') /\
    let T := st_view (ib_storage ib) in
    let T' := st_view (ib_storage ib') in
    (forall t k r, t <> TIndexedRound ->
       rows t T' !! k = Some r <-> rows t T !! k = Some r /\ round <= col_round t r) /\
    t_rounds T' !! (LastRetained, 0) = Some (mkIndexedRound LastRetained round) /\
    t_rounds T' !! (Continues, 0) = t_rounds T !! (Continues, 0).
Proof.
  intros Hup. destruct (Prune_prunes round ib Hup) as (ib' & E & Hu & Hv). exists ib'.
  cbv zeta. rewrite Hv. do 2 (split; [done|]). apply prune_ref_spec.
Qed.

(** What the observers get of stored rows. *)
Definition models_bd (m : blockModels) : BlockData :=
  mkBlockData (bm_blk m) (succeeded_receipts (bm_receipts m)) (succeeded_txs (bm_txs m)) (bm_median m).

(** A successful [Index] on a healthy database stores the rows of the block. *)
Lemma indexBackend_Index_models header items cp rt (ib ib' : indexBackend) out :
  st_up (ib_storage ib) -> tables_wf (st_view (ib_storage ib)) ->
  indexBackend_Index header items cp rt ib = (Ok out, ib') ->
  exists m, toModels header items cp = Ok m /\
    put_models m (st_view (ib_storage ib)) = Ok (st_view (ib_storage ib')) /\
    snd out = models_bd m /\ st_up (ib_storage ib').
Proof.
  intros Hup Hwf Hs.
  destruct (store_block_healthy header items cp (ib_storage ib) Hup Hwf) as (r & d1 & E & Hu & Hr).
  unfold indexBackend_Index, on_storage_chan, StoreBlockData, set_rtInfo, mbind, M_bind in Hs. rewrite E in Hs.
  destruct r as [[ev bd]|e]; [|done]. injection Hs as <- Hib'.
  assert (Hib : ib_storage ib' = d1) by (subst ib'; by destruct rt). rewrite Hib.
  destruct (toModels header items cp) as [m|e] eqn:Hm; [|by destruct Hr].
  cbn [mbind result_bind] in Hr.
  destruct (put_models m (st_view (ib_storage ib))) as [T|e] eqn:HT; [|by destruct Hr].
  destruct Hr as [-> [= -> ->]]. by exists m.
Qed.

Lemma toModels_round header items cp m : toModels header items cp = Ok m ->
  blk_Hash (bm_blk m) = Hash_Hex (blockHash header) /\ blk_Round (bm_blk m) = oh_Round header.
Proof.
  intros (st & _ & ([[[blk txs] rcs] dbl] & Hbm & [= <-])%result_bind_ok)%result_bind_ok.
  apply blockToModels_inv in Hbm. cbn. tauto.
Qed.

Lemma indexBackend_Index_inv header items cp rt (ib ib' : indexBackend) out :
  st_up (ib_storage ib) -> tables_wf (st_view (ib_storage ib)) ->
  indexBackend_Index header items cp rt ib = (Ok out, ib') ->
  exists m, put_models m (st_view (ib_storage ib)) = Ok (st_view (ib_storage ib')) /\
    snd out = models_bd m /\ blk_Round (bm_blk m) = oh_Round header /\ st_up (ib_storage ib').
Proof.
  intros Hup Hwf Hs.
  destruct (indexBackend_Index_models _ _ _ _ _ _ _ Hup Hwf Hs) as (m & Hm & HT & Ho & Hu).
  apply toModels_round in Hm as [_ Hr]. eauto.
Qed.

(** A failed one changes nothing. *)
Lemma indexBackend_Index_err header items cp rt (ib ib' : indexBackend) e :
  st_up (ib_storage ib) -> tables_wf (st_view (ib_storage ib)) ->
  indexBackend_Index header items cp rt ib = (Err e, ib') ->
  st_view (ib_storage ib') = st_view (ib_storage ib) /\ st_up (ib_storage ib').
Proof.
  intros Hup Hwf Hs.
  destruct (store_block_healthy header items cp (ib_storage ib) Hup Hwf) as (r & d1 & E & Hu & Hr).
  unfold indexBackend_Index, on_storage_chan, StoreBlockData, set_rtInfo, mbind, M_bind in Hs. rewrite E in Hs.
  destruct r as [[ev bd]|e']; [by destruct rt|]. injection Hs as <- <-. cbn.
  destruct (toModels header items cp) as [m|]; cbn [mbind result_bind] in Hr; [|by destruct Hr].
  destruct (put_models m (st_view (ib_storage ib))); cbn [mbind result_bind] in Hr; by destruct Hr.
Qed.

(** A read on an up database. *)
Lemma read_up {A} (m : M D A) P (d : D) : st_read HDb m P -> st_up d ->
  exists r d', m d = (r, d') /\ P (st_view d) r /\ st_same d d'.
Proof.
  intros Hm Hu. destruct (Hm d) as (r & d' & E & [[? ?]|(c & _ & Hn & _)]); [eauto|].
  destruct Hn. by split.
Qed.

Lemma GetBlockRound_found T hash b r : tables_wf T -> t_blocks T !! (hash, 0) = Some b ->
  (exists b, one_row (t:=TBlock) (hash_is hash) T b /\ r = rmap blk_Round b) -> r = Ok (blk_Round b).
Proof.
  intros Hwf Hb (r0 & H0 & ->).
  apply (one_row_key (t:=TBlock) _ (hash, 0)) in H0 as ->; [|done|].
  - unfold by_key. cbn. by rewrite Hb.
  - intros x. unfold hash_is. rewrite bool_decide_eq_true. cbn. split; [by intros <-|by intros [= <-]].
Qed.

(** What has been indexed is found again: after a successful [Index] on a
    healthy database the queries answer with the block just indexed: its round
    by its hash, the last indexed round, and every transaction of it that did
    not fail. *)
Theorem index_then_query header items cp rt m T ib :
  st_up (ib_storage ib) -> tables_wf (st_view (ib_storage ib)) ->
  toModels header items cp = Ok m -> put_models m (st_view (ib_storage ib)) = Ok T ->
  exists out ib', indexBackend_Index header items cp rt ib = (Ok out, ib') /\
    fst (indexBackend_QueryBlockRound (blockHash header) ib') = Ok (oh_Round header) /\
    fst (indexBackend_QueryLastIndexedRound ib') = Ok (oh_Round header) /\
    (forall h tx, tx ∈ bm_txs m -> tx_success tx -> tx_Hash tx = Hash_Hex h ->
       fst (indexBackend_QueryTransaction h ib') = Ok tx).
Proof.
  destruct ib as [d rt0 ch]. cbn [ib_storage]. intros Hup Hwf Hm HT.
  destruct (run_store_spec m d Hwf) as (r & d' & E & Hr).
  destruct Hr as [(T' & HT' & Hv & [[-> Hu]|[_ ?]])|[_ [(e & _ & ? & _)|?]]]; [|done|congruence|done].
  specialize (Hu Hup). rewrite HT in HT'. injection HT' as <-. subst T.
  assert (Hwf' : tables_wf (st_view d')) by (by eapply put_models_wf).
  destruct (put_models_found _ _ _ HT) as (Hb & Hrnd & _ & Htx & _).
  destruct (toModels_round _ _ _ _ Hm) as [Hh Hn]. rewrite Hh in Hb. rewrite Hn in Hrnd.
  unfold indexBackend_Index, on_storage_chan, StoreBlockData, store_block. rewrite Hm.
  eexists _, (mkIndexBackend d' (match rt with Some i => Some i | None => rt0 end) _). split; [|split; [|split]].
  - unfold mbind, M_bind. cbn [ib_storage ib_chainCh]. rewrite E. cbn. by destruct rt.
  - unfold indexBackend_QueryBlockRound, on_storage. cbn [ib_storage ib_rtInfo].
    destruct (read_up _ _ d' (st_law_GetBlockRound HDb (Hash_Hex (blockHash header))) Hu)
      as (r & d2 & -> & Hr & _). cbn. rewrite <- Hn. by eapply GetBlockRound_found in Hr; [|done|exact Hb].
  - unfold indexBackend_QueryLastIndexedRound, on_storage. cbn [ib_storage ib_rtInfo].
    destruct (read_up _ _ d' (st_law_GetLastIndexedRound HDb) Hu) as (r & d2 & -> & (r0 & Hr0 & ->) & _).
    cbn [fst]. apply (one_row_key (t:=TIndexedRound) _ (Continues, 0)) in Hr0 as ->; [|done|].
    + unfold by_key. cbn. by rewrite Hrnd.
    + intros x. rewrite bool_decide_eq_true. cbn. split; [by intros ->|by intros [= ->]].
  - intros h tx Hin Hs Hh'. unfold indexBackend_QueryTransaction, on_storage. cbn [ib_storage ib_rtInfo].
    destruct (read_up _ _ d' (st_law_GetTransaction HDb (Hash_Hex h)) Hu) as (r & d2 & -> & Hr & _).
    cbn [fst]. apply GetTransaction_key in Hr as ->; [|done].
    specialize (Htx tx Hin Hs). rewrite Hh' in Htx. unfold by_key. cbn. by rewrite Htx.
Qed.
End IndexBackend.

(** ** What the indexer relies on

    The indexer writes through [Index] and [Prune] and reads the last indexed
    round.  [IndexerBackend] is what a backend promises to it: on a good state
    the three operations do what the reference functions on the tables say and
    lead to a good state again.  A block is only passed for a round after the
    last indexed one. *)
Definition last_indexed (T : Tables) : option Z := ir_Round <$> t_rounds T !! (Continues, 0).
Definition next_round (T : Tables) : Z := match last_indexed T with Some l => l + 1 | None => 0 end.

(** The tables with one more block. *)
Definition put_block `{O : OasisLib} (header : oheader) (items : list TxWithResults)
    (cp : option CoreParameters) (T : Tables) : result (blockModels * Tables) :=
  m ← toModels header items cp;
  T' ← put_models m T;
  Ok (m, T').

Class IndexerBackend `{O : OasisLib} (B : Type) `{!Backend B} := {
  iv_view : B -> Tables;
  iv_ok : B -> Prop;
  iv_Index : forall header items cp rt (b : B), iv_ok b -> next_round (iv_view b) <= oh_Round header ->
    exists r b', bk_Index header items cp rt b = (r, b') /\ iv_ok b' /\
      match put_block header items cp (iv_view b) with
      | Ok (m, T) => iv_view b' = T /\
          r = Ok (mkChainEvent _ (bm_blk m) (blockHash header) (bm_logs m), models_bd m)
      | Err e => r = Err e /\ iv_view b' = iv_view b
      end;
  iv_QueryLastIndexedRound : forall b : B, iv_ok b -> exists b',
    bk_QueryLastIndexedRound b =
      (match last_indexed (iv_view b) with Some l => Ok l | None => Err ErrNoRoundsIndexed end, b') /\
    iv_ok b' /\ iv_view b' = iv_view b;
  iv_Prune : forall round (b : B), iv_ok b -> exists b',
    bk_Prune round b = (Ok tt, b') /\ iv_ok b' /\ iv_view b' = prune_ref round (iv_view b);
}.

Lemma put_block_last `{O : OasisLib} header items cp T m T' : put_block header items cp T = Ok (m, T') ->
  last_indexed T' = Some (oh_Round header) /\ block_found m T T' /\ blk_Round (bm_blk m) = oh_Round header.
Proof.
  intros (m' & Hm & (T1 & HT & [= -> ->])%result_bind_ok)%result_bind_ok.
  apply toModels_round in Hm as [_ Hr]. pose proof (put_models_found _ _ _ HT) as Hf.
  split; [|done]. unfold last_indexed. destruct Hf as (_ & -> & _). cbn. by rewrite Hr.
Qed.

Section IndexerBackend.
Context `{O : OasisLib} `{S : Storage D} `{!StorageLaws D}.

Definition ib_ok (ib : indexBackend (D:=D)) : Prop :=
  st_up (ib_storage ib) /\ tables_wf (st_view (ib_storage ib)).

Lemma indexBackend_Index_puts header items cp rt (ib : indexBackend (D:=D)) : ib_ok ib ->
  exists r ib', indexBackend_Index header items cp rt ib = (r, ib') /\ ib_ok ib' /\
    match put_block header items cp (st_view (ib_storage ib)) with
    | Ok (m, T) => st_view (ib_storage ib') = T /\
        r = Ok (mkChainEvent _ (bm_blk m) (blockHash header) (bm_logs m), models_bd m)
    | Err e => r = Err e /\ st_view (ib_storage ib') = st_view (ib_storage ib)
    end.
Proof.
  intros [Hup Hwf].
  destruct (store_block_healthy header items cp (ib_storage ib) Hup Hwf) as (r & d1 & E & Hu & Hr).
  fold (put_block header items cp (st_view (ib_storage ib))) in Hr.
  unfold indexBackend_Index, on_storage_chan, StoreBlockData, set_rtInfo, mbind, M_bind. rewrite E.
  destruct (put_block header items cp (st_view (ib_storage ib))) as [[m T]|e] eqn:Hp;
    destruct Hr as [Hv Hr]; [subst r|rewrite Hv].
  - eexists _, (mkIndexBackend d1 (match rt with Some i => Some i | None => ib_rtInfo ib end) _).
    split; [cbn; by destruct rt|]. split; [|done]. split; [done|]. cbn [ib_storage]. rewrite Hv.
    apply result_bind_ok in Hp as (m' & _ & (T1 & HT & [= -> ->])%result_bind_ok).
    by eapply put_models_wf.
  - eexists _, (mkIndexBackend d1 (ib_rtInfo ib) (ib_chainCh ib)). split; [done|]. split; [|done].
    split; [done|]. cbn [ib_storage]. by rewrite Hr.
Qed.

(** Only a block that was stored is offered to the channel. *)
Lemma indexBackend_Index_chan header items cp rt (ib ib' : indexBackend (D:=D)) r :
  indexBackend_Index header items cp rt ib = (r, ib') ->
  ib_chainCh ib' = match r with Ok out => send_or_drop (fst out) (ib_chainCh ib) | Err _ => ib_chainCh ib end.
Proof.
  unfold indexBackend_Index, on_storage_chan, StoreBlockData, set_rtInfo, mbind, M_bind.
  destruct (store_block header items cp (ib_storage ib)) as [[[ev bd]|e] d']; [|by intros [= <- <-]].
  destruct rt; by intros [= <- <-].
Qed.

Lemma indexBackend_last (ib : indexBackend (D:=D)) : ib_ok ib -> exists ib',
  indexBackend_QueryLastIndexedRound ib =
    (match last_indexed (st_view (ib_storage ib)) with Some l => Ok l | None => Err ErrNoRoundsIndexed end, ib') /\
  ib_ok ib' /\ st_view (ib_storage ib') = st_view (ib_storage ib).
Proof.
  intros [Hup Hwf]. unfold indexBackend_QueryLastIndexedRound, on_storage.
  destruct (read_up _ _ (ib_storage ib) (st_law_GetLastIndexedRound HDb) Hup)
    as (r & d2 & -> & (r0 & Hr0 & ->) & Hv & _ & Hk).
  exists (mkIndexBackend d2 (ib_rtInfo ib) (ib_chainCh ib)). split; [|split; [|exact Hv]].
  2: { split; [by apply Hk|]. cbn [ib_storage]. by rewrite Hv. }
  apply (one_row_key (t:=TIndexedRound) _ (Continues, 0)) in Hr0 as ->; [|done|].
  - unfold last_indexed, by_key. cbn. by destruct (t_rounds _ !! (Continues, 0)).
  - intros x. rewrite bool_decide_eq_true. cbn. split; [by intros ->|by intros [= ->]].
Qed.

#[export] Program Instance indexBackend_IndexerBackend : IndexerBackend (indexBackend (D:=D)) := {|
  iv_view ib := st_view (ib_storage ib);
  iv_ok := ib_ok;
  iv_QueryLastIndexedRound := indexBackend_last;
|}.
Next Obligation. intros. by apply indexBackend_Index_puts. Qed.
Next Obligation.
  intros round ib [Hup Hwf]. destruct (Prune_prunes round ib Hup) as (ib' & E & Hu & Hv).
  exists ib'. split; [exact E|]. split; [split; [done|]|done]. rewrite Hv. by apply prune_ref_wf.
Qed.
End IndexerBackend.

(** ** Witnesses *)
(** A database with one block, of round 5. *)
Definition ex_full_db (plan : list (option Z)) : MemDB := mkMemDB ex_stored id false plan.

Lemma ex_full_wf : tables_wf ex_stored.
Proof.
  assert (Hok : put_models ex_bm empty_tables = Ok ex_stored).
  { unfold ex_stored. assert (Hb : is_Ok (put_models ex_bm empty_tables) = true) by (vm_compute; reflexivity).
    by destruct (put_models ex_bm empty_tables). }
  eapply put_models_wf; [apply empty_tables_wf|exact Hok].
Qed.

Lemma Prune_correct_witness : exists ib',
  indexBackend_Prune 6 (NewIndexBackend (ex_full_db [])) = (Ok tt, ib') /\
  t_rounds (mem_view (ib_storage ib')) !! (LastRetained, 0) = Some (mkIndexedRound LastRetained 6).
Proof.
  destruct (Prune_correct 6 (NewIndexBackend (ex_full_db []))) as (ib' & E & _ & _ & Hr & _).
  - constructor.
  - exists ib'. split; [exact E|exact Hr].
Defined.

Lemma index_then_query_witness : exists out ib',
  indexBackend_Index ex_oheader ex_items None None (NewIndexBackend (ex_db [])) = (Ok out, ib') /\
  fst (indexBackend_QueryLastIndexedRound ib') = Ok 5.
Proof.
  destruct (index_then_query ex_oheader ex_items None None ex_bm ex_stored (NewIndexBackend (ex_db [])))
    as (out & ib' & E & _ & Hr & _).
  - constructor.
  - apply empty_tables_wf.
  - vm_compute; reflexivity.
  - vm_compute; reflexivity.
  - exists out, ib'. split; [exact E|exact Hr].
Defined.

(** The retained round is not part of the pruning transaction: when a delete
    fails, the rows are all still there, but the round up to which they were
    to be removed is already recorded as the last retained one. *)
Theorem Prune_retained_not_rolled_back : exists d : MemDB,
  let out := indexBackend_Prune 6 (NewIndexBackend d) in
  is_Ok (fst out) = false /\
  t_blocks (mem_view (ib_storage (snd out))) = t_blocks (mem_view d) /\
  t_blocks (mem_view d) !! ("#h5"%string, 0) <> None /\
  t_rounds (mem_view d) !! (LastRetained, 0) = None /\
  t_rounds (mem_view (ib_storage (snd out))) !! (LastRetained, 0) = Some (mkIndexedRound LastRetained 6).
Proof. exists (ex_full_db [None; None; Some 57014]). vm_compute. done. Qed.
