(* ===== verification/Cache.v ===== *)
(** * The caching backend (src/indexer/backend_cache.go)

    [CachingBackend] keeps the last indexed blocks in maps in front of another
    backend.  The [sync.Map]s are finite maps; the hit and miss counters are
    in CacheMetrics.v.  The state is split into the
    wrapped backend and the cache proper. *)
From S2P Require Import Prelude GoLib Model Sql Storage Psql Extern BlockModels EthViews StoreBlock IndexBackend.

(** [txCacheEntry], [receiptCacheEntry] *)
Record txCacheEntry := mkTxCacheEntry {
  tce_tx : Transaction;
  tce_blockNumber : Z;
}.

Record receiptCacheEntry := mkReceiptCacheEntry {
  rce_receipt : Receipt;
  rce_blockNumber : Z;
}.

(** The fields of [CachingBackend] other than [inner]. *)
Record Cache := mkCache {
  cacheSize : Z;
  maxCacheSize : Z;
  blockDataByNumber : gmap Z BlockData;
  blockByHashHex : gmap string Block;
  logsByBlockNumber : gmap Z (list Log);
  txByHashHex : gmap string txCacheEntry;
  receiptByTxHashHex : gmap string receiptCacheEntry;
  lastIndexedRound : Z;
  lastRetainedRound : Z;
  lastRetainedRoundValid : Z;
}.

Definition cacheTxes (blockNumber : Z) (txes : list Transaction) (m : gmap string txCacheEntry)
    : gmap string txCacheEntry :=
  foldl (fun m tx => <[tx_Hash tx := mkTxCacheEntry tx blockNumber]> m) m txes.

Definition cacheReceipts (blockNumber : Z) (receipts : list Receipt)
    (m : gmap string receiptCacheEntry) : gmap string receiptCacheEntry :=
  foldl (fun m rc => <[rc_TransactionHash rc := mkReceiptCacheEntry rc blockNumber]> m) m receipts.

(** The logs of [cacheLogsByBlockNumber]. *)
Definition receiptsLogs (receipts : list Receipt) : list Log :=
  foldl (fun logs rc => logs ++ rc_Logs rc) [] receipts.

Definition cacheLogsByBlockNumber (blockNumber : Z) (receipts : list Receipt)
    (m : gmap Z (list Log)) : gmap Z (list Log) :=
  <[blockNumber := receiptsLogs receipts]> m.

Definition pruneTxes (blockNumber : Z) (txes : list Transaction) (m : gmap string txCacheEntry)
    : gmap string txCacheEntry :=
  foldl (fun m tx => match m !! tx_Hash tx with
    | Some entry => if tce_blockNumber entry =? blockNumber then delete (tx_Hash tx) m else m
    | None => m
    end) m txes.

Definition pruneReceipts (blockNumber : Z) (receipts : list Receipt)
    (m : gmap string receiptCacheEntry) : gmap string receiptCacheEntry :=
  foldl (fun m rc => match m !! rc_TransactionHash rc with
    | Some entry => if rce_blockNumber entry =? blockNumber then delete (rc_TransactionHash rc) m else m
    | None => m
    end) m receipts.

(** [pruneCache] panics when an entry is under the wrong number. *)
Definition pruneCache (c : Cache) (blockNumber : Z) : result Cache :=
  match blockDataByNumber c !! blockNumber with
  | None => Ok c
  | Some bd =>
      if negb (blk_Round (bd_Block bd) =? blockNumber) then Err ErrPanic else
      Ok (mkCache (cacheSize c - 1)%u64 (maxCacheSize c)
        (delete blockNumber (blockDataByNumber c))
        (delete (blk_Hash (bd_Block bd)) (blockByHashHex c))
        (delete (blk_Round (bd_Block bd)) (logsByBlockNumber c))
        (pruneTxes blockNumber (bd_UniqueTxes bd) (txByHashHex c))
        (pruneReceipts blockNumber (bd_Receipts bd) (receiptByTxHashHex c))
        (lastIndexedRound c) (lastRetainedRound c) (lastRetainedRoundValid c))
  end.

(** The pruning loop over the sorted rounds, until the cache is small enough. *)
Fixpoint prune_loop (c : Cache) (rounds : list Z) : result Cache :=
  match rounds with
  | [] => Ok c
  | idx :: rest =>
      c ← pruneCache c idx;
      if cacheSize c <=? maxCacheSize c then Ok c else prune_loop c rest
  end.

(** [slices.Sort] of the keys, whatever order [Range] gives them in. *)
Definition sorted_rounds (m : gmap Z BlockData) : list Z := merge_sort Z.le (map_to_list m).*1.

(** The insertions of [OnBlockIndexed]. *)
Definition cache_insert (c : Cache) (bd : BlockData) : Cache :=
  let round := blk_Round (bd_Block bd) in
  mkCache (cacheSize c + 1)%u64 (maxCacheSize c)
    (<[round := bd]> (blockDataByNumber c))
    (<[blk_Hash (bd_Block bd) := bd_Block bd]> (blockByHashHex c))
    (cacheLogsByBlockNumber round (bd_Receipts bd) (logsByBlockNumber c))
    (cacheTxes round (bd_UniqueTxes bd) (txByHashHex c))
    (cacheReceipts round (bd_Receipts bd) (receiptByTxHashHex c))
    (if lastIndexedRound c <? round then round else lastIndexedRound c)
    (lastRetainedRound c) (lastRetainedRoundValid c).

Definition OnBlockIndexed (c : Cache) (bd : BlockData) : result Cache :=
  let c := cache_insert c bd in
  if maxCacheSize c <? cacheSize c then prune_loop c (sorted_rounds (blockDataByNumber c))
  else Ok c.

Definition set_lastRetained (c : Cache) (round valid : Z) : Cache :=
  mkCache (cacheSize c) (maxCacheSize c) (blockDataByNumber c) (blockByHashHex c)
    (logsByBlockNumber c) (txByHashHex c) (receiptByTxHashHex c) (lastIndexedRound c) round valid.

Definition OnLastRetainedRound (c : Cache) (round : Z) : Cache :=
  set_lastRetained c round (lastRetainedRoundValid c).

(** [conf.CacheConfig] (src/conf/config.go) *)
Record CacheConfig := mkCacheConfig {
  cc_BlockSize : Z;
  cc_Metrics : bool;
}.

Definition defaultBlockCacheSize : Z := 128.

Definition new_cache (cfg : option CacheConfig) : Cache :=
  let size := match cfg with
    | Some c => if cc_BlockSize c =? 0 then defaultBlockCacheSize else cc_BlockSize c
    | None => defaultBlockCacheSize
    end in
  mkCache 0 size ∅ ∅ ∅ ∅ ∅ 0 0 0.

(** ** The backend *)
Section CachingBackend.
Context `{O : OasisLib} `{!Backend B}.

Record CachingBackend := mkCachingBackend {
  cb_inner : B;
  cb_cache : Cache;
}.

Definition NewCachingBackend (backend : B) (cfg : option CacheConfig) : CachingBackend :=
  mkCachingBackend backend (new_cache cfg).

(** A call on [cb.inner]. *)
Definition on_inner {A} (m : M B A) : M CachingBackend A := fun cb =>
  let '(r, b) := m (cb_inner cb) in (r, mkCachingBackend b (cb_cache cb)).

Definition get_cache : M CachingBackend Cache := fun cb => (Ok (cb_cache cb), cb).
Definition put_cache (c : Cache) : M CachingBackend unit := fun cb =>
  (Ok tt, mkCachingBackend (cb_inner cb) c).

Definition cachedBlockDataByNumber (c : Cache) (blockNumber : Z) : option BlockData :=
  blockDataByNumber c !! blockNumber.
Definition cachedBlockByNumber (c : Cache) (blockNumber : Z) : option Block :=
  bd_Block <$> cachedBlockDataByNumber c blockNumber.
Definition cachedBlockByHash (c : Cache) (blockHash : ehash) : option Block :=
  blockByHashHex c !! Hash_Hex blockHash.
Definition cachedTxByHash (c : Cache) (ethTxHash : ehash) : option Transaction :=
  tce_tx <$> txByHashHex c !! Hash_Hex ethTxHash.
Definition cachedReceiptByTxHash (c : Cache) (ethTxHash : ehash) : option Receipt :=
  rce_receipt <$> receiptByTxHashHex c !! Hash_Hex ethTxHash.
Definition cachedLogsByNumber (c : Cache) (blockNumber : Z) : option (list Log) :=
  logsByBlockNumber c !! blockNumber.

(** [Index]: the inner backend notifies its observer, which is this cache. *)
Definition CachingBackend_Index (header : oheader) (txResults : list TxWithResults)
    (coreParameters : option CoreParameters) (rtInfo : option RuntimeInfoResponse)
    : M CachingBackend (ChainEvent * BlockData) :=
  out ← on_inner (bk_Index header txResults coreParameters rtInfo);
  c ← get_cache;
  match OnBlockIndexed c (snd out) with
  | Ok c' => _ ← put_cache c'; mret out
  | Err e => fail e
  end.

Definition CachingBackend_Prune (round : Z) : M CachingBackend unit := on_inner (bk_Prune round).

Definition CachingBackend_BlockNumber : M CachingBackend Z :=
  c ← get_cache;
  if lastIndexedRound c =? 0 then fail ErrNoRoundsIndexed else mret (lastIndexedRound c).

Definition CachingBackend_blockNumberFromRound (round : Z) : M CachingBackend Z :=
  if round =? RoundLatest then CachingBackend_BlockNumber else mret round.

Definition CachingBackend_QueryBlockRound (blockHash : ehash) : M CachingBackend Z :=
  c ← get_cache;
  match cachedBlockByHash c blockHash with
  | Some blk => mret (blk_Round blk)
  | None => on_inner (bk_QueryBlockRound blockHash)
  end.

Definition CachingBackend_QueryBlockHash (round : Z) : M CachingBackend ehash :=
  blockNumber ← CachingBackend_blockNumberFromRound round;
  c ← get_cache;
  match cachedBlockByNumber c blockNumber with
  | Some blk => mret (HexToHash (blk_Hash blk))
  | None => on_inner (bk_QueryBlockHash round)
  end.

Definition CachingBackend_QueryLastIndexedRound : M CachingBackend Z :=
  c ← get_cache;
  if negb (lastIndexedRound c =? 0) then mret (lastIndexedRound c)
  else on_inner bk_QueryLastIndexedRound.

(** The compare-and-swap loop, with fuel; [None] when it runs out.  No other
    code of the program stores [lastRetainedRound] (nothing calls
    [OnLastRetainedRound]), so the swap sees the value loaded before. *)
Fixpoint retained_loop (fuel : nat) (lastRetained : Z) : M CachingBackend (option Z) :=
  match fuel with
  | 0%nat => mret None
  | S fuel' =>
      let prevLastRetained := lastRetained in
      lastRetained ← on_inner bk_QueryLastRetainedRound;
      c ← get_cache;
      if lastRetainedRound c =? prevLastRetained then
        _ ← put_cache (set_lastRetained c lastRetained 1);
        mret (Some lastRetained)
      else retained_loop fuel' lastRetained
  end.

Definition CachingBackend_QueryLastRetainedRound : M CachingBackend Z :=
  c ← get_cache;
  if lastRetainedRoundValid c =? 0 then
    r ← retained_loop 1 (lastRetainedRound c);
    match r with Some lastRetained => mret lastRetained | None => fail ErrPanic end
  else mret (lastRetainedRound c).

Definition CachingBackend_QueryTransaction (ethTxHash : ehash) : M CachingBackend Transaction :=
  c ← get_cache;
  match cachedTxByHash c ethTxHash with
  | Some tx => mret tx
  | None => on_inner (bk_QueryTransaction ethTxHash)
  end.

Definition CachingBackend_GetBlockByRound (round : Z) : M CachingBackend Block :=
  blockNumber ← CachingBackend_blockNumberFromRound round;
  c ← get_cache;
  match cachedBlockByNumber c blockNumber with
  | Some blk => mret blk
  | None => on_inner (bk_GetBlockByRound blockNumber)
  end.

Definition CachingBackend_GetBlockByHash (blockHash : ehash) : M CachingBackend Block :=
  c ← get_cache;
  match cachedBlockByHash c blockHash with
  | Some blk => mret blk
  | None => on_inner (bk_GetBlockByHash blockHash)
  end.

Definition CachingBackend_GetBlockTransactionCountByRound (round : Z) : M CachingBackend Z :=
  blockNumber ← CachingBackend_blockNumberFromRound round;
  c ← get_cache;
  match cachedBlockByNumber c blockNumber with
  | Some blk => mret (Z.of_nat (length (blk_Transactions blk)))
  | None => on_inner (bk_GetBlockTransactionCountByRound blockNumber)
  end.

Definition CachingBackend_GetBlockTransactionCountByHash (blockHash : ehash) : M CachingBackend Z :=
  c ← get_cache;
  match cachedBlockByHash c blockHash with
  | Some blk => mret (Z.of_nat (length (blk_Transactions blk)))
  | None => on_inner (bk_GetBlockTransactionCountByHash blockHash)
  end.

Definition CachingBackend_GetTransactionByBlockHashAndIndex (blockHash : ehash) (txIndex : Z)
    : M CachingBackend Transaction :=
  c ← get_cache;
  match cachedBlockByHash c blockHash with
  | Some blk =>
      let l := Z.of_nat (length (blk_Transactions blk)) in
      if l =? 0 then fail (ErrNew "the block doesn't have any transactions")
      else if l - 1 <? txIndex then fail (ErrNew "index out of range")
      else if txIndex <? 0 then fail ErrPanic
      else match blk_Transactions blk !! Z.to_nat txIndex with
           | Some tx => mret tx
           | None => fail ErrPanic
           end
  | None => on_inner (bk_GetTransactionByBlockHashAndIndex blockHash txIndex)
  end.

Definition CachingBackend_GetTransactionReceipt (txHash : ehash) : M CachingBackend RPCReceipt :=
  c ← get_cache;
  match cachedReceiptByTxHash c txHash with
  | Some receipt => mret (db2EthReceipt receipt)
  | None => on_inner (bk_GetTransactionReceipt txHash)
  end.

(** The loop of [GetLogs] over [i, i+1, ...] while [i <= endRound]; the fuel is
    one more than the number of cached blocks, so that an uncached round is met
    before it runs out.  The flag is [ok]. *)
Fixpoint logs_loop (fuel : nat) (c : Cache) (i endRound : Z) (ok : bool) (logs : list Log)
    : bool * list Log :=
  match fuel with
  | 0%nat => (ok, logs)
  | S fuel' =>
      if i <=? endRound then
        match cachedLogsByNumber c i with
        | None => (false, logs)
        | Some blockLogs => logs_loop fuel' c (i + 1)%u64 endRound true (logs ++ blockLogs)
        end
      else (ok, logs)
  end.

Definition CachingBackend_GetLogs (startRound endRound : Z) : M CachingBackend (list Log) :=
  c ← get_cache;
  let reqSize := u64 (endRound - startRound + 1) in
  if reqSize <? maxCacheSize c then
    let '(ok, logs) := logs_loop (S (S (size (logsByBlockNumber c)))) c startRound endRound false [] in
    if (ok : bool) then mret logs else on_inner (bk_GetLogs startRound endRound)
  else on_inner (bk_GetLogs startRound endRound).

(** [Start] up to the wait for the end of the context. *)
Definition CachingBackend_Start : M CachingBackend unit :=
  attempt (on_inner bk_QueryLastIndexedRound) (fun r cb =>
    let indexed := match r with Ok n => n | Err _ => 0 end in
    let '(r2, b) := bk_QueryLastRetainedRound (cb_inner cb) in
    let c := cb_cache cb in
    let '(retained, valid) := match r2 with
      | Ok n => (n, 1)
      | Err _ => (0, lastRetainedRoundValid c)
      end in
    (Ok tt, mkCachingBackend b (mkCache (cacheSize c) (maxCacheSize c) (blockDataByNumber c)
      (blockByHashHex c) (logsByBlockNumber c) (txByHashHex c) (receiptByTxHashHex c) indexed
      retained valid))).

#[export] Instance CachingBackend_Backend : Backend CachingBackend := {|
  bk_QueryBlockRound := CachingBackend_QueryBlockRound;
  bk_QueryBlockHash := CachingBackend_QueryBlockHash;
  bk_QueryLastIndexedRound := CachingBackend_QueryLastIndexedRound;
  bk_QueryLastRetainedRound := CachingBackend_QueryLastRetainedRound;
  bk_QueryTransaction := CachingBackend_QueryTransaction;
  bk_GetBlockByRound := CachingBackend_GetBlockByRound;
  bk_GetBlockByHash := CachingBackend_GetBlockByHash;
  bk_GetBlockTransactionCountByRound := CachingBackend_GetBlockTransactionCountByRound;
  bk_GetBlockTransactionCountByHash := CachingBackend_GetBlockTransactionCountByHash;
  bk_GetTransactionByBlockHashAndIndex := CachingBackend_GetTransactionByBlockHashAndIndex;
  bk_GetTransactionReceipt := CachingBackend_GetTransactionReceipt;
  bk_BlockNumber := CachingBackend_BlockNumber;
  bk_GetLogs := CachingBackend_GetLogs;
  bk_Index := CachingBackend_Index;
  bk_Prune := CachingBackend_Prune;
  bk_RuntimeInfo cb := bk_RuntimeInfo (cb_inner cb);
|}.
End CachingBackend.

(** ** The cache as a window over the indexed blocks *)

(** Maps built by inserting the elements of a list in order. *)
Section Inserts.
Context {K : Type} `{Countable K} {X V : Type} (key : X -> K) (val : X -> V).

Definition inserts (m : gmap K V) (l : list X) : gmap K V :=
  foldl (fun m x => <[key x := val x]> m) m l.

Lemma inserts_union l : forall m, inserts m l = inserts ∅ l ∪ m.
Proof.
  unfold inserts. induction l as [|x l IH]; intros m; cbn; [by rewrite (left_id_L ∅ (∪))|].
  rewrite IH. symmetry. rewrite IH. rewrite <- (assoc_L (∪)). f_equal.
  by rewrite insert_empty, <- insert_union_singleton_l.
Qed.

Lemma inserts_cons x l : inserts ∅ (x :: l) = inserts ∅ l ∪ {[key x := val x]}.
Proof. unfold inserts. cbn. rewrite (inserts_union l). by rewrite insert_empty. Qed.

Lemma inserts_Some l k v : inserts ∅ l !! k = Some v -> exists x, x ∈ l /\ key x = k /\ val x = v.
Proof.
  induction l as [|x l IH]; [cbn; by rewrite lookup_empty|]. rewrite inserts_cons.
  intros [Hk|[_ Hk]]%lookup_union_Some_raw.
  - destruct (IH Hk) as (y & ? & ? & ?). exists y. split; [by right|done].
  - apply lookup_singleton_Some in Hk as [<- <-]. exists x. split; [by left|done].
Qed.

Lemma inserts_None l k : inserts ∅ l !! k = None <-> k ∉ map key l.
Proof.
  induction l as [|x l IH]; [cbn; rewrite lookup_empty; set_solver|]. rewrite inserts_cons.
  rewrite lookup_union_None, IH, lookup_singleton_None. cbn. rewrite not_elem_of_cons.
  split; intros []; split; auto.
Qed.

Lemma inserts_snoc l x : inserts ∅ (l ++ [x]) = <[key x := val x]> (inserts ∅ l).
Proof. unfold inserts. by rewrite foldl_app. Qed.

(** Deleting the key of the oldest element. *)
Lemma delete_oldest x l : key x ∉ map key l -> delete (key x) (inserts ∅ (x :: l)) = inserts ∅ l.
Proof.
  intros Hx%inserts_None. rewrite inserts_cons. apply map_eq. intros k.
  destruct (decide (k = key x)) as [->|Hne]; [by rewrite lookup_delete_eq, Hx|].
  rewrite lookup_delete_ne by done. destruct (inserts ∅ l !! k) eqn:E.
  - by apply lookup_union_Some_l.
  - apply lookup_union_None. split; [done|]. by apply lookup_singleton_None.
Qed.
End Inserts.

(** The transaction and receipt entries of several blocks. *)
Section Entries.
Context {Y X E : Type} (round : Y -> Z) (items : Y -> list X) (key : X -> string)
  (mk : X -> Z -> E) (bn : E -> Z) (bn_mk : forall x n, bn (mk x n) = n).

Definition store_entries (n : Z) (l : list X) (m : gmap string E) : gmap string E :=
  foldl (fun m x => <[key x := mk x n]> m) m l.

Definition drop_entries (n : Z) (l : list X) (m : gmap string E) : gmap string E :=
  foldl (fun m x => match m !! key x with
    | Some e => if bn e =? n then delete (key x) m else m
    | None => m end) m l.

Definition entries (m : gmap string E) (w : list Y) : gmap string E :=
  foldl (fun m y => store_entries (round y) (items y) m) m w.

Lemma store_entries_union n l m : store_entries n l m = store_entries n l ∅ ∪ m.
Proof. apply (inserts_union key (fun x => mk x n)). Qed.

Lemma entries_union w : forall m, entries m w = entries ∅ w ∪ m.
Proof.
  unfold entries. induction w as [|y w IH]; intros m; cbn; [by rewrite (left_id_L ∅ (∪))|].
  rewrite IH. symmetry. rewrite IH, <- (assoc_L (∪)). f_equal. symmetry. apply store_entries_union.
Qed.

Lemma entries_cons y w : entries ∅ (y :: w) = entries ∅ w ∪ store_entries (round y) (items y) ∅.
Proof. unfold entries. cbn. apply entries_union. Qed.

Lemma entries_snoc y w : entries ∅ (w ++ [y]) = store_entries (round y) (items y) (entries ∅ w).
Proof. unfold entries. by rewrite foldl_app. Qed.

Lemma entries_Some w k e : entries ∅ w !! k = Some e ->
  exists y x, y ∈ w /\ x ∈ items y /\ key x = k /\ e = mk x (round y).
Proof.
  induction w as [|y w IH]; [cbn; by rewrite lookup_empty|]. rewrite entries_cons.
  intros [Hk|[_ Hk]]%lookup_union_Some_raw.
  - destruct (IH Hk) as (y' & x & ? & ?). exists y', x. split; [by right|done].
  - apply (inserts_Some key (fun x => mk x (round y))) in Hk as (x & ? & ? & <-).
    exists y, x. split; [by left|done].
Qed.

Lemma drop_entries_lookup n l : forall m k, drop_entries n l m !! k =
  match m !! k with
  | Some e => if bool_decide (k ∈ map key l) && (bn e =? n) then None else Some e
  | None => None
  end.
Proof.
  unfold drop_entries. induction l as [|x l IH]; intros m k; cbn [foldl map].
  - rewrite bool_decide_false by apply not_elem_of_nil. by destruct (m !! k).
  - rewrite IH. clear IH. destruct (decide (k = key x)) as [->|Hne].
    + rewrite (bool_decide_true (key x ∈ key x :: map key l)) by left.
      destruct (m !! key x) as [e|] eqn:E1; [|by rewrite E1].
      destruct (Z.eqb_spec (bn e) n); [by rewrite lookup_delete_eq|]. rewrite E1.
      by rewrite (proj2 (Z.eqb_neq _ _)), andb_false_r.
    + assert (Hl : (match m !! key x with
        | Some e => if bn e =? n then delete (key x) m else m | None => m end) !! k = m !! k)
        by (repeat case_match; by rewrite ?lookup_delete_ne).
      rewrite Hl. destruct (m !! k); [|done].
      rewrite (bool_decide_ext (k ∈ key x :: map key l) (k ∈ map key l)); [done|].
      rewrite elem_of_cons. split; [by intros [?|?]|by right].
Qed.

(** Pruning the oldest block leaves the entries of the others. *)
Lemma drop_oldest y w : round y ∉ map round w ->
  drop_entries (round y) (items y) (entries ∅ (y :: w)) = entries ∅ w.
Proof.
  intros Hy. apply map_eq. intros k. rewrite drop_entries_lookup, entries_cons.
  destruct (entries ∅ w !! k) as [e|] eqn:E1.
  - rewrite (lookup_union_Some_l _ _ k e E1).
    apply entries_Some in E1 as (y' & x & Hy' & _ & _ & ->). rewrite bn_mk.
    rewrite (proj2 (Z.eqb_neq _ _)), andb_false_r; [done|].
    intros Heq. apply Hy. rewrite <- Heq. by apply list_elem_of_fmap_2.
  - rewrite lookup_union_r by done.
    destruct (store_entries (round y) (items y) ∅ !! k) as [e|] eqn:E2; [|done].
    apply (inserts_Some key (fun x => mk x (round y))) in E2 as (x & Hx & <- & <-).
    rewrite bool_decide_true by (by apply list_elem_of_fmap_2). by rewrite bn_mk, Z.eqb_refl.
Qed.
End Entries.

Definition bd_round (bd : BlockData) : Z := blk_Round (bd_Block bd).
Definition bd_hash (bd : BlockData) : string := blk_Hash (bd_Block bd).

(** The cache that holds exactly the blocks [w], oldest first. *)
Definition cache_of (max : Z) (w : list BlockData) (indexed retained valid : Z) : Cache :=
  mkCache (Z.of_nat (length w)) max
    (inserts bd_round id ∅ w)
    (inserts bd_hash bd_Block ∅ w)
    (inserts bd_round (fun bd => receiptsLogs (bd_Receipts bd)) ∅ w)
    (entries bd_round bd_UniqueTxes tx_Hash mkTxCacheEntry ∅ w)
    (entries bd_round bd_Receipts rc_TransactionHash mkReceiptCacheEntry ∅ w)
    indexed retained valid.

(** Blocks indexed in increasing order of their rounds, with different hashes. *)
Definition increasing (bds : list BlockData) : Prop :=
  StronglySorted Z.lt (map bd_round bds) /\ NoDup (map bd_hash bds).

Lemma cache_insert_of max w i r v bd : Z.of_nat (length w) + 1 < two64 ->
  cache_insert (cache_of max w i r v) bd = cache_of max (w ++ [bd]) (Z.max i (bd_round bd)) r v.
Proof.
  intros Hlen. unfold cache_insert, cache_of. cbn [cacheSize maxCacheSize blockDataByNumber
    blockByHashHex logsByBlockNumber txByHashHex receiptByTxHashHex lastIndexedRound lastRetainedRound
    lastRetainedRoundValid].
  rewrite !inserts_snoc, !entries_snoc. rewrite length_app. cbn [length]. f_equal.
  - rewrite u64_small; [lia|u64_lia].
  - unfold bd_round. destruct (Z.ltb_spec i (blk_Round (bd_Block bd))); lia.
Qed.

Lemma increasing_tail b w : increasing (b :: w) ->
  increasing w /\ (bd_round b ∉ map bd_round w) /\ (bd_hash b ∉ map bd_hash w).
Proof.
  intros [Hs Hn]. cbn in Hs, Hn. apply StronglySorted_inv in Hs as [Hs Hall].
  apply NoDup_cons in Hn as [Hh Hn]. split; [done|]. split; [|done].
  intros Hin. rewrite Forall_forall in Hall. specialize (Hall _ Hin). lia.
Qed.

Lemma pruneCache_oldest max b w i r v : increasing (b :: w) -> Z.of_nat (length (b :: w)) < two64 ->
  pruneCache (cache_of max (b :: w) i r v) (bd_round b) = Ok (cache_of max w i r v).
Proof.
  intros (_ & Hr & Hh)%increasing_tail Hlen. unfold pruneCache.
  assert (Hb : blockDataByNumber (cache_of max (b :: w) i r v) !! bd_round b = Some b).
  { cbn [blockDataByNumber cache_of]. rewrite inserts_cons. rewrite lookup_union_r.
    - apply lookup_singleton_eq.
    - by apply (inserts_None bd_round id). }
  rewrite Hb. change (blk_Round (bd_Block b)) with (bd_round b).
  change (blk_Hash (bd_Block b)) with (bd_hash b). rewrite Z.eqb_refl. cbn [negb]. f_equal.
  unfold cache_of. cbn [cacheSize maxCacheSize blockDataByNumber
    blockByHashHex logsByBlockNumber txByHashHex receiptByTxHashHex lastIndexedRound lastRetainedRound
    lastRetainedRoundValid]. rewrite !delete_oldest by done. f_equal.
  - cbn [length] in *. rewrite u64_small; [lia|u64_lia].
  - by apply (drop_oldest bd_round bd_UniqueTxes tx_Hash mkTxCacheEntry tce_blockNumber).
  - by apply (drop_oldest bd_round bd_Receipts rc_TransactionHash mkReceiptCacheEntry rce_blockNumber).
Qed.

Lemma inserts_keys w : StronglySorted Z.lt (map bd_round w) ->
  (map_to_list (inserts bd_round id ∅ w)).*1 ≡ₚ map bd_round w.
Proof.
  intros Hs. apply NoDup_Permutation.
  - apply NoDup_fst_map_to_list.
  - clear -Hs. induction Hs as [|x l Hs IH Hall]; constructor; [|done].
    intros Hin. rewrite Forall_forall in Hall. specialize (Hall _ Hin). lia.
  - intros n. rewrite list_elem_of_fmap. split.
    + intros ([k bd] & -> & Hin%elem_of_map_to_list). apply inserts_Some in Hin as (x & ? & <- & _).
      cbn [fst]. by apply list_elem_of_fmap_2.
    + intros Hin. destruct (inserts bd_round id ∅ w !! n) as [bd|] eqn:E.
      * exists (n, bd). split; [done|]. by apply elem_of_map_to_list.
      * by apply (inserts_None bd_round id) in E.
Qed.

Lemma sorted_rounds_of w : StronglySorted Z.lt (map bd_round w) ->
  sorted_rounds (inserts bd_round id ∅ w) = map bd_round w.
Proof.
  intros Hs. unfold sorted_rounds. apply (Sorted_unique Z.le).
  - apply (Sorted_merge_sort Z.le).
  - apply StronglySorted_Sorted. eapply StronglySorted_mono; [|exact Hs]. intros; lia.
  - rewrite (merge_sort_Permutation Z.le). by apply inserts_keys.
Qed.

(** One block: the oldest one falls out of a full window. *)
Lemma OnBlockIndexed_window max w i r v bd :
  0 < max < MaxUint64 -> Z.of_nat (length w) <= max -> increasing (w ++ [bd]) ->
  OnBlockIndexed (cache_of max w i r v) bd =
  Ok (cache_of max (lastn (Z.to_nat max) (w ++ [bd])) (Z.max i (bd_round bd)) r v).
Proof.
  intros Hmax Hlen Hinc. unfold OnBlockIndexed. rewrite cache_insert_of by (unfold MaxUint64, two64 in *; lia).
  cbn [cacheSize maxCacheSize cache_of blockDataByNumber]. rewrite length_app. cbn [length].
  destruct (Z.ltb_spec max (Z.of_nat (length w + 1))) as [Hfull|Hroom].
  - rewrite sorted_rounds_of by apply Hinc.
    destruct w as [|b w]; [cbn in Hfull; lia|]. cbn [app map prune_loop].
    rewrite pruneCache_oldest; [|done|cbn [length]; rewrite length_app; cbn [length] in *; unfold MaxUint64, two64 in *; lia].
    cbn [mbind result_bind cacheSize maxCacheSize cache_of]. rewrite length_app. cbn [length] in *.
    rewrite (proj2 (Z.leb_le _ _)) by lia. do 2 f_equal. unfold lastn. cbn [length].
    rewrite length_app. cbn [length].
    replace (S (length w + 1) - Z.to_nat max)%nat with 1%nat by lia. done.
  - rewrite lastn_all; [done|]. rewrite length_app. cbn. lia.
Qed.

Lemma lastn_lastn_snoc {A} n (l : list A) x : (0 < n)%nat ->
  lastn n (lastn n l ++ [x]) = lastn n (l ++ [x]).
Proof.
  intros Hn. destruct (decide (length l < n)%nat).
  - by rewrite (lastn_all n l) by lia.
  - rewrite (lastn_snoc_full n l) by lia. rewrite lastn_snoc_full; [|done|rewrite lastn_length; lia].
    by rewrite (lastn_all n (lastn n l)) by (rewrite lastn_length; lia).
Qed.

Lemma increasing_drop k l : increasing l -> increasing (drop k l).
Proof.
  revert k. induction l as [|b l IH]; intros k Hl; [by destruct k|].
  destruct k; [done|]. apply increasing_tail in Hl as [Hl _]. by apply IH.
Qed.

Lemma increasing_prefix l1 l2 : increasing (l1 ++ l2) -> increasing l1.
Proof.
  intros [Hs Hn]. rewrite map_app in *. split; [|by apply NoDup_app in Hn as [? _]].
  clear Hn. revert Hs. induction (map bd_round l1) as [|x l IH]; intros Hs; [constructor|].
  cbn in Hs. apply StronglySorted_inv in Hs as [Hs Hall]. constructor; [by apply IH|].
  by apply Forall_app in Hall as [? _].
Qed.

Lemma cache_window_from max r v : 0 < max < MaxUint64 -> forall bds pre i,
  increasing (pre ++ bds) ->
  rfold OnBlockIndexed (cache_of max (lastn (Z.to_nat max) pre) i r v) bds =
  Ok (cache_of max (lastn (Z.to_nat max) (pre ++ bds)) (foldl Z.max i (map bd_round bds)) r v).
Proof.
  intros Hmax. induction bds as [|bd bds IH]; intros pre i Hinc; [by rewrite app_nil_r|].
  cbn [rfold map foldl]. rewrite cons_middle, app_assoc in Hinc.
  rewrite OnBlockIndexed_window; [|done|rewrite lastn_length; lia|].
  - cbn [mbind result_bind]. rewrite lastn_lastn_snoc by lia. rewrite IH by done.
    by rewrite <- app_assoc.
  - unfold lastn. destruct (decide (length pre <= Z.to_nat max)%nat).
    + replace (length pre - Z.to_nat max)%nat with 0%nat by lia. by apply increasing_prefix in Hinc.
    + rewrite <- drop_app_le by lia. apply increasing_drop. by apply increasing_prefix in Hinc.
Qed.

(** ** Queries answered from the window *)

(** The logs of the rounds [i, i+1, ...], [n] of them, when all are cached. *)
Fixpoint window_logs (c : Cache) (i : Z) (n : nat) : option (list Log) :=
  match n with
  | 0%nat => Some []
  | S n' => l ← logsByBlockNumber c !! i; ls ← window_logs c (i + 1) n'; Some (l ++ ls)
  end.

Lemma logs_loop_hit c endRound : forall n fuel i ok logs ls,
  0 <= i -> endRound < MaxUint64 -> (n < fuel)%nat -> i + Z.of_nat n = endRound + 1 ->
  window_logs c i n = Some ls ->
  logs_loop fuel c i endRound ok logs = (if (n =? 0)%nat then ok else true, logs ++ ls).
Proof.
  induction n as [|n IH]; intros fuel i ok logs ls Hi He Hf Hn Hw; (destruct fuel as [|fuel]; [lia|]).
  - injection Hw as <-. cbn. rewrite (proj2 (Z.leb_gt _ _)) by lia. by rewrite app_nil_r.
  - cbn [window_logs] in Hw. apply bind_Some in Hw as (l & Hl & Hw).
    apply bind_Some in Hw as (ls' & Hls & [= <-]). cbn [logs_loop].
    rewrite (proj2 (Z.leb_le _ _)) by lia. unfold cachedLogsByNumber. rewrite Hl.
    rewrite u64_small by (unfold is_u64, MaxUint64, two64 in *; lia).
    rewrite (IH fuel (i + 1) true (logs ++ l) ls') by (done || lia).
    rewrite <- app_assoc. by destruct n.
Qed.

Lemma logs_loop_miss c endRound : forall n fuel i ok logs,
  0 <= i -> endRound < MaxUint64 -> i + Z.of_nat n = endRound + 1 ->
  window_logs c i n = None -> (forall k ls, window_logs c i k = Some ls -> (k < fuel)%nat) ->
  fst (logs_loop fuel c i endRound ok logs) = false.
Proof.
  induction n as [|n IH]; intros fuel i ok logs Hi He Hn Hw Hf; [done|].
  destruct fuel as [|fuel]; [specialize (Hf 0%nat [] eq_refl); lia|].
  cbn [window_logs logs_loop] in *. rewrite (proj2 (Z.leb_le _ _)) by lia. unfold cachedLogsByNumber.
  destruct (logsByBlockNumber c !! i) as [l|] eqn:El; [|done].
  rewrite u64_small by (unfold is_u64, MaxUint64, two64 in *; lia).
  apply IH; try done; try lia.
  - cbn in Hw. by destruct (window_logs c (i + 1) n).
  - intros k ls Hk. apply Nat.succ_lt_mono. apply (Hf (S k) (l ++ ls)). cbn [window_logs].
    rewrite El. cbn. by rewrite Hk.
Qed.

(** Consecutive rounds that are all cached are no more than the cached ones. *)
Lemma window_logs_size c : forall n i ls, window_logs c i n = Some ls ->
  (n <= size (logsByBlockNumber c))%nat.
Proof.
  intros n i ls Hw. transitivity (length (map_to_list (logsByBlockNumber c)).*1).
  - assert (Hsub : map (fun k => i + Z.of_nat k) (seq 0 n) ⊆ (map_to_list (logsByBlockNumber c)).*1).
    { intros x. intros Hx. apply list_elem_of_fmap in Hx as (k & -> & Hk). apply elem_of_seq in Hk.
      assert (Hc : is_Some (logsByBlockNumber c !! (i + Z.of_nat k))).
      { clear -Hw Hk. revert i ls Hw k Hk. induction n as [|n IH]; intros i ls; cbn; [intros; lia|].
        intros Hw. apply bind_Some in Hw as (l & Hl & Hw). apply bind_Some in Hw as (ls' & Hls & _).
        intros [|k] Hk.
        - rewrite Z.add_0_r. by exists l.
        - replace (i + Z.of_nat (S k)) with (i + 1 + Z.of_nat k) by lia. eapply IH; [done|lia]. }
      destruct Hc as [l Hl]. apply list_elem_of_fmap. exists (i + Z.of_nat k, l). split; [done|].
      by apply elem_of_map_to_list. }
    rewrite <- (length_seq n 0) at 1. rewrite <- (length_map (fun k => i + Z.of_nat k)).
    apply submseteq_length. apply NoDup_submseteq; [|done].
    apply NoDup_fmap_2; [intros ? ? ?; lia|]. apply NoDup_seq.
  - rewrite length_fmap. by rewrite <- length_map_to_list.
Qed.


(** C7: The cache is a window: after any sequence of blocks indexed in increasing
    order of rounds it holds exactly the last [maxCacheSize] of them, in every
    one of its maps, and the highest round as the last indexed one; the
    pruning never panics. *)
Theorem cache_window cfg bds :
  0 < maxCacheSize (new_cache cfg) < MaxUint64 -> increasing bds ->
  rfold OnBlockIndexed (new_cache cfg) bds =
  Ok (cache_of (maxCacheSize (new_cache cfg))
        (lastn (Z.to_nat (maxCacheSize (new_cache cfg))) bds)
        (foldl Z.max 0 (map bd_round bds)) 0 0).
Proof.
  intros Hmax Hinc. apply (cache_window_from _ 0 0 Hmax bds []) with (i := 0) in Hinc.
  rewrite app_nil_l in Hinc. rewrite <- Hinc. f_equal.
Qed.

Section Queries.
Context `{O : OasisLib} `{!Backend B}.

(** [GetLogs] answers from the cache exactly when the range is smaller than
    the cache and every round of it is cached; the answer is then the logs of
    those rounds in order, and the inner backend is not asked.  Otherwise it is
    the inner backend's answer. *)
Theorem GetLogs_from_cache (cb : CachingBackend) startRound endRound :
  0 <= startRound <= endRound -> endRound < MaxUint64 ->
  CachingBackend_GetLogs startRound endRound cb =
  match (if endRound - startRound + 1 <? maxCacheSize (cb_cache cb)
         then window_logs (cb_cache cb) startRound (Z.to_nat (endRound - startRound + 1))
         else None) with
  | Some logs => (Ok logs, cb)
  | None => on_inner (bk_GetLogs startRound endRound) cb
  end.
Proof.
  intros Hs He. unfold CachingBackend_GetLogs. unfold mbind, M_bind, get_cache.
  rewrite u64_small by (unfold is_u64, MaxUint64, two64 in *; lia).
  destruct (endRound - startRound + 1 <? maxCacheSize (cb_cache cb)); [|done].
  set (n := Z.to_nat (endRound - startRound + 1)).
  destruct (window_logs (cb_cache cb) startRound n) as [ls|] eqn:Ew.
  - pose proof (window_logs_size _ _ _ _ Ew).
    rewrite (logs_loop_hit (cb_cache cb) endRound n _ _ _ _ ls) by (done || lia).
    replace (n =? 0)%nat with false by (symmetry; apply Nat.eqb_neq; lia). done.
  - pose proof (logs_loop_miss (cb_cache cb) endRound n
      (S (S (size (logsByBlockNumber (cb_cache cb))))) startRound false []) as Hm.
    destruct (logs_loop _ _ _ _ _ _) as [ok logs]. cbn in Hm. rewrite Hm; try done; try lia.
    intros k ls Hk%window_logs_size. lia.
Qed.
End Queries.

(** ** The cache in front of the index backend *)
Section System.
Context `{O : OasisLib} `{S : Storage D} `{!StorageLaws D}.

(** What the cached blocks say is what is stored. *)
Definition coherent (T : Tables) (w : list BlockData) : Prop := forall bd, bd ∈ w ->
  t_blocks T !! (bd_hash bd, 0) = Some (with_Transactions (bd_Block bd) []) /\
  (forall tx, tx ∈ bd_UniqueTxes bd -> tx_success tx /\ t_txs T !! (tx_Hash tx, 0) = Some tx) /\
  (forall rc, rc ∈ bd_Receipts bd -> rc_success rc /\
     t_receipts T !! (rc_TransactionHash rc, 0) = Some (with_Logs rc [])).

Record system_ok (cb : CachingBackend (B:=indexBackend)) (max : Z) (w : list BlockData) (i : Z) : Prop := {
  so_cache : cb_cache cb = cache_of max w i 0 0;
  so_len : Z.of_nat (length w) <= max;
  so_inc : increasing w;
  so_up : st_up (ib_storage (cb_inner cb));
  so_wf : tables_wf (st_view (ib_storage (cb_inner cb)));
  so_coherent : coherent (st_view (ib_storage (cb_inner cb))) w;
  so_pos : 0 <= i;
  so_last : i = 0 \/ (last_indexed (st_view (ib_storage (cb_inner cb))) = Some i /\ exists bd, bd ∈ w /\ bd_round bd = i);
}.

Lemma coherent_put m T T' w : put_models m T = Ok T' -> coherent T w -> coherent T' (w ++ [models_bd m]).
Proof.
  intros HT Hc. destruct (put_models_found m T T' HT)
    as (Hb & _ & _ & Htx & Hrc & Kb & _ & Ktx & Krc & _).
  intros bd [Hin|Hin]%elem_of_app.
  - destruct (Hc bd Hin) as (H1 & H2 & H3). split; [by apply Kb|]. split.
    + intros tx Hx. destruct (H2 tx Hx). auto.
    + intros rc Hx. destruct (H3 rc Hx). split; [done|]. by apply Krc.
  - apply list_elem_of_singleton in Hin as ->. cbn. split; [exact Hb|]. split.
    + intros tx [? ?]%list_elem_of_filter. auto.
    + intros rc [? ?]%list_elem_of_filter. auto.
Qed.

Lemma coherent_lastn n T w : coherent T w -> coherent T (lastn n w).
Proof. intros Hc bd Hin. apply Hc. unfold lastn in Hin. by eapply subseteq_drop. Qed.

(** A stored block is new, so its hash is not the one of a cached block. *)
Lemma put_models_fresh m T T' : put_models m T = Ok T' ->
  t_blocks T !! (blk_Hash (bm_blk m), 0) = None.
Proof.
  intros (T1 & T2 & T3 & T4 & _ & _ & _ & H4 & _ & [N1 _] & [N2 _] & [N3 _] & _)%put_models_inv.
  unfold put_new in H4. cbn in H4. destruct (t_blocks T3 !! (blk_Hash (bm_blk m), 0)) eqn:E; [done|].
  rewrite <- E. symmetry. transitivity (rows TBlock T2 !! (blk_Hash (bm_blk m), 0)).
  - by rewrite <- (N3 TBlock).
  - by rewrite (N2 TBlock), (N1 TBlock).
Qed.

Lemma increasing_snoc w bd : increasing w -> Forall (fun b => bd_round b < bd_round bd) w ->
  (bd_hash bd ∉ map bd_hash w) -> increasing (w ++ [bd]).
Proof.
  intros [Hs Hn] Hall Hh. unfold increasing. rewrite !map_app. split.
  - clear Hn Hh. induction w as [|b w IH]; cbn in *; [by repeat constructor|].
    apply StronglySorted_inv in Hs as [Hs Hf]. apply Forall_cons in Hall as [Hb Hall].
    constructor; [by apply IH|]. apply Forall_app. split; [done|]. by constructor.
  - apply NoDup_app. split; [done|]. split; [|cbn; repeat constructor; apply not_elem_of_nil].
    intros x Hx [->|[]%not_elem_of_nil]%elem_of_cons. done.
Qed.

Lemma lastn_snoc_elem {X} n (l : list X) x : (0 < n)%nat -> x ∈ lastn n (l ++ [x]).
Proof. intros Hn. unfold lastn. rewrite drop_app_le by (rewrite length_app; cbn; lia). apply elem_of_app. right. by left. Qed.

Lemma Index_step (cb cb' : CachingBackend) max w i header items cp rt out :
  0 < max < MaxUint64 -> system_ok cb max w i ->
  Forall (fun bd => bd_round bd < oh_Round header) w ->
  CachingBackend_Index header items cp rt cb = (Ok out, cb') ->
  bd_round (snd out) = oh_Round header /\
  system_ok cb' max (lastn (Z.to_nat max) (w ++ [snd out])) (Z.max i (oh_Round header)).
Proof.
  intros Hmax [Hc Hlen Hinc Hup Hwf Hco Hpos Hli] Hall Hidx. destruct cb as [ib c]. cbn [cb_inner cb_cache] in *. subst c.
  unfold CachingBackend_Index, on_inner, get_cache, put_cache, mbind, M_bind in Hidx.
  cbn [cb_inner cb_cache bk_Index indexBackend_Backend] in Hidx.
  destruct (indexBackend_Index header items cp rt ib) as [[o|e] ib'] eqn:E; [|done].
  destruct (indexBackend_Index_inv header items cp rt ib ib' o Hup Hwf E) as (m & HT & Ho & Hr & Hup').
  assert (Hbr : bd_round (snd o) = oh_Round header) by (rewrite Ho; exact Hr).
  assert (Hinc' : increasing (w ++ [snd o])).
  { apply increasing_snoc; [done|by rewrite Hbr|]. intros Hin.
    apply list_elem_of_fmap in Hin as (bd & Hh & Hin). destruct (Hco bd Hin) as (Hb & _).
    rewrite <- Hh, Ho in Hb. cbn in Hb.
    pose proof (put_models_fresh m _ _ HT) as Hf. unfold bd_hash in Hb. cbn in Hb. congruence. }
  cbn [cb_cache] in Hidx. rewrite OnBlockIndexed_window in Hidx by done. injection Hidx as <- <-.
  split; [done|]. split; cbn [cb_inner cb_cache]; try done.
  - by rewrite Hbr.
  - rewrite lastn_length. lia.
  - apply increasing_drop. done.
  - by eapply put_models_wf.
  - apply coherent_lastn. rewrite Ho. by eapply coherent_put.
  - lia.
  - assert (Hl : last_indexed (st_view (ib_storage ib')) = Some (oh_Round header)).
    { unfold last_indexed. destruct (put_models_found _ _ _ HT) as (_ & -> & _). cbn. by rewrite Hr. }
    assert (Hi : i = 0 \/ i < oh_Round header).
    { destruct Hli as [?|[_ (bd & Hbd & <-)]]; [by left|right]. rewrite Forall_forall in Hall. by apply Hall. }
    destruct (decide (oh_Round header <= 0)) as [Hz|Hz]; [left; lia|right].
    replace (Z.max i (oh_Round header)) with (oh_Round header) by lia. split; [done|].
    exists (snd o). split; [apply lastn_snoc_elem; lia|done].
Qed.

(** The blocks passed to [Index], one after the other. *)
Definition index_args : Type :=
  oheader * list TxWithResults * option CoreParameters * option RuntimeInfoResponse.
Definition arg_round (a : index_args) : Z := oh_Round a.1.1.1.

Definition index_all (blocks : list index_args) : M (CachingBackend (B:=indexBackend)) unit :=
  mfold (fun _ a => let '(header, items, cp, rt) := a in
    _ ← CachingBackend_Index header items cp rt; mret tt) tt blocks.

Lemma index_all_ok max : 0 < max < MaxUint64 -> forall blocks cb cb' w i,
  system_ok cb max w i -> StronglySorted Z.lt (map arg_round blocks) ->
  Forall (fun bd => Forall (fun a => bd_round bd < arg_round a) blocks) w ->
  index_all blocks cb = (Ok tt, cb') ->
  exists w', system_ok cb' max w' (foldl Z.max i (map arg_round blocks)).
Proof.
  intros Hmax. induction blocks as [|[[[header items] cp] rt] blocks IH]; intros cb cb' w i Hok Hs Hall Hrun.
  - cbn in Hrun. injection Hrun as <-. by exists w.
  - cbn [index_all mfold] in Hrun. unfold mbind at 1, M_bind at 1 in Hrun.
    unfold mbind at 1, M_bind at 1 in Hrun.
    destruct (CachingBackend_Index header items cp rt cb) as [[out|e] cb1] eqn:E; [|done].
    cbn [map] in Hs. apply StronglySorted_inv in Hs as [Hs Hlt].
    destruct (Index_step cb cb1 max w i header items cp rt out Hmax Hok) as [Hr Hok1]; [|done|].
    { eapply Forall_impl; [exact Hall|]. by intros bd [? _]%Forall_cons. }
    eapply (IH cb1 cb' _ _ Hok1 Hs); [|exact Hrun].
    apply Forall_forall. intros bd Hbd. unfold lastn in Hbd. apply subseteq_drop in Hbd.
    apply elem_of_app in Hbd as [Hbd|Hbd].
    + rewrite Forall_forall in Hall. specialize (Hall bd Hbd). by apply Forall_cons in Hall as [_ ?].
    + apply list_elem_of_singleton in Hbd as ->. rewrite Hr. by apply (Forall_fmap arg_round) in Hlt.
Qed.

(** A cached answer is the stored one. *)
Lemma cached_tx_stored (cb : CachingBackend) max w i h : system_ok cb max w i ->
  fst (CachingBackend_QueryTransaction h cb) = fst (indexBackend_QueryTransaction h (cb_inner cb)).
Proof.
  intros [Hc _ _ Hup Hwf Hco _ _]. destruct cb as [ib c]. cbn [cb_cache cb_inner] in *. subst c.
  unfold CachingBackend_QueryTransaction, get_cache, mbind, M_bind, cachedTxByHash.
  cbn [cb_cache txByHashHex cache_of]. 
  destruct (entries bd_round bd_UniqueTxes tx_Hash mkTxCacheEntry ∅ w !! Hash_Hex h) as [e|] eqn:E.
  - apply entries_Some in E as (bd & tx & Hbd & Htx & Hh & ->). cbn.
    destruct (Hco bd Hbd) as (_ & Hst & _). destruct (Hst tx Htx) as [_ Hl].
    unfold indexBackend_QueryTransaction, on_storage.
    destruct (read_up _ _ (ib_storage ib) (st_law_GetTransaction HDb (Hash_Hex h)) Hup)
      as (r & d2 & -> & Hr & _). cbn. apply GetTransaction_key in Hr as ->; [|done].
    rewrite <- Hh. unfold by_key. cbn. by rewrite Hl.
  - cbn. unfold on_inner. cbn. by destruct (indexBackend_QueryTransaction h ib).
Qed.

Lemma cached_round_stored (cb : CachingBackend) max w i h : system_ok cb max w i ->
  fst (CachingBackend_QueryBlockRound h cb) = fst (indexBackend_QueryBlockRound h (cb_inner cb)).
Proof.
  intros [Hc _ _ Hup Hwf Hco _ _]. destruct cb as [ib c]. cbn [cb_cache cb_inner] in *. subst c.
  unfold CachingBackend_QueryBlockRound, get_cache, mbind, M_bind, cachedBlockByHash.
  cbn [cb_cache blockByHashHex cache_of].
  destruct (inserts bd_hash bd_Block ∅ w !! Hash_Hex h) as [b|] eqn:E.
  - apply inserts_Some in E as (bd & Hbd & Hh & <-). destruct (Hco bd Hbd) as (Hl & _).
    unfold indexBackend_QueryBlockRound, on_storage.
    destruct (read_up _ _ (ib_storage ib) (st_law_GetBlockRound HDb (Hash_Hex h)) Hup)
      as (r & d2 & -> & Hr & _). cbn. rewrite Hh in Hl.
    by eapply GetBlockRound_found in Hr as ->; [|done|exact Hl].
  - cbn. unfold on_inner. cbn. by destruct (indexBackend_QueryBlockRound h ib).
Qed.

Lemma cached_last_stored (cb : CachingBackend) max w i : system_ok cb max w i ->
  fst (CachingBackend_QueryLastIndexedRound cb) = fst (indexBackend_QueryLastIndexedRound (cb_inner cb)).
Proof.
  intros [Hc _ _ Hup Hwf _ _ Hl]. destruct cb as [ib c]. cbn [cb_cache cb_inner] in *. subst c.
  unfold CachingBackend_QueryLastIndexedRound, get_cache, mbind, M_bind. cbn [cb_cache lastIndexedRound cache_of].
  destruct (Z.eqb_spec i 0) as [->|Hne]; cbn [negb].
  - unfold on_inner. cbn. by destruct (indexBackend_QueryLastIndexedRound ib).
  - destruct Hl as [?|[Hl _]]; [done|]. destruct (indexBackend_last ib (conj Hup Hwf)) as (ib' & -> & _). by rewrite Hl.
Qed.

(** C11: Three lookups through the cache give the answer of the database: after any
    sequence of blocks indexed in order through a new caching backend on a healthy
    database, looking up a transaction by hash, the round of a block by hash, or the
    last indexed round, gives the same answer as asking the database directly, and
    the cache is within its size.  (Logs are the subject of [cached_logs_transparent];
    other lookups can differ, see [cached_count_differs] and [retained_round_stale].) *)
Theorem cache_transparent cfg (d : D) blocks cb' :
  st_up d -> tables_wf (st_view d) -> 0 < maxCacheSize (new_cache cfg) < MaxUint64 ->
  StronglySorted Z.lt (map arg_round blocks) ->
  index_all blocks (NewCachingBackend (NewIndexBackend d) cfg) = (Ok tt, cb') ->
  (forall h, fst (CachingBackend_QueryTransaction h cb') =
     fst (indexBackend_QueryTransaction h (cb_inner cb'))) /\
  (forall h, fst (CachingBackend_QueryBlockRound h cb') =
     fst (indexBackend_QueryBlockRound h (cb_inner cb'))) /\
  fst (CachingBackend_QueryLastIndexedRound cb') = fst (indexBackend_QueryLastIndexedRound (cb_inner cb')) /\
  cacheSize (cb_cache cb') <= maxCacheSize (new_cache cfg).
Proof.
  intros Hup Hwf Hmax Hs Hrun.
  assert (Hok0 : system_ok (NewCachingBackend (NewIndexBackend d) cfg)
    (maxCacheSize (new_cache cfg)) [] 0).
  { split; try done; [cbn [length]; lia|split; constructor| |by left]. by intros bd ?%not_elem_of_nil. }
  destruct (index_all_ok _ Hmax blocks _ cb' [] 0 Hok0 Hs (Forall_nil_2 _) Hrun) as [w Hok].
  split; [|split; [|split]].
  - intros h. by eapply cached_tx_stored.
  - intros h. by eapply cached_round_stored.
  - by eapply cached_last_stored.
  - rewrite (so_cache _ _ _ _ Hok). cbn. apply (so_len _ _ _ _ Hok).
Qed.
End System.

(** ** The cache keeps the promises of the wrapped backend to the indexer *)
Section CachedIndexer.
Context `{O : OasisLib} `{!Backend B} `{!IndexerBackend B}.

(** Every cached block is under its own number, so [pruneCache] does not panic. *)
Definition numbered (c : Cache) : Prop := forall n bd, blockDataByNumber c !! n = Some bd -> bd_round bd = n.

Lemma pruneCache_numbered c n : numbered c ->
  exists c', pruneCache c n = Ok c' /\ numbered c' /\ lastIndexedRound c' = lastIndexedRound c.
Proof.
  intros Hn. unfold pruneCache. destruct (blockDataByNumber c !! n) as [bd|] eqn:E; [|eauto].
  fold (bd_round bd). rewrite (proj2 (Z.eqb_eq _ _) (Hn n bd E)). cbn [negb].
  eexists. split; [done|]. split; [|done].
  intros k b. cbn. intros [_ ?]%lookup_delete_Some. by apply Hn.
Qed.

Lemma prune_loop_numbered rounds : forall c, numbered c ->
  exists c', prune_loop c rounds = Ok c' /\ numbered c' /\ lastIndexedRound c' = lastIndexedRound c.
Proof.
  induction rounds as [|n rounds IH]; intros c Hn; cbn [prune_loop]; [eauto|].
  destruct (pruneCache_numbered c n Hn) as (c1 & -> & Hn1 & <-). cbn [mbind result_bind].
  case_match; [eauto|by apply IH].
Qed.

Lemma OnBlockIndexed_numbered c bd : numbered c -> exists c', OnBlockIndexed c bd = Ok c' /\ numbered c' /\
  lastIndexedRound c' = (if lastIndexedRound c <? bd_round bd then bd_round bd else lastIndexedRound c).
Proof.
  intros Hn. unfold OnBlockIndexed.
  assert (Hn1 : numbered (cache_insert c bd)).
  { intros k b. cbn. rewrite lookup_insert. case_decide as Hk; [by intros [= <-]|]. apply Hn. }
  case_match; [|eauto]. destruct (prune_loop_numbered
    (sorted_rounds (blockDataByNumber (cache_insert c bd))) _ Hn1) as (c' & -> & ? & Hl). by exists c'.
Qed.

(** The cached last indexed round is unset or the one of the database. *)
Definition cb_ok (cb : CachingBackend (B:=B)) : Prop :=
  iv_ok (cb_inner cb) /\ numbered (cb_cache cb) /\
  (lastIndexedRound (cb_cache cb) = 0 \/
   last_indexed (iv_view (cb_inner cb)) = Some (lastIndexedRound (cb_cache cb))).

Lemma CachingBackend_Index_puts header items cp rt (cb : CachingBackend) : cb_ok cb ->
  next_round (iv_view (cb_inner cb)) <= oh_Round header ->
  exists r cb', CachingBackend_Index header items cp rt cb = (r, cb') /\ cb_ok cb' /\
    match put_block header items cp (iv_view (cb_inner cb)) with
    | Ok (m, T) => iv_view (cb_inner cb') = T /\
        r = Ok (mkChainEvent _ (bm_blk m) (blockHash header) (bm_logs m), models_bd m)
    | Err e => r = Err e /\ iv_view (cb_inner cb') = iv_view (cb_inner cb)
    end.
Proof.
  intros (Hok & Hn & Hl) Hr. destruct (iv_Index header items cp rt (cb_inner cb) Hok Hr) as (r & b & E & Hok' & H1).
  unfold CachingBackend_Index, on_inner, get_cache, put_cache, mbind, M_bind. rewrite E.
  destruct (put_block header items cp (iv_view (cb_inner cb))) as [[m T]|e] eqn:Hp; destruct H1 as [H1 H2].
  - subst r. cbn [cb_cache cb_inner]. apply put_block_last in Hp as (HlT & _ & Hmr).
    destruct (OnBlockIndexed_numbered (cb_cache cb) (models_bd m) Hn) as (c' & Ec & Hn' & Hl').
    cbn [snd]. rewrite Ec. eexists _, _. split; [done|]. split; [|done].
    split; [done|]. split; [done|]. cbn [cb_cache cb_inner]. rewrite Hl', H1, HlT.
    unfold bd_round. cbn [bd_Block models_bd]. rewrite Hmr.
    destruct (Z.ltb_spec (lastIndexedRound (cb_cache cb)) (oh_Round header)); [by right|].
    destruct Hl as [Hl|Hl]; [by left|]. unfold next_round in Hr. rewrite Hl in Hr. lia.
  - subst r. eexists _, _. split; [done|]. split; [|done].
    split; [done|]. split; [done|]. cbn [cb_cache cb_inner]. by rewrite H2.
Qed.

#[export] Program Instance CachingBackend_IndexerBackend : IndexerBackend (CachingBackend (B:=B)) := {|
  iv_view cb := iv_view (cb_inner cb);
  iv_ok := cb_ok;
  iv_Index := CachingBackend_Index_puts;
|}.
Next Obligation.
  intros cb (Hok & Hn & Hl). cbn. unfold CachingBackend_QueryLastIndexedRound, get_cache, on_inner, mbind, M_bind.
  destruct (Z.eqb_spec (lastIndexedRound (cb_cache cb)) 0) as [Hz|Hz]; cbn [negb].
  - destruct (iv_QueryLastIndexedRound (cb_inner cb) Hok) as (b & -> & Hok' & Hv).
    eexists. split; [done|]. split; [|done]. split; [done|]. split; [done|]. cbn [cb_cache cb_inner]. by left.
  - destruct Hl as [?|Hl]; [done|]. rewrite Hl. eexists. split; [done|]. split; [|done].
    split; [done|]. split; [done|]. by right.
Qed.
Next Obligation.
  intros round cb (Hok & Hn & Hl). cbn. unfold CachingBackend_Prune, on_inner.
  destruct (iv_Prune round (cb_inner cb) Hok) as (b & -> & Hok' & Hv).
  eexists. split; [done|]. split; [|done]. split; [done|]. split; [done|]. cbn [cb_cache cb_inner].
  rewrite Hv. unfold last_indexed. by destruct (prune_ref_spec round (iv_view (cb_inner cb))) as (_ & _ & ->).
Qed.

(** A new cache, and one whose [Start] has run on a good backend. *)
Lemma cb_ok_new (b : B) cfg : iv_ok b -> cb_ok (NewCachingBackend b cfg).
Proof. intros Hb. split; [done|]. split; [|by left]. intros n bd. cbn. by rewrite lookup_empty. Qed.
End CachedIndexer.

(** ** Witnesses *)
Definition ex_cached_bd (n : Z) (hash : string) : BlockData :=
  mkBlockData (mkBlock hash n ex_header []) [] [] None.

Definition ex_bds : list BlockData := [ex_cached_bd 1 "a"; ex_cached_bd 2 "b"; ex_cached_bd 5 "c"].
Definition ex_cache_cfg : option CacheConfig := Some (mkCacheConfig 2 false).

Lemma cache_window_witness : exists c,
  rfold OnBlockIndexed (new_cache ex_cache_cfg) ex_bds = Ok c /\
  blockDataByNumber c !! 1 = None /\ blockDataByNumber c !! 5 = Some (ex_cached_bd 5 "c") /\
  lastIndexedRound c = 5.
Proof.
  eexists. split; [apply (cache_window ex_cache_cfg ex_bds)|].
  - split; reflexivity.
  - split; [repeat constructor|]. apply (bool_decide_unpack _). vm_compute. exact I.
  - vm_compute. done.
Defined.

Definition ex_blocks : list index_args := [(ex_oheader, ex_items, None, None)].
Definition ex_stack (plan : list (option Z)) : CachingBackend :=
  NewCachingBackend (NewIndexBackend (ex_db plan)) ex_cache_cfg.
Definition ex_indexed : CachingBackend := snd (index_all ex_blocks (ex_stack [])).

Lemma ex_indexed_ok : index_all ex_blocks (ex_stack []) = (Ok tt, ex_indexed).
Proof.
  unfold ex_indexed. destruct (index_all ex_blocks (ex_stack [])) as [r cb] eqn:E.
  assert (Hok : is_Ok (fst (index_all ex_blocks (ex_stack []))) = true) by (vm_compute; reflexivity).
  rewrite E in Hok. by destruct r as [[]|].
Qed.

Lemma GetLogs_from_cache_witness :
  CachingBackend_GetLogs 5 5 ex_indexed = (Ok (receiptsLogs (succeeded_receipts (bm_receipts ex_bm))), ex_indexed).
Proof.
  rewrite (GetLogs_from_cache ex_indexed 5 5); [|lia|reflexivity].
  replace (if 5 - 5 + 1 <? maxCacheSize (cb_cache ex_indexed)
    then window_logs (cb_cache ex_indexed) 5 (Z.to_nat (5 - 5 + 1)) else None)
    with (Some (receiptsLogs (succeeded_receipts (bm_receipts ex_bm)))) by (vm_compute; reflexivity).
  reflexivity.
Defined.

Definition ex_tx_hash : @ehash ex_EthLib := "a"%string.

Lemma cache_transparent_witness :
  fst (CachingBackend_QueryTransaction ex_tx_hash ex_indexed) =
  fst (indexBackend_QueryTransaction ex_tx_hash (cb_inner ex_indexed)).
Proof.
  apply (cache_transparent ex_cache_cfg (ex_db []) ex_blocks ex_indexed).
  - constructor.
  - apply empty_tables_wf.
  - split; reflexivity.
  - repeat constructor.
  - exact ex_indexed_ok.
Defined.

(** The cached retained round goes stale: nothing tells the cache that the
    index was pruned, so once the round has been queried, [Prune] changes it in
    the database while the caching backend keeps answering with the old one. *)
Theorem retained_round_stale : exists cb : CachingBackend,
  let cb1 := snd (CachingBackend_QueryLastRetainedRound cb) in
  let cb2 := snd (CachingBackend_Prune 6 cb1) in
  is_Ok (fst (CachingBackend_Prune 6 cb1)) = true /\
  fst (CachingBackend_QueryLastRetainedRound cb2) = Ok 0 /\
  fst (indexBackend_QueryLastRetainedRound (cb_inner cb2)) = Ok 6.
Proof. exists (ex_stack []). vm_compute. done. Qed.
