(* ===== verification/Source.v ===== *)
(** * The node the gateway fetches data from (src/source/source.go)

    [NodeSource] has the methods of the interface that the indexer and the RPC
    layer call.  The node behind it is outside of the sources; what the indexer
    relies on is [NodeSourceLaws]: a block is returned for the round that was
    asked for, rounds are below the marker [client.RoundLatest], which is the
    largest [uint64].  [ExNode] is a concrete node for witnesses. *)
From S2P Require Import Prelude GoLib Model Sql Storage Psql Extern BlockModels EthViews StoreBlock.

(** [core.CallDataPublicKeyResponse] *)
Record CallDataPublicKeyResponse := mkCallDataPublicKeyResponse {
  ck_PublicKey : list byte;
  ck_Checksum : list byte;
  ck_Signature : list byte;
  ck_Epoch : Z;
}.

(** The arguments of [EVMSimulateCall]. *)
Record SimulateCall := mkSimulateCall {
  sc_round : Z;
  sc_gasPrice : list byte;
  sc_gasLimit : Z;
  sc_caller : list byte;
  sc_address : list byte;
  sc_value : list byte;
  sc_data : list byte;
}.

Class NodeSource `{O : OasisLib} (C : Type) := {
  ns_GetBlock : Z -> M C oheader;
  ns_GetTransactionsWithResults : Z -> M C (list TxWithResults);
  ns_GetLastRetainedBlock : M C oheader;
  ns_CoreParameters : Z -> M C CoreParameters;
  ns_CoreRuntimeInfo : M C RuntimeInfoResponse;
  ns_CoreCallDataPublicKey : M C CallDataPublicKeyResponse;
  ns_CoreMinGasPrice : Z -> M C (gmap string N);
  ns_AccountsNonce : Z -> oaddr -> M C Z;
  ns_EVMCode : Z -> list byte -> M C (list byte);
  ns_EVMBalance : Z -> list byte -> M C N;
  ns_EVMStorage : Z -> list byte -> list byte -> M C (list byte);
  ns_EVMSimulateCall : SimulateCall -> M C (list byte);
  ns_EVMCreate : C -> list byte -> list byte -> otransaction;
  ns_EVMCall : C -> list byte -> list byte -> list byte -> otransaction;
  (** the round, the caller's Ethereum address, the transaction, [propagateFailures] *)
  ns_CoreEstimateGasForCaller : Z -> list byte -> otransaction -> bool -> M C Z;
  (** the body and the modules of the authentication proofs *)
  ns_SubmitTxNoWait : list byte -> list string -> M C unit;
}.

Class NodeSourceLaws `{O : OasisLib} (C : Type) `{!NodeSource C} : Prop := {
  ns_GetBlock_round : forall round header (c c' : C), round <> RoundLatest ->
    ns_GetBlock round c = (Ok header, c') -> oh_Round header = round;
  ns_GetBlock_range : forall round header (c c' : C),
    ns_GetBlock round c = (Ok header, c') -> 0 <= oh_Round header < MaxUint64;
  ns_GetLastRetainedBlock_range : forall header (c c' : C),
    ns_GetLastRetainedBlock c = (Ok header, c') -> 0 <= oh_Round header < MaxUint64;
  ns_RoundLatest : RoundLatest = MaxUint64;
}.

(** A node that answers for the rounds 0 to [en_last]. *)
Record ExNode := mkExNode { en_last : N }.

Definition en_round (c : ExNode) : Z := Z.min (Z.of_N (en_last c)) 1000000.

Definition ex_node_header (n : Z) : ExHeader := mkExHeader (big_String n) n.

#[export] Instance ExNode_NodeSource : NodeSource (O:=ex_OasisLib) ExNode := {|
  ns_GetBlock round c :=
    if round =? MaxUint64 then (Ok (ex_node_header (en_round c) : @oheader _ ex_OasisLib), c)
    else if (0 <=? round) && (round <=? en_round c)
    then (Ok (ex_node_header round : @oheader _ ex_OasisLib), c) else (Err (ErrDB 404), c);
  ns_GetTransactionsWithResults round c := (Ok [], c);
  ns_GetLastRetainedBlock c := (Ok (ex_node_header 0 : @oheader _ ex_OasisLib), c);
  ns_CoreParameters round c := (Ok (mkCoreParameters ∅ 1000), c);
  ns_CoreRuntimeInfo c := (Ok ("info"%string : @RuntimeInfoResponse _ ex_OasisLib), c);
  ns_CoreCallDataPublicKey c := if (en_last c =? 0)%N then (Err (ErrDB 503), c)
    else (Ok (mkCallDataPublicKeyResponse [Byte.x01] [Byte.x02] [Byte.x03] 7), c);
  ns_CoreMinGasPrice _ c := (Ok {["ROSE"%string := 100%N]}, c);
  ns_AccountsNonce _ _ c := (Ok 1, c);
  ns_EVMCode _ _ c := (Ok [], c);
  ns_EVMBalance _ _ c := (Ok 5%N, c);
  ns_EVMStorage _ _ _ c := (Ok [], c);
  ns_EVMSimulateCall a c := (Err (ErrNew "reverted: CMN5oA=="), c);
  ns_EVMCreate _ value data := (data, 0%nat) : @otransaction _ ex_OasisLib;
  ns_EVMCall _ to value data := (data, 0%nat) : @otransaction _ ex_OasisLib;
  ns_CoreEstimateGasForCaller _ _ tx _ c := (Ok (Z.of_nat (snd (tx : list byte * nat))), c);
  ns_SubmitTxNoWait _ _ c := (Ok tt, c);
|}.

#[export] Instance ExNode_laws : NodeSourceLaws (O:=ex_OasisLib) ExNode.
Proof.
  split; [| | |done].
  - intros round header c c' Hr. cbn in *.
    rewrite (proj2 (Z.eqb_neq _ _)) by done. case_match; [|done]. by intros [= <- <-].
  - intros round header c c'. cbn. unfold en_round, MaxUint64. repeat case_match; intros; simplify_eq/=; lia.
  - by intros header c c' [= <- _].
Qed.
