(* ===== verification/Indexer.v ===== *)
(** * The indexer service (src/indexer/indexer.go)

    [indexBlock] and one iteration of each of the three workers: indexing,
    pruning and the health check.  A query that times out, or whose context
    ended, is a failing call.  Logging and the Prometheus gauges are left out. *)
From S2P Require Import Prelude GoLib Model Sql Storage Psql Extern BlockModels EthViews StoreBlock IndexBackend Source.

Section Indexer.
Context `{O : OasisLib} `{!Backend B} `{!NodeSource C}.

Record Service := mkService {
  sv_enablePruning : bool;
  sv_pruningStep : Z;
  sv_indexingStart : Z;
  sv_indexingEnd : Z;
  sv_indexingDisable : bool;
  sv_backend : B;
  sv_client : C;
  sv_queryEpochParameters : bool;
  sv_coreParameters : option CoreParameters;
  sv_rtInfo : option RuntimeInfoResponse;
  sv_health : Z;
}.

Definition set_backend (s : Service) (b : B) : Service :=
  mkService (sv_enablePruning s) (sv_pruningStep s) (sv_indexingStart s) (sv_indexingEnd s)
    (sv_indexingDisable s) b (sv_client s) (sv_queryEpochParameters s) (sv_coreParameters s)
    (sv_rtInfo s) (sv_health s).

Definition set_client (s : Service) (c : C) : Service :=
  mkService (sv_enablePruning s) (sv_pruningStep s) (sv_indexingStart s) (sv_indexingEnd s)
    (sv_indexingDisable s) (sv_backend s) c (sv_queryEpochParameters s) (sv_coreParameters s)
    (sv_rtInfo s) (sv_health s).

Definition set_params (s : Service) (q : bool) (p : option CoreParameters)
    (i : option RuntimeInfoResponse) : Service :=
  mkService (sv_enablePruning s) (sv_pruningStep s) (sv_indexingStart s) (sv_indexingEnd s)
    (sv_indexingDisable s) (sv_backend s) (sv_client s) q p i (sv_health s).

Definition on_backend {A} (m : M B A) : M Service A := fun s =>
  let '(r, b) := m (sv_backend s) in (r, set_backend s b).
Definition on_client {A} (m : M C A) : M Service A := fun s =>
  let '(r, c) := m (sv_client s) in (r, set_client s c).
Definition get_service : M Service Service := fun s => (Ok s, s).
Definition modify (f : Service -> Service) : M Service unit := fun s => (Ok tt, f s).

(** [fmt.Errorf("...: %w", err)] *)
Definition wrap {A} (msg : string) (m : M Service A) : M Service A :=
  attempt m (fun r => match r with Ok a => mret a | Err e => fail (ErrWrap msg e) end).

Definition Health (s : Service) : result unit :=
  if sv_health s =? 0 then Err ErrNotHealthy else Ok tt.

Definition updateHealth (healthy : bool) : M Service unit := modify (fun s =>
  mkService (sv_enablePruning s) (sv_pruningStep s) (sv_indexingStart s) (sv_indexingEnd s)
    (sv_indexingDisable s) (sv_backend s) (sv_client s) (sv_queryEpochParameters s)
    (sv_coreParameters s) (sv_rtInfo s) (if healthy then 1 else 0)).

(** The queries for the parameters of a new epoch; each result is kept in the
    service, the runtime info is nil after a failure. *)
Definition queryEpoch (round : Z) : M Service unit :=
  params ← wrap "querying block parameters" (on_client (ns_CoreParameters round));
  _ ← modify (fun s => set_params s (sv_queryEpochParameters s) (Some params) (sv_rtInfo s));
  attempt (on_client ns_CoreRuntimeInfo) (fun r => match r with
    | Ok info => modify (fun s => set_params s (sv_queryEpochParameters s) (sv_coreParameters s) (Some info))
    | Err e =>
        _ ← modify (fun s => set_params s (sv_queryEpochParameters s) (sv_coreParameters s) None);
        fail (ErrWrap "querying runtime info" e)
    end).

Definition needEpoch (s : Service) : bool :=
  match sv_coreParameters s, sv_rtInfo s with
  | Some _, Some _ => sv_queryEpochParameters s
  | _, _ => true
  end.

(** The flag after a block was indexed. *)
Definition nextQueryEpoch (q : bool) (headerType : Z) : bool :=
  if headerType =? EpochTransition then true
  else if q && (headerType =? Normal) then false
  else q.

Definition indexBlock (round : Z) : M Service unit :=
  blk ← wrap "querying block" (on_client (ns_GetBlock round));
  s ← get_service;
  _ ← (if needEpoch s then queryEpoch round else mret tt);
  txs ← wrap "querying transactions with results" (on_client (ns_GetTransactionsWithResults (oh_Round blk)));
  s ← get_service;
  _ ← wrap "indexing block" (on_backend (bk_Index blk txs (sv_coreParameters s) (sv_rtInfo s)));
  modify (fun s => set_params s (nextQueryEpoch (sv_queryEpochParameters s) (oh_HeaderType blk))
    (sv_coreParameters s) (sv_rtInfo s)).

Definition healthCheckIndexerDriftThreshold : Z := 10.

(** One iteration of [healthWorker]. *)
Definition health_iteration : M Service unit :=
  attempt (on_backend bk_QueryLastIndexedRound) (fun r => match r with
    | Err _ => updateHealth false
    | Ok lastIndexed =>
        attempt (on_client (ns_GetBlock RoundLatest)) (fun r => match r with
          | Err _ => updateHealth false
          | Ok latestBlk =>
              let latestRound := oh_Round latestBlk in
              if lastIndexed <=? latestRound
              then updateHealth ((latestRound - lastIndexed)%u64 <=? healthCheckIndexerDriftThreshold)
              else updateHealth false
          end)
    end).

(** One iteration of [pruningWorker]. *)
Definition pruning_iteration : M Service unit :=
  attempt (on_backend bk_QueryLastIndexedRound) (fun r => match r with
    | Err _ => mret tt
    | Ok lastIndexed =>
        s ← get_service;
        if sv_pruningStep s <? lastIndexed then
          attempt (on_backend (bk_Prune (lastIndexed - sv_pruningStep s)%u64)) (fun _ => mret tt)
        else mret tt
    end).

(** The loop [for round := startAt; round <= latest; round++]: the context ends
    after [budget] rounds; a block that cannot be indexed ends the loop. *)
Fixpoint index_rounds (budget : nat) (round latest : Z) : M Service unit :=
  match budget with
  | 0%nat => mret tt
  | S budget' =>
      if round <=? latest then
        attempt (indexBlock round) (fun r => match r with
          | Err _ => mret tt
          | Ok _ => index_rounds budget' (round + 1)%u64 latest
          end)
      else mret tt
  end.

(** Where to start: after the last indexed round, or at 0, moved forward to the
    configured start or to what the node still has.  [None] ends the iteration. *)
Definition startAt : M Service (option Z) :=
  attempt (on_backend bk_QueryLastIndexedRound) (fun r =>
    let start := match r with
      | Ok lastIndexed => Some (lastIndexed + 1)%u64
      | Err e => if errors_Is e ErrNoRoundsIndexed then Some 0 else None
      end in
    match start with
    | None => mret None
    | Some start =>
        s ← get_service;
        if sv_indexingStart s =? 0 then
          attempt (on_client ns_GetLastRetainedBlock) (fun r => match r with
            | Err _ => mret None
            | Ok lastRetainedBlock =>
                mret (Some (if start <? oh_Round lastRetainedBlock then oh_Round lastRetainedBlock else start))
            end)
        else mret (Some (if start <? sv_indexingStart s then sv_indexingStart s else start))
    end).

(** One iteration of [indexingWorker]; the result tells whether the configured
    end is reached. *)
Definition indexing_iteration (budget : nat) : M Service bool :=
  start ← startAt;
  match start with
  | None => mret false
  | Some start =>
      s ← get_service;
      if sv_indexingEnd s =? 0 then
        attempt (on_client (ns_GetBlock RoundLatest)) (fun r => match r with
          | Err _ => mret false
          | Ok latestBlk =>
              _ ← index_rounds budget start (oh_Round latestBlk);
              mret false
          end)
      else if sv_indexingEnd s <? start then mret true
      else
        _ ← index_rounds budget start (sv_indexingEnd s);
        mret false
  end.

(** What [indexingWorker] does with the result of an iteration. *)
Definition indexing_step (budget : nat) : M Service bool :=
  done ← indexing_iteration budget;
  if (done : bool) then _ ← updateHealth true; mret true else mret false.

(** [Start] with the indexer disabled. *)
Definition start_disabled : M Service unit :=
  _ ← on_backend bk_QueryLastIndexedRound;
  updateHealth true.
End Indexer.

(** ** The health check *)
Section HealthCheck.
Context `{O : OasisLib} `{!Backend B} `{!NodeSource C}.

(** After a health check the service is healthy exactly when the last indexed
    round and the node's latest block could both be queried, and the indexer is
    not ahead of the node and at most ten rounds behind it. *)
Theorem health_iteration_spec (s : Service (B:=B) (C:=C)) ri b' rn c' :
  bk_QueryLastIndexedRound (sv_backend s) = (ri, b') ->
  ns_GetBlock RoundLatest (sv_client s) = (rn, c') ->
  (forall n, ri = Ok n -> is_u64 n) -> (forall h, rn = Ok h -> is_u64 (oh_Round h)) ->
  Health (snd (health_iteration s)) = Ok tt <->
  exists lastIndexed latestBlk, ri = Ok lastIndexed /\ rn = Ok latestBlk /\
    lastIndexed <= oh_Round latestBlk <= lastIndexed + healthCheckIndexerDriftThreshold.
Proof.
  intros Ei En Hi Hn. unfold health_iteration, attempt, on_backend, on_client. rewrite Ei.
  destruct ri as [li|e]; [|split; [done|by intros (?&?&?&_)]]. cbn [sv_client set_backend]. rewrite En.
  destruct rn as [h|e]; [|split; [done|by intros (?&?&_&?&_)]].
  specialize (Hi li eq_refl). specialize (Hn h eq_refl).
  destruct (Z.leb_spec li (oh_Round h)) as [Hle|Hlt].
  - rewrite u64_small by u64_lia. unfold healthCheckIndexerDriftThreshold.
    destruct (Z.leb_spec (oh_Round h - li) 10); cbn; split; try done.
    + intros _. exists li, h. repeat split; lia.
    + intros (li' & h' & [= <-] & [= <-] & ? & ?). lia.
  - split; [done|]. intros (li' & h' & [= <-] & [= <-] & ? & ?). lia.
Qed.
End HealthCheck.

(** ** The workers on a backend *)
Section Workers.
Context `{O : OasisLib} `{!Backend B} `{!IndexerBackend B} `{!NodeSource C} `{!NodeSourceLaws C}.

Definition svc : Type := Service (B:=B) (C:=C).

Definition sv_tables (s : svc) : Tables := iv_view (sv_backend s).
Definition sv_ok (s : svc) : Prop := iv_ok (sv_backend s).

(** A block of the round is stored. *)
Definition indexed (T : Tables) (n : Z) : Prop :=
  exists k b, t_blocks T !! k = Some b /\ blk_Round b = n.

Lemma wrap_cases {A} msg (m : M svc A) s :
  exists r s', m s = (r, s') /\ wrap msg m s =
    (match r with Ok a => Ok a | Err e => Err (ErrWrap msg e) end, s').
Proof. unfold wrap, attempt. destruct (m s) as [[a|e] s']; eauto. Qed.

Lemma on_client_backend {A} (m : M C A) (s : svc) :
  sv_backend (snd (on_client m s)) = sv_backend s.
Proof. unfold on_client. by destruct (m (sv_client s)). Qed.

Lemma queryEpoch_backend round (s : svc) :
  sv_backend (snd (queryEpoch round s)) = sv_backend s.
Proof.
  unfold queryEpoch, mbind, M_bind.
  destruct (wrap_cases "querying block parameters" (on_client (ns_CoreParameters round)) s)
    as (r & s1 & E & ->).
  pose proof (on_client_backend (ns_CoreParameters round) s) as Hb. rewrite E in Hb. cbn in Hb.
  destruct r as [p|e]; cbn; [|done]. unfold attempt.
  match goal with |- context [on_client ns_CoreRuntimeInfo ?s2] =>
    pose proof (on_client_backend ns_CoreRuntimeInfo s2) as Hb2;
    destruct (on_client ns_CoreRuntimeInfo s2) as [[i|e] s3] end; cbn in *; by rewrite Hb2.
Qed.

(** One block: stored with its round as the last indexed one, or nothing has
    changed; earlier blocks stay. *)
Definition index_effect (round : Z) (T T' : Tables) (ok : bool) : Prop :=
  if ok then indexed T' round /\ last_indexed T' = Some round /\
             (forall n, indexed T n -> indexed T' n)
  else T' = T.

Lemma Index_effect header items cp rt (b b' : B) r :
  iv_ok b -> next_round (iv_view b) <= oh_Round header -> bk_Index header items cp rt b = (r, b') ->
  iv_ok b' /\ index_effect (oh_Round header) (iv_view b) (iv_view b') (is_Ok r).
Proof.
  intros Hok Hn E. destruct (iv_Index header items cp rt b Hok Hn) as (r0 & b0 & E0 & Hok' & Hr).
  rewrite E in E0. injection E0 as <- <-. split; [done|].
  destruct (put_block header items cp (iv_view b)) as [[m T]|e] eqn:Hp; destruct Hr as [Hv Hr]; subst r; [|done].
  apply put_block_last in Hp as (Hl & (Hb & _ & _ & _ & _ & Kb & _) & Hr). rewrite Hv. split; [|split; [done|]].
  - eexists _, _. split; [exact Hb|exact Hr].
  - intros n (k & blk & Hk & Hkn). exists k, blk. auto.
Qed.

Lemma indexBlock_effect round s r s' : sv_ok s -> round <> RoundLatest -> next_round (sv_tables s) <= round ->
  indexBlock round s = (r, s') ->
  sv_ok s' /\ index_effect round (sv_tables s) (sv_tables s') (is_Ok r).
Proof.
  intros Hok Hlat Hnext. unfold indexBlock, mbind, M_bind, sv_ok, sv_tables in *.
  destruct (wrap_cases "querying block" (on_client (ns_GetBlock round)) s) as (r1 & s1 & E1 & ->).
  pose proof (on_client_backend (ns_GetBlock round) s) as Hb1. rewrite E1 in Hb1. cbn in Hb1.
  destruct r1 as [blk|e]; [|intros [= <- <-]; by rewrite Hb1].
  assert (Hround : oh_Round blk = round).
  { revert E1. unfold on_client. destruct (ns_GetBlock round (sv_client s)) as [r0 c] eqn:Eg.
    intros [= -> _]. by eapply ns_GetBlock_round. }
  cbn [get_service].
  destruct ((if needEpoch s1 then queryEpoch round else mret tt) s1) as [r2 s2] eqn:E2.
  assert (Hb2 : sv_backend s2 = sv_backend s).
  { rewrite <- Hb1. destruct (needEpoch s1); [|by injection E2 as <- <-].
    pose proof (queryEpoch_backend round s1) as Hq. by rewrite E2 in Hq. }
  destruct r2 as [[]|e]; [|intros [= <- <-]; by rewrite Hb2].
  destruct (wrap_cases "querying transactions with results"
    (on_client (ns_GetTransactionsWithResults (oh_Round blk))) s2) as (r3 & s3 & E3 & ->).
  pose proof (on_client_backend (ns_GetTransactionsWithResults (oh_Round blk)) s2) as Hb3.
  rewrite E3 in Hb3. cbn in Hb3. rewrite Hb2 in Hb3.
  destruct r3 as [txs|e]; [|intros [= <- <-]; by rewrite Hb3]. cbn [get_service].
  destruct (wrap_cases "indexing block"
    (on_backend (bk_Index blk txs (sv_coreParameters s3) (sv_rtInfo s3))) s3) as (r4 & s4 & E4 & ->).
  revert E4. unfold on_backend. rewrite Hb3.
  destruct (bk_Index blk txs (sv_coreParameters s3) (sv_rtInfo s3) (sv_backend s)) as [r5 b'] eqn:E5.
  rewrite <- Hround in Hnext. intros [= <- <-]. destruct (Index_effect _ _ _ _ _ _ _ Hok Hnext E5) as (Hu & Heff).
  rewrite Hround in Heff. destruct r5; intros [= <- <-]; done.
Qed.

Definition last_after (start : Z) (k : nat) (old : option Z) : option Z :=
  match k with 0%nat => old | _ => Some (start + Z.of_nat k - 1) end.

(** [k] rounds from [start] on were indexed. *)
Definition rounds_effect (start : Z) (k : nat) (T T' : Tables) : Prop :=
  (forall n, indexed T n -> indexed T' n) /\
  (forall n, start <= n < start + Z.of_nat k -> indexed T' n) /\
  last_indexed T' = last_after start k (last_indexed T).

Lemma rounds_effect_0 start T : rounds_effect start 0 T T.
Proof. split; [done|]. split; [lia|done]. Qed.

Lemma rounds_effect_S start k T T1 T2 :
  index_effect start T T1 true -> rounds_effect (start + 1) k T1 T2 -> rounds_effect start (S k) T T2.
Proof.
  intros (Hi & Hl & Hk) (H1 & H2 & H3). split; [auto|]. split.
  - intros n Hn. destruct (decide (n = start)) as [->|]; [auto|]. apply H2. lia.
  - rewrite H3, Hl. cbn [last_after]. destruct k; cbn [last_after]; f_equal; lia.
Qed.

(** [index_rounds] stopped after [k] rounds in the state [s']: it did not go past
    the last round or the end of the context, and it stopped because the context
    ended, the last round was reached, or the next block could not be indexed. *)
Definition rounds_stop (budget : nat) (start : Z) (k : nat) (latest : Z) (s' : svc) : Prop :=
  (k <= budget)%nat /\ (k = 0%nat \/ start + Z.of_nat k - 1 <= latest) /\
  (k = budget \/ latest < start + Z.of_nat k \/
   exists s1 e, indexBlock (start + Z.of_nat k) s1 = (Err e, s') /\ sv_tables s1 = sv_tables s').

Lemma index_rounds_effect latest : latest < MaxUint64 -> forall budget start (s : svc),
  sv_ok s -> 0 <= start -> next_round (sv_tables s) <= start ->
  exists k s', index_rounds budget start latest s = (Ok tt, s') /\ sv_ok s' /\
    rounds_effect start k (sv_tables s) (sv_tables s') /\
    rounds_stop budget start k latest s'.
Proof.
  intros Hlat. induction budget as [|budget IH]; intros start s Hok Hs Hnext; cbn [index_rounds].
  - exists 0%nat, s. split; [done|]. split; [done|]. split; [apply rounds_effect_0|]. by split_and!; [|left|left].
  - destruct (Z.leb_spec start latest) as [Hle|Hgt].
    2: { exists 0%nat, s. split; [done|]. split; [done|]. split; [apply rounds_effect_0|].
         split_and!; [lia|by left|right; left; lia]. }
    unfold attempt. destruct (indexBlock start s) as [r s1] eqn:E.
    assert (Hne : start <> RoundLatest) by (rewrite ns_RoundLatest; lia).
    destruct (indexBlock_effect start s r s1 Hok Hne Hnext E) as [Hok1 Heff].
    destruct r as [[]|e].
    + rewrite u64_small by (unfold is_u64, MaxUint64, two64 in *; lia).
      destruct (IH (start + 1) s1 Hok1 ltac:(lia)) as (k & s' & E' & Hok' & He & Hb & Hk & Hstop).
      { unfold next_round. destruct Heff as (_ & -> & _). lia. }
      exists (S k), s'. split; [done|]. split; [done|]. split; [by eapply rounds_effect_S|].
      unfold rounds_stop. replace (start + Z.of_nat (S k)) with (start + 1 + Z.of_nat k) by lia.
      split_and!; [lia|right; lia|]. destruct Hstop as [->|?]; [by left|by right].
    + exists 0%nat, s1. split; [done|]. split; [done|]. cbn in Heff.
      split; [rewrite Heff; apply rounds_effect_0|]. split_and!; [lia|by left|]. right. right.
      exists s, e. by rewrite Z.add_0_r.
Qed.

(** Reference: where an iteration starts, with the node after it was asked.  With a
    configured start that is the start, or the round after the last indexed one if
    that is later; with none, the node's last retained round takes its place, and
    nothing is indexed when the node does not tell. *)
Definition start_ref (s : svc) : option Z * C :=
  if sv_indexingStart s =? 0 then
    match ns_GetLastRetainedBlock (sv_client s) with
    | (Ok h, c) => (Some (Z.max (next_round (sv_tables s)) (oh_Round h)), c)
    | (Err _, c) => (None, c)
    end
  else (Some (Z.max (next_round (sv_tables s)) (sv_indexingStart s)), sv_client s).

(** The last round an iteration aims at: the configured one, or the node's. *)
Definition target_ref (s : svc) (c : C) : option Z :=
  if sv_indexingEnd s =? 0 then
    match fst (ns_GetBlock RoundLatest c) with Ok h => Some (oh_Round h) | Err _ => None end
  else Some (sv_indexingEnd s).

Lemma start_ref_next (s : svc) start : (start_ref s).1 = Some start -> next_round (sv_tables s) <= start.
Proof.
  unfold start_ref. case_match; [|intros [= <-]; lia].
  destruct (ns_GetLastRetainedBlock (sv_client s)) as [[h|e] c]; [|done]. intros [= <-]. lia.
Qed.

Lemma startAt_spec (s : svc) : sv_ok s ->
  (forall l, last_indexed (sv_tables s) = Some l -> 0 <= l < MaxUint64) ->
  exists s1, startAt s = (Ok (start_ref s).1, s1) /\ sv_ok s1 /\ sv_tables s1 = sv_tables s /\
    sv_indexingEnd s1 = sv_indexingEnd s /\ sv_client s1 = (start_ref s).2.
Proof.
  intros Hok Hl. destruct (iv_QueryLastIndexedRound (sv_backend s) Hok) as (ib' & E & Hu & Hv). fold (sv_tables s) in *.
  unfold startAt, start_ref, attempt, on_backend. rewrite E.
  set (start := match (match last_indexed (sv_tables s) with
      | Some l => Ok l | None => Err ErrNoRoundsIndexed end) with
    | Ok lastIndexed => Some (lastIndexed + 1)%u64
    | Err e => if errors_Is e ErrNoRoundsIndexed then Some 0 else None end).
  assert (Hs : start = Some (next_round (sv_tables s))).
  { unfold start, next_round. destruct (last_indexed (sv_tables s)) as [l|]; [|done].
    specialize (Hl l eq_refl). rewrite u64_small; [done|]. unfold is_u64, MaxUint64, two64 in *. lia. }
  rewrite Hs. unfold mbind, M_bind, get_service. cbn [sv_indexingStart set_backend].
  assert (Hmax : forall a b, (if a <? b then b else a) = Z.max a b).
  { intros a b. destruct (Z.ltb_spec a b); lia. }
  destruct (sv_indexingStart s =? 0).
  - unfold on_client. cbn [sv_client set_backend].
    destruct (ns_GetLastRetainedBlock (sv_client s)) as [[h|e] c]; eexists; (split; [by rewrite ?Hmax|by split_and!]).
  - eexists. split; [by rewrite Hmax|by split_and!].
Qed.

(** C8: What an iteration of the indexing worker on a healthy database does, whatever
    the node answers.  It starts at the round after the last indexed one, moved forward
    only to the configured start or, when none is configured, to the round the node
    reports as its last retained one; it changes nothing when the node does not report
    one, or not its latest block when no end is configured.  From there it indexes
    consecutive rounds, skipping none, keeps every block indexed before, and leaves the
    last of them as the last indexed one; it does not go past its target, and stops
    before it only when the context ends or a block cannot be indexed.  It reports the
    end exactly when an end is configured and has been passed. *)
Theorem indexing_contiguous budget (s : svc) :
  sv_ok s -> 0 <= sv_indexingStart s -> sv_indexingEnd s < MaxUint64 ->
  (forall l, last_indexed (sv_tables s) = Some l -> 0 <= l < MaxUint64) ->
  exists done s', indexing_iteration budget s = (Ok done, s') /\ sv_ok s' /\
    match start_ref s with
    | (None, _) => done = false /\ sv_tables s' = sv_tables s
    | (Some start, c) =>
        (done = true <-> sv_indexingEnd s <> 0 /\ sv_indexingEnd s < start) /\
        match target_ref s c with
        | None => sv_tables s' = sv_tables s
        | Some latest => exists k, rounds_effect start k (sv_tables s) (sv_tables s') /\
            rounds_stop budget start k latest s'
        end
    end.
Proof.
  intros Hok Hst Hend Hl. destruct (startAt_spec s Hok Hl) as (s1 & E & Hok1 & HT & He & Hc).
  pose proof (start_ref_next s) as Hnext. unfold indexing_iteration. rewrite (M_bind_ok _ _ _ _ _ E).
  destruct (start_ref s) as [[start|] c]; cbn [fst snd] in *; [|by exists false, s1]. specialize (Hnext start eq_refl).
  assert (H0 : 0 <= start).
  { unfold next_round in Hnext. destruct (last_indexed (sv_tables s)) as [l|]; [|done]. specialize (Hl l eq_refl). lia. }
  unfold mbind, M_bind, get_service, target_ref. rewrite He. subst c.
  destruct (Z.eqb_spec (sv_indexingEnd s) 0) as [Hz|Hz].
  - unfold attempt, on_client. destruct (ns_GetBlock RoundLatest (sv_client s1)) as [[h|e] c] eqn:E3; cbn [fst].
    + pose proof E3 as E3'. apply ns_GetBlock_range in E3'.
      destruct (index_rounds_effect (oh_Round h) ltac:(lia) budget start (set_client s1 c))
        as (k & s' & E4 & Hok' & Heff & Hstop);
        [exact Hok1|done|by change (next_round (sv_tables s1) <= start); rewrite HT|]. rewrite E4. exists false, s'.
      change (sv_tables (set_client s1 c)) with (sv_tables s1) in Heff. rewrite HT in Heff.
      do 2 (split; [done|]). split; [by split; [|intros []]|by exists k].
    + eexists false, _. split; [done|]. split; [exact Hok1|]. split; [by split; [|intros []]|exact HT].
  - destruct (Z.ltb_spec (sv_indexingEnd s) start).
    + exists true, s1. do 2 (split; [done|]). split; [done|]. exists 0%nat. rewrite HT.
      split; [apply rounds_effect_0|]. split_and!; [lia|by left|right; left; lia].
    + destruct (index_rounds_effect (sv_indexingEnd s) Hend budget start s1 Hok1 H0)
        as (k & s' & E4 & Hok' & Heff & Hstop); [by rewrite HT|]. rewrite E4. exists false, s'.
      rewrite HT in Heff. do 2 (split; [done|]). split; [split; [done|lia]|by exists k].
Qed.

(** The pruning worker never removes recent data: an iteration on a healthy
    database keeps every block, log, transaction and receipt of the last
    [pruningStep] rounds up to the last indexed one, and changes nothing while
    no more than [pruningStep] rounds have been indexed. *)
Theorem pruning_keeps_recent (s : svc) l :
  sv_ok s -> last_indexed (sv_tables s) = Some l -> is_u64 l -> 0 <= sv_pruningStep s ->
  exists s', pruning_iteration s = (Ok tt, s') /\
    (forall t k r, t <> TIndexedRound -> rows t (sv_tables s) !! k = Some r ->
       l - sv_pruningStep s <= col_round t r -> rows t (sv_tables s') !! k = Some r) /\
    (l <= sv_pruningStep s -> sv_tables s' = sv_tables s) /\
    last_indexed (sv_tables s') = Some l.
Proof.
  intros Hok Hl Hu Hp. destruct (iv_QueryLastIndexedRound (sv_backend s) Hok) as (b1 & E & Hok1 & Hv).
  fold (sv_tables s) in *. unfold pruning_iteration, attempt, on_backend. rewrite E, Hl.
  unfold mbind, M_bind, get_service. cbn [sv_pruningStep set_backend].
  destruct (Z.ltb_spec (sv_pruningStep s) l) as [Hlt|Hge].
  - rewrite u64_small by (unfold is_u64, two64 in *; lia). cbn [sv_backend set_backend].
    destruct (iv_Prune (l - sv_pruningStep s) b1 Hok1) as (b2 & -> & _ & Hv2).
    eexists. split; [done|]. unfold sv_tables at 2 3 5. cbn [sv_backend set_backend]. rewrite Hv2, Hv.
    destruct (prune_ref_spec (l - sv_pruningStep s) (sv_tables s)) as (Hrows & _ & Hc). split; [|split; [lia|]].
    + intros t k r Ht Hk Hr. apply Hrows; [done|]. split; [done|lia].
    + unfold last_indexed. rewrite Hc. exact Hl.
  - eexists. split; [done|]. unfold sv_tables at 2 3 5. cbn [sv_backend set_backend]. rewrite Hv. done.
Qed.
End Workers.

(** ** Witnesses *)
Definition ex_service (db : MemDB) (step : Z) : svc (B:=indexBackend (D:=MemDB)) (C:=ExNode) :=
  mkService false step 0 0 false (NewIndexBackend db) (mkExNode 3) false None None 0.

Definition ex_service7 : svc (B:=indexBackend (D:=MemDB)) (C:=ExNode) :=
  mkService false 2 0 0 false (NewIndexBackend (ex_full_db [])) (mkExNode 7) false None None 0.

Lemma ex_service7_last : fst (bk_QueryLastIndexedRound (sv_backend ex_service7)) = Ok 5.
Proof. vm_compute. reflexivity. Qed.

Lemma health_iteration_spec_witness :
  Health (snd (health_iteration ex_service7)) = Ok tt.
Proof.
  apply (health_iteration_spec ex_service7 (Ok 5)
    (snd (bk_QueryLastIndexedRound (sv_backend ex_service7)))
    (Ok (ex_node_header 7 : @oheader _ ex_OasisLib)) (mkExNode 7)).
  - rewrite <- ex_service7_last. apply surjective_pairing.
  - reflexivity.
  - intros n [= <-]. split; [lia|reflexivity].
  - intros h [= <-]. split; [vm_compute; discriminate|reflexivity].
  - exists 5, (ex_node_header 7). split; [reflexivity|]. split; [reflexivity|].
    change (5 <= 7 <= 5 + 10). lia.
Defined.

(** With no configured start and an empty index the node's last retained round is
    0: the rounds 0 to 3 of the node are indexed, or fewer if the last one failed. *)
Lemma indexing_contiguous_witness : exists done s' k,
  indexing_iteration 10 (ex_service (ex_db []) 2) = (Ok done, s') /\ sv_ok s' /\
  rounds_effect 0 k (sv_tables (ex_service (ex_db []) 2)) (sv_tables s') /\ rounds_stop 10 0 k 3 s'.
Proof.
  destruct (indexing_contiguous 10 (ex_service (ex_db []) 2)) as (done & s' & E & Hok & _ & k & He & Hs).
  - split; [constructor|apply empty_tables_wf].
  - cbn. lia.
  - reflexivity.
  - intros l. cbn. discriminate.
  - exists done, s', k. split; [exact E|]. split; [exact Hok|]. split; [exact He|exact Hs].
Defined.

Lemma pruning_keeps_recent_witness : exists s',
  pruning_iteration (ex_service (ex_full_db []) 2) = (Ok tt, s') /\
  last_indexed (sv_tables s') = Some 5.
Proof.
  destruct (pruning_keeps_recent (ex_service (ex_full_db []) 2) 5) as (s' & E & _ & _ & Hl).
  - split; [constructor|apply ex_full_wf].
  - vm_compute. reflexivity.
  - split; [lia|reflexivity].
  - cbn. lia.
  - exists s'. split; [exact E|exact Hl].
Defined.
