(* ===== verification/IndexerLoop.v ===== *)
(** * The workers of the indexer over time (src/indexer/indexer.go)

    The loops of the three workers of [Start], over what the [select] at their
    head receives; that the indexing worker brings the database up to the
    node's chain; and the workers running concurrently, as steps between which
    the other workers may run. *)
From S2P Require Import Prelude GoLib Model Sql Storage Psql Extern BlockModels EthViews StoreBlock IndexBackend Cache Source Indexer.

(** ** The loops *)
Section Loops.
Context `{O : OasisLib} `{!Backend B} `{!NodeSource C}.

(** What a [select] receives: the end of the context or the timer.  An
    iteration that indexes sees the context end after [budget] rounds. *)
Inductive tick := CtxDone | After (budget : nat).

(** The loop of a worker whose iteration tells whether it is done.  The result
    is [None] while the worker waits for its next tick. *)
Fixpoint worker_loop (iteration : nat -> M (Service (B:=B) (C:=C)) bool) (ticks : list tick)
    : M (Service (B:=B) (C:=C)) (option (result unit)) :=
  match ticks with
  | [] => mret None
  | CtxDone :: _ => mret (Some (Err ctx_Err))
  | After budget :: ticks' =>
      done ← iteration budget;
      if (done : bool) then mret (Some (Ok tt)) else worker_loop iteration ticks'
  end.

Definition healthWorker := worker_loop (fun _ => _ ← health_iteration; mret false).
Definition pruningWorker := worker_loop (fun _ => _ ← pruning_iteration; mret false).
Definition indexingWorker := worker_loop indexing_step.
End Loops.

(** ** Catching up with the node *)
Section CatchUp.
Context `{O : OasisLib} `{!Backend B} `{!IndexerBackend B} `{!NodeSource C}.
Notation svc := (Service (B:=B) (C:=C)).

(** The runtime's chain: the block of each round, its transactions with their
    results, and the parameters that hold at it. *)
Record Chain := mkChain {
  ch_block : Z -> oheader;
  ch_txs : Z -> list TxWithResults;
  ch_params : Z -> CoreParameters;
}.

(** A call on the node succeeds with a good answer, and the node stays up. *)
Definition replies {A} (up : C -> Prop) (m : M C A) (good : A -> Prop) : Prop :=
  forall c, up c -> exists a c', m c = (Ok a, c') /\ good a /\ up c'.

(** A node that serves the rounds [lo] to [hi] of a chain.  The parameters only
    change after an epoch transition. *)
Record serves (up : C -> Prop) (ch : Chain) (lo hi : Z) : Prop := {
  serves_rounds : forall r, lo <= r <= hi -> oh_Round (ch_block ch r) = r;
  serves_block : forall r, lo <= r <= hi -> replies up (ns_GetBlock r) (fun b => b = ch_block ch r);
  serves_latest : replies up (ns_GetBlock RoundLatest) (fun b => oh_Round b = hi);
  serves_retained : replies up ns_GetLastRetainedBlock (fun b => oh_Round b <= lo);
  serves_txs : forall r, lo <= r <= hi -> replies up (ns_GetTransactionsWithResults r) (fun l => l = ch_txs ch r);
  serves_params : forall r, lo <= r <= hi -> replies up (ns_CoreParameters r) (fun p => p = ch_params ch r);
  serves_info : replies up ns_CoreRuntimeInfo (fun _ => True);
  serves_epochs : forall r, lo <= r -> oh_HeaderType (ch_block ch r) <> EpochTransition ->
    ch_params ch (r + 1) = ch_params ch r;
}.

(** Reference: the tables with the block of a round, converted with the
    parameters of that round; and with [n] rounds from [start] on. *)
Definition put_round (ch : Chain) (T : Tables) (r : Z) : result Tables :=
  rmap snd (put_block (ch_block ch r) (ch_txs ch r) (Some (ch_params ch r)) T).

Definition put_rounds (ch : Chain) (T : Tables) (start : Z) (n : nat) : result Tables :=
  rfold (put_round ch) T (seqZ start (Z.of_nat n)).

(** The parameters the service has kept are those of the round, or it will ask. *)
Definition params_current (ch : Chain) (s : svc) (r : Z) : Prop :=
  needEpoch s = true \/ sv_coreParameters s = Some (ch_params ch r).

(** The configuration and the health flag of a service. *)
Definition config (s : svc) : bool * Z * Z * Z * bool * Z :=
  (sv_enablePruning s, sv_pruningStep s, sv_indexingStart s, sv_indexingEnd s, sv_indexingDisable s, sv_health s).

Context (up : C -> Prop) (ch : Chain) (lo hi : Z) (Hserves : serves up ch lo hi).

Definition good (s : svc) : Prop := sv_ok s /\ up (sv_client s).

Lemma client_answers {A} (m : M C A) (P : A -> Prop) (s : svc) : replies up m P -> up (sv_client s) ->
  exists a c, on_client m s = (Ok a, set_client s c) /\ P a /\ up c.
Proof. intros Hm Hu. destruct (Hm _ Hu) as (a & c & E & Ha & Hc). exists a, c. unfold on_client. by rewrite E. Qed.

Lemma wrap_ok {A} msg (m : M svc A) s a s' : m s = (Ok a, s') -> wrap msg m s = (Ok a, s').
Proof. unfold wrap, attempt. by intros ->. Qed.

(** The query for the parameters, if any, leaves those of the round. *)
Lemma epoch_current r (s : svc) : lo <= r <= hi -> up (sv_client s) -> params_current ch s r ->
  exists s', (if needEpoch s then queryEpoch r else mret tt) s = (Ok tt, s') /\
    sv_coreParameters s' = Some (ch_params ch r) /\ sv_backend s' = sv_backend s /\
    up (sv_client s') /\ config s' = config s.
Proof.
  intros Hr Hu Hp. destruct (needEpoch s) eqn:En.
  - unfold queryEpoch.
    destruct (client_answers _ _ s (serves_params _ _ _ _ Hserves r Hr) Hu) as (p & c & E & -> & Hc).
    rewrite (M_bind_ok _ _ _ _ _ (wrap_ok _ _ _ _ _ E)). unfold mbind at 1, M_bind at 1, modify at 1.
    unfold attempt.
    match goal with |- context [on_client ns_CoreRuntimeInfo ?s2] =>
      destruct (client_answers ns_CoreRuntimeInfo _ s2 (serves_info _ _ _ _ Hserves) Hc) as (i & c' & -> & _ & Hc') end.
    eexists. split; [done|]. done.
  - destruct Hp as [?|Hp]; [congruence|]. by exists s.
Qed.

(** Indexing a block that the node serves and that the reference accepts. *)
Lemma indexBlock_tracks r (s : svc) T' : lo <= r <= hi -> hi < MaxUint64 -> good s ->
  params_current ch s r -> next_round (sv_tables s) <= r -> put_round ch (sv_tables s) r = Ok T' ->
  exists s', indexBlock r s = (Ok tt, s') /\ good s' /\ sv_tables s' = T' /\
    params_current ch s' (r + 1) /\ config s' = config s /\ last_indexed T' = Some r.
Proof.
  intros Hr Hhi [Hok Hu] Hp Hn HT. unfold put_round in HT.
  destruct (put_block (ch_block ch r) (ch_txs ch r) (Some (ch_params ch r)) (sv_tables s)) as [[m T]|] eqn:Hput; [|done].
  injection HT as <-. cbn [snd].
  unfold indexBlock.
  destruct (client_answers _ _ s (serves_block _ _ _ _ Hserves r Hr) Hu) as (b & c1 & E1 & -> & Hc1).
  pose proof (serves_rounds _ _ _ _ Hserves r Hr) as Hbr.
  rewrite (M_bind_ok _ _ _ _ _ (wrap_ok _ _ _ _ _ E1)). unfold mbind at 1, M_bind at 1, get_service at 1.
  destruct (epoch_current r (set_client s c1) Hr Hc1 Hp) as (s2 & E2 & Hp2 & Hb2 & Hu2 & Hcf2).
  cbn [sv_backend set_client] in Hb2.
  change (needEpoch (set_client s c1)) with (needEpoch s) in E2.
  change (needEpoch (set_client s c1)) with (needEpoch s). rewrite (M_bind_ok _ _ _ _ _ E2).
  rewrite Hbr.
  destruct (client_answers _ _ s2 (serves_txs _ _ _ _ Hserves r Hr) Hu2) as (l & c3 & E3 & -> & Hc3).
  rewrite (M_bind_ok _ _ _ _ _ (wrap_ok _ _ _ _ _ E3)). unfold mbind at 1, M_bind at 1, get_service at 1.
  change (sv_coreParameters (set_client s2 c3)) with (sv_coreParameters s2). rewrite Hp2.
  destruct (iv_Index (ch_block ch r) (ch_txs ch r) (Some (ch_params ch r)) (sv_rtInfo s2) (sv_backend s))
    as (out & b' & E4 & Hok' & Hr4); [exact Hok|by rewrite Hbr|].
  fold (sv_tables s) in Hr4. rewrite Hput in Hr4. destruct Hr4 as [Hv4 ->].
  assert (E5 : on_backend (bk_Index (ch_block ch r) (ch_txs ch r) (Some (ch_params ch r)) (sv_rtInfo s2))
    (set_client s2 c3) = (Ok (mkChainEvent _ (bm_blk m) (blockHash (ch_block ch r)) (bm_logs m), models_bd m),
      set_backend (set_client s2 c3) b')).
  { unfold on_backend. cbn [sv_backend set_client]. by rewrite Hb2, E4. }
  change (sv_rtInfo (set_client s2 c3)) with (sv_rtInfo s2).
  rewrite (M_bind_ok _ _ _ _ _ (wrap_ok _ _ _ _ _ E5)).
  eexists. split; [done|]. split; [done|]. split; [exact Hv4|]. split; [|split; [exact Hcf2|]].
  - unfold params_current, needEpoch. cbn. rewrite Hp2. unfold nextQueryEpoch.
    destruct (Z.eqb_spec (oh_HeaderType (ch_block ch r)) EpochTransition) as [He|He].
    + left. by destruct (sv_rtInfo s2).
    + right. by rewrite (serves_epochs _ _ _ _ Hserves r) by (done || lia).
  - apply put_block_last in Hput as [-> _]. by rewrite Hbr.
Qed.

Lemma put_rounds_S T start n : put_rounds ch T start (S n) =
  (put_round ch T start ≫= fun T1 => put_rounds ch T1 (start + 1) n).
Proof. unfold put_rounds. rewrite seqZ_cons by lia. cbn [rfold]. by replace (Z.pred (Z.of_nat (S n))) with (Z.of_nat n) by lia. Qed.

Lemma index_rounds_tracks latest : latest <= hi < MaxUint64 -> forall n budget start (s : svc) T',
  0 <= start -> lo <= start -> start + Z.of_nat n = latest + 1 -> (n <= budget)%nat -> good s ->
  params_current ch s start -> next_round (sv_tables s) <= start ->
  put_rounds ch (sv_tables s) start n = Ok T' ->
  exists s', index_rounds budget start latest s = (Ok tt, s') /\ good s' /\ sv_tables s' = T' /\
    params_current ch s' (latest + 1) /\ config s' = config s /\
    last_indexed T' = last_after start n (last_indexed (sv_tables s)).
Proof.
  intros Hlat. induction n as [|n IH]; intros budget start s T' H0 Hlo Hn Hb Hg Hp Hnext HT.
  - injection HT as <-. exists s. replace (latest + 1) with start by lia. split; [|done].
    destruct budget; cbn [index_rounds]; [done|]. by rewrite (proj2 (Z.leb_gt start latest)) by lia.
  - destruct budget as [|budget]; [lia|]. cbn [index_rounds].
    rewrite (proj2 (Z.leb_le start latest)) by lia. rewrite put_rounds_S in HT.
    apply result_bind_ok in HT as (T1 & HT1 & HT).
    destruct (indexBlock_tracks start s T1 ltac:(lia) ltac:(lia) Hg Hp Hnext HT1)
      as (s1 & E1 & Hg1 & Hv1 & Hp1 & Hc1 & Hl1).
    unfold attempt. rewrite E1. rewrite u64_small by (unfold is_u64, MaxUint64, two64 in *; lia).
    assert (Hnext1 : next_round (sv_tables s1) <= start + 1) by (unfold next_round; rewrite Hv1, Hl1; lia).
    rewrite <- Hv1 in HT.
    destruct (IH budget (start + 1) s1 T' ltac:(lia) ltac:(lia) ltac:(lia) ltac:(lia) Hg1 Hp1 Hnext1 HT)
      as (s' & E' & Hg' & Hv' & Hp' & Hc' & Hl').
    exists s'. split; [done|]. split; [done|]. split; [done|]. split; [done|]. split; [congruence|].
    rewrite Hl', Hv1, Hl1. cbn [last_after]. destruct n; cbn [last_after]; f_equal; lia.
Qed.

(** Where an iteration starts on such a node. *)
Definition start_round (s : svc) : Z := Z.max (next_round (sv_tables s)) (sv_indexingStart s).

(** The last round it aims at. *)
Definition end_round (s : svc) : Z := if sv_indexingEnd s =? 0 then hi else sv_indexingEnd s.

(** A service whose configuration the node can serve. *)
Record ready (s : svc) : Prop := {
  rd_good : good s;
  rd_start : 0 <= sv_indexingStart s;
  rd_end : 0 <= sv_indexingEnd s <= hi;
  rd_hi : hi < MaxUint64;
  rd_last : forall l, last_indexed (sv_tables s) = Some l -> 0 <= l < MaxUint64;
  rd_lo : lo <= start_round s;
  rd_params : params_current ch s (start_round s);
}.

(** [s1] is [s] after calls that only read. *)
Definition same_but_reads (s s1 : svc) : Prop :=
  good s1 /\ sv_tables s1 = sv_tables s /\ config s1 = config s /\
  (forall r, params_current ch s r -> params_current ch s1 r).

Lemma startAt_tracks (s : svc) : ready s ->
  exists s1, startAt s = (Ok (Some (start_round s)), s1) /\ same_but_reads s s1.
Proof.
  intros [[Hok Hu] Hst _ _ Hl Hlo _]. destruct (iv_QueryLastIndexedRound (sv_backend s) Hok) as (b & E & Hok1 & Hv).
  fold (sv_tables s) in *. unfold startAt, attempt, on_backend. rewrite E.
  set (start := match (match last_indexed (sv_tables s) with
      | Some l => Ok l | None => Err ErrNoRoundsIndexed end) with
    | Ok lastIndexed => Some (lastIndexed + 1)%u64
    | Err e => if errors_Is e ErrNoRoundsIndexed then Some 0 else None end).
  assert (Hs : start = Some (next_round (sv_tables s)) /\ 0 <= next_round (sv_tables s)).
  { unfold start, next_round. destruct (last_indexed (sv_tables s)) as [l|]; [|done].
    specialize (Hl l eq_refl). rewrite u64_small; [split; [done|lia]|]. unfold is_u64, MaxUint64, two64 in *. lia. }
  destruct Hs as [-> Hn0]. unfold mbind, M_bind, get_service. cbn [sv_indexingStart set_backend].
  unfold start_round in *. destruct (Z.eqb_spec (sv_indexingStart s) 0) as [Hz|Hz].
  - destruct (client_answers _ _ (set_backend s b) (serves_retained _ _ _ _ Hserves) Hu) as (h & c & -> & Hh & Hc).
    exists (set_client (set_backend s b) c). split; [|done]. rewrite Hz in *. rewrite Z.max_l in * by lia.
    by rewrite (proj2 (Z.ltb_ge _ _)) by lia.
  - exists (set_backend s b). split; [|done].
    destruct (Z.ltb_spec (next_round (sv_tables s)) (sv_indexingStart s)); [by rewrite Z.max_r by lia|].
    by rewrite Z.max_l by lia.
Qed.

(** How many rounds are missing. *)
Definition missing (s : svc) : nat := Z.to_nat (end_round s + 1 - start_round s).

Lemma iteration_tracks budget (s : svc) T' : ready s -> (missing s <= budget)%nat ->
  put_rounds ch (sv_tables s) (start_round s) (missing s) = Ok T' ->
  exists s', indexing_iteration budget s = (Ok (negb (sv_indexingEnd s =? 0) && (sv_indexingEnd s <? start_round s)), s') /\
    good s' /\ sv_tables s' = T' /\ config s' = config s /\
    params_current ch s' (Z.max (start_round s) (end_round s + 1)) /\
    last_indexed T' = last_after (start_round s) (missing s) (last_indexed (sv_tables s)).
Proof.
  intros Hrd Hb HT. destruct (startAt_tracks s Hrd) as (s1 & E1 & Hg1 & Hv1 & Hc1 & Hp1).
  destruct Hrd as [_ Hst Hend Hhi Hl Hlo Hp]. apply Hp1 in Hp.
  assert (Hn0 : 0 <= next_round (sv_tables s)).
  { unfold next_round. destruct (last_indexed (sv_tables s)) as [l|]; [|done]. specialize (Hl l eq_refl). lia. }
  assert (H0 : 0 <= start_round s /\ next_round (sv_tables s1) <= start_round s) by (unfold start_round; rewrite Hv1; lia).
  destruct H0 as [H0 Hnx]. unfold indexing_iteration. rewrite (M_bind_ok _ _ _ _ _ E1). unfold mbind at 1, M_bind at 1, get_service at 1.
  assert (He1 : sv_indexingEnd s1 = sv_indexingEnd s) by (unfold config in Hc1; congruence). rewrite He1.
  rewrite <- Hv1 in HT. unfold missing, end_round in *. destruct (Z.eqb_spec (sv_indexingEnd s) 0) as [Hz|Hz].
  - destruct (client_answers _ _ s1 (serves_latest _ _ _ _ Hserves)) as (h & c & E2 & Hh & Hc); [apply Hg1|].
    unfold attempt. rewrite E2, Hh. cbn [negb andb].
    destruct (Z.leb_spec (start_round s) (hi + 1)) as [Hle|Hgt].
    + destruct (index_rounds_tracks hi ltac:(lia) (Z.to_nat (hi + 1 - start_round s)) budget (start_round s)
        (set_client s1 c) T') as (s' & E3 & Hg' & Hv' & Hp' & Hc' & Hl'); try done; try lia; [split; [apply Hg1|done]|].
      rewrite (M_bind_ok _ _ _ _ _ E3). exists s'. split; [done|]. split; [done|]. split; [done|].
      split; [rewrite Hc'; exact Hc1|]. rewrite Z.max_r by lia. split; [done|]. rewrite Hl'.
      change (sv_tables (set_client s1 c)) with (sv_tables s1). by rewrite Hv1.
    + replace (Z.to_nat (hi + 1 - start_round s)) with 0%nat in * by lia. injection HT as <-.
      exists (set_client s1 c). rewrite Z.max_l by lia. rewrite Hv1. split; [|split; [split; [apply Hg1|done]|done]].
      destruct budget; cbn [index_rounds]; [done|]. by rewrite (proj2 (Z.leb_gt (start_round s) hi)) by lia.
  - destruct (Z.ltb_spec (sv_indexingEnd s) (start_round s)) as [Hlt|Hge]; cbn [negb andb].
    + replace (Z.to_nat (sv_indexingEnd s + 1 - start_round s)) with 0%nat in * by lia. injection HT as <-.
      exists s1. rewrite Z.max_l by lia. rewrite Hv1. done.
    + destruct (index_rounds_tracks (sv_indexingEnd s) ltac:(lia) (Z.to_nat (sv_indexingEnd s + 1 - start_round s))
        budget (start_round s) s1 T') as (s' & E3 & Hg' & Hv' & Hp' & Hc' & Hl'); try done; try lia.
      rewrite (M_bind_ok _ _ _ _ _ E3). exists s'. split; [done|]. split; [done|]. split; [done|].
      split; [congruence|]. rewrite Z.max_r by lia. split; [done|]. by rewrite Hl', Hv1.
Qed.

Lemma caught_up_healthy (s : svc) : good s -> 0 <= hi < MaxUint64 -> last_indexed (sv_tables s) = Some hi ->
  Health (snd (health_iteration s)) = Ok tt.
Proof.
  intros [Hok Hu] Hhi Hl. destruct (iv_QueryLastIndexedRound (sv_backend s) Hok) as (b & E & _).
  fold (sv_tables s) in E. rewrite Hl in E.
  destruct (serves_latest _ _ _ _ Hserves _ Hu) as (h & c & E2 & Hh & _).
  apply (health_iteration_spec s (Ok hi) b (Ok h) c E E2); unfold is_u64, MaxUint64, two64 in *.
  - intros n [= <-]. lia.
  - intros h' [= <-]. lia.
  - exists hi, h. unfold healthCheckIndexerDriftThreshold. rewrite Hh. repeat split; lia.
Qed.

Lemma missing_last (s : svc) T : start_round s <= end_round s ->
  last_after (start_round s) (missing s) T = Some (end_round s).
Proof.
  intros Hle. unfold missing. destruct (Z.to_nat (end_round s + 1 - start_round s)) eqn:En; [lia|].
  cbn [last_after]. f_equal. lia.
Qed.

Lemma start_nonneg (s : svc) : ready s -> 0 <= start_round s.
Proof. intros Hrd. pose proof (rd_start _ Hrd). unfold start_round. lia. Qed.

Lemma tracks_chain budget (s : svc) T' : ready s -> sv_indexingEnd s = 0 ->
  start_round s <= hi -> (missing s <= budget)%nat ->
  put_rounds ch (sv_tables s) (start_round s) (missing s) = Ok T' ->
  exists s', indexingWorker [After budget] s = (Ok None, s') /\ sv_tables s' = T' /\
    last_indexed T' = Some hi /\ missing s' = 0%nat /\ ready s' /\
    Health (snd (health_iteration s')) = Ok tt.
Proof.
  intros Hrd Hz Hle Hb HT. pose proof (start_nonneg s Hrd) as H0. pose proof (rd_hi s Hrd) as Hhi.
  destruct (iteration_tracks budget s T' Hrd Hb HT) as (s' & E & Hg & Hv & Hc & Hp & Hl).
  assert (Hend : end_round s = hi) by (unfold end_round; by rewrite Hz).
  rewrite missing_last in Hl by lia. rewrite Hend in *. rewrite Hz in E. cbn [negb andb Z.eqb] in E.
  assert (Hcs : sv_indexingEnd s' = 0 /\ sv_indexingStart s' = sv_indexingStart s) by (unfold config in Hc; split; congruence).
  destruct Hcs as [Hz' Hst'].
  assert (Hs' : start_round s' = hi + 1).
  { unfold start_round in *. rewrite Hv, Hst'. unfold next_round at 1. rewrite Hl. lia. }
  exists s'. split; [|split; [done|split; [done|split; [|split]]]].
  - unfold indexingWorker, worker_loop, indexing_step. unfold mbind, M_bind. by rewrite E.
  - unfold missing, end_round. rewrite Hs', Hz'. cbn [Z.eqb]. lia.
  - pose proof (rd_lo s Hrd). split; try done; try (rewrite ?Hs', ?Hst', ?Hz'; apply Hrd || lia).
    + intros l. rewrite Hv, Hl. intros [= <-]. lia.
    + rewrite Hs'. by replace (hi + 1) with (Z.max (start_round s) (hi + 1)) by lia.
  - apply caught_up_healthy; [done|lia|by rewrite Hv].
Qed.

(** C3: The indexer catches up.  Take a node that serves the rounds up to [hi] of a
    chain whose parameters only change after epoch transitions, and a backend
    (the plain or the caching one) on a healthy database.  If storing the
    missing blocks one after the other, each converted with the parameters of
    its own round, is possible at all, one iteration of the indexing worker
    whose context lasts long enough does it: the tables are then exactly those
    of the reference, the last indexed round is the node's latest one, nothing
    is missing, the service stays ready for the rounds to come, and a health
    check reports healthy. *)
Theorem indexing_tracks_chain budget (s : svc) T' : ready s -> sv_indexingEnd s = 0 ->
  start_round s <= hi -> (missing s <= budget)%nat ->
  put_rounds ch (sv_tables s) (start_round s) (missing s) = Ok T' ->
  exists s', indexingWorker [After budget] s = (Ok None, s') /\ sv_tables s' = T' /\
    last_indexed T' = Some hi /\ missing s' = 0%nat /\ ready s' /\
    Health (snd (health_iteration s')) = Ok tt.
Proof. apply tracks_chain. Qed.

(** C9: A configured end is reached and ends the worker: with a node that serves
    the missing rounds and a healthy database the worker indexes them up to
    the end in its first iteration, returns without an error in the next one,
    and the service is then healthy; the tables are those of the reference. *)
Theorem worker_reaches_end budget budget' ticks (s : svc) T' : ready s -> sv_indexingEnd s <> 0 ->
  start_round s <= sv_indexingEnd s -> (missing s <= budget)%nat ->
  put_rounds ch (sv_tables s) (start_round s) (missing s) = Ok T' ->
  exists s', indexingWorker (After budget :: After budget' :: ticks) s = (Ok (Some (Ok tt)), s') /\
    sv_tables s' = T' /\ last_indexed T' = Some (sv_indexingEnd s) /\ Health s' = Ok tt.
Proof.
  intros Hrd Hz Hle Hb HT. pose proof (start_nonneg s Hrd) as H0. pose proof (rd_hi s Hrd) as Hhi.
  pose proof (rd_end s Hrd) as Hend. pose proof (rd_lo s Hrd) as Hlo.
  destruct (iteration_tracks budget s T' Hrd Hb HT) as (s1 & E & Hg & Hv & Hc & Hp & Hl).
  assert (He : end_round s = sv_indexingEnd s) by (unfold end_round; by rewrite (proj2 (Z.eqb_neq _ _) Hz)).
  rewrite missing_last in Hl by lia. rewrite He in *.
  assert (Hcs : sv_indexingEnd s1 = sv_indexingEnd s /\ sv_indexingStart s1 = sv_indexingStart s)
    by (unfold config in Hc; split; congruence). destruct Hcs as [Hz' Hst'].
  assert (Hs' : start_round s1 = sv_indexingEnd s + 1).
  { unfold start_round in *. rewrite Hv, Hst'. unfold next_round at 1. rewrite Hl. lia. }
  assert (Hrd1 : ready s1).
  { split; try done; try (rewrite ?Hs', ?Hst', ?Hz'; apply Hrd || lia).
    - intros l. rewrite Hv, Hl. intros [= <-]. lia.
    - rewrite Hs'. by rewrite Z.max_r in Hp by lia. }
  assert (Hm1 : missing s1 = 0%nat).
  { unfold missing, end_round. rewrite Hs', Hz', (proj2 (Z.eqb_neq _ _) Hz). lia. }
  destruct (iteration_tracks budget' s1 T' Hrd1) as (s2 & E2 & _ & Hv2 & _); [lia|by rewrite Hm1, <- Hv|].
  rewrite (proj2 (Z.ltb_ge _ _)), andb_false_r in E by lia.
  rewrite Hs', Hz', (proj2 (Z.eqb_neq _ _) Hz), (proj2 (Z.ltb_lt _ _)) in E2 by lia.
  eexists. split; [|split; [|split; [exact Hl|]]].
  - unfold indexingWorker, worker_loop, indexing_step, mbind, M_bind. rewrite E. cbn [mret M_ret]. by rewrite E2.
  - exact Hv2.
  - done.
Qed.
End CatchUp.

(** ** Witnesses: the caching backend on an empty database, a node with the rounds 0 to 3 *)
Definition ex_chain : Chain (O:=ex_OasisLib) :=
  mkChain (O:=ex_OasisLib) (fun r => ex_node_header r) (fun _ => []) (fun _ => mkCoreParameters ∅ 1000).

Definition ex_up (c : ExNode) : Prop := c = mkExNode 3.

Lemma ex_serves : serves ex_up ex_chain 0 3.
Proof.
  split; [done|..].
  - intros r Hr c ->. cbn [ns_GetBlock ExNode_NodeSource]. change (en_round (mkExNode 3)) with 3. rewrite (proj2 (Z.eqb_neq r MaxUint64)) by (unfold MaxUint64; lia).
    rewrite (proj2 (Z.leb_le 0 r)), (proj2 (Z.leb_le r 3)) by lia. eexists _, _. done.
  - intros c ->. eexists _, _. done.
  - intros c ->. eexists _, _. done.
  - intros r _ c ->. eexists _, _. done.
  - intros r _ c ->. eexists _, _. done.
  - intros c ->. eexists _, _. done.
  - done.
Qed.

Definition ex_cached_service (stop : Z) : Service (B:=CachingBackend (B:=indexBackend (D:=MemDB))) (C:=ExNode) :=
  mkService false 2 0 stop false (ex_stack []) (mkExNode 3) false None None 0.

Lemma ex_cached_ready stop : 0 <= stop <= 3 -> ready ex_up ex_chain 0 3 (ex_cached_service stop).
Proof.
  intros Hstop. split; try done.
  - split; [|done]. apply cb_ok_new. split; [constructor|apply empty_tables_wf].
  - by left.
Qed.

Definition ex_caught_up : Tables :=
  match put_rounds ex_chain empty_tables 0 4 with Ok T => T | Err _ => empty_tables end.

Lemma ex_caught_up_ok : put_rounds ex_chain empty_tables 0 4 = Ok ex_caught_up.
Proof.
  unfold ex_caught_up. assert (Hok : is_Ok (put_rounds ex_chain empty_tables 0 4) = true) by (vm_compute; reflexivity).
  by destruct (put_rounds ex_chain empty_tables 0 4).
Qed.

Lemma indexing_tracks_chain_witness : exists s',
  indexingWorker [After 10] (ex_cached_service 0) = (Ok None, s') /\ sv_tables s' = ex_caught_up /\
  last_indexed ex_caught_up = Some 3 /\ Health (snd (health_iteration s')) = Ok tt.
Proof.
  destruct (indexing_tracks_chain ex_up ex_chain 0 3 ex_serves 10 (ex_cached_service 0) ex_caught_up)
    as (s' & E & Hv & Hl & _ & _ & Hh).
  - apply ex_cached_ready. lia.
  - reflexivity.
  - vm_compute. discriminate.
  - apply Nat.leb_le. reflexivity.
  - exact ex_caught_up_ok.
  - exists s'. split; [exact E|]. split; [exact Hv|]. split; [exact Hl|exact Hh].
Defined.

Lemma worker_reaches_end_witness : exists s',
  indexingWorker [After 10; After 10; CtxDone] (ex_cached_service 3) = (Ok (Some (Ok tt)), s') /\
  last_indexed (sv_tables s') = Some 3 /\ Health s' = Ok tt.
Proof.
  destruct (worker_reaches_end ex_up ex_chain 0 3 ex_serves 10 10 [CtxDone] (ex_cached_service 3) ex_caught_up)
    as (s' & E & Hv & Hl & Hh).
  - apply ex_cached_ready. lia.
  - discriminate.
  - vm_compute. discriminate.
  - apply Nat.leb_le. reflexivity.
  - exact ex_caught_up_ok.
  - exists s'. rewrite Hv. split; [exact E|]. split; [exact Hl|exact Hh].
Defined.
