(* ===== verification/IndexerWorkers.v ===== *)
(** * The workers of the indexer side by side (src/indexer/indexer.go, Start)

    [Start] runs the indexing, the pruning and the health worker in goroutines
    that share the backend and the node.  Here each of them is cut into the
    steps between which the others can run: a worker's program counter holds
    its local variables, a step is one call on the backend or one group of
    calls on the node, and [wstep] interleaves the steps of the three workers
    with calls from elsewhere. *)
From S2P Require Import Prelude GoLib Model Sql Storage Psql Extern BlockModels EthViews StoreBlock IndexBackend Cache Source Indexer IndexerLoop.

Section Steps.
Context `{O : OasisLib} `{!Backend B} `{!NodeSource C}.
Notation svc := (Service (B:=B) (C:=C)).

(** *** The iteration of the indexing worker in parts *)

(** [indexBlock] up to and from the call of [Index]. *)
Definition fetchBlock (round : Z) : M svc (oheader * list TxWithResults) :=
  blk ← wrap "querying block" (on_client (ns_GetBlock round));
  s ← get_service;
  _ ← (if needEpoch s then queryEpoch round else mret tt);
  txs ← wrap "querying transactions with results" (on_client (ns_GetTransactionsWithResults (oh_Round blk)));
  mret (blk, txs).

Definition storeBlock (blk : oheader) (txs : list TxWithResults) : M svc unit :=
  s ← get_service;
  _ ← wrap "indexing block" (on_backend (bk_Index blk txs (sv_coreParameters s) (sv_rtInfo s)));
  modify (fun s => set_params s (nextQueryEpoch (sv_queryEpochParameters s) (oh_HeaderType blk))
    (sv_coreParameters s) (sv_rtInfo s)).

Lemma indexBlock_parts round s : indexBlock round s = (x ← fetchBlock round; storeBlock x.1 x.2) s.
Proof.
  unfold indexBlock, fetchBlock, storeBlock, mbind, M_bind, get_service.
  destruct (wrap "querying block" _ s) as [[blk|e] s1]; [|done].
  destruct ((if needEpoch s1 then queryEpoch round else mret tt) s1) as [[[]|e] s2]; [|done].
  by destruct (wrap "querying transactions with results" _ s2) as [[txs|e] s3].
Qed.

(** What an iteration decides before it indexes. *)
Inductive plan := NoRound | EndReached | Rounds (start latest : Z).

Definition plan_iteration : M svc plan :=
  start ← startAt;
  match start with
  | None => mret NoRound
  | Some start =>
      s ← get_service;
      if sv_indexingEnd s =? 0 then
        attempt (on_client (ns_GetBlock RoundLatest)) (fun r => match r with
          | Err _ => mret NoRound
          | Ok latestBlk => mret (Rounds start (oh_Round latestBlk))
          end)
      else if sv_indexingEnd s <? start then mret EndReached
      else mret (Rounds start (sv_indexingEnd s))
  end.

Lemma indexing_iteration_parts budget s : indexing_iteration budget s =
  (p ← plan_iteration; match p with
     | NoRound => mret false
     | EndReached => mret true
     | Rounds start latest => _ ← index_rounds budget start latest; mret false
     end) s.
Proof.
  unfold indexing_iteration, plan_iteration, mbind, M_bind, get_service, attempt.
  destruct (startAt s) as [[[start|]|e] s1]; [|done..]. destruct (sv_indexingEnd s1 =? 0).
  - by destruct (on_client (ns_GetBlock RoundLatest) s1) as [[h|e] s2].
  - by destruct (sv_indexingEnd s1 <? start).
Qed.

(** *** The program counters *)
Inductive ixpc :=
  | IxIdle
  | IxRound (round latest : Z)
  | IxStore (round latest : Z) (blk : oheader) (txs : list TxWithResults)
  | IxReturned (r : result unit).

Inductive prpc := PrIdle | PrPrune (round : Z).
Inductive hpc := HpIdle | HpNode (lastIndexed : Z).

(** [sy_first] is not in the program: it is the first round after the last gap
    that was left in the index. *)
Record system := mkSystem {
  sy_svc : svc;
  sy_ix : ixpc;
  sy_pr : prpc;
  sy_hp : hpc;
  sy_first : Z;
}.

Definition ix_next (p : plan) : ixpc :=
  match p with NoRound => IxIdle | EndReached => IxReturned (Ok tt) | Rounds start latest => IxRound start latest end.

Definition health_verdict (lastIndexed : Z) (r : result oheader) : bool :=
  match r with
  | Ok blk => (lastIndexed <=? oh_Round blk) && ((oh_Round blk - lastIndexed)%u64 <=? healthCheckIndexerDriftThreshold)
  | Err _ => false
  end.

Definition pr_next (s : svc) (r : result Z) : prpc :=
  match r with
  | Ok lastIndexed => if sv_pruningStep s <? lastIndexed then PrPrune (lastIndexed - sv_pruningStep s)%u64 else PrIdle
  | Err _ => PrIdle
  end.

Definition hp_next (r : result Z) : hpc := match r with Ok lastIndexed => HpNode lastIndexed | Err _ => HpIdle end.

(** The health flag after the first query: cleared when it failed. *)
Definition hp_flag (r : result Z) (s : svc) : svc := if is_Ok r then s else (updateHealth false s).2.

Inductive wstep `{!IndexerBackend B} : system -> system -> Prop :=
  (** the indexing worker *)
  | ws_plan s s' p pr hp first :
      plan_iteration s = (Ok p, s') ->
      wstep (mkSystem s IxIdle pr hp first)
        (mkSystem (match p with EndReached => (updateHealth true s').2 | _ => s' end) (ix_next p) pr hp first)
  | ws_leave s round latest pr hp first : latest < round ->
      wstep (mkSystem s (IxRound round latest) pr hp first) (mkSystem s IxIdle pr hp first)
  | ws_fetch s s' round latest blk txs pr hp first : round <= latest ->
      fetchBlock round s = (Ok (blk, txs), s') ->
      wstep (mkSystem s (IxRound round latest) pr hp first) (mkSystem s' (IxStore round latest blk txs) pr hp first)
  | ws_fetch_error s s' round latest e pr hp first : round <= latest ->
      fetchBlock round s = (Err e, s') ->
      wstep (mkSystem s (IxRound round latest) pr hp first) (mkSystem s' IxIdle pr hp first)
  | ws_store s s' round latest blk txs pr hp first :
      storeBlock blk txs s = (Ok tt, s') ->
      wstep (mkSystem s (IxStore round latest blk txs) pr hp first)
        (mkSystem s' (IxRound (round + 1)%u64 latest) pr hp
           (if round =? next_round (iv_view (sv_backend s)) then first else round))
  | ws_store_error s s' round latest blk txs e pr hp first :
      storeBlock blk txs s = (Err e, s') ->
      wstep (mkSystem s (IxStore round latest blk txs) pr hp first) (mkSystem s' IxIdle pr hp first)
  | ws_cancelled s pr hp first :
      wstep (mkSystem s IxIdle pr hp first) (mkSystem s (IxReturned (Err ctx_Err)) pr hp first)
  | ws_cancelled_loop s round latest pr hp first :
      wstep (mkSystem s (IxRound round latest) pr hp first) (mkSystem s IxIdle pr hp first)
  (** the pruning worker *)
  | ws_prune_query s s' r ix hp first : sv_enablePruning s = true ->
      on_backend bk_QueryLastIndexedRound s = (r, s') ->
      wstep (mkSystem s ix PrIdle hp first) (mkSystem s' ix (pr_next s' r) hp first)
  | ws_prune s s' r round ix hp first :
      on_backend (bk_Prune round) s = (r, s') ->
      wstep (mkSystem s ix (PrPrune round) hp first) (mkSystem s' ix PrIdle hp first)
  (** the health worker *)
  | ws_health_query s s' r ix pr first :
      on_backend bk_QueryLastIndexedRound s = (r, s') ->
      wstep (mkSystem s ix pr HpIdle first) (mkSystem (hp_flag r s') ix pr (hp_next r) first)
  | ws_health s s' r lastIndexed ix pr first :
      on_client (ns_GetBlock RoundLatest) s = (r, s') ->
      wstep (mkSystem s ix pr (HpNode lastIndexed) first)
        (mkSystem (updateHealth (health_verdict lastIndexed r) s').2 ix pr HpIdle first)
  (** queries from elsewhere, on the node and on the index *)
  | ws_node s c ix pr hp first :
      wstep (mkSystem s ix pr hp first) (mkSystem (set_client s c) ix pr hp first)
  | ws_read s b ix pr hp first : iv_ok b -> iv_view b = iv_view (sv_backend s) ->
      wstep (mkSystem s ix pr hp first) (mkSystem (set_backend s b) ix pr hp first).

(** The steps of an undisturbed worker are its iteration. *)
Lemma health_iteration_parts (s : svc) : (health_iteration s).2 =
  let '(r, s1) := on_backend bk_QueryLastIndexedRound s in
  match hp_next r with
  | HpIdle => hp_flag r s1
  | HpNode lastIndexed =>
      let '(rn, s2) := on_client (ns_GetBlock RoundLatest) s1 in
      (updateHealth (health_verdict lastIndexed rn) s2).2
  end.
Proof.
  unfold health_iteration, attempt. destruct (on_backend bk_QueryLastIndexedRound s) as [[l|e] s1]; [|done].
  cbn [hp_next]. destruct (on_client (ns_GetBlock RoundLatest) s1) as [[h|e] s2]; [|done].
  cbn [health_verdict]. by destruct (l <=? oh_Round h).
Qed.

Lemma pruning_iteration_parts (s : svc) : (pruning_iteration s).2 =
  let '(r, s1) := on_backend bk_QueryLastIndexedRound s in
  match pr_next s1 r with
  | PrIdle => s1
  | PrPrune round => (on_backend (bk_Prune round) s1).2
  end.
Proof.
  unfold pruning_iteration, attempt, pr_next. destruct (on_backend bk_QueryLastIndexedRound s) as [[l|e] s1]; [|done].
  unfold mbind, M_bind, get_service. destruct (sv_pruningStep s1 <? l); [|done].
  by destruct (on_backend (bk_Prune (l - sv_pruningStep s1)%u64) s1).
Qed.
End Steps.

(** ** The window of retained rounds *)
Section Window.
Context `{O : OasisLib} `{!Backend B} `{!IndexerBackend B} `{!NodeSource C} `{!NodeSourceLaws C}.
Notation svc := (Service (B:=B) (C:=C)).
Notation system := (system (B:=B) (C:=C)).

(** The configuration of a service, without its health. *)
Definition settings (s : svc) : bool * Z * Z * Z := (sv_enablePruning s, sv_pruningStep s, sv_indexingStart s, sv_indexingEnd s).

(** The configured start has been reached: nothing will be skipped any more. *)
Definition started (s : svc) : Prop := sv_indexingStart s <> 0 /\ sv_indexingStart s <= next_round (sv_tables s).

Definition settings_ok (s : svc) : Prop :=
  0 <= sv_pruningStep s /\ 0 <= sv_indexingStart s /\ sv_indexingEnd s < MaxUint64.

Definition range_ok (T : Tables) : Prop := forall l, last_indexed T = Some l -> 0 <= l < MaxUint64.

(** Every round from [first] on that is not older than [keep] rounds is stored. *)
Definition window (first keep : Z) (T : Tables) : Prop :=
  0 <= first /\ forall l n, last_indexed T = Some l -> Z.max first (l - keep) <= n <= l -> indexed T n.

(** A round the indexing worker is about to index. *)
Definition next_ok (s : svc) (round : Z) : Prop :=
  next_round (sv_tables s) <= round /\ (started s -> round = next_round (sv_tables s)).

Definition ix_ok (s : svc) (ix : ixpc) : Prop :=
  match ix with
  | IxRound round latest => next_ok s round /\ latest < MaxUint64
  | IxStore round latest blk _ => next_ok s round /\ round <= latest < MaxUint64 /\ oh_Round blk = round
  | _ => True
  end.

(** A round the pruning worker is about to prune is old enough, also if blocks
    have been indexed since it was computed. *)
Definition pr_ok (s : svc) (pr : prpc) : Prop :=
  match pr with
  | PrPrune round => exists l, last_indexed (sv_tables s) = Some l /\ round <= l - sv_pruningStep s
  | PrIdle => True
  end.

Record window_inv (sy : system) : Prop := {
  wi_ok : sv_ok (sy_svc sy);
  wi_settings : settings_ok (sy_svc sy);
  wi_range : range_ok (sv_tables (sy_svc sy));
  wi_window : window (sy_first sy) (sv_pruningStep (sy_svc sy)) (sv_tables (sy_svc sy));
  wi_ix : ix_ok (sy_svc sy) (sy_ix sy);
  wi_pr : pr_ok (sy_svc sy) (sy_pr sy);
}.

(** A step that leaves the tables and the settings alone keeps the invariant if
    the program counters stay good. *)
Definition reads (s s' : svc) : Prop := sv_ok s' /\ sv_tables s' = sv_tables s /\ settings s' = settings s.

Lemma reads_fields s s' : reads s s' -> sv_tables s' = sv_tables s /\ sv_pruningStep s' = sv_pruningStep s /\
  sv_indexingStart s' = sv_indexingStart s /\ sv_indexingEnd s' = sv_indexingEnd s.
Proof. unfold reads, settings. intros (_ & ? & ?). repeat split; congruence. Qed.

Lemma next_ok_reads s s' round : reads s s' -> next_ok s round -> next_ok s' round.
Proof. intros (HT & _ & Hs & _)%reads_fields. unfold next_ok, started. by rewrite HT, Hs. Qed.

Lemma ix_ok_reads s s' ix : reads s s' -> ix_ok s ix -> ix_ok s' ix.
Proof. intros Hr. destruct ix; cbn; [done| | |done]; intros [? ?]; split; by eauto using next_ok_reads. Qed.

Lemma pr_ok_reads s s' pr : reads s s' -> pr_ok s pr -> pr_ok s' pr.
Proof. intros (HT & Hp & _)%reads_fields. destruct pr; cbn; [done|]. by rewrite HT, Hp. Qed.

Lemma window_inv_reads s s' ix ix' pr pr' hp hp' first : reads s s' ->
  window_inv (mkSystem s ix pr hp first) -> (ix_ok s ix -> ix_ok s ix') -> (pr_ok s pr -> pr_ok s pr') ->
  window_inv (mkSystem s' ix' pr' hp' first).
Proof.
  intros Hr [Hok Hs Hrg Hw Hix Hpr] Hix' Hpr'. cbn [sy_svc sy_ix sy_pr sy_first] in *.
  destruct (reads_fields _ _ Hr) as (HT & Hp & Hst & He).
  split; cbn [sy_svc sy_ix sy_pr sy_first].
  - apply Hr.
  - unfold settings_ok. by rewrite Hp, Hst, He.
  - by rewrite HT.
  - by rewrite HT, Hp.
  - eapply ix_ok_reads; eauto.
  - eapply pr_ok_reads; eauto.
Qed.

(** *** Calls that only read *)
Lemma reads_refl s : sv_ok s -> reads s s.
Proof. done. Qed.

Lemma reads_client s0 {A} (m : M C A) : keeps (reads s0) (on_client m).
Proof. intros s (? & ? & ?). unfold on_client. by destruct (m (sv_client s)). Qed.

Lemma reads_last s0 : keeps (reads s0) (on_backend bk_QueryLastIndexedRound).
Proof.
  intros s (Hok & HT & Hs). destruct (iv_QueryLastIndexedRound (sv_backend s) Hok) as (b & E & Hok' & Hv).
  unfold on_backend. rewrite E. split; [done|]. split; [|done]. rewrite <- HT. exact Hv.
Qed.

Lemma reads_service s0 : keeps (reads s0) get_service.
Proof. by intros s. Qed.

Lemma reads_modify s0 q p i : keeps (reads s0) (modify (fun s => set_params s (q s) (p s) (i s))).
Proof. by intros s (? & ? & ?). Qed.

Lemma reads_wrap s0 {A} msg (m : M svc A) : keeps (reads s0) m -> keeps (reads s0) (wrap msg m).
Proof. intros Hm. unfold wrap. apply keeps_attempt; [done|]. intros [a|e]; auto with gateway. Qed.

#[local] Hint Resolve reads_client reads_last reads_service reads_modify reads_wrap : gateway.

Lemma reads_queryEpoch s0 round : keeps (reads s0) (queryEpoch round).
Proof.
  unfold queryEpoch. apply keeps_bind; [auto with gateway|]. intros p. apply keeps_bind; [apply (reads_modify s0 _ (fun _ => Some p))|].
  intros []. apply keeps_attempt; [auto with gateway|]. intros [i|e]; [apply (reads_modify s0 _ _ (fun _ => Some i))|].
  apply keeps_bind; [apply (reads_modify s0 _ _ (fun _ => None))|auto with gateway].
Qed.

Lemma reads_fetchBlock s0 round : keeps (reads s0) (fetchBlock round).
Proof.
  unfold fetchBlock. do 2 (apply keeps_bind; [auto with gateway|intros ?]).
  apply keeps_bind; [case_match; [apply reads_queryEpoch|auto with gateway]|]. intros _.
  apply keeps_bind; auto with gateway.
Qed.

Lemma reads_startAt s0 : keeps (reads s0) startAt.
Proof.
  unfold startAt. apply keeps_attempt; [auto with gateway|]. intros r. case_match; [|auto with gateway].
  apply keeps_bind; [auto with gateway|]. intros s.
  destruct (sv_indexingStart s =? 0); [|auto with gateway].
  apply keeps_attempt; [auto with gateway|]. intros [h|e]; auto with gateway.
Qed.

Lemma fetchBlock_round (s : svc) round blk txs s' : round <> RoundLatest ->
  fetchBlock round s = (Ok (blk, txs), s') -> oh_Round blk = round.
Proof.
  intros Hne. unfold fetchBlock, wrap, attempt, on_client, mbind, M_bind.
  destruct (ns_GetBlock round (sv_client s)) as [[h|e] c] eqn:E; [|done]. cbn.
  pose proof (ns_GetBlock_round _ _ _ _ Hne E) as Hr.
  destruct ((if needEpoch _ then queryEpoch round else mret tt) _) as [[[]|e] s2]; [|done].
  destruct (ns_GetTransactionsWithResults _ _) as [[l|e] c2]; [|done]. by intros [= <- <- <-].
Qed.

(** The round the indexing worker is at. *)
Definition ix_round (ix : ixpc) : option Z :=
  match ix with IxRound round _ | IxStore round _ _ _ => Some round | _ => None end.

Lemma plan_ok s p s' : sv_ok s -> settings_ok s -> range_ok (sv_tables s) -> plan_iteration s = (Ok p, s') ->
  reads s s' /\ ix_ok s (ix_next p) /\ (forall round, ix_round (ix_next p) = Some round -> (start_ref s).1 = Some round).
Proof.
  intros Hok (_ & Hst & Hend) Hrg. pose proof (reads_startAt s s (reads_refl s Hok)) as Hrd.
  destruct (startAt_spec s Hok Hrg) as (s1 & E & _ & _ & He & _).
  rewrite E in Hrd. cbn [snd] in Hrd. unfold plan_iteration. rewrite (M_bind_ok _ _ _ _ _ E).
  destruct (start_ref s).1 as [start|] eqn:Er; [|by intros [= <- <-]]. unfold mbind at 1, M_bind at 1, get_service at 1.
  assert (Hnext : next_ok s start).
  { split; [by apply start_ref_next|]. intros [Hne Hle]. unfold start_ref in Er.
    rewrite (proj2 (Z.eqb_neq _ _) Hne) in Er. injection Er as <-. lia. }
  destruct (sv_indexingEnd s1 =? 0) eqn:Ez.
  - unfold attempt. pose proof (reads_client s (ns_GetBlock RoundLatest) s1 Hrd) as Hrd2.
    unfold on_client in *. destruct (ns_GetBlock RoundLatest (sv_client s1)) as [[h|e] c] eqn:Eg; intros [= <- <-]; [|done].
    split; [exact Hrd2|]. split; [|by intros ? [= <-]]. split; [done|]. apply ns_GetBlock_range in Eg. lia.
  - destruct (sv_indexingEnd s1 <? start); intros [= <- <-]; (split; [done|]); [done|].
    split; [|by intros ? [= <-]]. split; [done|]. by rewrite He.
Qed.

(** *** Calls that change the index *)
Lemma storeBlock_effect s blk txs r s' : sv_ok s -> next_round (sv_tables s) <= oh_Round blk ->
  storeBlock blk txs s = (r, s') ->
  sv_ok s' /\ settings s' = settings s /\ index_effect (oh_Round blk) (sv_tables s) (sv_tables s') (is_Ok r).
Proof.
  intros Hok Hn. unfold storeBlock, mbind, M_bind, get_service, wrap, attempt, on_backend.
  destruct (bk_Index blk txs (sv_coreParameters s) (sv_rtInfo s) (sv_backend s)) as [r0 b] eqn:E.
  destruct (Index_effect _ _ _ _ _ _ _ Hok Hn E) as [Hok' Heff].
  destruct r0; intros [= <- <-]; done.
Qed.

Lemma window_store s s' round latest blk txs pr hp hp' first :
  window_inv (mkSystem s (IxStore round latest blk txs) pr hp first) ->
  storeBlock blk txs s = (Ok tt, s') ->
  window_inv (mkSystem s' (IxRound (round + 1)%u64 latest) pr hp'
    (if round =? next_round (sv_tables s) then first else round)).
Proof.
  intros [Hok Hs Hrg [Hf0 Hw] [[Hnx Hstd] [Hrl Hbr]] Hpr] E. cbn [sy_svc sy_ix sy_pr sy_first] in *.
  rewrite <- Hbr in Hnx. destruct (storeBlock_effect _ _ _ _ _ Hok Hnx E) as (Hok' & Hst & Hi & Hl & Hk).
  rewrite Hbr in Hnx, Hi, Hl. 
  assert (Hset : sv_pruningStep s' = sv_pruningStep s /\ sv_indexingStart s' = sv_indexingStart s /\
    sv_indexingEnd s' = sv_indexingEnd s) by (unfold settings in Hst; repeat split; congruence).
  destruct Hset as (Hp & Hst' & He). destruct Hs as (Hs1 & Hs2 & Hs3).
  assert (Hr0 : 0 <= next_round (sv_tables s)).
  { unfold next_round. destruct (last_indexed (sv_tables s)) as [l|] eqn:El; [|done]. specialize (Hrg l El). lia. }
  split; cbn [sy_svc sy_ix sy_pr sy_first].
  - done.
  - unfold settings_ok. rewrite Hp, Hst', He. done.
  - intros l. rewrite Hl. intros [= <-]. lia.
  - rewrite Hp. split; [destruct (round =? next_round _); lia|]. intros l n. rewrite Hl. intros [= <-] Hn.
    destruct (decide (n = round)) as [->|Hne]; [done|]. apply Hk.
    destruct (Z.eqb_spec round (next_round (sv_tables s))) as [Heq|]; [|lia].
    unfold next_round in Heq. destruct (last_indexed (sv_tables s)) as [l|] eqn:El; [|lia].
    apply (Hw l); [done|lia].
  - rewrite u64_small by (unfold is_u64, MaxUint64, two64 in *; lia). split; [|lia].
    assert (Hn' : next_round (sv_tables s') = round + 1) by (unfold next_round; by rewrite Hl).
    split; rewrite Hn'; [lia|done].
  - destruct pr as [|n]; [done|]. destruct Hpr as (l & Hl0 & Hn). exists round. split; [done|].
    rewrite Hp. unfold next_round in Hnx. rewrite Hl0 in Hnx. lia.
Qed.

Lemma window_prune s s' r round ix hp hp' first :
  window_inv (mkSystem s ix (PrPrune round) hp first) -> on_backend (bk_Prune round) s = (r, s') ->
  window_inv (mkSystem s' ix PrIdle hp' first).
Proof.
  intros [Hok Hs Hrg [Hf0 Hw] Hix (l & Hl & Hn)] E. cbn [sy_svc sy_ix sy_pr sy_first] in *.
  destruct (iv_Prune round (sv_backend s) Hok) as (b & Eb & Hok' & Hv).
  unfold on_backend in E. rewrite Eb in E. injection E as <- <-.
  destruct (prune_ref_spec round (sv_tables s)) as (Hrows & _ & Hc).
  assert (HT : sv_tables (set_backend s b) = prune_ref round (sv_tables s)) by exact Hv.
  assert (Hl' : last_indexed (sv_tables (set_backend s b)) = last_indexed (sv_tables s))
    by (unfold last_indexed; by rewrite HT, Hc).
  assert (Hnx : next_round (sv_tables (set_backend s b)) = next_round (sv_tables s))
    by (unfold next_round; by rewrite Hl').
  split; cbn [sy_svc sy_ix sy_pr sy_first]; try done.
  - intros l'. rewrite Hl'. apply Hrg.
  - split; [done|]. intros l' n. rewrite Hl', Hl. intros [= <-] Hin.
    destruct (Hw l n Hl Hin) as (k & blk & Hk & Hkn). exists k, blk. split; [|done]. rewrite HT.
    apply (Hrows TBlock k blk); [done|]. split; [done|]. change (round <= blk_Round blk). cbn in *. lia.
  - destruct ix; cbn in *; unfold next_ok, started in *; by rewrite ?Hnx.
Qed.

(** What every step keeps. *)
Definition step_ok (sy sy' : system) : Prop :=
  window_inv sy' /\ settings (sy_svc sy') = settings (sy_svc sy) /\
  (started (sy_svc sy) -> started (sy_svc sy') /\ sy_first sy' = sy_first sy).

Lemma reads_step s s' ix ix' pr pr' hp hp' first : reads s s' ->
  window_inv (mkSystem s ix pr hp first) -> (ix_ok s ix -> ix_ok s ix') -> (pr_ok s pr -> pr_ok s pr') ->
  step_ok (mkSystem s ix pr hp first) (mkSystem s' ix' pr' hp' first).
Proof.
  intros Hrd Hinv Hix Hpr. split; [by eapply window_inv_reads|]. cbn [sy_svc sy_first].
  destruct (reads_fields _ _ Hrd) as (HT & _ & Hst & _). split; [apply Hrd|].
  unfold started. rewrite HT, Hst. done.
Qed.

Lemma pr_next_ok s r s' : sv_ok s -> range_ok (sv_tables s) -> 0 <= sv_pruningStep s ->
  on_backend bk_QueryLastIndexedRound s = (r, s') -> pr_ok s (pr_next s' r).
Proof.
  intros Hok Hrg Hp E. destruct (iv_QueryLastIndexedRound (sv_backend s) Hok) as (b & Eb & _).
  unfold on_backend in E. rewrite Eb in E. injection E as <- <-. fold (sv_tables s).
  destruct (last_indexed (sv_tables s)) as [l|] eqn:El; [|done]. cbn [pr_next].
  change (sv_pruningStep (set_backend s b)) with (sv_pruningStep s).
  destruct (Z.ltb_spec (sv_pruningStep s) l); [|done]. exists l. specialize (Hrg l El).
  rewrite u64_small by (unfold is_u64, MaxUint64, two64 in *; lia). split; [done|lia].
Qed.

Lemma store_step s s' round latest blk txs pr hp first :
  window_inv (mkSystem s (IxStore round latest blk txs) pr hp first) -> storeBlock blk txs s = (Ok tt, s') ->
  step_ok (mkSystem s (IxStore round latest blk txs) pr hp first)
    (mkSystem s' (IxRound (round + 1)%u64 latest) pr hp (if round =? next_round (sv_tables s) then first else round)).
Proof.
  intros Hinv E. split; [by eapply window_store|]. cbn [sy_svc sy_first].
  destruct Hinv as [Hok _ _ _ [[Hnx Hstd] [_ Hbr]] _]. cbn [sy_svc sy_ix] in *.
  rewrite <- Hbr in Hnx. destruct (storeBlock_effect _ _ _ _ _ Hok Hnx E) as (_ & Hst & _ & Hl & _).
  split; [done|]. intros Hs. rewrite (Hstd Hs), Z.eqb_refl. split; [|done]. destruct Hs as [Hne Hle].
  assert (Hst' : sv_indexingStart s' = sv_indexingStart s) by (unfold settings in Hst; congruence).
  unfold started. rewrite Hst'. split; [done|]. unfold next_round at 1. rewrite Hl. lia.
Qed.

Lemma prune_step s s' r round ix hp first :
  window_inv (mkSystem s ix (PrPrune round) hp first) -> on_backend (bk_Prune round) s = (r, s') ->
  step_ok (mkSystem s ix (PrPrune round) hp first) (mkSystem s' ix PrIdle hp first).
Proof.
  intros Hinv E. split; [by eapply window_prune|]. cbn [sy_svc sy_first]. destruct Hinv as [Hok _ _ _ _ _].
  destruct (iv_Prune round (sv_backend s) Hok) as (b & Eb & _ & Hv). unfold on_backend in E. cbn [sy_svc] in *.
  rewrite Eb in E. injection E as <- <-. split; [done|]. unfold started, next_round, last_indexed, sv_tables.
  cbn [sv_backend set_backend]. rewrite Hv. by destruct (prune_ref_spec round (iv_view (sv_backend s))) as (_ & _ & ->).
Qed.

Lemma window_step sy sy' : wstep sy sy' -> window_inv sy -> step_ok sy sy'.
Proof.
  intros Hstep Hinv. pose proof (wi_ok _ Hinv) as Hok. pose proof (wi_settings _ Hinv) as Hset.
  pose proof (wi_range _ Hinv) as Hrg. pose proof (wi_ix _ Hinv) as Hix.
  destruct Hstep as [s s' p pr hp first E| | s s' round latest blk txs pr hp first Hle E
    |s s' round latest e pr hp first Hle E| |s s' round latest blk txs e pr hp first E| | |s s' r ix hp first _ E
    | |s s' r ix pr first E|s s' r l ix pr first E| |s b ix pr hp first Hb Hv];
    cbn [sy_svc sy_ix sy_pr sy_first] in *; try (by eapply store_step); try (by eapply prune_step);
    try (by eapply reads_step).
  - destruct (plan_ok _ _ _ Hok Hset Hrg E) as (Hrd & Hnx & _).
    eapply reads_step; [|exact Hinv|done|done]. by destruct p.
  - pose proof (reads_fetchBlock s round s (reads_refl s Hok)) as Hrd. rewrite E in Hrd.
    eapply reads_step; [exact Hrd|exact Hinv| |done]. intros [Hnx Hlat]. split; [done|]. split; [done|].
    eapply fetchBlock_round; [|exact E]. rewrite ns_RoundLatest. lia.
  - pose proof (reads_fetchBlock s round s (reads_refl s Hok)) as Hrd. rewrite E in Hrd.
    by eapply reads_step.
  - destruct Hix as [[Hnx _] [_ Hbr]]. rewrite <- Hbr in Hnx.
    destruct (storeBlock_effect _ _ _ _ _ Hok Hnx E) as (Hok' & Hst & HT). by eapply reads_step.
  - pose proof (reads_last s s (reads_refl s Hok)) as Hrd. rewrite E in Hrd.
    eapply reads_step; [exact Hrd|exact Hinv|done|]. intros _. eapply pr_next_ok; try done. apply Hset.
  - pose proof (reads_last s s (reads_refl s Hok)) as Hrd. rewrite E in Hrd.
    eapply reads_step; [|exact Hinv|done|done]. by destruct r.
  - pose proof (reads_client s (ns_GetBlock RoundLatest) s (reads_refl s Hok)) as Hrd. rewrite E in Hrd.
    by eapply reads_step.
Qed.

(** All workers idle, with an index that has no gap from [first] on. *)
Definition start_system (s : svc) (first : Z) : system := mkSystem s IxIdle PrIdle HpIdle first.

Lemma window_rtc sy sy' : rtc wstep sy sy' -> window_inv sy -> step_ok sy sy'.
Proof.
  induction 1 as [sy|sy1 sy2 sy3 Hs _ IH]; intros H0; [done|].
  destruct (window_step _ _ Hs H0) as (H1 & Hset & Hst). destruct (IH H1) as (H2 & Hset' & Hst').
  split; [done|]. split; [congruence|]. intros [H3 Hf]%Hst. destruct (Hst' H3). split; [done|congruence].
Qed.

(** ** The cause of a gap *)
(** A step does not change which round is next, nor the first round, and the round of
    the indexing worker is the old one or the start of a new iteration; or it stores
    the block of that round. *)
Definition step_rounds (sy sy' : system) : Prop :=
  (next_round (sv_tables (sy_svc sy')) = next_round (sv_tables (sy_svc sy)) /\ sy_first sy' = sy_first sy /\
   forall round, ix_round (sy_ix sy') = Some round ->
     ix_round (sy_ix sy) = Some round \/ (start_ref (sy_svc sy)).1 = Some round) \/
  (exists round, ix_round (sy_ix sy) = Some round /\ next_round (sv_tables (sy_svc sy')) = round + 1 /\
   ix_round (sy_ix sy') = Some (round + 1) /\
   sy_first sy' = if round =? next_round (sv_tables (sy_svc sy)) then sy_first sy else round).

Lemma reads_rounds s s' ix ix' pr pr' hp hp' first : reads s s' ->
  (forall round, ix_round ix' = Some round -> ix_round ix = Some round \/ (start_ref s).1 = Some round) ->
  step_rounds (mkSystem s ix pr hp first) (mkSystem s' ix' pr' hp' first).
Proof. intros (_ & HT & _) Hix. left. cbn [sy_svc sy_ix sy_first]. by rewrite HT. Qed.

Lemma store_rounds s s' round latest blk txs pr hp first :
  window_inv (mkSystem s (IxStore round latest blk txs) pr hp first) -> storeBlock blk txs s = (Ok tt, s') ->
  step_rounds (mkSystem s (IxStore round latest blk txs) pr hp first)
    (mkSystem s' (IxRound (round + 1)%u64 latest) pr hp (if round =? next_round (sv_tables s) then first else round)).
Proof.
  intros [Hok Hs Hrg _ [[Hnx _] [Hrl Hbr]] _] E. cbn [sy_svc sy_ix] in *. right. exists round. cbn [sy_svc sy_ix sy_first].
  assert (H0 : 0 <= next_round (sv_tables s)).
  { unfold next_round. destruct (last_indexed (sv_tables s)) as [l|] eqn:El; [|done]. specialize (Hrg l El). lia. }
  rewrite <- Hbr in Hnx. destruct (storeBlock_effect _ _ _ _ _ Hok Hnx E) as (_ & _ & _ & Hl & _).
  split; [done|]. split; [unfold next_round at 1; by rewrite Hl, Hbr|]. split; [|done]. cbn [ix_round].
  rewrite u64_small; [done|]. unfold is_u64, MaxUint64, two64 in *. lia.
Qed.

Lemma prune_rounds s s' r round ix hp first :
  window_inv (mkSystem s ix (PrPrune round) hp first) -> on_backend (bk_Prune round) s = (r, s') ->
  step_rounds (mkSystem s ix (PrPrune round) hp first) (mkSystem s' ix PrIdle hp first).
Proof.
  intros [Hok _ _ _ _ _] E. cbn [sy_svc] in *. left. cbn [sy_svc sy_ix sy_first].
  destruct (iv_Prune round (sv_backend s) Hok) as (b & Eb & _ & Hv). unfold on_backend in E.
  rewrite Eb in E. injection E as <- <-. split; [|by split; [|left]].
  unfold next_round, last_indexed, sv_tables. cbn [sv_backend set_backend]. rewrite Hv.
  by destruct (prune_ref_spec round (iv_view (sv_backend s))) as (_ & _ & ->).
Qed.

Lemma wstep_rounds sy sy' : wstep sy sy' -> window_inv sy -> step_rounds sy sy'.
Proof.
  intros Hstep Hinv. pose proof (wi_ok _ Hinv) as Hok. pose proof (wi_settings _ Hinv) as Hset.
  pose proof (wi_range _ Hinv) as Hrg. pose proof (wi_ix _ Hinv) as Hix.
  destruct Hstep as [s s' p pr hp first E| | s s' round latest blk txs pr hp first Hle E
    |s s' round latest e pr hp first Hle E| |s s' round latest blk txs e pr hp first E| | |s s' r ix hp first _ E
    | |s s' r ix pr first E|s s' r l ix pr first E| |s b ix pr hp first Hb Hv];
    cbn [sy_svc sy_ix sy_pr sy_first] in *; try (by eapply store_rounds); try (by eapply prune_rounds);
    try (apply reads_rounds; [by apply reads_refl|by left]); try (apply reads_rounds; [by apply reads_refl|done]).
  - destruct (plan_ok _ _ _ Hok Hset Hrg E) as (Hrd & _ & Hst). apply reads_rounds; [by destruct p|].
    intros round Hround. right. by apply Hst.
  - pose proof (reads_fetchBlock s round s (reads_refl s Hok)) as Hrd. rewrite E in Hrd.
    apply reads_rounds; [exact Hrd|]. by left.
  - pose proof (reads_fetchBlock s round s (reads_refl s Hok)) as Hrd. rewrite E in Hrd. by apply reads_rounds.
  - destruct Hix as [[Hnx _] [_ Hbr]]. rewrite <- Hbr in Hnx.
    destruct (storeBlock_effect _ _ _ _ _ Hok Hnx E) as (Hok' & Hst & HT). by apply reads_rounds.
  - pose proof (reads_last s s (reads_refl s Hok)) as Hrd. rewrite E in Hrd. apply reads_rounds; [exact Hrd|by left].
  - pose proof (reads_last s s (reads_refl s Hok)) as Hrd. rewrite E in Hrd. apply reads_rounds; [by destruct r|by left].
  - pose proof (reads_client s (ns_GetBlock RoundLatest) s (reads_refl s Hok)) as Hrd. rewrite E in Hrd.
    apply reads_rounds; [exact Hrd|by left].
  - apply reads_rounds; [done|by left].
  - apply reads_rounds; [done|by left].
Qed.

(** Why rounds before [round] are missing: no start is configured and the node reports
    [round] as the last round it has retained, or [round] is the configured start. *)
Definition gap_cause (s : svc) (round : Z) : Prop :=
  (sv_indexingStart s = 0 /\ exists h c, ns_GetLastRetainedBlock (sv_client s) = (Ok h, c) /\ oh_Round h = round) \/
  (sv_indexingStart s <> 0 /\ sv_indexingStart s = round).

(** A gap before [round] was left in a run from [sy0] to [sy]: at some moment of the
    run the next round was an earlier one and there was a cause to go on at [round]. *)
Definition gap (sy0 sy : system) (round : Z) : Prop :=
  exists sy1, rtc wstep sy0 sy1 /\ rtc wstep sy1 sy /\
    next_round (sv_tables (sy_svc sy1)) < round /\ gap_cause (sy_svc sy1) round.

Lemma start_ref_cause (s : svc) round : (start_ref s).1 = Some round ->
  round = next_round (sv_tables s) \/ (next_round (sv_tables s) < round /\ gap_cause s round).
Proof.
  unfold start_ref, gap_cause. destruct (Z.eqb_spec (sv_indexingStart s) 0) as [Hz|Hz].
  - destruct (ns_GetLastRetainedBlock (sv_client s)) as [[h|e] c] eqn:E; [|done]. intros [= <-].
    destruct (Z.max_spec (next_round (sv_tables s)) (oh_Round h)) as [[Hlt ->]|[_ ->]]; [right|by left].
    split; [done|]. left. split; [done|]. by exists h, c.
  - intros [= <-]. destruct (Z.max_spec (next_round (sv_tables s)) (sv_indexingStart s)) as [[Hlt ->]|[_ ->]]; [right|by left].
    split; [done|]. by right.
Qed.

Lemma gap_step sy0 sy sy' round : gap sy0 sy round -> wstep sy sy' -> gap sy0 sy' round.
Proof. intros (sy1 & H1 & H2 & H3) Hs. exists sy1. split; [done|]. split; [by eapply rtc_r|done]. Qed.

Definition gap_inv (sy0 sy : system) : Prop :=
  (forall round, ix_round (sy_ix sy) = Some round ->
     round = next_round (sv_tables (sy_svc sy)) \/ gap sy0 sy round) /\
  (sy_first sy = sy_first sy0 \/ gap sy0 sy (sy_first sy)).

Lemma gap_inv_step sy0 sy sy' : rtc wstep sy0 sy -> wstep sy sy' -> window_inv sy -> gap_inv sy0 sy -> gap_inv sy0 sy'.
Proof.
  intros Hr Hs Hw [Hix Hf]. destruct (wstep_rounds _ _ Hs Hw) as [(Hn & Hfirst & Hround)|(round & Hround & Hn & Hix' & Hfirst)].
  - split.
    + intros round [Ho|Ho]%Hround.
      * destruct (Hix round Ho) as [->|Hg]; [left; by rewrite Hn|right; by eapply gap_step].
      * destruct (start_ref_cause _ _ Ho) as [->|[Hlt Hc]]; [left; by rewrite Hn|right].
        exists sy. split; [done|]. split; [by apply rtc_once|done].
    + rewrite Hfirst. destruct Hf as [?|Hg]; [by left|right; by eapply gap_step].
  - split.
    + intros r. rewrite Hix'. intros [= <-]. by left.
    + rewrite Hfirst. destruct (Z.eqb_spec round (next_round (sv_tables (sy_svc sy)))) as [_|Hne].
      * destruct Hf as [?|Hg]; [by left|right; by eapply gap_step].
      * right. destruct (Hix round Hround) as [?|Hg]; [done|by eapply gap_step].
Qed.

Lemma gap_inv_rtc sy0 sy : window_inv sy0 -> sy_ix sy0 = IxIdle -> rtc wstep sy0 sy -> gap_inv sy0 sy.
Proof.
  intros Hw Hidle. revert sy. apply rtc_ind_r.
  - split; [by rewrite Hidle|by left].
  - intros sy sy' Hr Hs IH. eapply gap_inv_step; [done|done| |done]. by apply (window_rtc sy0).
Qed.

(** C4: The workers do not disturb each other: whatever way the steps of the
    indexing, pruning and health workers and the queries of the rest of the
    program interleave on a healthy database, and whatever the node answers,
    every round from [sy_first] up to the last indexed one that is at most
    [pruningStep] rounds old is stored.  [sy_first] is the first round it was at the
    start, or a gap was left before it, for a reason: at some moment of the run
    the next round to index was an earlier one, and either no start is configured and
    the node reported [sy_first] as the last round it has retained, or [sy_first] is
    the configured start.  Once the configured start is reached no gap is left. *)
Theorem workers_keep_window s first sy : sv_ok s -> settings_ok s -> range_ok (sv_tables s) ->
  window first (sv_pruningStep s) (sv_tables s) -> rtc wstep (start_system s first) sy ->
  (forall l n, last_indexed (sv_tables (sy_svc sy)) = Some l ->
     Z.max (sy_first sy) (l - sv_pruningStep s) <= n <= l -> indexed (sv_tables (sy_svc sy)) n) /\
  (sy_first sy = first \/ exists sy1, rtc wstep (start_system s first) sy1 /\ rtc wstep sy1 sy /\
     next_round (sv_tables (sy_svc sy1)) < sy_first sy /\ gap_cause (sy_svc sy1) (sy_first sy)) /\
  (started s -> sy_first sy = first).
Proof.
  intros Hok Hset Hrg Hw Hrtc. assert (Hinv0 : window_inv (start_system s first)) by (by split).
  destruct (window_rtc _ _ Hrtc Hinv0) as (Hinv & Hs & Hst).
  split; [|split; [apply (gap_inv_rtc _ _ Hinv0 eq_refl Hrtc)|intros ?%Hst; tauto]]. destruct Hinv as [_ _ _ [_ Hwin] _ _].
  assert (Hp : sv_pruningStep (sy_svc sy) = sv_pruningStep s) by (unfold settings in Hs; cbn in Hs; congruence).
  rewrite Hp in Hwin. exact Hwin.
Qed.
End Window.

(** ** Running a schedule *)
Section Schedule.
Context `{O : OasisLib} `{!Backend B} `{!IndexerBackend B} `{!NodeSource C}.
Notation system := (system (B:=B) (C:=C)).

(** The worker that runs next. *)
Inductive worker := WIndex | WPrune | WHealth.

Definition exec_step (w : worker) (sy : system) : option system :=
  let '(mkSystem s ix pr hp first) := sy in
  match w with
  | WIndex =>
      match ix with
      | IxIdle => match plan_iteration s with
          | (Ok p, s') => Some (mkSystem (match p with EndReached => (updateHealth true s').2 | _ => s' end) (ix_next p) pr hp first)
          | (Err _, _) => None
          end
      | IxRound round latest =>
          if latest <? round then Some (mkSystem s IxIdle pr hp first)
          else match fetchBlock round s with
               | (Ok (blk, txs), s') => Some (mkSystem s' (IxStore round latest blk txs) pr hp first)
               | (Err _, s') => Some (mkSystem s' IxIdle pr hp first)
               end
      | IxStore round latest blk txs => match storeBlock blk txs s with
          | (Ok _, s') => Some (mkSystem s' (IxRound (round + 1)%u64 latest) pr hp
              (if round =? next_round (iv_view (sv_backend s)) then first else round))
          | (Err _, s') => Some (mkSystem s' IxIdle pr hp first)
          end
      | IxReturned _ => None
      end
  | WPrune =>
      match pr with
      | PrIdle => if sv_enablePruning s then
            let '(r, s') := on_backend bk_QueryLastIndexedRound s in Some (mkSystem s' ix (pr_next s' r) hp first)
          else None
      | PrPrune round => Some (mkSystem (on_backend (bk_Prune round) s).2 ix PrIdle hp first)
      end
  | WHealth =>
      match hp with
      | HpIdle => let '(r, s') := on_backend bk_QueryLastIndexedRound s in Some (mkSystem (hp_flag r s') ix pr (hp_next r) first)
      | HpNode l => let '(r, s') := on_client (ns_GetBlock RoundLatest) s in
          Some (mkSystem (updateHealth (health_verdict l r) s').2 ix pr HpIdle first)
      end
  end.

Fixpoint exec (ws : list worker) (sy : system) : option system :=
  match ws with [] => Some sy | w :: ws' => exec_step w sy ≫= exec ws' end.

Lemma exec_step_sound w sy sy' : exec_step w sy = Some sy' -> wstep sy sy'.
Proof.
  destruct sy as [s ix pr hp first], w; cbn [exec_step].
  - destruct ix as [|round latest|round latest blk txs|]; [| | |done].
    + destruct (plan_iteration s) as [[p|e] s'] eqn:E; [|done]. intros [= <-]. by constructor.
    + destruct (Z.ltb_spec latest round); [intros [= <-]; by constructor|].
      destruct (fetchBlock round s) as [[[blk txs]|e] s'] eqn:E; intros [= <-]; by econstructor.
    + destruct (storeBlock blk txs s) as [[[]|e] s'] eqn:E; intros [= <-]; by econstructor.
  - destruct pr as [|round].
    + destruct (sv_enablePruning s) eqn:Ep; [|done].
      destruct (on_backend bk_QueryLastIndexedRound s) as [r s'] eqn:E. intros [= <-]. by constructor.
    + destruct (on_backend (bk_Prune round) s) as [r s'] eqn:E. intros [= <-]. by econstructor.
  - destruct hp as [|l].
    + destruct (on_backend bk_QueryLastIndexedRound s) as [r s'] eqn:E. intros [= <-]. by constructor.
    + destruct (on_client (ns_GetBlock RoundLatest) s) as [r s'] eqn:E. intros [= <-]. by constructor.
Qed.

Lemma exec_sound ws : forall sy sy', exec ws sy = Some sy' -> rtc wstep sy sy'.
Proof.
  induction ws as [|w ws IH]; intros sy sy'; cbn [exec]; [by intros [= <-]|].
  intros (sy1 & H1 & H2)%bind_Some. eapply rtc_l; [by eapply exec_step_sound|by apply IH].
Qed.
End Schedule.

(** ** Witness: a block is indexed between the query of the pruning worker and its pruning *)
Definition ex_sys_service : Service (B:=CachingBackend (B:=indexBackend (D:=MemDB))) (C:=ExNode) :=
  mkService true 1 0 0 false (ex_stack []) (mkExNode 3) false None None 0.

Definition ex_schedule : list worker :=
  [WIndex; WIndex; WIndex; WIndex; WHealth; WIndex; WIndex; WIndex; WPrune; WIndex; WIndex; WPrune; WHealth].

Definition ex_final : option system := exec ex_schedule (start_system ex_sys_service 0).

Lemma ex_final_last : (fun sy => (last_indexed (sv_tables (sy_svc sy)), sy_first sy, sv_health (sy_svc sy))) <$> ex_final
  = Some (Some 3, 0, 1).
Proof. vm_compute. reflexivity. Qed.

Lemma workers_keep_window_witness : exists sy, ex_final = Some sy /\
  last_indexed (sv_tables (sy_svc sy)) = Some 3 /\ indexed (sv_tables (sy_svc sy)) 2.
Proof.
  destruct ex_final as [sy|] eqn:E.
  2: { exfalso. assert (Hn : is_Some ex_final) by (pose proof ex_final_last as Hl; apply fmap_Some in Hl as (x & -> & _); eauto).
       rewrite E in Hn. by destruct Hn. }
  pose proof ex_final_last as Hl. rewrite E in Hl. injection Hl as Hlast Hf Hh.
  exists sy. split; [reflexivity|]. split; [exact Hlast|].
  destruct (workers_keep_window ex_sys_service 0 sy) as [Hw _].
  - apply cb_ok_new. split; [constructor|apply empty_tables_wf].
  - split; [cbn; lia|]. split; [cbn; lia|reflexivity].
  - intros l. discriminate.
  - split; [lia|]. intros l n. discriminate.
  - exact (exec_sound _ _ _ E).
  - apply (Hw 3 2 Hlast). rewrite Hf. cbn. lia.
Defined.
