(* ===== verification/Archive.v ===== *)
(** * The archive node client (src/archive/client.go)

    Historical queries are forwarded to another web3 gateway through
    go-ethereum's [ethclient], which is a parameter ([EthClient]).
    [TransactionArgs] is the request type of src/rpc/utils/types.go. *)
From S2P Require Import Prelude GoLib Model Extern.

Section Archive.
Context `{E : EthLib}.

Record TransactionArgs := mkTransactionArgs {
  ta_From : option eaddr;
  ta_To : option eaddr;
  ta_Gas : option Z;
  ta_GasPrice : option Z;
  ta_MaxFeePerGas : option Z;
  ta_MaxPriorityFeePerGas : option Z;
  ta_Value : option Z;
  ta_Nonce : option Z;
  ta_Data : option (list byte);
  ta_Input : option (list byte);
  ta_AccessList : option (list (eaddr * list ehash));
  ta_ChainID : option Z;
}.

(** [ethereum.CallMsg] *)
Record CallMsg := mkCallMsg {
  cm_From : eaddr;
  cm_To : option eaddr;
  cm_Gas : Z;
  cm_GasPrice : option Z;
  cm_GasFeeCap : option Z;
  cm_GasTipCap : option Z;
  cm_Value : option Z;
  cm_Data : list byte;
  cm_AccessList : list (eaddr * list ehash);
}.

(** [ethclient.Client] *)
Class EthClient (A : Type) := {
  ec_DialContext : string -> result A;
  ec_BlockNumber : M A Z;
  ec_StorageAt : eaddr -> ehash -> Z -> M A (list byte);
  ec_BalanceAt : eaddr -> Z -> M A Z;
  ec_NonceAt : eaddr -> Z -> M A Z;
  ec_CodeAt : eaddr -> Z -> M A (list byte);
  ec_CallContract : CallMsg -> Z -> M A (list byte);
}.

Context `{!EthClient A}.

(** [archive.Client]; [inner] is nil after [Close]. *)
Record Client := mkClient {
  ac_inner : option A;
  ac_latestBlock : Z;
}.

Definition LatestBlock (c : Client) : Z := ac_latestBlock c.

(** A call on [c.inner], its error wrapped; a nil client panics. *)
Definition on_inner_client {X} (msg : string) (m : M A X) : M Client X := fun c =>
  match ac_inner c with
  | None => (Err ErrPanic, c)
  | Some a =>
      let '(r, a') := m a in
      (match r with Ok x => Ok x | Err e => Err (ErrWrap msg e) end, mkClient (Some a') (ac_latestBlock c))
  end.

Definition Client_GetStorageAt (address : eaddr) (slot : ehash) (blockNr : Z) : M Client (list byte) :=
  on_inner_client "archive: failed to query storage" (ec_StorageAt address slot blockNr).

Definition Client_GetBalance (address : eaddr) (blockNr : Z) : M Client Z :=
  on_inner_client "archive: failed to query balance" (ec_BalanceAt address blockNr).

Definition Client_GetTransactionCount (address : eaddr) (blockNr : Z) : M Client Z :=
  on_inner_client "archive: failed to query nonce" (ec_NonceAt address blockNr).

Definition Client_GetCode (address : eaddr) (blockNr : Z) : M Client (list byte) :=
  on_inner_client "archive: failed to query code" (ec_CodeAt address blockNr).

(** The message of [Call] for a sender [from]. *)
Definition callMsg (from : eaddr) (args : TransactionArgs) : CallMsg :=
  mkCallMsg from (ta_To args) (default 0 (ta_Gas args)) (ta_GasPrice args) (ta_MaxFeePerGas args)
    (ta_MaxPriorityFeePerGas args) (ta_Value args)
    (match ta_Input args with
     | Some input => input
     | None => default [] (ta_Data args)
     end)
    (default [] (ta_AccessList args)).

Definition Client_Call (args : TransactionArgs) (blockNr : Z) : M Client (list byte) :=
  match ta_From args with
  | None => fail (ErrNew "archive: no `from` in call")
  | Some from => on_inner_client "archive: failed to call contract" (ec_CallContract (callMsg from args) blockNr)
  end.

(** [Close]; closing twice panics. *)
Definition Client_Close : M Client unit := fun c =>
  match ac_inner c with
  | None => (Err ErrPanic, c)
  | Some a => (Ok tt, mkClient None (ac_latestBlock c))
  end.

Definition archive_New (uri : string) (heightMax : Z) : result Client :=
  match ec_DialContext uri with
  | Err e => Err (ErrWrap "archive: failed to dial archival web3 node" e)
  | Ok c =>
      if heightMax =? 0 then
        match ec_BlockNumber c with
        | (Ok latestBlock, c') => Ok (mkClient (Some c') latestBlock)
        | (Err e, _) => Err (ErrWrap "archive: failed to query block number" e)
        end
      else Ok (mkClient (Some c) heightMax)
  end.
End Archive.
#[global] Arguments Client : clear implicits.

(** A client for witnesses: it counts the calls it answers. *)
#[export] Instance ex_EthClient : EthClient (E:=ex_EthLib) nat := {|
  ec_DialContext uri := if bool_decide (uri = ""%string) then Err (ErrNew "dial") else Ok 0%nat;
  ec_BlockNumber n := (Ok 100, S n);
  ec_StorageAt _ _ _ n := (Ok [Byte.x01], S n);
  ec_BalanceAt _ _ n := (Ok 77, S n);
  ec_NonceAt _ _ n := (Ok 3, S n);
  ec_CodeAt _ _ n := (Ok [Byte.x60], S n);
  ec_CallContract m _ n := (Ok (cm_Data m), S n);
|}.
