(* ===== verification/EthApi.v ===== *)
(** * The eth_ JSON-RPC methods that query the index and the state (src/rpc/eth/api.go)

    [publicAPI] has the state of the API object: the node, the archive client,
    the index backend and the gas price oracle.  Every method is a function on
    that state; a nil result is [None].  Logging is left out.  The methods that
    simulate or submit transactions are in EthCall. *)
From Stdlib Require Import Ascii.
From S2P Require Import Prelude GoLib Model Gas FeeHistory Sql Storage Psql Extern BlockModels EthViews StoreBlock IndexBackend Source Archive.

Section EthApi.
Context `{O : OasisLib} `{!Backend B} `{!NodeSource C} `{!EthClient A} `{R : EthRpc}.

(** [conf.MethodLimits] *)
Record MethodLimits := mkMethodLimits { GetLogsMaxRounds : Z }.

Record publicAPI := mkPublicAPI {
  api_source : C;
  api_archiveClient : option (Client A);
  api_backend : B;
  api_gasPriceOracle : gasPriceOracle;
  api_chainID : Z;
  api_methodLimits : option MethodLimits;
}.

(** [NewPublicAPI] *)
Definition NewPublicAPI (source : C) (archiveClient : option (Client A)) (chainID : Z) (backend : B)
    (oracle : gasPriceOracle) (methodLimits : option MethodLimits) : publicAPI :=
  mkPublicAPI source archiveClient backend oracle chainID methodLimits.

Definition api_on_source {X} (m : M C X) : M publicAPI X := fun api =>
  let '(r, c) := m (api_source api) in
  (r, mkPublicAPI c (api_archiveClient api) (api_backend api) (api_gasPriceOracle api)
        (api_chainID api) (api_methodLimits api)).

Definition api_on_backend {X} (m : M B X) : M publicAPI X := fun api =>
  let '(r, b) := m (api_backend api) in
  (r, mkPublicAPI (api_source api) (api_archiveClient api) b (api_gasPriceOracle api)
        (api_chainID api) (api_methodLimits api)).

(** A call on the archive client; a nil client panics. *)
Definition on_archive {X} (m : M (Client A) X) : M publicAPI X := fun api =>
  match api_archiveClient api with
  | None => (Err ErrPanic, api)
  | Some cl =>
      let '(r, cl') := m cl in
      (r, mkPublicAPI (api_source api) (Some cl') (api_backend api) (api_gasPriceOracle api)
            (api_chainID api) (api_methodLimits api))
  end.

Definition get_api : M publicAPI publicAPI := fun api => (Ok api, api).
Definition lift {X} (r : result X) : M publicAPI X := fun api => (r, api).

(** [m(); if err != nil { return zero, f(err) }] where [f] may return nil. *)
Definition or_return {X Y} (m : M publicAPI X) (zero : Y) (f : error -> option error)
    (k : X -> M publicAPI Y) : M publicAPI Y :=
  attempt m (fun r => match r with
    | Ok x => k x
    | Err e => match f e with Some e' => fail e' | None => mret zero end
    end).

Definition handleStorageError (err : error) : option error :=
  if errors_Is err ErrNoRows then None else Some ErrInternalError.

Definition internal (err : error) : option error := Some ErrInternalError.

Definition shouldQueryArchive (n : Z) (api : publicAPI) : bool :=
  match api_archiveClient api with
  | None => false
  | Some cl => n <=? LatestBlock cl
  end.

Definition roundParamFromBlockNum (blockNum : Z) : M publicAPI Z :=
  if blockNum =? PendingBlockNumber then mret RoundLatest
  else if blockNum =? LatestBlockNumber then mret RoundLatest
  else if blockNum =? EarliestBlockNumber then
    or_return (api_on_source ns_GetLastRetainedBlock) 0 internal (fun clrBlk =>
    or_return (api_on_backend bk_QueryLastRetainedRound) 0 internal (fun ilrRound =>
    mret (Z.max (oh_Round clrBlk) ilrRound)))
  else if blockNum <? 0 then fail ErrMalformedBlockNumber
  else mret blockNum.

(** ** Blocks and transactions *)
Definition api_GetBlockByNumber (blockNum : Z) (fullTx : bool) : M publicAPI (option RPCBlock) :=
  round ← roundParamFromBlockNum blockNum;
  or_return (api_on_backend (bk_GetBlockByRound round)) None handleStorageError (fun blk =>
  b ← lift (ConvertToEthBlock blk fullTx); mret (Some b)).

Definition api_GetBlockTransactionCountByNumber (blockNum : Z) : M publicAPI Z :=
  round ← roundParamFromBlockNum blockNum;
  or_return (api_on_backend (bk_GetBlockTransactionCountByRound round)) 0 handleStorageError mret.

Definition api_GetBlockTransactionCountByHash (blockHash : ehash) : M publicAPI Z :=
  or_return (api_on_backend (bk_GetBlockTransactionCountByHash blockHash)) 0 handleStorageError mret.

Definition api_GetBlockByHash (blockHash : ehash) (fullTx : bool) : M publicAPI (option RPCBlock) :=
  or_return (api_on_backend (bk_GetBlockByHash blockHash)) None handleStorageError (fun blk =>
  b ← lift (ConvertToEthBlock blk fullTx); mret (Some b)).

Definition api_GetTransactionByHash (hash : ehash) : M publicAPI (option RPCTransaction) :=
  or_return (api_on_backend (bk_QueryTransaction hash)) None handleStorageError (fun dbTx =>
  mret (Some (NewRPCTransaction dbTx))).

Definition api_GetTransactionByBlockHashAndIndex (blockHash : ehash) (idx : Z)
    : M publicAPI (option RPCTransaction) :=
  or_return (api_on_backend (bk_GetBlockByHash blockHash)) None handleStorageError (fun dbBlock =>
  if Z.of_nat (length (blk_Transactions dbBlock)) <=? idx then fail ErrIndexOutOfRange
  else tx ← lift (index (blk_Transactions dbBlock) (Z.to_nat idx)); mret (Some (NewRPCTransaction tx))).

Definition api_GetTransactionByBlockNumberAndIndex (blockNum idx : Z)
    : M publicAPI (option RPCTransaction) :=
  round ← roundParamFromBlockNum blockNum;
  or_return (api_on_backend (bk_QueryBlockHash round)) None handleStorageError (fun blockHash =>
  api_GetTransactionByBlockHashAndIndex blockHash idx).

Definition api_GetTransactionReceipt (txHash : ehash) : M publicAPI (option RPCReceipt) :=
  or_return (api_on_backend (bk_GetTransactionReceipt txHash)) None handleStorageError (fun receipt =>
  mret (Some receipt)).

Definition api_GetBlockHash (blockNum : Z) : M publicAPI ehash :=
  round ← roundParamFromBlockNum blockNum;
  api_on_backend (bk_QueryBlockHash round).

Definition api_BlockNumber : M publicAPI Z :=
  or_return (api_on_backend bk_BlockNumber) 0 internal mret.

(** ** Logs *)

(** [filters.FilterCriteria] *)
Record FilterCriteria := mkFilterCriteria {
  fc_BlockHash : option ehash;
  fc_FromBlock : option Z;
  fc_ToBlock : option Z;
  fc_Addresses : list eaddr;
  fc_Topics : list (list ehash);
}.

Definition resolveLatest (round : Z) : M publicAPI Z :=
  if round =? RoundLatest then api_on_backend bk_BlockNumber else mret round.

Definition getStartEndRounds (filter : FilterCriteria) : M publicAPI (Z * Z) :=
  match fc_BlockHash filter with
  | Some hash =>
      or_return (api_on_backend (bk_QueryBlockRound hash)) (0, 0)
        (fun e => Some (ErrWrap "query block round" e)) (fun round => mret (round, round))
  | None =>
      start ← roundParamFromBlockNum (match fc_FromBlock filter with
        | Some n => big_Int64 n
        | None => EarliestBlockNumber
        end);
      end_ ← (match fc_ToBlock filter with
        | Some n => roundParamFromBlockNum (big_Int64 n)
        | None => mret RoundLatest
        end);
      start ← resolveLatest start;
      end_ ← resolveLatest end_;
      mret (start, end_)
  end.

(** The tests of the loop over the logs. *)
Definition addressMatch (filter : FilterCriteria) (log : EthLog) : bool :=
  (length (fc_Addresses filter) =? 0)%nat ||
  existsb (fun addr => bool_decide (addr = el_Address log)) (fc_Addresses filter).

Fixpoint filter_loop (filter : FilterCriteria) (ethLogs filtered : list EthLog) : list EthLog :=
  match ethLogs with
  | [] => filtered
  | log :: rest =>
      if negb (addressMatch filter log) then filter_loop filter rest filtered
      else if negb (TopicsMatch log (fc_Topics filter)) then filter_loop filter rest filtered
      else filter_loop filter rest (filtered ++ [log])
  end.

(** The limit on the rounds of a query. *)
Definition over_limit (limits : option MethodLimits) (start end_ : Z) : bool :=
  match limits with
  | None => false
  | Some l => negb (GetLogsMaxRounds l =? 0) && (GetLogsMaxRounds l <? (end_ - start)%u64)
  end.

Definition api_GetLogs (filter : FilterCriteria) : M publicAPI (list EthLog) :=
  or_return (getStartEndRounds filter) []
    (fun e => Some (ErrWrap "error getting start and end rounds" e)) (fun '(start, end_) =>
  if end_ <? start then fail (ErrWrap "end round greater than start round" ErrInvalidRequest) else
  api ← get_api;
  if over_limit (api_methodLimits api) start end_
  then fail (ErrWrap "max allowed of rounds in logs query" ErrInvalidRequest) else
  or_return (api_on_backend (bk_GetLogs start end_)) [] internal (fun dbLogs =>
  let ethLogs := DB2EthLogs dbLogs in
  if (length (fc_Addresses filter) =? 0)%nat && (length (fc_Topics filter) =? 0)%nat then mret ethLogs
  else mret (filter_loop filter ethLogs []))).

(** ** The state of accounts *)

(** [ethrpc.BlockNumberOrHash] *)
Record BlockNumberOrHash := mkBlockNumberOrHash {
  bn_BlockNumber : option Z;
  bn_BlockHash : option ehash;
}.

Definition getBlockRound (b : BlockNumberOrHash) : M publicAPI Z :=
  match bn_BlockHash b, bn_BlockNumber b with
  | None, None => fail (ErrNew "types BlockHash and BlockNumber cannot be both nil")
  | Some hash, _ => api_on_backend (bk_QueryBlockRound hash)
  | None, Some n => roundParamFromBlockNum n
  end.

(** [decodeHash]: an optional prefix, an odd number of digits is allowed. *)
Definition strip_0x (s : string) : string :=
  if strings_HasPrefix s "0x" || strings_HasPrefix s "0X" then drop_string 2 s else s.

Definition decodeHash (s : string) : result ehash :=
  let s := strip_0x s in
  let s := if Nat.odd (String.length s) then String "0" s else s in
  let '(b, ok) := hex_DecodeString s in
  if negb ok then Err (ErrNew "hex string invalid")
  else if (32 <? length b)%nat then Err (ErrNew "hex string too long, want at most 32 bytes")
  else Ok (BytesToHash b).

(** Ask the archive for rounds it has, the node for the others. *)
Definition archive_or {X} (round : Z) (old : M (Client A) X) (new : M publicAPI X) : M publicAPI X :=
  api ← get_api;
  if shouldQueryArchive round api then on_archive old else new.

Definition api_GetStorageAt (address : eaddr) (slotHex : string) (b : BlockNumberOrHash)
    : M publicAPI (list byte) :=
  match decodeHash slotHex with
  | Err e => fail (ErrWrap "invalid slot" e)
  | Ok slot =>
      round ← getBlockRound b;
      archive_or round (Client_GetStorageAt address slot round)
        (or_return (api_on_source (ns_EVMStorage round (Address_Bytes address) (Hash_Bytes slot))) [] internal mret)
  end.

Definition api_GetBalance (address : eaddr) (b : BlockNumberOrHash) : M publicAPI Z :=
  round ← getBlockRound b;
  archive_or round (Client_GetBalance address round)
    (or_return (api_on_source (ns_EVMBalance round (Address_Bytes address))) 0 internal (fun res =>
     mret (Z.of_N res))).

Definition api_GetTransactionCount (ethAddr : eaddr) (b : BlockNumberOrHash) : M publicAPI Z :=
  round ← getBlockRound b;
  archive_or round (Client_GetTransactionCount ethAddr round)
    (or_return (api_on_source (ns_AccountsNonce round (NewAddressRaw_Secp256k1Eth (Address_Bytes ethAddr))))
       0 internal mret).

Definition api_GetCode (address : eaddr) (b : BlockNumberOrHash) : M publicAPI (list byte) :=
  round ← getBlockRound b;
  archive_or round (Client_GetCode address round)
    (api_on_source (ns_EVMCode round (Address_Bytes address))).

(** ** Gas *)
Definition ChainId (api : publicAPI) : Z := api_chainID api.
Definition api_GasPrice (api : publicAPI) : N := GasPrice (api_gasPriceOracle api).
Definition api_MaxPriorityFeePerGas (api : publicAPI) : N := GasPrice (api_gasPriceOracle api).

Definition maxQueryLimit : nat := 100.

(** The validation of the percentiles; [prev] is the one before. *)
Fixpoint check_percentiles (prev : option float64) (ps : list float64) : result unit :=
  match ps with
  | [] => Ok tt
  | p :: ps' =>
      if f64_lt p (f64_of_Z 0) || f64_lt (f64_of_Z 100) p then Err (ErrWrap "percentile" ErrInvalidPercentile)
      else match prev with
           | Some q => if f64_le p q then Err (ErrWrap "not ascending" ErrInvalidPercentile)
                       else check_percentiles (Some p) ps'
           | None => check_percentiles (Some p) ps'
           end
  end.

Definition api_FeeHistory (blockCount lastBlock : Z) (rewardPercentiles : list float64)
    : M publicAPI FeeHistoryResult :=
  if blockCount <? 1 then mret noHistory else
  if (maxQueryLimit <? length rewardPercentiles)%nat then fail (ErrWrap "over the query limit" ErrInvalidPercentile) else
  _ ← lift (check_percentiles None rewardPercentiles);
  api ← get_api;
  match FeeHistory (api_gasPriceOracle api) blockCount lastBlock rewardPercentiles with
  | Some res => mret res
  | None => fail ErrPanic
  end.

(** ** Constants *)
Definition Accounts : list eaddr := [].
Definition Mining : bool := false.
Definition Hashrate : Z := 0.
Definition Syncing : bool := false.
End EthApi.

(** ** Slots *)
Section Slots.
Context `{E : EthLib} `{!EthLibLaws E}.

(** Reference: the number a string of hexadecimal digits denotes. *)
Fixpoint hex_value (acc : Z) (s : string) : option Z :=
  match s with
  | EmptyString => Some acc
  | String c s' => match hex_val c with Some d => hex_value (16 * acc + d) s' | None => None end
  end.

Lemma hex_val_range c d : hex_val c = Some d -> 0 <= d < 16.
Proof.
  unfold hex_val. destruct (digit_val c) as [x|] eqn:E'; [|done].
  case_match eqn:Hx; [|done]. intros [= <-]. split; [|lia].
  revert E'. unfold digit_val. repeat case_match; intros; simplify_eq; lia.
Qed.

Lemma hex_DecodeString_value n : forall s acc, String.length s = (2 * n)%nat ->
  match hex_DecodeString s with
  | (bs, true) => hex_value acc s = Some (acc * 256 ^ Z.of_nat n + be_value bs) /\ length bs = n
  | (_, false) => hex_value acc s = None
  end.
Proof.
  induction n as [|n IH]; intros s acc Hl.
  - destruct s; [|done]. cbn. split; [f_equal; lia|done].
  - destruct s as [|a [|b s]]; try (cbn in Hl; lia). cbn [hex_DecodeString hex_value].
    destruct (hex_val a) as [x|] eqn:Ha; [|done]. destruct (hex_val b) as [y|] eqn:Hb; [|done].
    apply hex_val_range in Ha, Hb.
    destruct (Byte.of_N (Z.to_N (16 * x + y))) as [c|] eqn:Hc.
    2: { apply Byte.of_N_None_iff in Hc. lia. }
    specialize (IH s (16 * (16 * acc + x) + y)). destruct (hex_DecodeString s) as [bs [|]].
    + destruct IH as [IH1 IH2]; [cbn in Hl; lia|]. rewrite IH1. split; [|cbn; lia]. f_equal.
      rewrite (be_value_app [c] bs : be_value (c :: bs) = _).
      change (be_value [c]) with (Z.of_N (Byte.to_N c)).
      apply Byte.to_of_N in Hc. rewrite Hc, IH2, Nat2Z.inj_succ, Z.pow_succ_r by lia.
      rewrite Z2N.id by lia. nia.
    + apply IH. cbn in Hl. lia.
Qed.

(** [decodeHash] accepts exactly the strings that, after an optional 0x or 0X,
    are at most 64 hexadecimal digits, of any parity and even none, and returns
    the 32-byte big-endian number they denote; every other string is one of the
    two errors. *)
Theorem decodeHash_value s :
  match hex_value 0 (strip_0x s) with
  | Some v =>
      if (String.length (strip_0x s) <=? 64)%nat
      then exists h, decodeHash s = Ok h /\ be_value (Hash_Bytes h) = v /\ length (Hash_Bytes h) = 32%nat
      else decodeHash s = Err (ErrNew "hex string too long, want at most 32 bytes")
  | None => decodeHash s = Err (ErrNew "hex string invalid")
  end.
Proof.
  unfold decodeHash. set (t := strip_0x s).
  set (p := if Nat.odd (String.length t) then String "0" t else t).
  assert (Hp : exists n, String.length p = (2 * n)%nat /\ (String.length t <= 64 <-> n <= 32)%nat /\
                         hex_value 0 p = hex_value 0 t).
  { unfold p. pose proof (Nat.odd_spec (String.length t)) as Ho.
    destruct (Nat.odd (String.length t)) eqn:Ep.
    - destruct (proj1 Ho eq_refl) as [k Hk]. exists (S k). cbn [String.length]. split; [lia|]. split; [lia|done].
    - assert (Nat.even (String.length t) = true) as [k Hk]%Nat.even_spec by (by rewrite <- Nat.negb_odd, Ep).
      exists k. split; [lia|]. split; [lia|done]. }
  destruct Hp as (n & Hn & Hle & Hv). pose proof (hex_DecodeString_value n p 0 Hn) as Hd. rewrite <- Hv.
  destruct (hex_DecodeString p) as [bs [|]]; cbn [negb]; [|by rewrite Hd].
  destruct Hd as [-> Hlen]. cbn [Z.mul Z.add].
  destruct (Nat.leb_spec (String.length t) 64), (Nat.ltb_spec 32 (length bs)); try lia; [|done].
  exists (BytesToHash bs). split; [done|]. rewrite Hash_Bytes_BytesToHash by lia. split.
  - rewrite be_value_app, be_value_zeros. lia.
  - rewrite length_app, length_replicate. lia.
Qed.
End Slots.

(** ** The queries on any backend *)
Section ApiGeneric.
Context `{O : OasisLib} `{!Backend B} `{!NodeSource C} `{!EthClient A} `{R : EthRpc}.
Implicit Types api : publicAPI (B:=B) (C:=C) (A:=A).

(** Reference: what a filter selects. *)
Definition log_selected (f : FilterCriteria) (log : EthLog) : Prop :=
  (fc_Addresses f = [] \/ el_Address log ∈ fc_Addresses f) /\
  (length (fc_Topics f) <= length (el_Topics log))%nat /\
  forall j ts, fc_Topics f !! j = Some ts -> ts = [] \/ exists t, el_Topics log !! j = Some t /\ t ∈ ts.

Lemma addressMatch_spec f log :
  addressMatch f log = true <-> fc_Addresses f = [] \/ el_Address log ∈ fc_Addresses f.
Proof.
  unfold addressMatch. destruct (fc_Addresses f) as [|a l]; [by split; [left|]|].
  cbn [length Nat.eqb orb]. rewrite existsb_exists. setoid_rewrite bool_decide_eq_true. split.
  - intros (x & Hx & ->). right. by apply list_elem_of_In.
  - intros [?|Hx]; [done|]. eexists. split; [by apply list_elem_of_In|done].
Qed.

Lemma TopicsMatch_ref log filters : TopicsMatch log filters = true <->
  (length filters <= length (el_Topics log))%nat /\
  forall j ts, filters !! j = Some ts -> ts = [] \/ exists t, el_Topics log !! j = Some t /\ t ∈ ts.
Proof.
  unfold TopicsMatch. destruct (Nat.ltb_spec (length (el_Topics log)) (length filters)).
  - split; [done|]. intros [? _]. lia.
  - rewrite topics_loop_spec. split; [intros Hj; split; [lia|done]|by intros [_ ?]].
Qed.

#[export] Instance log_selected_dec f log : Decision (log_selected f log).
Proof.
  refine (cast_if (decide (addressMatch f log = true /\ TopicsMatch log (fc_Topics f) = true)));
    abstract (unfold log_selected; rewrite <- addressMatch_spec, <- TopicsMatch_ref; done).
Defined.

Lemma filter_loop_spec f (logs : list EthLog) : forall acc, filter_loop f logs acc = acc ++ filter (log_selected f) logs.
Proof.
  induction logs as [|log logs IH]; intros acc; cbn [filter_loop]; [by rewrite app_nil_r|].
  rewrite filter_cons.
  assert (Hs : log_selected f log <-> addressMatch f log = true /\ TopicsMatch log (fc_Topics f) = true)
    by (unfold log_selected; by rewrite <- addressMatch_spec, <- TopicsMatch_ref).
  destruct (addressMatch f log); cbn [negb].
  - destruct (TopicsMatch log (fc_Topics f)); cbn [negb]; rewrite IH.
    + rewrite decide_True by (by apply Hs). by rewrite <- app_assoc.
    + rewrite decide_False; [done|]. rewrite Hs. by intros [].
  - rewrite IH, decide_False; [done|]. rewrite Hs. by intros [].
Qed.

Lemma no_filter_all f (logs : list EthLog) : fc_Addresses f = [] -> fc_Topics f = [] -> filter (log_selected f) logs = logs.
Proof.
  intros Ha Ht. induction logs as [|log logs IH]; [done|]. rewrite filter_cons_True, IH; [done|].
  split; [by left|]. rewrite Ht. split; [cbn; lia|]. intros j ts. by rewrite lookup_nil.
Qed.

(** The part of [GetLogs] after the rounds are known. *)
Lemma GetLogs_run f start end_ api api1 :
  getStartEndRounds f api = (Ok (start, end_), api1) -> start <= end_ ->
  over_limit (api_methodLimits api1) start end_ = false ->
  api_GetLogs f api = (let '(r, api2) := api_on_backend (bk_GetLogs start end_) api1 in
    (match r with Ok l => Ok (filter (log_selected f) (DB2EthLogs l)) | Err _ => Err ErrInternalError end, api2)).
Proof.
  intros Hr Hle Hlim. unfold api_GetLogs, or_return, attempt. rewrite Hr.
  rewrite (proj2 (Z.ltb_ge _ _)) by lia. unfold mbind, M_bind, get_api. rewrite Hlim.
  destruct (api_on_backend (bk_GetLogs start end_) api1) as [[l|e] api2]; [|done].
  destruct (fc_Addresses f) as [|a la] eqn:Ea, (fc_Topics f) as [|t lt] eqn:Et; cbn [length Nat.eqb andb];
    unfold mret, M_ret; rewrite ?filter_loop_spec; try done.
  by rewrite no_filter_all.
Qed.

(** Where the state of an account comes from: once the round of a request is
    known, an archive that has the round answers alone, the node and the index
    are not asked; without an archive, or for a later round, only the node is
    asked.  The tags "latest" and "pending" go to the node whenever the archive
    ends below the marker of the latest round. *)
Theorem archive_routing address b api round api1 :
  getBlockRound b api = (Ok round, api1) ->
  let '(r, api2) := api_GetBalance address b api in
  match api_archiveClient api1 with
  | Some cl =>
      if round <=? ac_latestBlock cl
      then r = fst (Client_GetBalance address round cl) /\ api_source api2 = api_source api1
      else r = match fst (ns_EVMBalance round (Address_Bytes address) (api_source api1)) with
               | Ok v => Ok (Z.of_N v) | Err _ => Err ErrInternalError end /\
           api_archiveClient api2 = Some cl
  | None => r = match fst (ns_EVMBalance round (Address_Bytes address) (api_source api1)) with
               | Ok v => Ok (Z.of_N v) | Err _ => Err ErrInternalError end
  end /\ api_backend api2 = api_backend api1 /\
  ((bn_BlockHash b = None /\ (bn_BlockNumber b = Some LatestBlockNumber \/ bn_BlockNumber b = Some PendingBlockNumber)) ->
   round = RoundLatest /\ api1 = api).
Proof.
  intros Hr. unfold api_GetBalance. rewrite (M_bind_ok _ _ _ _ _ Hr).
  unfold archive_or, mbind, M_bind, get_api, shouldQueryArchive, LatestBlock, on_archive, or_return, attempt, api_on_source.
  assert (Htag : (bn_BlockHash b = None /\ (bn_BlockNumber b = Some LatestBlockNumber \/ bn_BlockNumber b = Some PendingBlockNumber)) ->
   round = RoundLatest /\ api1 = api).
  { intros [Hh Hn]. revert Hr. unfold getBlockRound, roundParamFromBlockNum. rewrite Hh.
    destruct Hn as [-> | ->]; [|rewrite Z.eqb_refl; by intros [= <- <-]].
    rewrite Z.eqb_refl. case_match; by intros [= <- <-]. }
  destruct (api_archiveClient api1) as [cl|] eqn:Ec.
  - destruct (round <=? ac_latestBlock cl).
    + rewrite Ec. destruct (Client_GetBalance address round cl) as [r cl']. cbn. split; [done|by split].
    + destruct (ns_EVMBalance round (Address_Bytes address) (api_source api1)) as [[v|e] c'];
        cbn; (split; [done|by split]).
  - destruct (ns_EVMBalance round (Address_Bytes address) (api_source api1)) as [[v|e] c'];
      cbn; (split; [done|by split]).
Qed.
End ApiGeneric.

(** ** The queries on the index backend *)
Section ApiIndex.
Context `{O : OasisLib} `{!EthLibLaws H} `{St : Storage D} `{!StorageLaws D} `{!NodeSource C} `{!EthClient A} `{R : EthRpc}.

(** The API on the index backend. *)
Definition index_api : Type := publicAPI (B:=indexBackend (D:=D)) (C:=C) (A:=A).
Definition api_db (api : index_api) : D := ib_storage (api_backend api).

(** A query of the storage through the backend and the API. *)
Lemma api_read {X} (m : M D X) P (api : index_api) : st_read HDb m P -> st_up (api_db api) ->
  exists r api', api_on_backend (on_storage m) api = (r, api') /\ P (st_view (api_db api)) r /\
    st_same (api_db api) (api_db api').
Proof.
  intros Hm Hu. unfold api_on_backend, on_storage, api_db in *.
  destruct (read_up m P (ib_storage (api_backend api)) Hm Hu) as (r & d' & -> & HP & Hs). eauto.
Qed.

Lemma stored_logs_NoDup T : tables_wf T -> NoDup (map_to_list (t_logs T)).*2.
Proof.
  intros Hwf. apply NoDup_fmap_2_strong; [|apply NoDup_map_to_list].
  intros [k1 r1] [k2 r2] H1%elem_of_map_to_list H2%elem_of_map_to_list. cbn. intros <-.
  destruct (Hwf TLog k1 r1 H1) as [<- _]. by destruct (Hwf TLog k2 r1 H2) as [<- _].
Qed.

(** The rows [GetLogs] of the storage returns. *)
Lemma logs_between_rows start stop T l : tables_wf T -> logs_between start stop T (Ok l) ->
  NoDup l /\ Sorted (fun a b => lexle (log_key a) (log_key b)) l /\
  forall x, x ∈ l <-> start <= log_Round x <= stop /\ exists k, t_logs T !! k = Some x.
Proof.
  intros Hwf (l' & [= <-] & Hp & Hs). split; [|split; [done|]].
  - rewrite Hp. by apply NoDup_filter, stored_logs_NoDup.
  - intros x. rewrite Hp, list_elem_of_filter, list_elem_of_fmap. split.
    + intros [Hx ([k y] & -> & Hy%elem_of_map_to_list)]. split; [done|by exists k].
    + intros [Hx [k Hk]]. split; [done|]. exists (k, x). split; [done|]. by apply elem_of_map_to_list.
Qed.

Lemma GetLogs_rows f start end_ (api api1 : index_api) :
  getStartEndRounds f api = (Ok (start, end_), api1) ->
  st_up (api_db api1) -> tables_wf (st_view (api_db api1)) -> is_u64 start -> is_u64 end_ ->
  if (end_ <? start) || match api_methodLimits api1 with
       | Some l => negb (GetLogsMaxRounds l =? 0) && (GetLogsMaxRounds l <? end_ - start) | None => false end
  then exists msg, api_GetLogs f api = (Err (ErrWrap msg ErrInvalidRequest), api1)
  else exists rows api2, api_GetLogs f api = (Ok (db2EthLog <$> rows), api2) /\
    st_same (api_db api1) (api_db api2) /\ NoDup rows /\
    Sorted (fun a b => lexle (log_key a) (log_key b)) rows /\
    forall x, x ∈ rows <-> start <= log_Round x <= end_ /\ log_selected f (db2EthLog x) /\
      exists k, t_logs (st_view (api_db api1)) !! k = Some x.
Proof.
  intros Hr Hup Hwf Hs He.
  destruct (Z.ltb_spec end_ start) as [Hlt|Hle]; cbn [orb].
  { unfold api_GetLogs, or_return, attempt. rewrite Hr, (proj2 (Z.ltb_lt _ _)) by done. eauto. }
  assert (Hlim : over_limit (api_methodLimits api1) start end_ = match api_methodLimits api1 with
       | Some l => negb (GetLogsMaxRounds l =? 0) && (GetLogsMaxRounds l <? end_ - start) | None => false end).
  { unfold over_limit. destruct (api_methodLimits api1) as [l|]; [|done]. rewrite u64_small by u64_lia. done. }
  rewrite <- Hlim. destruct (over_limit (api_methodLimits api1) start end_) eqn:Hov.
  { unfold api_GetLogs, or_return, attempt. rewrite Hr, (proj2 (Z.ltb_ge _ _)) by done.
    unfold mbind, M_bind, get_api. rewrite Hov. eauto. }
  rewrite (GetLogs_run f start end_ api api1 Hr Hle Hov).
  destruct (api_read (st_GetLogs HDb start end_) _ api1 (st_law_GetLogs HDb start end_) Hup)
    as (r & api2 & E & Hl & Hsame).
  cbn [bk_GetLogs indexBackend_Backend]. unfold indexBackend_GetLogs. rewrite E.
  destruct Hl as (l & -> & Hl).
  destruct (logs_between_rows start end_ _ l Hwf (ex_intro _ l (conj eq_refl Hl))) as (Hnd & Hsort & Hin).
  exists (filter (fun x => log_selected f (db2EthLog x)) l), api2.
  split; [f_equal; f_equal; apply (filter_fmap db2EthLog)|].
  split; [done|]. split; [by apply NoDup_filter|]. split.
  - apply StronglySorted_Sorted, StronglySorted_filter, Sorted_StronglySorted; [|done].
    intros a b c. apply lexle_trans.
  - intros x. rewrite list_elem_of_filter, Hin. tauto.
Qed.

(** C5: eth_getLogs on a healthy database: once the filter's rounds are known, a
    range that is reversed, or longer than the configured limit, is an invalid
    request and nothing is read; otherwise the result is exactly the stored
    logs of the rounds from start to end that the filter selects, each once, in
    the order of their rounds, transactions and positions. *)
Theorem GetLogs_exact f start end_ (api api1 : index_api) :
  getStartEndRounds f api = (Ok (start, end_), api1) ->
  st_up (api_db api1) -> tables_wf (st_view (api_db api1)) -> is_u64 start -> is_u64 end_ ->
  if (end_ <? start) || match api_methodLimits api1 with
       | Some l => negb (GetLogsMaxRounds l =? 0) && (GetLogsMaxRounds l <? end_ - start) | None => false end
  then exists msg, api_GetLogs f api = (Err (ErrWrap msg ErrInvalidRequest), api1)
  else exists rows api2, api_GetLogs f api = (Ok (db2EthLog <$> rows), api2) /\
    st_same (api_db api1) (api_db api2) /\ NoDup rows /\
    Sorted (fun a b => lexle (log_key a) (log_key b)) rows /\
    forall x, x ∈ rows <-> start <= log_Round x <= end_ /\ log_selected f (db2EthLog x) /\
      exists k, t_logs (st_view (api_db api1)) !! k = Some x.
Proof. apply GetLogs_rows. Qed.

(** The stored row of a transaction that did not fail. *)
Lemma toModels_tx header items cp m st i tx status :
  toModels header items cp = Ok m -> decode header items = Ok st ->
  ds_ethTxs st !! i = Some tx -> ds_txsStatus st !! i = Some status ->
  modelTransaction (Hash_Hex (blockHash header)) (oh_Round header) i status tx ∈ bm_txs m.
Proof.
  intros Hm Hd Htx Hst. revert Hm. unfold toModels. rewrite Hd. cbn [mbind result_bind].
  intros ([[[blk txs] rcs] dbl] & Hbm & [= <-])%result_bind_ok. cbn [bm_txs].
  apply blockToModels_inv in Hbm as (_ & Hh & _ & _ & _ & _ & _ & _ & _ & _ & bl & Hi).
  destruct (Hi i tx Htx) as (mt & rc & Hmt & _ & status' & g & c & Hst' & _ & -> & _).
  rewrite Hst in Hst'. injection Hst' as <-. rewrite Hh in Hmt. by eapply list_elem_of_lookup_2.
Qed.

(** C10: From the node to the client: after a block has been indexed on a healthy
    database, eth_getTransactionByHash returns every transaction of it that did
    not fail, with exactly the fields of the transaction the node delivered,
    its position and its block. *)
Theorem indexed_tx_visible header items cp rt st i tx status (ib : indexBackend) out (api : index_api) :
  decode header items = Ok st -> ds_ethTxs st !! i = Some tx -> ds_txsStatus st !! i = Some status ->
  status <> ReceiptStatusFailed ->
  st_up (ib_storage ib) -> tables_wf (st_view (ib_storage ib)) ->
  indexBackend_Index header items cp rt ib = (Ok out, api_backend api) ->
  exists rtx api', api_GetTransactionByHash (Tx_Hash tx) api = (Ok (Some rtx), api') /\
    shows_tx (blockHash header) (oh_Round header) i tx rtx.
Proof.
  intros Hd Htx Hst Hok Hup Hwf HI.
  destruct (indexBackend_Index_models _ _ _ _ _ _ _ Hup Hwf HI) as (m & Hm & HT & _ & Hu).
  set (row := modelTransaction (Hash_Hex (blockHash header)) (oh_Round header) i status tx).
  assert (Hrow : row ∈ bm_txs m) by (by eapply toModels_tx).
  assert (Hk : tx_Hash row = Hash_Hex (Tx_Hash tx) /\ tx_Status row = status).
  { unfold row, modelTransaction. by destruct (Tx_RawSignatureValues tx) as [[? ?] ?]. }
  destruct Hk as [Hhash Hstat].
  destruct (put_models_found _ _ _ HT) as (_ & _ & _ & Hfound & _).
  assert (Hs : tx_success row) by (unfold tx_success; by rewrite Hstat).
  specialize (Hfound row Hrow Hs). rewrite Hhash in Hfound.
  destruct (api_read (st_GetTransaction HDb (Hash_Hex (Tx_Hash tx))) _ api (st_law_GetTransaction HDb _) Hu)
    as (r & api' & E & Hr & _).
  apply GetTransaction_key in Hr as ->; [|by eapply put_models_wf].
  assert (Hkey : by_key (t:=TTransaction) (Hash_Hex (Tx_Hash tx), 0) (st_view (api_db api)) = Ok row)
    by (unfold by_key; cbn; unfold api_db; by rewrite Hfound).
  exists (NewRPCTransaction row), api'. split; [|apply NewRPCTransaction_shows].
  unfold api_GetTransactionByHash, or_return, attempt.
  cbn [bk_QueryTransaction indexBackend_Backend]. unfold indexBackend_QueryTransaction. rewrite E.
  by rewrite Hkey.
Qed.
(** The same query on a database in any condition. *)
Lemma api_read_any {X} (m : M D X) P (api : index_api) : st_read HDb m P ->
  exists r api', api_on_backend (on_storage m) api = (r, api') /\
    (P (st_view (api_db api)) r \/ exists c, r = Err (ErrDB c) /\ ~ st_up (api_db api)).
Proof.
  intros Hm. unfold api_on_backend, on_storage, api_db in *.
  destruct (Hm (ib_storage (api_backend api))) as (r & d' & -> & Hr). do 2 eexists. split; [done|].
  destruct Hr as [[? _]|(c & -> & Hn & _)]; [by left|right]. exists c. split; [done|].
  intros Hu. apply Hn. by split.
Qed.

Lemma by_key_tx k T : by_key (t:=TTransaction) k T =
  match t_txs T !! k with Some r => Ok r | None => Err ErrNoRows end.
Proof. reflexivity. Qed.

Lemma by_key_round k T : by_key (t:=TIndexedRound) k T =
  match t_rounds T !! k with Some r => Ok r | None => Err ErrNoRows end.
Proof. reflexivity. Qed.

(** A stored block with its transactions. *)
Definition stored_block (h : ehash) (T : Tables) (b : Block) (txs : list Transaction) : Prop :=
  t_blocks T !! (Hash_Hex h, 0) = Some b /\ block_txs T (blk_Hash b) txs.

Lemma loaded_block_cases h T r : tables_wf T -> loaded_block (hash_is (Hash_Hex h)) T r ->
  (r = Err ErrNoRows /\ t_blocks T !! (Hash_Hex h, 0) = None) \/
  exists b txs, stored_block h T b txs /\ r = Ok (with_Transactions b txs).
Proof.
  intros Hwf (r0 & H0 & Hr). apply (one_row_key (t:=TBlock) _ (Hash_Hex h, 0)) in H0; [|done|].
  - unfold by_key in H0. cbn in H0. destruct (t_blocks T !! (Hash_Hex h, 0)) as [b|] eqn:E; subst r0.
    + destruct Hr as (txs & Ht & ->). right. by exists b, txs.
    + by left.
  - intros x. unfold hash_is. rewrite bool_decide_eq_true. cbn. split; [by intros <-|by intros [= <-]].
Qed.

Lemma loaded_receipt_cases hash T r : tables_wf T -> loaded_receipt hash T r ->
  (r = Err ErrNoRows /\ t_receipts T !! (hash, 0) = None) \/
  exists rc logs, t_receipts T !! (hash, 0) = Some rc /\ r = Ok (with_Logs rc logs) /\
    logs ≡ₚ filter (fun l => log_TxHash l = hash) (map_to_list (t_logs T)).*2.
Proof.
  intros Hwf (r0 & H0 & Hr). apply (one_row_key (t:=TReceipt) _ (hash, 0)) in H0; [|done|].
  - unfold by_key in H0. cbn in H0. destruct (t_receipts T !! (hash, 0)) as [rc|] eqn:E; subst r0.
    + destruct Hr as (logs & Hl & ->). right. exists rc, logs.
      destruct (Hwf TReceipt _ _ E) as [[= Hk] _]. rewrite Hk in Hl. done.
    + by left.
  - intros x. rewrite bool_decide_eq_true. cbn. split; [by intros <-|by intros [= <-]].
Qed.

(** C24: The lookups by hash, in every condition of the database: they answer
    with what is stored, with null when there is no such row, and with "index
    out of range" for a position the block does not have; the only other error
    is "internal error", and only when the database fails.  No panic, and no
    error of the database itself, reaches the client. *)
Theorem api_lookups h idx (api : index_api) :
  let T := st_view (api_db api) in
  tables_wf T -> 0 <= idx ->
  match fst (api_GetTransactionByHash h api) with
  | Ok r => r = NewRPCTransaction <$> t_txs T !! (Hash_Hex h, 0)
  | Err e => e = ErrInternalError /\ ~ st_up (api_db api)
  end /\
  match fst (api_GetTransactionByBlockHashAndIndex h idx api) with
  | Ok None => t_blocks T !! (Hash_Hex h, 0) = None
  | Ok (Some rtx) => exists b txs tx, stored_block h T b txs /\ txs !! Z.to_nat idx = Some tx /\
      rtx = NewRPCTransaction tx
  | Err e => (e = ErrIndexOutOfRange /\ exists b txs, stored_block h T b txs /\ Z.of_nat (length txs) <= idx) \/
      (e = ErrInternalError /\ ~ st_up (api_db api))
  end /\
  match fst (api_GetTransactionReceipt h api) with
  | Ok None => t_receipts T !! (Hash_Hex h, 0) = None
  | Ok (Some rr) => exists rc logs, t_receipts T !! (Hash_Hex h, 0) = Some rc /\
      logs ≡ₚ filter (fun l => log_TxHash l = Hash_Hex h) (map_to_list (t_logs T)).*2 /\
      rr = db2EthReceipt (with_Logs rc logs)
  | Err e => e = ErrInternalError /\ ~ st_up (api_db api)
  end.
Proof.
  intros T Hwf Hidx. split; [|split].
  - destruct (api_read_any (st_GetTransaction HDb (Hash_Hex h)) _ api (st_law_GetTransaction HDb _))
      as (r & api' & E & Hr).
    unfold api_GetTransactionByHash, or_return, attempt.
    cbn [bk_QueryTransaction indexBackend_Backend]. unfold indexBackend_QueryTransaction. rewrite E.
    destruct Hr as [Hr|(c & -> & Hn)]; [|done]. apply GetTransaction_key in Hr as ->; [|done].
    rewrite by_key_tx. fold T. destruct (t_txs T !! (Hash_Hex h, 0)); cbn; done.
  - destruct (api_read_any (st_GetBlockByHash HDb (Hash_Hex h)) _ api (st_law_GetBlockByHash HDb _))
      as (r & api' & E & Hr).
    unfold api_GetTransactionByBlockHashAndIndex, or_return, attempt.
    cbn [bk_GetBlockByHash indexBackend_Backend]. unfold indexBackend_GetBlockByHash. rewrite E.
    destruct Hr as [Hr|(c & -> & Hn)]; [|by right].
    apply loaded_block_cases in Hr as [[-> Hnone]|(b & txs & Hb & ->)]; [exact Hnone| |done].
    cbn [blk_Transactions with_Transactions].
    destruct (Z.leb_spec (Z.of_nat (length txs)) idx) as [Hle|Hlt]; [left; split; [done|by exists b, txs]|].
    destruct (lookup_lt_is_Some_2 txs (Z.to_nat idx)) as [tx Htx]; [lia|].
    unfold index, lift, mbind, M_bind. rewrite Htx. by exists b, txs, tx.
  - destruct (api_read_any (st_GetTransactionReceipt HDb (Hash_Hex h)) _ api (st_law_GetTransactionReceipt HDb _))
      as (r & api' & E & Hr).
    unfold api_GetTransactionReceipt, or_return, attempt.
    cbn [bk_GetTransactionReceipt indexBackend_Backend]. unfold indexBackend_GetTransactionReceipt.
    unfold api_on_backend, mbind, M_bind in *.
    destruct (on_storage (st_GetTransactionReceipt HDb (Hash_Hex h)) (api_backend api)) as [r0 ib'].
    injection E as -> _. destruct Hr as [Hr|(c & -> & Hn)]; [|done].
    apply loaded_receipt_cases in Hr as [[-> Hnone]|(rc & logs & Hrc & -> & Hl)]; [exact Hnone| |done].
    by exists rc, logs.
Qed.
Context `{!NodeSourceLaws C} `{!EthRpcLaws R}.

Lemma roundParam_number n (api : index_api) : 0 < n < MaxUint64 -> roundParamFromBlockNum n api = (Ok n, api).
Proof.
  intros Hn. pose proof (rpc_nonpos (R:=R)) as Hf. rewrite !Forall_cons in Hf.
  destruct Hf as (Hp & Hl & _ & _ & He & _). unfold roundParamFromBlockNum.
  rewrite (proj2 (Z.eqb_neq n PendingBlockNumber)), (proj2 (Z.eqb_neq n LatestBlockNumber)),
    (proj2 (Z.eqb_neq n EarliestBlockNumber)), (proj2 (Z.ltb_ge n 0)) by lia. done.
Qed.

Lemma earliest_tag : (EarliestBlockNumber =? PendingBlockNumber) = false /\
  (EarliestBlockNumber =? LatestBlockNumber) = false.
Proof.
  pose proof (rpc_distinct (R:=R)) as [Hp [Hl _]%NoDup_cons]%NoDup_cons.
  split; apply Z.eqb_neq; intros E; rewrite E in *; set_solver.
Qed.

Lemma query_retained (api : index_api) : st_up (api_db api) -> tables_wf (st_view (api_db api)) ->
  exists api', api_on_backend bk_QueryLastRetainedRound api =
    (Ok (default 0 (ir_Round <$> t_rounds (st_view (api_db api)) !! (LastRetained, 0))), api') /\
    st_same (api_db api) (api_db api').
Proof.
  intros Hup Hwf. cbn [bk_QueryLastRetainedRound indexBackend_Backend].
  unfold api_on_backend, indexBackend_QueryLastRetainedRound, attempt, on_storage, api_db in *.
  destruct (read_up _ _ _ (st_law_GetLastRetainedRound HDb) Hup) as (r & d' & -> & (i & Hi & ->) & Hs).
  apply (one_row_key (t:=TIndexedRound) _ (LastRetained, 0)) in Hi as ->; [|done|].
  - rewrite by_key_round. destruct (t_rounds (st_view (ib_storage (api_backend api))) !! (LastRetained, 0));
      (eexists; split; [cbn; reflexivity|exact Hs]).
  - intros x. rewrite bool_decide_eq_true. cbn. split; [by intros ->|by intros [= ->]].
Qed.

(** The rounds of a log filter: explicit positive block numbers are taken as
    they are, and without bounds the range is from the earliest round that both
    the node and the index still have to the latest block of the index. *)
Theorem filter_range f (api : index_api) :
  fc_BlockHash f = None ->
  (forall n1 n2, fc_FromBlock f = Some n1 -> fc_ToBlock f = Some n2 -> 0 < n1 < 2 ^ 63 -> 0 < n2 < 2 ^ 63 ->
     getStartEndRounds f api = (Ok (n1, n2), api)) /\
  (fc_FromBlock f = None -> fc_ToBlock f = None ->
   st_up (api_db api) -> tables_wf (st_view (api_db api)) ->
   (forall r, t_rounds (st_view (api_db api)) !! (LastRetained, 0) = Some r -> ir_Round r < MaxUint64) ->
   forall header c k b, ns_GetLastRetainedBlock (api_source api) = (Ok header, c) ->
     t_blocks (st_view (api_db api)) !! k = Some b ->
     exists latest api', getStartEndRounds f api =
       (Ok (Z.max (oh_Round header)
              (default 0 (ir_Round <$> t_rounds (st_view (api_db api)) !! (LastRetained, 0))), latest), api') /\
       (exists k' b', t_blocks (st_view (api_db api)) !! k' = Some b' /\ latest = blk_Round b') /\
       forall k' b', t_blocks (st_view (api_db api)) !! k' = Some b' -> blk_Round b' <= latest).
Proof.
  intros Hh. unfold getStartEndRounds. rewrite Hh. split.
  - intros n1 n2 -> -> H1 H2. unfold big_Int64, int64. rewrite !u64_small by u64_lia.
    rewrite !(proj2 (Z.ltb_lt _ _)) by lia. unfold mbind, M_bind.
    rewrite !roundParam_number by (unfold MaxUint64; lia). unfold resolveLatest. rewrite ns_RoundLatest.
    rewrite !(proj2 (Z.eqb_neq _ MaxUint64)) by (unfold MaxUint64; lia). done.
  - intros -> -> Hup Hwf Hret header c k b Hn Hb. unfold roundParamFromBlockNum.
    rewrite (proj1 earliest_tag), (proj2 earliest_tag), Z.eqb_refl.
    unfold mbind, M_bind, or_return, attempt, api_on_source. rewrite Hn.
    match goal with |- context [api_on_backend bk_QueryLastRetainedRound ?a] => set (api1 := a) end.
    destruct (query_retained api1 Hup Hwf) as (api2 & -> & (Hv & _ & Hk)).
    set (retained := default 0 (ir_Round <$> t_rounds (st_view (api_db api1)) !! (LastRetained, 0))).
    assert (Hrange : Z.max (oh_Round header) retained < MaxUint64).
    { apply ns_GetLastRetainedBlock_range in Hn. unfold retained.
      destruct (t_rounds (st_view (api_db api1)) !! (LastRetained, 0)) as [r|] eqn:Er; cbn; [|lia].
      specialize (Hret r Er). lia. }
    unfold mret, M_ret. unfold resolveLatest at 1. rewrite ns_RoundLatest, (proj2 (Z.eqb_neq _ _)) by lia.
    unfold resolveLatest. rewrite ns_RoundLatest, Z.eqb_refl. unfold mret, M_ret.
    cbn [bk_BlockNumber indexBackend_Backend]. unfold indexBackend_BlockNumber.
    destruct (api_read (st_GetLatestBlockNumber HDb) _ api2 (st_law_GetLatestBlockNumber HDb) (proj1 Hk Hup))
      as (r & api3 & -> & (b0 & [Ho Hmax] & ->) & _).
    rewrite Hv in Ho, Hmax. change (api_db api1) with (api_db api) in *.
    destruct b0 as [b0|e]; cbn in Ho |- *.
    + destruct Ho as [_ [k0 Hk0]]. exists (blk_Round b0), api3. split; [done|]. split; [by exists k0, b0|done].
    + destruct Ho as [_ Hno]. specialize (Hno k b Hb). done.
Qed.
End ApiIndex.

(** ** Fee history *)
Section ApiFees.
Context `{O : OasisLib} `{!Backend B} `{!NodeSource C} `{!EthClient A} `{R : EthRpc}.

(** Reference: percentiles in range, each above the one before. *)
Definition valid_percentiles (ps : list float64) : Prop :=
  (length ps <= maxQueryLimit)%nat /\
  (forall p, p ∈ ps -> f64_lt p (f64_of_Z 0) = false /\ f64_lt (f64_of_Z 100) p = false) /\
  forall i q p, ps !! i = Some q -> ps !! S i = Some p -> f64_le p q = false.

Lemma check_percentiles_spec ps : forall prev,
  (exists msg, check_percentiles prev ps = Err (ErrWrap msg ErrInvalidPercentile)) \/
  check_percentiles prev ps = Ok tt /\
    (forall p, p ∈ ps -> f64_lt p (f64_of_Z 0) = false /\ f64_lt (f64_of_Z 100) p = false) /\
    (forall q p, prev = Some q -> head ps = Some p -> f64_le p q = false) /\
    forall i q p, ps !! i = Some q -> ps !! S i = Some p -> f64_le p q = false.
Proof.
  induction ps as [|p ps IH]; intros prev; cbn [check_percentiles].
  - right. split; [done|]. split; [by intros ? ?%not_elem_of_nil|]. done.
  - destruct (f64_lt p (f64_of_Z 0)) eqn:E1; [left; eauto|].
    destruct (f64_lt (f64_of_Z 100) p) eqn:E2; [left; eauto|]. cbn [orb].
    assert (Hrest : (forall q, prev = Some q -> f64_le p q = false) ->
      (exists msg, check_percentiles (Some p) ps = Err (ErrWrap msg ErrInvalidPercentile)) \/
      check_percentiles (Some p) ps = Ok tt /\
      (forall x, x ∈ p :: ps -> f64_lt x (f64_of_Z 0) = false /\ f64_lt (f64_of_Z 100) x = false) /\
      (forall q x, prev = Some q -> head (p :: ps) = Some x -> f64_le x q = false) /\
      forall i q x, (p :: ps) !! i = Some q -> (p :: ps) !! S i = Some x -> f64_le x q = false).
    { intros Hprev. destruct (IH (Some p)) as [?|(Hc & Hr & Hh & Hs)]; [by left|right].
      split; [done|]. split; [by intros x [->|?]%elem_of_cons; [|apply Hr]|].
      split; [intros q x Hq [= <-]; by apply Hprev|].
      intros [|i] q x; cbn; [intros [= <-] Hx; apply (Hh p); [done|by rewrite head_lookup]|apply Hs]. }
    destruct prev as [q|]; [|by apply Hrest].
    destruct (f64_le p q) eqn:E3; [left; eauto|]. apply Hrest. by intros ? [= <-].
Qed.
Lemma check_percentiles_ok ps : forall prev,
  (forall p, p ∈ ps -> f64_lt p (f64_of_Z 0) = false /\ f64_lt (f64_of_Z 100) p = false) ->
  (forall q p, prev = Some q -> head ps = Some p -> f64_le p q = false) ->
  (forall i q p, ps !! i = Some q -> ps !! S i = Some p -> f64_le p q = false) ->
  check_percentiles prev ps = Ok tt.
Proof.
  induction ps as [|p ps IH]; intros prev Hr Hh Hs; cbn [check_percentiles]; [done|].
  destruct (Hr p) as [-> ->]; [left|]. cbn [orb].
  assert (Hrest : check_percentiles (Some p) ps = Ok tt).
  { apply IH; [intros x Hx; apply Hr; by right| |intros i; apply (Hs (S i))].
    intros q x [= <-] Hx. rewrite head_lookup in Hx. by apply (Hs 0%nat). }
  destruct prev as [q|]; [|done]. by rewrite (Hh q p).
Qed.

Lemma FeeHistory_total g n lb ps : Forall fee_entry_ok (feeHistoryData g) ->
  Z.of_nat (length (feeHistoryData g)) < 2 ^ 63 -> 1 <= n < two64 ->
  exists res, FeeHistory g n lb ps = Some res.
Proof.
  intros Hok Hsz Hn. destruct (decide (length (feeHistoryData g) = 0%nat)) as [E|E].
  { unfold FeeHistory. rewrite bool_decide_eq_true_2 by done. eauto. }
  destruct (lastBlockIdx g lb) as [last|] eqn:El.
  - assert (Hlt : (last < length (feeHistoryData g))%nat).
    { revert El. unfold lastBlockIdx. case_bool_decide; [intros [= <-]; lia|]. case_bool_decide; [done|].
      intros ([i d] & Hf & ->)%fmap_Some_1. apply list_find_Some in Hf as [Hf _]. by eapply lookup_lt_Some. }
    destruct (FeeHistory_unfold g n lb ps last El Hlt Hn Hsz Hok) as (d0 & rws & _ & _ & ->). eauto.
  - unfold FeeHistory. rewrite bool_decide_eq_false_2 by done. rewrite El. eauto.
Qed.

(** Eth_feeHistory never panics on an oracle whose history is well formed
    (as it is after any run): a request for no blocks is answered with an empty
    history, percentiles that are more than a hundred, out of range or not
    ascending are refused, and every other request is answered with the
    oracle's history; the state does not change. *)
Theorem api_FeeHistory_total (api : publicAPI (B:=B) (C:=C) (A:=A)) n lb ps :
  Forall fee_entry_ok (feeHistoryData (api_gasPriceOracle api)) ->
  Z.of_nat (length (feeHistoryData (api_gasPriceOracle api))) < 2 ^ 63 -> 0 <= n < two64 ->
  (n = 0 -> api_FeeHistory n lb ps api = (Ok noHistory, api)) /\
  (1 <= n -> valid_percentiles ps -> exists res, api_FeeHistory n lb ps api = (Ok res, api) /\
     FeeHistory (api_gasPriceOracle api) n lb ps = Some res) /\
  (1 <= n -> ~ valid_percentiles ps ->
     exists msg, api_FeeHistory n lb ps api = (Err (ErrWrap msg ErrInvalidPercentile), api)).
Proof.
  intros Hok Hsz Hn. unfold api_FeeHistory, mbind, M_bind, lift, get_api. split; [by intros ->|].
  split; intros H1; rewrite (proj2 (Z.ltb_ge _ _)) by lia.
  - intros (Hl & Hr & Hs). rewrite (proj2 (Nat.ltb_ge _ _)) by lia.
    rewrite (check_percentiles_ok ps None Hr ltac:(done) Hs).
    destruct (FeeHistory_total _ n lb ps Hok Hsz) as [res ->]; [lia|]. by exists res.
  - intros Hv. destruct (Nat.ltb_spec maxQueryLimit (length ps)); [by eexists|].
    destruct (check_percentiles_spec ps None) as [[msg ->]|(_ & Hr & _ & Hs)]; [by exists msg|].
    destruct Hv. by split; [|split].
Qed.
End ApiFees.

(** ** Witnesses *)
Definition ex_oracle : gasPriceOracle := gas_New None.

Definition ex_api (db : MemDB) (archive : option (Client nat)) : index_api (D:=MemDB) (C:=ExNode) (A:=nat) :=
  NewPublicAPI (mkExNode 9) archive 42262 (NewIndexBackend db) ex_oracle (Some (mkMethodLimits 100)).

Definition ex_filter : FilterCriteria := mkFilterCriteria (H:=ex_EthLib) None (Some 3) (Some 9) [] [].

Lemma decodeHash_value_witness : exists h : ehash,
  decodeHash "0x1fF" = Ok h /\ be_value (Hash_Bytes h) = 511 /\ length (Hash_Bytes h) = 32%nat.
Proof. exact (decodeHash_value "0x1fF"). Defined.

Definition ex_archive : option (Client nat) := Some (mkClient (Some 0%nat) 50).
Definition ex_at7 : BlockNumberOrHash := mkBlockNumberOrHash (H:=ex_EthLib) (Some 7) None.

Lemma archive_routing_witness : fst (api_GetBalance "a" ex_at7 (ex_api (ex_db []) ex_archive)) = Ok 77.
Proof.
  pose proof (archive_routing "a" ex_at7 (ex_api (ex_db []) ex_archive) 7
    (ex_api (ex_db []) ex_archive) eq_refl) as Hw.
  destruct (api_GetBalance _ _ _) as [r api2]. destruct Hw as [[Hr _] _]. exact Hr.
Defined.

Lemma filter_range_witness :
  getStartEndRounds ex_filter (ex_api (ex_full_db []) None) = (Ok (3, 9), ex_api (ex_full_db []) None).
Proof.
  destruct (filter_range ex_filter (ex_api (ex_full_db []) None) eq_refl) as [Hw _].
  apply Hw; [reflexivity|reflexivity|lia|lia].
Defined.

Lemma GetLogs_exact_witness : exists rows api2,
  api_GetLogs ex_filter (ex_api (ex_full_db []) None) = (Ok (db2EthLog <$> rows), api2) /\ NoDup rows.
Proof.
  assert (Hr : getStartEndRounds ex_filter (ex_api (ex_full_db []) None) =
    (Ok (3, 9), ex_api (ex_full_db []) None)) by reflexivity.
  destruct (GetLogs_exact ex_filter 3 9 (ex_api (ex_full_db []) None) (ex_api (ex_full_db []) None) Hr)
    as (rows & api2 & E & _ & Hd & _).
  - constructor.
  - apply ex_full_wf.
  - split; [lia|reflexivity].
  - split; [lia|reflexivity].
  - exists rows, api2. split; [exact E|exact Hd].
Defined.

Definition ex_hash_a : @ehash ex_EthLib := "a"%string.

Lemma api_lookups_witness :
  match fst (api_GetTransactionByHash ex_hash_a (ex_api (ex_full_db []) None)) with
  | Ok r => r = NewRPCTransaction <$> t_txs ex_stored !! ("#a"%string, 0)
  | Err e => e = ErrInternalError /\ ~ db_up (ex_full_db [])
  end.
Proof.
  destruct (api_lookups ex_hash_a 0 (ex_api (ex_full_db []) None)) as [Hw _].
  - apply ex_full_wf.
  - lia.
  - exact Hw.
Defined.

Definition ex_decodeState : decodeState :=
  match decode ex_oheader ex_items with Ok st => st | Err _ => decode_init end.

Lemma ex_decodeState_ok : decode ex_oheader ex_items = Ok ex_decodeState.
Proof.
  unfold ex_decodeState. assert (Hok : is_Ok (decode ex_oheader ex_items) = true) by (vm_compute; reflexivity).
  by destruct (decode ex_oheader ex_items).
Qed.

Definition ex_after_index : indexBackend := snd (indexBackend_Index ex_oheader ex_items None None (NewIndexBackend (ex_db []))).

Lemma ex_after_index_ok : exists out,
  indexBackend_Index ex_oheader ex_items None None (NewIndexBackend (ex_db [])) = (Ok out, ex_after_index).
Proof.
  unfold ex_after_index.
  assert (Hok : is_Ok (fst (indexBackend_Index ex_oheader ex_items None None (NewIndexBackend (ex_db [])))) = true)
    by (vm_compute; reflexivity).
  destruct (indexBackend_Index _ _ _ _ _) as [[out|e] ib]; [by exists out|done].
Qed.

Definition ex_indexed_api : index_api (D:=MemDB) (C:=ExNode) (A:=nat) :=
  NewPublicAPI (mkExNode 9) None 42262 ex_after_index ex_oracle None.

Lemma indexed_tx_visible_witness : exists rtx api',
  api_GetTransactionByHash ex_hash_a ex_indexed_api = (Ok (Some rtx), api') /\ rt_BlockNumber rtx = 5.
Proof.
  destruct ex_after_index_ok as [out Hout].
  destruct (indexed_tx_visible ex_oheader ex_items None None ex_decodeState 0
    (mkExTx "a" 21000 10 (Some "to"%string)) 1 (NewIndexBackend (ex_db [])) out ex_indexed_api)
    as (rtx & api' & E & Hs).
  - exact ex_decodeState_ok.
  - vm_compute. reflexivity.
  - vm_compute. reflexivity.
  - discriminate.
  - constructor.
  - apply empty_tables_wf.
  - exact Hout.
  - exists rtx, api'. split; [exact E|]. destruct Hs as (_ & _ & Hn & _). exact Hn.
Defined.

Lemma api_FeeHistory_total_witness : exists msg,
  api_FeeHistory 1 5 [f64_of_Z 30; f64_of_Z 20] (ex_api (ex_db []) None) =
    (Err (ErrWrap msg ErrInvalidPercentile), ex_api (ex_db []) None).
Proof.
  destruct (api_FeeHistory_total (ex_api (ex_db []) None) 1 5 [f64_of_Z 30; f64_of_Z 20]) as (_ & _ & Hw).
  - constructor.
  - reflexivity.
  - split; [lia|reflexivity].
  - apply Hw; [lia|]. intros (_ & _ & Hv).
    specialize (Hv 0%nat (f64_of_Z 30) (f64_of_Z 20) eq_refl eq_refl). vm_compute in Hv. discriminate.
Defined.
