(* ===== verification/EndToEnd.v ===== *)
(** * From the node to eth_getLogs

    The path of the logs through the program: the results of a runtime block are
    decoded and indexed (StoreBlock.v, IndexBackend.v), and eth_getLogs asks for them
    (EthApi.v). *)
From S2P Require Import Prelude GoLib Model Gas FeeHistory Sql Storage Psql Extern BlockModels EthViews StoreBlock IndexBackend Source Archive EthApi.

Section EndToEnd.
Context `{O : OasisLib} `{!EthLibLaws H} `{St : Storage D} `{!StorageLaws D} `{!NodeSource C} `{!EthClient A} `{R : EthRpc}.
Context `{!NodeSourceLaws C} `{!EthRpcLaws R}.

Local Abbreviation api_t := (index_api (D:=D) (C:=C) (A:=A)).

(** ** The logs table *)
Lemma put_new_elem T l T' : put_new TLog T l = Ok T' ->
  forall x, (exists k, t_logs T' !! k = Some x) <-> x = l \/ exists k, t_logs T !! k = Some x.
Proof.
  unfold put_new. destruct (rows TLog T !! pk TLog l) eqn:E; [done|]. intros [= <-] x.
  pose proof (lookup_put TLog l T) as Hnew. pose proof (lookup_put_ne TLog l T) as Hold.
  change (rows TLog (put TLog l T)) with (t_logs (put TLog l T)) in *. change (rows TLog T) with (t_logs T) in *. split.
  - intros [k Hk]. destruct (decide (k = pk TLog l)) as [->|Hne].
    + left. pose proof (eq_trans (eq_sym Hk) Hnew) as Ex. by injection Ex.
    + right. exists k. exact (eq_trans (eq_sym (Hold k Hne)) Hk).
  - intros [->|[k Hk]]; [by exists (pk TLog l)|]. exists k. refine (eq_trans (Hold k _) Hk). intros ->.
    pose proof (eq_trans (eq_sym E) Hk) as Ex. discriminate Ex.
Qed.

Lemma put_logs_elem ls : forall T T', rfold (put_new TLog) T ls = Ok T' ->
  forall x, (exists k, t_logs T' !! k = Some x) <-> x ∈ ls \/ exists k, t_logs T !! k = Some x.
Proof.
  induction ls as [|l ls IH]; intros T T'; cbn [rfold].
  - intros [= <-] x. set_solver.
  - intros (T1 & H1 & H2)%result_bind_ok x. rewrite (IH _ _ H2), (put_new_elem _ _ _ H1), elem_of_cons. tauto.
Qed.

(** Storing a block adds its logs, and no others. *)
Lemma put_models_logs m T T' : put_models m T = Ok T' ->
  forall x, (exists k, t_logs T' !! k = Some x) <-> x ∈ bm_logs m \/ exists k, t_logs T !! k = Some x.
Proof.
  intros (T1 & T2 & T3 & T4 & _ & _ & H3 & _ & -> & [K1 _] & [K2 _] & _ & [K4 _])%put_models_inv x.
  assert (E1 : t_logs T2 = t_logs T).
  { transitivity (rows TLog T1); [by apply (K2 TLog)|by apply (K1 TLog)]. }
  assert (E2 : t_logs (put TIndexedRound (mkIndexedRound Continues (blk_Round (bm_blk m))) T4) = t_logs T3).
  { transitivity (rows TLog T4); [done|by apply (K4 TLog)]. }
  by rewrite E2, <- E1, (put_logs_elem _ _ _ H3).
Qed.

Lemma toModels_logs header items cp m st : toModels header items cp = Ok m -> decode header items = Ok st ->
  bm_logs m = modelLog <$> ds_logs st.
Proof.
  unfold toModels. intros Hm Hd. rewrite Hd in Hm. cbn [mbind result_bind] in Hm. revert Hm.
  intros ([[[blk txs] rcs] dbl] & Hbm & [= <-])%result_bind_ok. by apply blockToModels_inv in Hbm as [-> _].
Qed.

(** ** The order of the logs of a block *)
Lemma StronglySorted_of_lookup {X} (Rel : X -> X -> Prop) l :
  (forall i j x y, (i < j)%nat -> l !! i = Some x -> l !! j = Some y -> Rel x y) -> StronglySorted Rel l.
Proof.
  induction l as [|x l IH]; intros Hl; constructor.
  - apply IH. intros i j y z Hij Hi Hj. by apply (Hl (S i) (S j)); [lia| |].
  - apply Forall_lookup. intros j y Hj. by apply (Hl 0%nat (S j)); [lia| |].
Qed.

Definition log_le (a b : Log) : Prop := lexle (log_key a) (log_key b).

Lemma log_le_block a b : log_Round a = log_Round b ->
  log_le a b <-> log_TxIndex a < log_TxIndex b \/ log_TxIndex a = log_TxIndex b /\ log_Index a <= log_Index b.
Proof.
  intros E. unfold log_le, log_key. cbn [lexle]. rewrite E, Z.ltb_irrefl, Z.eqb_refl. cbn [orb andb].
  destruct (Z.ltb_spec (log_TxIndex a) (log_TxIndex b)), (Z.eqb_spec (log_TxIndex a) (log_TxIndex b)),
    (Z.ltb_spec (log_Index a) (log_Index b)), (Z.eqb_spec (log_Index a) (log_Index b)); cbn; split; intros; try done; try lia.
Qed.

Lemma block_logs_sorted header items st : decode header items = Ok st ->
  Z.of_nat (length (ds_logs st)) < 2 ^ 64 -> Z.of_nat (length (ds_ethTxs st)) < 2 ^ 32 ->
  StronglySorted log_le (modelLog <$> ds_logs st) /\ NoDup (modelLog <$> ds_logs st) /\
  (forall a b, a ∈ modelLog <$> ds_logs st -> b ∈ modelLog <$> ds_logs st -> log_le a b -> log_le b a -> a = b) /\
  Forall (fun l => log_Round l = oh_Round header) (modelLog <$> ds_logs st).
Proof.
  intros Hd H1 H2. destruct (decode_logs_positions header items st Hd H1 H2) as [Hp Hs].
  assert (Hr : Forall (fun l => log_Round l = oh_Round header) (modelLog <$> ds_logs st)).
  { apply Forall_fmap, Forall_lookup. intros k l Hk. by destruct (Hp k l Hk) as (_ & ? & _). }
  assert (Hle : forall i j x y, (i <= j)%nat -> ds_logs st !! i = Some x -> ds_logs st !! j = Some y ->
    log_le (modelLog x) (modelLog y)).
  { intros i j x y Hij Hi Hj. destruct (Hp i x Hi) as (E1 & E2 & _), (Hp j y Hj) as (E3 & E4 & _).
    apply log_le_block; cbn [modelLog log_Round log_TxIndex log_Index]; [congruence|].
    specialize (Hs i j x y Hij Hi Hj). lia. }
  assert (Hinj : forall i j x y, ds_logs st !! i = Some x -> ds_logs st !! j = Some y ->
    el_Index x = el_Index y -> i = j).
  { intros i j x y Hi Hj E. destruct (Hp i x Hi) as [E1 _], (Hp j y Hj) as [E3 _]. lia. }
  split; [|split; [|split; [|done]]].
  - apply StronglySorted_of_lookup. intros i j x y Hij Hi Hj.
    apply list_lookup_fmap_Some in Hi as (x' & -> & Hi), Hj as (y' & -> & Hj). by apply (Hle i j); [lia| |].
  - apply NoDup_alt. intros i j x Hi Hj.
    apply list_lookup_fmap_Some in Hi as (x' & -> & Hi), Hj as (y' & E & Hj).
    apply (Hinj i j x' y' Hi Hj). by apply (f_equal log_Index) in E.
  - intros a b Ha Hb Hab Hba. pose proof Hr as Hr'. rewrite Forall_forall in Hr'.
    assert (E : log_Round a = log_Round b) by (by rewrite !Hr').
    apply (log_le_block a b E) in Hab. apply (log_le_block b a (eq_sym E)) in Hba.
    apply list_elem_of_fmap in Ha as (x & -> & [i Hi]%list_elem_of_lookup), Hb as (y & -> & [j Hj]%list_elem_of_lookup).
    cbn [modelLog log_TxIndex log_Index] in *. assert (i = j) as -> by (apply (Hinj i j x y Hi Hj); lia). congruence.
Qed.

(** ** eth_getLogs for one block *)
(** The filter names the block by its hash, or by its number twice. *)
Definition asks_for (f : FilterCriteria) (header : oheader) : Prop :=
  fc_BlockHash f = Some (blockHash header) \/
  fc_BlockHash f = None /\ fc_FromBlock f = Some (oh_Round header) /\ fc_ToBlock f = Some (oh_Round header) /\
    0 < oh_Round header < 2 ^ 63.

Lemma api_on_backend_limits {X} m (api : api_t) :
  api_methodLimits (api_on_backend (X:=X) m api).2 = api_methodLimits api.
Proof. unfold api_on_backend. by destruct (m (api_backend api)). Qed.

Lemma block_range f header b (api : api_t) : asks_for f header -> st_up (api_db api) -> tables_wf (st_view (api_db api)) ->
  t_blocks (st_view (api_db api)) !! (Hash_Hex (blockHash header), 0) = Some b -> blk_Round b = oh_Round header ->
  exists api1, getStartEndRounds f api = (Ok (oh_Round header, oh_Round header), api1) /\
    st_same (api_db api) (api_db api1) /\ api_methodLimits api1 = api_methodLimits api.
Proof.
  intros [Hf|(Hf & H1 & H2 & Hr)] Hup Hwf Hb Hn.
  - unfold getStartEndRounds. rewrite Hf. unfold or_return, attempt.
    destruct (api_read (st_GetBlockRound HDb (Hash_Hex (blockHash header))) _ api (st_law_GetBlockRound HDb _) Hup)
      as (r & api1 & E & Hl & Hs).
    pose proof (api_on_backend_limits (on_storage (st_GetBlockRound HDb (Hash_Hex (blockHash header)))) api) as Hlim.
    cbn [bk_QueryBlockRound indexBackend_Backend]. unfold indexBackend_QueryBlockRound. rewrite E in *.
    apply (GetBlockRound_found _ _ b _ Hwf Hb) in Hl as ->. rewrite Hn. by exists api1.
  - exists api. split; [by apply (filter_range f api Hf)|]. done.
Qed.

(** C17: From the node to the client: after a block has been indexed on a healthy
    database that had no logs of its round, eth_getLogs for that block, by hash or by
    number, returns exactly the logs decoded from the node's results that the filter
    selects, in the order of the block. *)
Theorem indexed_logs_visible header items cp rt st f (ib : indexBackend) out (api : api_t) :
  decode header items = Ok st ->
  Z.of_nat (length (ds_logs st)) < 2 ^ 64 -> Z.of_nat (length (ds_ethTxs st)) < 2 ^ 32 ->
  st_up (ib_storage ib) -> tables_wf (st_view (ib_storage ib)) -> is_u64 (oh_Round header) ->
  (forall k x, t_logs (st_view (ib_storage ib)) !! k = Some x -> log_Round x <> oh_Round header) ->
  indexBackend_Index header items cp rt ib = (Ok out, api_backend api) ->
  asks_for f header -> (forall l, api_methodLimits api = Some l -> 0 <= GetLogsMaxRounds l) ->
  exists api', api_GetLogs f api = (Ok (filter (log_selected f) (ds_logs st)), api').
Proof.
  intros Hd H1 H2 Hup Hwf Hu Hfresh HI Hf Hlim.
  destruct (indexBackend_Index_models _ _ _ _ _ _ _ Hup Hwf HI) as (m & Hm & HT & _ & Hup').
  assert (Hwf' : tables_wf (st_view (api_db api))) by (by eapply put_models_wf). destruct (toModels_round _ _ _ _ Hm) as [Hh Hn].
  destruct (put_models_found _ _ _ HT) as (Hb & _). rewrite Hh in Hb.
  destruct (block_range f header _ api Hf Hup' Hwf' Hb) as (api1 & Er & (Hv & Hs) & Hl); [done|].
  destruct (block_logs_sorted header items st Hd H1 H2) as (Hsort & Hnd & Hanti & Hround).
  pose proof (GetLogs_rows f _ _ api api1 Er) as HG. rewrite Hv in HG. rewrite Z.ltb_irrefl, Z.sub_diag, Hl in HG.
  assert (El : match api_methodLimits api with
    | Some l => negb (GetLogsMaxRounds l =? 0) && (GetLogsMaxRounds l <? 0) | None => false end = false).
  { destruct (api_methodLimits api) as [l|]; [|done]. specialize (Hlim l eq_refl).
    rewrite (proj2 (Z.ltb_ge _ _)) by done. by rewrite andb_false_r. }
  rewrite El in HG. cbn [orb] in HG.
  destruct (HG (proj1 (proj2 Hs) Hup') Hwf' Hu Hu) as (rows & api2 & E & _ & Hnd' & Hsort' & Hin).
  exists api2. rewrite E. do 2 f_equal.
  assert (Hblock : forall x, (exists k, t_logs (st_view (api_db api)) !! k = Some x) /\
    oh_Round header <= log_Round x <= oh_Round header <-> x ∈ modelLog <$> ds_logs st).
  { intros x. unfold api_db. rewrite (put_models_logs _ _ _ HT x), (toModels_logs _ _ _ _ _ Hm Hd).
    rewrite Forall_forall in Hround. split.
    - intros [[Hx|[k Hk]] Hx']; [done|]. apply Hfresh in Hk. lia.
    - intros Hx. split; [by left|]. rewrite (Hround x Hx). lia. }
  rewrite <- (DB2EthLogs_modelLogs (ds_logs st)). unfold DB2EthLogs.
  change (map modelLog (ds_logs st)) with (modelLog <$> ds_logs st). rewrite (filter_fmap db2EthLog).
  f_equal. apply (StronglySorted_unique_strong log_le).
  - intros a b Ha Hx. apply list_elem_of_filter in Hx as [_ Hx]. apply Hin in Ha as (Ha1 & _ & Ha2).
    apply Hanti; [|done]. by apply Hblock.
  - apply Sorted_StronglySorted; [|done]. intros a b c. apply lexle_trans.
  - by apply StronglySorted_filter.
  - apply NoDup_Permutation; [done|by apply NoDup_filter|]. intros x. rewrite Hin, list_elem_of_filter, <- Hblock. tauto.
Qed.
End EndToEnd.

(** ** Witness: the block of StoreBlock.v, by hash and by number *)
Lemma ex_no_logs k (x : Log) : t_logs (st_view (ib_storage (NewIndexBackend (ex_db [])))) !! k = Some x -> log_Round x <> 5.
Proof. intros Hx. exfalso. revert Hx. cbn. by rewrite lookup_empty. Qed.

Lemma indexed_logs_visible_witness :
  negb (length (ds_logs ex_decodeState) =? 0)%nat = true /\
  exists api1 api2,
    api_GetLogs (mkFilterCriteria (Some (blockHash ex_oheader)) None None [] []) ex_indexed_api =
      (Ok (filter (log_selected (mkFilterCriteria (Some (blockHash ex_oheader)) None None [] [])) (ds_logs ex_decodeState)), api1) /\
    api_GetLogs (mkFilterCriteria None (Some 5) (Some 5) [] []) ex_indexed_api =
      (Ok (filter (log_selected (mkFilterCriteria None (Some 5) (Some 5) [] [])) (ds_logs ex_decodeState)), api2).
Proof.
  split; [vm_compute; reflexivity|]. destruct ex_after_index_ok as [out Hout].
  assert (Hv : forall f, asks_for f ex_oheader ->
    exists api', api_GetLogs f ex_indexed_api = (Ok (filter (log_selected f) (ds_logs ex_decodeState)), api')).
  { intros f Hf. apply (indexed_logs_visible ex_oheader ex_items None None ex_decodeState f (NewIndexBackend (ex_db [])) out);
      [exact ex_decodeState_ok|vm_compute; reflexivity|vm_compute; reflexivity|constructor|apply empty_tables_wf
      |vm_compute; split; [discriminate|reflexivity]|exact ex_no_logs|exact Hout|exact Hf|discriminate]. }
  destruct (Hv (mkFilterCriteria (Some (blockHash ex_oheader)) None None [] [])) as [api1 H1]; [by left|].
  destruct (Hv (mkFilterCriteria None (Some 5) (Some 5) [] [])) as [api2 H2]; [right; vm_compute; repeat split|].
  exists api1, api2. split; [exact H1|exact H2].
Defined.
