(* ===== verification/EthCall.v ===== *)
(** * Simulating and submitting transactions (src/rpc/eth/api.go, src/rpc/eth/revert_errors.go)

    eth_call, eth_estimateGas and eth_sendRawTransaction, and the conversion of
    a failed simulation into the error with data that clients expect.  The text
    of an error ([err.Error()]) and the ABI coder are parameters ([CallLib]). *)
From Stdlib Require Import Ascii.
From S2P Require Import Prelude GoLib Model Gas FeeHistory Sql Storage Psql Extern BlockModels EthViews StoreBlock IndexBackend Source Archive EthApi.

Class CallLib := {
  (** [err.Error()] *)
  error_String : error -> string;
  (** [abi.Arguments{{Type: string}}.Pack] and [abi.UnpackRevert] *)
  abi_PackString : string -> result (list byte);
  abi_UnpackRevert : list byte -> result string;
}.

Section EthCall.
Context `{O : OasisLib} `{!Backend B} `{!NodeSource C} `{!EthClient A} `{R : EthRpc} `{L : CallLib}.

Local Notation API := (publicAPI (B:=B) (C:=C) (A:=A)).

(** ** Revert errors *)
Definition revertErrorPrefix : string := "reverted: ".

(** [hexutil.Encode] *)
Definition hexutil_Encode (bs : list byte) : string := ("0x" +:+ hex_EncodeToString bs)%string.

(** Keccak256("Error(string)") *)
Definition errorSelector : list byte := [Byte.x08; Byte.xc3; Byte.x79; Byte.xa0].

(** The methods of [revertError].  The RPC server of go-ethereum sends the data and the
    code of an error that has these methods itself; it does not unwrap errors. *)
Definition ErrorData (e : error) : option string :=
  match e with ErrRevert _ reason => Some reason | _ => None end.
Definition ErrorCode (e : error) : option Z :=
  match e with ErrRevert _ _ => Some 3 | _ => None end.

Definition newRevertErrorV1 (revertErr : error) : error :=
  let revertReason := strings_TrimPrefix (error_String revertErr) revertErrorPrefix in
  if bool_decide (revertReason = ""%string) then ErrRevert (ErrNew "execution reverted") ""
  else match abi_PackString revertReason with
       | Err _ => ErrRevert revertErr ""
       | Ok packed => ErrRevert (ErrNew ("execution reverted: " +:+ revertReason)%string)
                        (hexutil_Encode (errorSelector ++ packed))
       end.

Definition newRevertErrorV2 (revertErr : error) : error :=
  let b64Reason := strings_TrimPrefix (error_String revertErr) revertErrorPrefix in
  match b64_DecodeString b64Reason with
  | None => ErrRevert revertErr ""
  | Some rawReason =>
      ErrRevert (match abi_UnpackRevert rawReason with
                 | Ok reason => ErrNew ("execution reverted: " +:+ reason)%string
                 | Err _ => ErrNew "execution reverted"
                 end) (hexutil_Encode rawReason)
  end.

(** The runtime info of the indexer, or of the node when the indexer has none. *)
Definition call_rtInfo : M API (option RuntimeInfoResponse) :=
  api ← get_api;
  match bk_RuntimeInfo (api_backend api) with
  | Some i => mret (Some i)
  | None => attempt (api_on_source ns_CoreRuntimeInfo) (fun r => match r with
      | Ok i => mret (Some i)
      | Err _ => mret None
      end)
  end.

Definition handleCallFailure (err : error) : M API error :=
  if negb (strings_HasPrefix (error_String err) revertErrorPrefix) then mret err
  else
    rtInfo ← call_rtInfo;
    mret (match rtInfo with
          | Some i => if 1 <? rt_evm_Version i then newRevertErrorV2 err else newRevertErrorV1 err
          | None => newRevertErrorV2 err
          end).

(** ** eth_call *)

(** The arguments of the simulation, with the defaults of the source; [input]
    is preferred to [data]. *)
Definition simulate_args (args : TransactionArgs) (round : Z) : SimulateCall :=
  mkSimulateCall round
    (match ta_GasPrice args with Some p => big_Bytes p | None => [Byte.x01] end)
    (default 30000000 (ta_Gas args))
    (Address_Bytes (default (BytesToAddress (Byte.x01 :: replicate 19 Byte.x00)) (ta_From args)))
    (match ta_To args with Some a => Address_Bytes a | None => [] end)
    (match ta_Value args with Some v => big_Bytes v | None => [Byte.x00] end)
    (match ta_Input args with Some i => i | None => default [] (ta_Data args) end).

Definition api_Call (args : TransactionArgs) (b : BlockNumberOrHash) : M API (list byte) :=
  round ← getBlockRound b;
  archive_or round (Client_Call args round)
    (attempt (api_on_source (ns_EVMSimulateCall (simulate_args args round))) (fun r => match r with
      | Ok res => mret res
      | Err err => e ← handleCallFailure err; fail e
      end)).

(** ** eth_sendRawTransaction *)
Definition api_SendRawTransaction (data : list byte) : M API ehash :=
  match UnmarshalBinary data with
  | Err _ => fail ErrMalformedTransaction
  | Ok ethTx =>
      _ ← api_on_source (ns_SubmitTxNoWait data ["evm.ethereum.v0"%string]);
      mret (Tx_Hash ethTx)
  end.

(** ** eth_estimateGas *)
Definition estimateGasDummySigSpec : SignatureAddressSpec :=
  NewSignatureAddressSpecSecp256k1Eth (secp256k1_NewSigner_Public
    (sha512_Sum512_256 (bytes_of_string "estimateGas: dummy sigspec"))).

Definition api_EstimateGas (args : TransactionArgs) (blockNum : option Z) : M API Z :=
  let from := default zeroAddress (ta_From args) in
  let ethTxValue := big_Bytes (default 0 (ta_Value args)) in
  let ethTxInput := match ta_Input args with Some i => i | None => default [] (ta_Data args) end in
  round ← (match blockNum with Some n => roundParamFromBlockNum n | None => mret RoundLatest end);
  api ← get_api;
  let tx := match ta_To args with
    | None => ns_EVMCreate (api_source api) ethTxValue ethTxInput
    | Some to => ns_EVMCall (api_source api) (Address_Bytes to) ethTxValue ethTxInput
    end in
  api_on_source (ns_CoreEstimateGasForCaller round (Address_Bytes from)
    (AppendAuthSignature estimateGasDummySigSpec 0 tx) true).

(** The node's reverts are in the format of EVM module version 1: the runtime info
    says so, taken from the indexer or, when it has none, from the node. *)
Definition old_format (api : API) (c : C) : bool :=
  match bk_RuntimeInfo (api_backend api) with
  | Some i => negb (1 <? rt_evm_Version i)
  | None => match fst (ns_CoreRuntimeInfo c) with Ok i => negb (1 <? rt_evm_Version i) | Err _ => false end
  end.

Lemma has_prefix reason : strings_HasPrefix (revertErrorPrefix +:+ reason) revertErrorPrefix = true.
Proof. unfold strings_HasPrefix. cbn. by destruct reason. Qed.

Lemma trim_prefix reason : strings_TrimPrefix (revertErrorPrefix +:+ reason) revertErrorPrefix = reason.
Proof.
  unfold strings_TrimPrefix. rewrite has_prefix.
  change (drop_string (String.length revertErrorPrefix) (revertErrorPrefix +:+ reason)) with (drop_string 0 reason).
  apply drop_string_0.
Qed.

(** A reverted call on the node: the format of its error decides how it is read. *)
Lemma node_revert args b round (api api1 : API) err c' reason :
  getBlockRound b api = (Ok round, api1) -> shouldQueryArchive round api1 = false ->
  ns_EVMSimulateCall (simulate_args args round) (api_source api1) = (Err err, c') ->
  error_String err = (revertErrorPrefix +:+ reason)%string ->
  fst (api_Call args b api) = Err (if old_format api1 c' then newRevertErrorV1 err else newRevertErrorV2 err).
Proof.
  intros Hr Ha Hc Htext. unfold api_Call. rewrite (M_bind_ok _ _ _ _ _ Hr).
  unfold archive_or, mbind, M_bind, get_api. rewrite Ha. unfold attempt, api_on_source. rewrite Hc.
  unfold handleCallFailure. rewrite Htext, has_prefix. cbn [negb].
  unfold call_rtInfo, mbind, M_bind, get_api, old_format. cbn [api_backend].
  destruct (bk_RuntimeInfo (api_backend api1)) as [i|]; [cbn; by destruct (1 <? rt_evm_Version i)|].
  unfold attempt, api_on_source. cbn [api_source].
  destruct (ns_CoreRuntimeInfo c') as [[i|e0] c'']; cbn; [|done]. by destruct (1 <? rt_evm_Version i).
Qed.

(** C33: What the client gets of a reverted eth_call.  From the node: when it reports
    the raw bytes base64 encoded (EVM module version 2 on, assumed when the version
    is unknown) the error carries exactly these bytes, hex encoded, as its data; when
    it reports a readable reason (version 1) the data is the ABI encoding of
    Error(string) for that reason; the code is 3 both times.  From the archive: the
    error is wrapped, and arrives without data and code. *)
Theorem revert_data_roundtrip args b round (api api1 : API) :
  getBlockRound b api = (Ok round, api1) ->
  (forall err c', shouldQueryArchive round api1 = false ->
     ns_EVMSimulateCall (simulate_args args round) (api_source api1) = (Err err, c') ->
     (forall raw, old_format api1 c' = false ->
        error_String err = (revertErrorPrefix +:+ b64_EncodeToString raw)%string ->
        exists e, fst (api_Call args b api) = Err e /\
          ErrorData e = Some (hexutil_Encode raw) /\ ErrorCode e = Some 3) /\
     (forall reason packed, old_format api1 c' = true -> reason <> ""%string -> abi_PackString reason = Ok packed ->
        error_String err = (revertErrorPrefix +:+ reason)%string ->
        exists e, fst (api_Call args b api) = Err e /\
          ErrorData e = Some (hexutil_Encode (errorSelector ++ packed)) /\ ErrorCode e = Some 3)) /\
  (shouldQueryArchive round api1 = true -> forall e, fst (api_Call args b api) = Err e ->
     ErrorData e = None /\ ErrorCode e = None).
Proof.
  intros Hr. split; [intros err c' Ha Hc; split|].
  - intros raw Hold Htext. rewrite (node_revert _ _ _ _ _ _ _ _ Hr Ha Hc Htext), Hold. eexists. split; [done|].
    unfold newRevertErrorV2. rewrite Htext, trim_prefix, b64_decode_encode. done.
  - intros reason packed Hold Hne Hp Htext. rewrite (node_revert _ _ _ _ _ _ _ _ Hr Ha Hc Htext), Hold. eexists. split; [done|].
    unfold newRevertErrorV1. rewrite Htext, trim_prefix, bool_decide_eq_false_2 by done. by rewrite Hp.
  - intros Ha e. unfold api_Call. rewrite (M_bind_ok _ _ _ _ _ Hr).
    unfold archive_or, mbind, M_bind, get_api. rewrite Ha. unfold on_archive.
    destruct (api_archiveClient api1) as [cl|]; [|by intros [= <-]]. unfold Client_Call, on_inner_client.
    destruct (ta_From args) as [from|]; [|by intros [= <-]]. destruct (ac_inner cl) as [a|]; [|by intros [= <-]].
    destruct (ec_CallContract _ _ a) as [[x|e'] a']; [done|]. by intros [= <-].
Qed.

(** The node and the archive are asked to execute the same call: for a request
    with a sender and a gas limit both get the same sender, recipient, gas limit
    and data ([input] before [data]), and the node gets the requested value and
    price as big-endian numbers (price 1 when none is given).  Without a sender
    the node is still asked, with a default one, but the archive refuses. *)
Theorem call_paths_agree args round (cl : Client A) :
  (forall v, ta_Value args = Some v -> 0 <= v) -> (forall p, ta_GasPrice args = Some p -> 0 <= p) ->
  let sc := simulate_args args round in
  be_value (sc_value sc) = default 0 (ta_Value args) /\
  be_value (sc_gasPrice sc) = default 1 (ta_GasPrice args) /\
  match ta_From args with
  | Some from =>
      let m := callMsg from args in
      sc_caller sc = Address_Bytes (cm_From m) /\
      sc_address sc = match cm_To m with Some a => Address_Bytes a | None => [] end /\
      sc_data sc = cm_Data m /\ cm_Value m = ta_Value args /\ cm_GasPrice m = ta_GasPrice args /\
      (ta_Gas args <> None -> sc_gasLimit sc = cm_Gas m)
  | None => is_Ok (fst (Client_Call args round cl)) = false
  end.
Proof.
  intros Hv Hp sc. unfold sc, simulate_args. cbn [sc_value sc_gasPrice sc_caller sc_address sc_data sc_gasLimit].
  split; [|split].
  - destruct (ta_Value args) as [v|]; [|done]. rewrite big_Bytes_value. cbn. specialize (Hv v eq_refl). lia.
  - destruct (ta_GasPrice args) as [p|]; [|done]. rewrite big_Bytes_value. cbn. specialize (Hp p eq_refl). lia.
  - destruct (ta_From args) as [from|] eqn:Ef.
    + cbn. repeat split. by destruct (ta_Gas args).
    + unfold Client_Call. by rewrite Ef.
Qed.
End EthCall.

(** ** Witnesses *)
#[export] Instance ex_CallLib : CallLib := {|
  error_String e := match e with ErrNew m => m | _ => "error"%string end;
  abi_PackString s := Ok (bytes_of_string s);
  abi_UnpackRevert bs := match bs with [] => Err (ErrNew "invalid data for unpacking") | _ => Ok "reason"%string end;
|}.

Definition ex_args : TransactionArgs :=
  mkTransactionArgs (E:=ex_EthLib) (Some "from"%string) None (Some 21000) None None None (Some 300) None
    (Some [Byte.x01]) (Some [Byte.x02]) None None.

Lemma revert_data_roundtrip_witness : exists e,
  fst (api_Call ex_args ex_at7 (ex_api (ex_db []) None)) = Err e /\ ErrorData e = Some "0x08c379a0"%string.
Proof.
  destruct (revert_data_roundtrip ex_args ex_at7 7 (ex_api (ex_db []) None) (ex_api (ex_db []) None)) as [Hn _].
  { reflexivity. }
  destruct (Hn (ErrNew "reverted: CMN5oA==") (mkExNode 9) eq_refl eq_refl) as [H2 _].
  destruct (H2 [Byte.x08; Byte.xc3; Byte.x79; Byte.xa0]) as (e & E & Hd & _).
  - vm_compute. reflexivity.
  - vm_compute. reflexivity.
  - exists e. split; [exact E|exact Hd].
Defined.

Lemma call_paths_agree_witness :
  be_value (sc_value (simulate_args ex_args 7)) = 300 /\ sc_data (simulate_args ex_args 7) = [Byte.x02].
Proof.
  destruct (call_paths_agree ex_args 7 (mkClient (Some 0%nat) 50)) as (Hv & _ & _ & _ & Hd & _).
  - intros v [= <-]. lia.
  - discriminate.
  - split; [exact Hv|exact Hd].
Defined.
