(* ===== verification/Filters.v ===== *)
(** * The event system behind log and head subscriptions (src/filters/event_system.go)

    [EventSystem] is the state of [eventLoop]: the index of installed
    subscriptions, and for each subscription what was written to its channel.
    A step is one iteration of the loop: a chain event of the indexer, an
    installation or a removal.  A write to a channel waits for the subscriber,
    which does not change what is written; time and identifiers are given. *)
From S2P Require Import Prelude GoLib Model Gas FeeHistory Sql Storage Psql Extern BlockModels EthViews StoreBlock IndexBackend Source Archive EthApi.

Section Filters.
Context `{O : OasisLib} `{R : EthRpc}.

(** [Type]; the two kinds of subscription that exist. *)
Inductive SubType := LogsSubscription | BlocksSubscription.
#[export] Instance SubType_eq_dec : EqDecision SubType.
Proof. solve_decision. Defined.

Record subscription := mkSubscription {
  sub_id : string;
  sub_typ : SubType;
  sub_logsCrit : FilterCriteria;
}.

(** [es_logsOut] and [es_headersOut] are the channels [logs] and [headers]. *)
Record EventSystem := mkEventSystem {
  es_logs : gmap string subscription;
  es_blocks : gmap string subscription;
  es_logsOut : gmap string (list (list EthLog));
  es_headersOut : gmap string (list EthHeader);
}.

Definition NewEventSystem : EventSystem := mkEventSystem ∅ ∅ ∅ ∅.

(** [big.Int.Uint64]: the low 64 bits of the absolute value. *)
Definition big_Uint64 (z : Z) : Z := u64 (Z.abs z).

Definition emptyCrit : FilterCriteria := mkFilterCriteria None None None [] [].

(** [SubscribeLogs] up to the installation. *)
Definition SubscribeLogs (id : string) (crit : FilterCriteria) : result subscription :=
  let from := match fc_FromBlock crit with None => LatestBlockNumber | Some n => big_Int64 n end in
  let to := match fc_ToBlock crit with None => LatestBlockNumber | Some n => big_Int64 n end in
  let sub := mkSubscription id LogsSubscription crit in
  if (from =? LatestBlockNumber) && (to =? LatestBlockNumber) then Ok sub
  else if (0 <=? from) && (0 <=? to) && (from <=? to) then Ok sub
  else if (0 <=? from) && (to =? LatestBlockNumber) then Ok sub
  else Err (ErrNew "invalid from and to block combination: from > to").

Definition SubscribeNewHeads (id : string) : subscription := mkSubscription id BlocksSubscription emptyCrit.

(** The loop over the topic positions; an index out of range of [log.Topics]
    does not occur after the length check. *)
Fixpoint filter_topics (topics : list ehash) (subs : list (list ehash)) (i : nat) : bool :=
  match subs with
  | [] => true
  | sub :: rest =>
      if (0 <? length sub)%nat && negb (existsb (fun t => bool_decide (topics !! i = Some t)) sub) then false
      else filter_topics topics rest (S i)
  end.

Fixpoint filterLogs (logs : list EthLog) (fromBlock toBlock : option Z) (addresses : list eaddr)
    (topics : list (list ehash)) : list EthLog :=
  match logs with
  | [] => []
  | log :: rest =>
      let ret := filterLogs rest fromBlock toBlock addresses topics in
      if match fromBlock with
         | Some n => (0 <=? big_Int64 n) && (el_BlockNumber log <? big_Uint64 n)
         | None => false
         end then ret
      else if match toBlock with
         | Some n => (0 <=? big_Int64 n) && (big_Uint64 n <? el_BlockNumber log)
         | None => false
         end then ret
      else if (0 <? length addresses)%nat && negb (existsb (fun a => bool_decide (a = el_Address log)) addresses)
      then ret
      else if (length (el_Topics log) <? length topics)%nat then ret
      else if filter_topics (el_Topics log) topics 0 then log :: ret
      else ret
  end.

Definition send {X} (id : string) (m : X) (out : gmap string (list X)) : gmap string (list X) :=
  <[id := default [] (out !! id) ++ [m]]> out.

(** The logs of an event for one subscription. *)
Definition matchedLogs (f : subscription) (ev : ChainEvent) : list EthLog :=
  let c := sub_logsCrit f in
  filterLogs (DB2EthLogs (ce_Logs ev)) (fc_FromBlock c) (fc_ToBlock c) (fc_Addresses c) (fc_Topics c).

(** The bodies of the loops over the subscriptions. *)
Definition handleLogs_one (ev : ChainEvent) (out : gmap string (list (list EthLog)))
    (kf : string * subscription) : gmap string (list (list EthLog)) :=
  let l := matchedLogs (snd kf) ev in
  if (0 <? length l)%nat then send (fst kf) l out else out.

Definition handleChainEvent_one (ev : ChainEvent) (out : gmap string (list EthHeader))
    (kf : string * subscription) : result (gmap string (list EthHeader)) :=
  header ← DB2EthHeader (ce_Block ev);
  Ok (send (fst kf) header out).

Definition handleLogs (es : EventSystem) (ev : ChainEvent) : EventSystem :=
  mkEventSystem (es_logs es) (es_blocks es)
    (foldl (handleLogs_one ev) (es_logsOut es) (map_to_list (es_logs es))) (es_headersOut es).

Definition handleChainEvent (es : EventSystem) (ev : ChainEvent) : result EventSystem :=
  out ← rfold (handleChainEvent_one ev) (es_headersOut es) (map_to_list (es_blocks es));
  Ok (mkEventSystem (es_logs es) (es_blocks es) (es_logsOut es) out).

Inductive loop_event :=
  | EvChain (ev : ChainEvent)
  | EvInstall (f : subscription)
  | EvUninstall (f : subscription).

(** One iteration of [eventLoop]; a panic ends the process. *)
Definition eventLoop_step (es : EventSystem) (e : loop_event) : result EventSystem :=
  match e with
  | EvChain ev => handleChainEvent (handleLogs es ev) ev
  | EvInstall f => Ok (match sub_typ f with
      | LogsSubscription => mkEventSystem (<[sub_id f := f]> (es_logs es)) (es_blocks es) (es_logsOut es) (es_headersOut es)
      | BlocksSubscription => mkEventSystem (es_logs es) (<[sub_id f := f]> (es_blocks es)) (es_logsOut es) (es_headersOut es)
      end)
  | EvUninstall f => Ok (match sub_typ f with
      | LogsSubscription => mkEventSystem (delete (sub_id f) (es_logs es)) (es_blocks es) (es_logsOut es) (es_headersOut es)
      | BlocksSubscription => mkEventSystem (es_logs es) (delete (sub_id f) (es_blocks es)) (es_logsOut es) (es_headersOut es)
      end)
  end.

Definition eventLoop (es : EventSystem) (evs : list loop_event) : result EventSystem :=
  rfold eventLoop_step es evs.

(** ** Lemmas *)
Lemma filter_topics_loop topics subs : forall i, filter_topics topics subs i = topics_loop topics subs i.
Proof.
  induction subs as [|sub subs IH]; intros i; cbn [filter_topics topics_loop]; [done|].
  destruct sub as [|t sub]; cbn [length Nat.ltb Nat.leb Nat.eqb andb]; [apply IH|].
  destruct (existsb _ (t :: sub)); cbn [negb]; [apply IH|done].
Qed.

(** Reference: the block range of a subscription; negative bounds are tags. *)
Definition log_in_range (c : FilterCriteria) (log : EthLog) : Prop :=
  match fc_FromBlock c with Some n => big_Int64 n < 0 \/ big_Uint64 n <= el_BlockNumber log | None => True end /\
  match fc_ToBlock c with Some n => big_Int64 n < 0 \/ el_BlockNumber log <= big_Uint64 n | None => True end.

#[export] Instance log_in_range_dec c log : Decision (log_in_range c log).
Proof. unfold log_in_range. destruct (fc_FromBlock c), (fc_ToBlock c); apply _. Defined.

Definition log_wanted (c : FilterCriteria) (log : EthLog) : Prop := log_in_range c log /\ log_selected c log.

Lemma filterLogs_spec c (logs : list EthLog) :
  filterLogs logs (fc_FromBlock c) (fc_ToBlock c) (fc_Addresses c) (fc_Topics c) = filter (log_wanted c) logs.
Proof.
  induction logs as [|log logs IH]; [done|]. cbn [filterLogs]. rewrite filter_cons, IH.
  assert (Hs : log_selected c log <-> addressMatch c log = true /\ TopicsMatch log (fc_Topics c) = true)
    by (unfold log_selected; by rewrite <- addressMatch_spec, <- TopicsMatch_ref).
  assert (Hskip : forall b (x : list EthLog), (b = true -> ~ log_wanted c log) ->
    (b = false -> x = if decide (log_wanted c log) then log :: filter (log_wanted c) logs else filter (log_wanted c) logs) ->
    (if b then filter (log_wanted c) logs else x) =
    if decide (log_wanted c log) then log :: filter (log_wanted c) logs else filter (log_wanted c) logs).
  { intros [|] x Hb Hx; [by rewrite decide_False by auto|auto]. }
  apply Hskip; [|intros Hf].
  { unfold log_wanted, log_in_range. destruct (fc_FromBlock c); [lia|done]. }
  apply Hskip; [|intros Ht].
  { unfold log_wanted, log_in_range. destruct (fc_ToBlock c); [lia|done]. }
  assert (Hr : log_in_range c log).
  { unfold log_in_range. destruct (fc_FromBlock c), (fc_ToBlock c); split; try done; lia. }
  assert (Ha : ((0 <? length (fc_Addresses c))%nat && negb (existsb (fun a => bool_decide (a = el_Address log)) (fc_Addresses c)))
    = negb (addressMatch c log)).
  { unfold addressMatch. destruct (fc_Addresses c); [done|]. cbn [length Nat.ltb Nat.leb Nat.eqb andb orb]. done. }
  rewrite Ha. apply Hskip; [intros Hn [_ [? _]%Hs]; by destruct (addressMatch c log)|intros Had%negb_false_iff].
  apply Hskip; [intros Hn [_ [_ Htm]%Hs]; unfold TopicsMatch in Htm; by rewrite Hn in Htm|intros Hlen].
  rewrite filter_topics_loop.
  assert (Htm : TopicsMatch log (fc_Topics c) = topics_loop (el_Topics log) (fc_Topics c) 0)
    by (unfold TopicsMatch; by rewrite Hlen).
  rewrite <- Htm. destruct (TopicsMatch log (fc_Topics c)).
  - rewrite decide_True; [done|]. split; [done|]. by apply Hs.
  - rewrite decide_False; [done|]. intros [_ [_ ?]%Hs]. done.
Qed.

(** What one pass over the subscriptions writes to each channel. *)
Lemma lookup_send {X} id (m : X) out id' :
  default [] (send id m out !! id') = default [] (out !! id') ++ (if decide (id = id') then [m] else []).
Proof.
  unfold send. case_decide as Hd; [subst; by rewrite lookup_insert_eq|].
  rewrite lookup_insert_ne by done. by rewrite app_nil_r.
Qed.

Lemma foldl_channels {X} (step : gmap string (list X) -> string * subscription -> gmap string (list X))
    (msgs : subscription -> list X) (id : string) :
  (forall out kf, default [] (step out kf !! id) =
     default [] (out !! id) ++ (if decide (fst kf = id) then msgs (snd kf) else [])) ->
  forall (m : gmap string subscription) out,
  default [] (foldl step out (map_to_list m) !! id) =
    default [] (out !! id) ++ match m !! id with Some f => msgs f | None => [] end.
Proof.
  intros Hstep m. assert (Hm : m !! id = (list_to_map (map_to_list m) : gmap string subscription) !! id)
    by (by rewrite list_to_map_to_list). rewrite Hm. clear Hm.
  pose proof (NoDup_fst_map_to_list m) as Hnd. revert Hnd. generalize (map_to_list m).
  induction l as [|[k f] l IH]; intros Hnd out; cbn [foldl];
    [by rewrite list_to_map_nil, lookup_empty, app_nil_r|].
  rewrite fmap_cons, NoDup_cons in Hnd. destruct Hnd as [Hk Hnd]. rewrite (IH Hnd), Hstep, <- app_assoc.
  f_equal. rewrite list_to_map_cons. cbn [fst snd]. case_decide as Hd.
  - subst k. cbn [fst] in Hk. apply not_elem_of_list_to_map_1 in Hk. rewrite Hk, lookup_insert_eq.
    by rewrite app_nil_r.
  - by rewrite lookup_insert_ne.
Qed.

Definition wanted_logs (f : subscription) (ev : ChainEvent) : list (list EthLog) :=
  match filter (log_wanted (sub_logsCrit f)) (DB2EthLogs (ce_Logs ev)) with
  | [] => []
  | l => [l]
  end.

Lemma handleLogs_out es ev id :
  default [] (es_logsOut (handleLogs es ev) !! id) =
  default [] (es_logsOut es !! id) ++ match es_logs es !! id with Some f => wanted_logs f ev | None => [] end.
Proof.
  unfold handleLogs. cbn [es_logsOut]. apply (foldl_channels _ (fun f => wanted_logs f ev)).
  intros out kf. unfold handleLogs_one, wanted_logs, matchedLogs. rewrite filterLogs_spec.
  destruct (filter _ _) as [|x l]; cbn [length Nat.ltb Nat.leb].
  - by rewrite (ltac:(by case_decide) : (if decide (fst kf = id) then [] else []) = [] :> list (list EthLog)), app_nil_r.
  - apply lookup_send.
Qed.

Lemma handleChainEvent_out es ev header : DB2EthHeader (ce_Block ev) = Ok header ->
  exists es', handleChainEvent es ev = Ok es' /\ es_logs es' = es_logs es /\ es_blocks es' = es_blocks es /\
    es_logsOut es' = es_logsOut es /\ forall id,
    default [] (es_headersOut es' !! id) =
    default [] (es_headersOut es !! id) ++ match es_blocks es !! id with Some _ => [header] | None => [] end.
Proof.
  intros Hh. unfold handleChainEvent.
  assert (Hf : forall l out, rfold (handleChainEvent_one ev) out l =
    Ok (foldl (fun out (kf : string * subscription) => send (fst kf) header out) out l)).
  { induction l as [|kf l IH]; intros out; [done|]. cbn [rfold foldl].
    assert (Hk : handleChainEvent_one ev out kf = Ok (send (fst kf) header out))
      by (unfold handleChainEvent_one; by rewrite Hh).
    rewrite Hk. apply IH. }
  rewrite Hf. eexists. split; [done|]. do 3 (split; [done|]). intros id.
  apply (foldl_channels _ (fun _ => [header])). intros out kf. apply lookup_send.
Qed.

(** Reference: the stream of a subscription, which is installed ([on]) or not. *)
Definition same_sub (f g : subscription) : bool := bool_decide (sub_typ f = sub_typ g /\ sub_id f = sub_id g).

Definition next_on (f : subscription) (on : bool) (e : loop_event) : bool :=
  match e with
  | EvChain _ => on
  | EvInstall g => same_sub f g || on
  | EvUninstall g => negb (same_sub f g) && on
  end.

Fixpoint log_stream (f : subscription) (on : bool) (evs : list loop_event) : list (list EthLog) :=
  match evs with
  | [] => []
  | e :: rest =>
      (match e with EvChain ev => if on then wanted_logs f ev else [] | _ => [] end) ++
      log_stream f (next_on f on e) rest
  end.

Fixpoint header_stream (f : subscription) (on : bool) (evs : list loop_event) : list EthHeader :=
  match evs with
  | [] => []
  | e :: rest =>
      (match e with
       | EvChain ev => if on then match DB2EthHeader (ce_Block ev) with Ok h => [h] | Err _ => [] end else []
       | _ => []
       end) ++ header_stream f (next_on f on e) rest
  end.

Definition installed (es : EventSystem) (f : subscription) : option subscription :=
  match sub_typ f with
  | LogsSubscription => es_logs es !! sub_id f
  | BlocksSubscription => es_blocks es !! sub_id f
  end.

(** One step, as one subscription sees it. *)
Lemma eventLoop_step_sub f on es e :
  installed es f = (if (on : bool) then Some f else None) ->
  (forall ev, e = EvChain ev -> is_Ok (DB2EthHeader (ce_Block ev)) = true) ->
  (forall g, e = EvInstall g -> same_sub f g = true -> g = f) ->
  exists es', eventLoop_step es e = Ok es' /\
    installed es' f = (if next_on f on e then Some f else None) /\
    (sub_typ f = LogsSubscription -> default [] (es_logsOut es' !! sub_id f) =
       default [] (es_logsOut es !! sub_id f) ++
       match e with EvChain ev => if on then wanted_logs f ev else [] | _ => [] end) /\
    (sub_typ f = BlocksSubscription -> default [] (es_headersOut es' !! sub_id f) =
       default [] (es_headersOut es !! sub_id f) ++
       match e with
       | EvChain ev => if on then match DB2EthHeader (ce_Block ev) with Ok h => [h] | Err _ => [] end else []
       | _ => [] end).
Proof.
  intros Hon Hev Hin. destruct e as [ev|g|g]; cbn [eventLoop_step].
  - specialize (Hev ev eq_refl). destruct (DB2EthHeader (ce_Block ev)) as [h|] eqn:Eh; [|done].
    destruct (handleChainEvent_out (handleLogs es ev) ev h Eh) as (es' & -> & Hl & Hb & Ho & Hh).
    exists es'. split; [done|]. unfold installed in *. rewrite Hl, Hb, Ho. split; [exact Hon|]. split; intros Ht.
    + rewrite handleLogs_out. rewrite Ht in Hon. rewrite Hon. by destruct on.
    + rewrite Hh. cbn [es_headersOut es_blocks handleLogs]. rewrite Ht in Hon. rewrite Hon. by destruct on.
  - eexists. split; [done|]. specialize (Hin g eq_refl). cbn [next_on]. unfold same_sub, installed in *.
    assert (Hnil : forall X (l : list X), l = l ++ []) by (intros; by rewrite app_nil_r).
    destruct (sub_typ g) eqn:Eg, (sub_typ f) eqn:Ef; cbn [es_logs es_blocks es_logsOut es_headersOut];
      (split; [|split; intros; try done; apply Hnil]);
      (case_bool_decide as Hs; [destruct Hs as [Hty Hs]|]); try done.
    all: try (rewrite Hs, lookup_insert_eq; cbn; f_equal; by apply Hin).
    all: destruct (decide (sub_id f = sub_id g)) as [Hi|Hi]; [by destruct Hs|]; by rewrite lookup_insert_ne.
  - eexists. split; [done|]. cbn [next_on]. unfold same_sub, installed in *.
    assert (Hnil : forall X (l : list X), l = l ++ []) by (intros; by rewrite app_nil_r).
    destruct (sub_typ g) eqn:Eg, (sub_typ f) eqn:Ef; cbn [es_logs es_blocks es_logsOut es_headersOut];
      (split; [|split; intros; try done; apply Hnil]);
      (case_bool_decide as Hs; [destruct Hs as [Hty Hs]|]); try done.
    all: try (rewrite Hs, lookup_delete_eq; done).
    all: destruct (decide (sub_id f = sub_id g)) as [Hi|Hi]; [by destruct Hs|]; by rewrite lookup_delete_ne.
Qed.

Lemma subscription_stream_run f evs : forall on es,
  installed es f = (if (on : bool) then Some f else None) ->
  (forall ev, EvChain ev ∈ evs -> is_Ok (DB2EthHeader (ce_Block ev)) = true) ->
  (forall g, EvInstall g ∈ evs -> same_sub f g = true -> g = f) ->
  exists es', eventLoop es evs = Ok es' /\
    (sub_typ f = LogsSubscription ->
       default [] (es_logsOut es' !! sub_id f) = default [] (es_logsOut es !! sub_id f) ++ log_stream f on evs) /\
    (sub_typ f = BlocksSubscription ->
       default [] (es_headersOut es' !! sub_id f) = default [] (es_headersOut es !! sub_id f) ++ header_stream f on evs).
Proof.
  unfold eventLoop. induction evs as [|e evs IH]; intros on es Hon Hev Hin; cbn [rfold log_stream header_stream].
  - exists es. by rewrite !app_nil_r.
  - destruct (eventLoop_step_sub f on es e Hon) as (es1 & -> & Hon1 & Hl & Hh).
    + intros ev ->. apply Hev. by left.
    + intros g ->. apply Hin. by left.
    + destruct (IH _ es1 Hon1) as (es' & E & Hl' & Hh').
      * intros ev He. apply Hev. by right.
      * intros g He. apply Hin. by right.
      * exists es'. split; [exact E|]. split; intros Ht.
        -- by rewrite Hl', Hl, app_assoc by done.
        -- by rewrite Hh', Hh, app_assoc by done.
Qed.
(** C16: What a subscriber receives.  Over any sequence of chain events,
    installations and removals, with other subscribers doing whatever they do,
    the loop does not fail and a log subscription gets, for every event between
    its installation and its removal, exactly the logs of the block that are in
    its block range and match its addresses and topics, in order (and nothing
    for a block without such logs); a head subscription gets the header of
    every such block. *)
Theorem subscription_stream f evs : forall on es,
  installed es f = (if (on : bool) then Some f else None) ->
  (forall ev, EvChain ev ∈ evs -> is_Ok (DB2EthHeader (ce_Block ev)) = true) ->
  (forall g, EvInstall g ∈ evs -> same_sub f g = true -> g = f) ->
  exists es', eventLoop es evs = Ok es' /\
    (sub_typ f = LogsSubscription ->
       default [] (es_logsOut es' !! sub_id f) = default [] (es_logsOut es !! sub_id f) ++ log_stream f on evs) /\
    (sub_typ f = BlocksSubscription ->
       default [] (es_headersOut es' !! sub_id f) = default [] (es_headersOut es !! sub_id f) ++ header_stream f on evs).
Proof. apply subscription_stream_run. Qed.
End Filters.

(** ** Witness: a subscription to the logs of contract "c" sees one block *)
Definition ex_sub : subscription :=
  mkSubscription (H:=ex_EthLib) "0x1" LogsSubscription (mkFilterCriteria None None None ["c"%string] []).
Definition ex_event : ChainEvent := mkChainEvent ex_EthLib ex_blk "h" (map modelLog ex_eth_logs).
Definition ex_events : list loop_event := [EvInstall ex_sub; EvChain ex_event; EvUninstall ex_sub; EvChain ex_event].

Lemma subscription_stream_witness : exists es',
  eventLoop NewEventSystem ex_events = Ok es' /\
  map length (default [] (es_logsOut es' !! sub_id ex_sub)) = [2%nat].
Proof.
  destruct (subscription_stream ex_sub ex_events false NewEventSystem) as (es' & E & Hl & _).
  - reflexivity.
  - intros ev Hev. assert (ev = ex_event) as ->; [|vm_compute; reflexivity].
    unfold ex_events in Hev. rewrite !elem_of_cons in Hev.
    destruct Hev as [?|[[= ->]|[?|[[= ->]|[]%not_elem_of_nil]]]]; done.
  - intros g Hg _. unfold ex_events in Hg. rewrite !elem_of_cons in Hg.
    destruct Hg as [[= ->]|[?|[?|[?|[]%not_elem_of_nil]]]]; done.
  - exists es'. split; [exact E|]. rewrite (Hl eq_refl). vm_compute. reflexivity.
Defined.
