(* ===== verification/Worker.v ===== *)
(** * The log tx_index fixer (src/worker/log_tx_index_fixer.go)

    A maintenance worker that corrects, in batches of rounds from the highest
    mismatched one down to 0, the [tx_index] of logs whose transaction is stored
    with another index.  The two raw SQL statements are functions on the tables;
    the connection that executes them is the class [RawDB]: a statement takes
    effect, or it fails, and a failed update may have been applied or not.  The
    context ends after [budget] batches; the sleeps are left out. *)
From S2P Require Import Prelude Model Sql Storage.

Class RawDB (D : Type) := {
  raw_view : D -> Tables;
  raw_up : D -> Prop;
  raw_Scan : forall A, (Tables -> A) -> M D A;
  raw_Exec : (Tables -> Z * Tables) -> M D Z;
}.
Arguments raw_Scan {D _ A} _ _.

Class RawDBLaws (D : Type) `{RawDB D} : Prop := {
  raw_law_Scan : forall A (q : Tables -> A) (d : D), exists r d', raw_Scan q d = (r, d') /\
    raw_view d' = raw_view d /\ (raw_up d -> raw_up d') /\
    (r = Ok (q (raw_view d)) \/ exists c, r = Err (ErrDB c) /\ ~ raw_up d);
  raw_law_Exec : forall w (d : D), exists r d', raw_Exec w d = (r, d') /\ (raw_up d -> raw_up d') /\
    ((r = Ok (fst (w (raw_view d))) /\ raw_view d' = snd (w (raw_view d))) \/
     exists c, r = Err (ErrDB c) /\ ~ raw_up d /\
       (raw_view d' = raw_view d \/ raw_view d' = snd (w (raw_view d))));
}.

(** ** The statements *)

(** The transaction of a log ([JOIN ... ON l.tx_hash = t.hash], its primary
    key), and the index it has when that is another one. *)
Definition right_index (T : Tables) (l : Log) : option Z :=
  match t_txs T !! (log_TxHash l, 0) with
  | Some t => if log_TxIndex l =? tx_Index t then None else Some (tx_Index t)
  | None => None
  end.

Definition max_opt (a : option Z) (b : Z) : option Z :=
  Some (match a with Some x => Z.max x b | None => b end).

(** SELECT l.round ... ORDER BY l.round DESC LIMIT 1 *)
Definition highest_mismatched (T : Tables) : option Z :=
  foldl (fun acc l => match right_index T l with Some _ => max_opt acc (log_Round l) | None => acc end)
    None (map_to_list (t_logs T)).*2.

Definition with_TxIndex (l : Log) (i : Z) : Log :=
  mkLog (log_Address l) (log_Topics l) (log_Data l) (log_Round l) (log_BlockHash l) (log_TxHash l) i
    (log_Index l) (log_Removed l).

Definition fix_log (T : Tables) (startRound endRound : Z) (l : Log) : Log :=
  if (startRound <=? log_Round l) && (log_Round l <=? endRound) then
    match right_index T l with Some i => with_TxIndex l i | None => l end
  else l.

(** UPDATE logs SET tx_index = t.index FROM transactions t ... *)
Definition update_logs (startRound endRound : Z) (T : Tables) : Z * Tables :=
  (count_rows (t:=TLog) (fun l => (startRound <=? log_Round l) && (log_Round l <=? endRound) &&
                           match right_index T l with Some _ => true | None => false end) (t_logs T),
   mkTables (t_blocks T) (t_txs T) (t_receipts T) (fix_log T startRound endRound <$> t_logs T) (t_rounds T)).

Section Fixer.
Context `{RawDB D}.

Definition batchSize : Z := 10000.

(** No row at all is [None]. *)
Definition findHighestMismatchedRound : M D Z :=
  attempt (raw_Scan highest_mismatched) (fun r => match r with
    | Err e => if errors_Is e ErrNoRows then mret 0
               else fail (ErrWrap "finding highest mismatched round" e)
    | Ok None => mret 0
    | Ok (Some round) => mret round
    end).

Definition fixRoundRange (startRound endRound : Z) : M D Z := raw_Exec (update_logs startRound endRound).

(** The loop of [Start] from [currentEndRound] on. *)
Fixpoint fix_loop (budget : nat) (currentEndRound : Z) : M D unit :=
  match budget with
  | 0%nat => fail (ErrNew "context canceled")
  | S budget' =>
      let startRound := if batchSize <=? currentEndRound
                        then u64 ((currentEndRound - batchSize)%u64 + 1) else 0 in
      attempt (fixRoundRange startRound currentEndRound) (fun r => match r with
        | Err _ => fix_loop budget' currentEndRound
        | Ok _ => if startRound =? 0 then mret tt else fix_loop budget' (startRound - 1)%u64
        end)
  end.

Definition fixer_Start (budget : nat) : M D unit :=
  attempt findHighestMismatchedRound (fun r => match r with
    | Err e => fail (ErrWrap "failed to find highest mismatched round" e)
    | Ok highest => if highest =? 0 then mret tt else fix_loop budget highest
    end).

(** ** Correctness *)
Context `{!RawDBLaws D}.

Definition mismatched (T : Tables) (l : Log) : Prop :=
  (exists k, t_logs T !! k = Some l) /\ right_index T l <> None.

(** All mismatches are in rounds up to [n]. *)
Definition below (T : Tables) (n : Z) : Prop := forall l, mismatched T l -> log_Round l <= n.

(** Only indices of logs have changed, and only to the stored ones. *)
Definition corrected (T T' : Tables) : Prop :=
  t_blocks T' = t_blocks T /\ t_txs T' = t_txs T /\ t_receipts T' = t_receipts T /\ t_rounds T' = t_rounds T /\
  forall k, t_logs T' !! k = t_logs T !! k \/ exists l i, t_logs T !! k = Some l /\
    right_index T l = Some i /\ t_logs T' !! k = Some (with_TxIndex l i).

Lemma highest_list T ls : forall acc,
  let r := foldl (fun acc l => match right_index T l with Some _ => max_opt acc (log_Round l) | None => acc end) acc ls in
  (forall l, l ∈ ls -> right_index T l <> None -> exists n, r = Some n /\ log_Round l <= n) /\
  (forall a, acc = Some a -> exists n, r = Some n /\ a <= n) /\
  (r = acc \/ exists l, l ∈ ls /\ right_index T l <> None /\ r = Some (log_Round l)).
Proof.
  induction ls as [|x ls IH]; intros acc; cbn [foldl].
  { split; [by intros ? ?%not_elem_of_nil|]. split; [intros a ->; by eexists|by left]. }
  set (acc1 := match right_index T x with Some _ => max_opt acc (log_Round x) | None => acc end).
  destruct (IH acc1) as (H1 & H2 & H3). split; [|split].
  - intros l [->|Hl]%elem_of_cons Hm; [|by apply H1]. subst acc1. destruct (right_index T x); [|done].
    destruct (H2 _ eq_refl) as (n & -> & Hn). exists n. split; [done|]. destruct acc; lia.
  - intros a ->. subst acc1. destruct (right_index T x); [|by apply H2].
    destruct (H2 _ eq_refl) as (n & -> & Hn). exists n. split; [done|]. lia.
  - destruct H3 as [->|(l & Hl & Hm & ->)]; [|right; exists l; split; [by right|done]].
    subst acc1. destruct (right_index T x) eqn:Ex; [|by left].
    destruct acc as [a|]; [|right; exists x; split; [by left|by rewrite Ex]].
    unfold max_opt. destruct (Z.max_spec a (log_Round x)) as [[_ ->]|[_ ->]]; [|by left].
    right. exists x. split; [by left|by rewrite Ex].
Qed.

Lemma highest_spec T : match highest_mismatched T with
  | Some n => below T n /\ exists l, mismatched T l /\ log_Round l = n
  | None => forall l, ~ mismatched T l
  end.
Proof.
  destruct (highest_list T (map_to_list (t_logs T)).*2 None) as (H1 & _ & H3).
  assert (Hin : forall l, l ∈ (map_to_list (t_logs T)).*2 <-> exists k, t_logs T !! k = Some l).
  { intros l. rewrite list_elem_of_fmap. split.
    - intros ([k x] & -> & Hk%elem_of_map_to_list). by exists k.
    - intros [k Hk]. exists (k, l). split; [done|]. by apply elem_of_map_to_list. }
  fold (highest_mismatched T) in *. destruct (highest_mismatched T) as [n|].
  - split.
    + intros l [Hk Hm]. destruct (H1 l) as (n' & [= <-] & Hn); [by apply Hin|done|done].
    + destruct H3 as [?|(l & Hl & Hm & [= ->])]; [done|]. exists l. split; [|done]. split; [by apply Hin|done].
  - intros l [Hk Hm]. destruct (H1 l) as (n & ? & _); [by apply Hin|done|done].
Qed.

Lemma right_index_fixed T s e T' l : t_txs T' = t_txs T -> right_index T' (fix_log T s e l) <> None ->
  right_index T l <> None /\ fix_log T s e l = l /\ ~ (s <= log_Round l <= e).
Proof.
  intros Ht. unfold fix_log. destruct (Z.leb_spec s (log_Round l)), (Z.leb_spec (log_Round l) e); cbn [andb].
  2-4: unfold right_index; rewrite Ht; intros; repeat split; auto; lia.
  unfold right_index at 1 2. destruct (t_txs T !! (log_TxHash l, 0)) as [t|] eqn:E.
  - destruct (Z.eqb_spec (log_TxIndex l) (tx_Index t)) as [Ei|Ei].
    + unfold right_index. rewrite Ht, E. by rewrite Ei, Z.eqb_refl.
    + unfold right_index. cbn [with_TxIndex log_TxHash log_TxIndex]. by rewrite Ht, E, Z.eqb_refl.
  - unfold right_index. by rewrite Ht, E.
Qed.

(** A batch leaves no mismatch in its rounds and adds none. *)
Lemma update_below T s e : 0 <= e -> below T e -> below (snd (update_logs s e T)) (s - 1).
Proof.
  intros He Hb l [[k Hk] Hm]. cbn in Hk. rewrite lookup_fmap in Hk.
  apply fmap_Some_1 in Hk as (l0 & Hk & ->).
  apply right_index_fixed in Hm as (Hm & -> & Hr); [|done].
  assert (log_Round l0 <= e) by (apply Hb; split; eauto). lia.
Qed.

Lemma update_corrected T s e : corrected T (snd (update_logs s e T)).
Proof.
  repeat (split; [done|]). intros k. cbn. rewrite lookup_fmap. destruct (t_logs T !! k) as [l|] eqn:E; [|by left].
  cbn. unfold fix_log. destruct ((s <=? log_Round l) && (log_Round l <=? e)); [|by left].
  destruct (right_index T l) as [i|] eqn:Ei; [|by left]. right. by exists l, i.
Qed.

Lemma corrected_refl T : corrected T T.
Proof. repeat (split; [done|]). by left. Qed.

Lemma right_index_txs T T' l : t_txs T' = t_txs T -> right_index T' l = right_index T l.
Proof. intros E. unfold right_index. by rewrite E. Qed.

Lemma corrected_trans T1 T2 T3 : corrected T1 T2 -> corrected T2 T3 -> corrected T1 T3.
Proof.
  intros (B1 & X1 & C1 & R1 & L1) (B2 & X2 & C2 & R2 & L2).
  split; [congruence|]. split; [congruence|]. split; [congruence|]. split; [congruence|]. intros k.
  destruct (L2 k) as [->|(l & i & Hl & Hi & ->)]; [apply L1|].
  rewrite (right_index_txs T1 T2 l X1) in Hi.
  destruct (L1 k) as [Hk|(l0 & i0 & Hl0 & Hi0 & Hk)]; [right; exists l, i; by rewrite <- Hk|].
  rewrite Hl in Hk. injection Hk as ->. exfalso. revert Hi Hi0. unfold right_index.
  cbn [with_TxIndex log_TxHash log_TxIndex]. destruct (t_txs T1 !! (log_TxHash l0, 0)) as [t|]; [|done].
  destruct (log_TxIndex l0 =? tx_Index t); [done|]. destruct (Z.eqb_spec i0 (tx_Index t)); [done|]. congruence.
Qed.

Definition batch_start (e : Z) : Z := if batchSize <=? e then e - batchSize + 1 else 0.

Lemma batch_start_u64 e : is_u64 e ->
  (if batchSize <=? e then u64 ((e - batchSize)%u64 + 1) else 0) = batch_start e.
Proof.
  intros He. unfold batch_start. destruct (Z.leb_spec batchSize e); [|done]. unfold batchSize in *.
  rewrite (u64_small (e - 10000)) by u64_lia. apply u64_small. u64_lia.
Qed.

Lemma fix_loop_spec budget : forall e (d : D), is_u64 e -> below (raw_view d) e ->
  exists r d', fix_loop budget e d = (r, d') /\ corrected (raw_view d) (raw_view d') /\
    (r = Ok tt -> below (raw_view d') (-1)) /\
    (raw_up d -> e / batchSize < Z.of_nat budget -> r = Ok tt).
Proof.
  induction budget as [|budget IH]; intros e d He Hb; cbn [fix_loop].
  { eexists _, d. split; [done|]. split; [apply corrected_refl|]. split; [done|].
    intros _ Hl. exfalso. pose proof (Z.div_pos e batchSize). unfold batchSize, is_u64 in *. lia. }
  rewrite (batch_start_u64 e He). unfold attempt, fixRoundRange.
  destruct (raw_law_Exec (update_logs (batch_start e) e) d) as (r & d1 & -> & Hup & Hr).
  assert (H0 : 0 <= e) by (unfold is_u64 in He; lia).
  destruct Hr as [(-> & Hv)|(c & -> & Hn & Hv)].
  - pose proof (update_below (raw_view d) (batch_start e) e H0 Hb) as Hb1. rewrite <- Hv in Hb1.
    pose proof (update_corrected (raw_view d) (batch_start e) e) as Hc1. rewrite <- Hv in Hc1.
    destruct (Z.eqb_spec (batch_start e) 0) as [Hz|Hz].
    + eexists _, d1. split; [done|]. split; [done|]. split; [|done]. intros _. by rewrite Hz in Hb1.
    + assert (Hs : batchSize <= e /\ batch_start e = e - batchSize + 1).
      { revert Hz. unfold batch_start. destruct (Z.leb_spec batchSize e); [lia|done]. }
      destruct Hs as [Hge Hs]. rewrite u64_small by (unfold is_u64, two64, batchSize in *; lia).
      destruct (IH (batch_start e - 1) d1) as (r & d' & -> & Hc & Hok & Hup'); [unfold is_u64, batchSize in *; lia|done|].
      exists r, d'. split; [done|]. split; [by eapply corrected_trans|]. split; [done|].
      intros Hu Hl. apply Hup'; [auto|]. replace (batch_start e - 1) with (e + (-1) * batchSize) by lia.
      rewrite Z.div_add by done. lia.
  - assert (Hd1 : below (raw_view d1) e /\ corrected (raw_view d) (raw_view d1)).
    { destruct Hv as [->| ->]; [split; [done|apply corrected_refl]|]. split; [|apply update_corrected].
      intros l Hl. apply (update_below (raw_view d) (batch_start e) e H0 Hb) in Hl.
      unfold batch_start in Hl. destruct (Z.leb_spec batchSize e); unfold batchSize in *; lia. }
    destruct Hd1 as [Hb1 Hc1]. destruct (IH e d1 He Hb1) as (r & d' & -> & Hc & Hok & _).
    exists r, d'. split; [done|]. split; [by eapply corrected_trans|]. split; [done|]. intros Hu. done.
Qed.

(** C32: The fixer, whatever statements fail in between, changes nothing but the
    index of mismatched logs, to the index of their transaction; when it
    returns without an error there is no mismatch left, unless the highest
    mismatched round is 0 (then it stops at once).  On a working database it
    returns within one batch for every ten thousand rounds. *)
Theorem fixer_correct budget (d : D) :
  (forall k l, t_logs (raw_view d) !! k = Some l -> is_u64 (log_Round l)) ->
  exists r d', fixer_Start budget d = (r, d') /\ corrected (raw_view d) (raw_view d') /\
    (r = Ok tt -> highest_mismatched (raw_view d) <> Some 0 -> forall l, ~ mismatched (raw_view d') l) /\
    (raw_up d -> default 0 (highest_mismatched (raw_view d)) / batchSize < Z.of_nat budget -> r = Ok tt).
Proof.
  intros Hu. unfold fixer_Start, findHighestMismatchedRound, attempt.
  destruct (raw_law_Scan _ highest_mismatched d) as (r & d1 & -> & Hv & Hup & Hr).
  destruct Hr as [->|(c & -> & Hn)].
  2: { cbn. eexists _, d1. split; [done|]. rewrite Hv. split; [apply corrected_refl|]. done. }
  pose proof (highest_spec (raw_view d)) as Hs. destruct (highest_mismatched (raw_view d)) as [n|].
  - cbn [mret]. unfold mret, M_ret. destruct Hs as [Hb (l & Hl & Hln)]. destruct (Z.eqb_spec n 0) as [->|Hz].
    + eexists _, d1. split; [done|]. rewrite Hv. split; [apply corrected_refl|]. done.
    + assert (Hn : is_u64 n) by (destruct Hl as [[k Hk] _]; rewrite <- Hln; by eapply Hu).
      rewrite <- Hv in Hb. destruct (fix_loop_spec budget n d1 Hn Hb) as (r & d' & -> & Hc & Hok & Ht).
      exists r, d'. rewrite Hv in Hc. split; [done|]. split; [done|]. split; [|auto].
      intros -> _ l' Hl'. pose proof (Hok eq_refl l' Hl') as Hneg.
      destruct Hl' as [[k Hk] _]. destruct Hc as (_ & _ & _ & _ & HL).
      destruct (HL k) as [E|(l0 & i & E & _ & E')]; rewrite ?E in Hk; [|rewrite E' in Hk; injection Hk as <-; cbn in Hneg].
      * apply Hu in Hk. unfold is_u64 in Hk. lia.
      * apply Hu in E. unfold is_u64 in E. lia.
  - unfold mret, M_ret. eexists _, d1. split; [done|]. rewrite Hv. split; [apply corrected_refl|]. done.
Qed.
End Fixer.

(** ** Witnesses: the database in memory *)
#[export] Instance MemDB_RawDB : RawDB MemDB := {|
  raw_view := mem_view;
  raw_up d := Forall (eq None) (mem_plan d);
  raw_Scan A q := mem_guard HDb (fun d => (Ok (q (mem_view d)), d));
  raw_Exec w := mem_guard HDb (fun d =>
    (Ok (fst (w (mem_view d))), mkMemDB (snd (w (mem_view d))) (mem_pend d) (mem_live d) (mem_plan d)));
|}.

#[export] Instance MemDB_RawDBLaws : RawDBLaws MemDB.
Proof.
  split.
  - intros A q d. destruct (mem_guard_cases HDb (fun d => (Ok (q (mem_view d)), d)) d) as (plan & Hp & Hc).
    destruct Hc as [E|(c & E & Hn)]; eexists _, _; (split; [exact E|]); (split; [done|]); (split; [exact Hp|]).
    + by left.
    + right. exists c. split; [done|]. intros Hu. apply Hn. by split.
  - intros w d. destruct (mem_guard_cases HDb (fun d => (Ok (fst (w (mem_view d))),
      mkMemDB (snd (w (mem_view d))) (mem_pend d) (mem_live d) (mem_plan d))) d) as (plan & Hp & Hc).
    destruct Hc as [E|(c & E & Hn)]; eexists _, _; (split; [exact E|]); (split; [exact Hp|]).
    + by left.
    + right. exists c. split; [done|]. split; [|by left]. intros Hu. apply Hn. by split.
Qed.

Definition ex_wrong_log (round : Z) : Log := mkLog "c" [] "" round "b" "t" 2 0 false.
Definition ex_right_tx : Transaction := mkTransaction "t" 0 0 "1" "b" 7 1 21000 "1" "1" "1" 0 "a" "c" "0" "" [] "0" "0" "0".
Definition ex_mismatch (round : Z) (plan : list (option Z)) : MemDB :=
  mkMemDB (mkTables ∅ {[("t"%string, 0) := ex_right_tx]} ∅ {[("t"%string, 0) := ex_wrong_log round]} ∅) id false plan.

Lemma fixer_correct_witness : exists r d',
  fixer_Start 3 (ex_mismatch 10001 []) = (r, d') /\ r = Ok tt /\ forall l, ~ mismatched (mem_view d') l.
Proof.
  destruct (fixer_correct 3 (ex_mismatch 10001 [])) as (r & d' & E & _ & Hm & Hu).
  - intros k l Hk. cbn in Hk. apply lookup_singleton_Some in Hk as [_ <-]. split; [discriminate|reflexivity].
  - assert (Hr : r = Ok tt) by (apply Hu; [constructor|vm_compute; reflexivity]).
    exists r, d'. split; [exact E|]. split; [exact Hr|]. apply Hm; [exact Hr|]. vm_compute. discriminate.
Defined.

(** A mismatch in round 0 alone is taken for "no mismatches". *)
Theorem fixer_skips_round_0 :
  right_index (mem_view (ex_mismatch 0 [])) (ex_wrong_log 0) = Some 1 /\
  fst (fixer_Start 3 (ex_mismatch 0 [])) = Ok tt /\
  t_logs (mem_view (snd (fixer_Start 3 (ex_mismatch 0 [])))) !! ("t"%string, 0) = Some (ex_wrong_log 0).
Proof. vm_compute. done. Qed.
