(* ===== verification/ReadOnly.v ===== *)
(** * Read-only databases (the readOnly option of [InitDB], src/storage/psql/psql.go)

    With indexing disabled the process opens its database with the session parameter
    default_transaction_read_only and starts its services all the same, among them the
    log fixer, which issues updates.  PostgreSQL refuses statements that change a table
    in such a session ([SessionLaws]; no code of the gateway sets a transaction to read
    write, and temporary tables are not used).  What services can ask of the database
    is a [task]: a run of the fixer on the raw connection, a call of the storage
    interface, or several of them in a transaction. *)
From S2P Require Import Prelude Model Sql Storage Psql Worker.

(** Connections opened with and without the parameter; [ro_session] holds of the ones
    with it. *)
Class Sessions (Q : Type) `{SqlDB Q} `{RawDB Q} := {
  open_session : bool -> Q -> Q;
  ro_session : Q -> Prop;
}.

(** What is documented of a read-only session: a statement that would change a table is
    refused, whatever its effect would be, and aborts its transaction; the other
    statements do what they always do, and no statement ends the mode. *)
Class SessionLaws (Q : Type) `{Sessions Q} : Prop := {
  ro_open : forall d : Q, ro_session (open_session true d) /\ db_view (open_session true d) = db_view d /\
    (forall T, db_pending (open_session true d) T = T);
  ro_select : forall t h (q : query t) d, ro_session d -> let d' := (db_select t h q d).2 in
    ro_session d' /\ db_view d' = db_view d /\
    ((forall T, db_pending d' T = db_pending d T) \/ (forall T, db_pending d' T = T));
  ro_write : forall h w (d : Q), ro_session d -> exists c d', db_write h w d = (Err (ErrDB c), d') /\
    ro_session d' /\ db_failed h d d';
  ro_begin : forall d : Q, ro_session d -> let d' := (db_begin d).2 in
    ro_session d' /\ db_view d' = db_view d /\
    ((forall T, db_pending d' T = db_pending d T) \/ (forall T, db_pending d' T = T));
  ro_commit : forall d : Q, ro_session d -> let d' := (db_commit d).2 in
    ro_session d' /\ (db_view d' = db_view d \/ db_view d' = db_pending d (db_view d)) /\
    ((forall T, db_pending d' T = db_pending d T) \/ (forall T, db_pending d' T = T));
  ro_rollback : forall d : Q, ro_session d ->
    ro_session (db_rollback d) /\ db_view (db_rollback d) = db_view d /\ (forall T, db_pending (db_rollback d) T = T);
  ro_Scan : forall A (q : Tables -> A) (d : Q), ro_session d -> let d' := (raw_Scan q d).2 in
    ro_session d' /\ db_view d' = db_view d /\ (forall T, db_pending d' T = db_pending d T);
  ro_Exec : forall w (d : Q), ro_session d -> exists c d', raw_Exec w d = (Err (ErrDB c), d') /\
    ro_session d' /\ db_view d' = db_view d /\ (forall T, db_pending d' T = db_pending d T);
}.

(** ** What services do with the database *)
(** The calls of the storage interface, but transactions. *)
Inductive storage_call :=
  | CInsert (t : table) (r : row t)
  | CInsertIfNotExists (t : table) (r : row t)
  | CUpsert (t : table) (r : row t)
  | CDelete (t : table) (round : Z)
  | CGetBlockRound (hash : string)
  | CGetBlockHash (round : Z)
  | CGetLatestBlockHash
  | CGetLastIndexedRound
  | CGetLastRetainedRound
  | CGetTransaction (hash : string)
  | CGetLatestBlockNumber
  | CGetBlockByHash (hash : string)
  | CGetBlockByNumber (round : Z)
  | CGetBlockTransactionCountByNumber (round : Z)
  | CGetBlockTransactionCountByHash (hash : string)
  | CGetBlockTransaction (hash : string) (i : Z)
  | CGetTransactionReceipt (hash : string)
  | CGetLogs (start stop : Z).

Inductive task :=
  | TaskFixer (budget : nat)
  | TaskCall (c : storage_call)
  | TaskTransaction (cs : list storage_call).

Section Tasks.
Context `{SqlDB Q} `{RawDB Q}.

(** The result of a call is for its caller. *)
Definition ignore {A} (m : M Q A) : M Q unit := _ ← m; mret tt.

Definition run_call (h : handle) (c : storage_call) : M Q unit :=
  match c with
  | CInsert t r => st_Insert h t r
  | CInsertIfNotExists t r => st_InsertIfNotExists h t r
  | CUpsert t r => st_Upsert h t r
  | CDelete t round => st_Delete h t round
  | CGetBlockRound hash => ignore (st_GetBlockRound h hash)
  | CGetBlockHash round => ignore (st_GetBlockHash h round)
  | CGetLatestBlockHash => ignore (st_GetLatestBlockHash h)
  | CGetLastIndexedRound => ignore (st_GetLastIndexedRound h)
  | CGetLastRetainedRound => ignore (st_GetLastRetainedRound h)
  | CGetTransaction hash => ignore (st_GetTransaction h hash)
  | CGetLatestBlockNumber => ignore (st_GetLatestBlockNumber h)
  | CGetBlockByHash hash => ignore (st_GetBlockByHash h hash)
  | CGetBlockByNumber round => ignore (st_GetBlockByNumber h round)
  | CGetBlockTransactionCountByNumber round => ignore (st_GetBlockTransactionCountByNumber h round)
  | CGetBlockTransactionCountByHash hash => ignore (st_GetBlockTransactionCountByHash h hash)
  | CGetBlockTransaction hash i => ignore (st_GetBlockTransaction h hash i)
  | CGetTransactionReceipt hash => ignore (st_GetTransactionReceipt h hash)
  | CGetLogs start stop => ignore (st_GetLogs h start stop)
  end.

Definition run_task (t : task) : M Q unit :=
  match t with
  | TaskFixer budget => fixer_Start budget
  | TaskCall c => run_call HDb c
  | TaskTransaction cs => st_RunInTransaction HDb (fun h => mfold (fun _ c => run_call h c) tt cs)
  end.

(** The tasks of all services, in the order they are executed; an error goes to the
    service that asked. *)
Fixpoint run_tasks (ts : list task) (d : Q) : Q :=
  match ts with
  | [] => d
  | t :: ts' => run_tasks ts' (run_task t d).2
  end.

(** ** A read-only session changes nothing *)
Context `{!Sessions Q} `{!SessionLaws Q}.

(** The session is read-only, with the tables [T] and nothing to commit. *)
Definition untouched (T : Tables) (d : Q) : Prop :=
  ro_session d /\ db_view d = T /\ forall T', db_pending d T' = T'.

Lemma untouched_select T t h (q : query t) : keeps (untouched T) (db_select t h q).
Proof.
  intros d (Hr & Hv & Hp). destruct (ro_select t h q d Hr) as (Hr' & Hv' & Hp'). split; [done|]. split; [congruence|].
  intros T'. destruct Hp' as [E|E]; by rewrite E.
Qed.

Lemma untouched_write T h w : keeps (untouched T) (db_write h w).
Proof.
  intros d (Hr & Hv & Hp). destruct (ro_write h w d Hr) as (c & d' & -> & Hr' & Hv' & Hp'). split; [done|].
  split; [cbn; congruence|]. intros T'. destruct h; cbn; by rewrite Hp'.
Qed.

Lemma untouched_begin T : keeps (untouched T) db_begin.
Proof.
  intros d (Hr & Hv & Hp). destruct (ro_begin d Hr) as (Hr' & Hv' & Hp'). split; [done|]. split; [congruence|].
  intros T'. destruct Hp' as [E|E]; by rewrite E.
Qed.

Lemma untouched_commit T : keeps (untouched T) db_commit.
Proof.
  intros d (Hr & Hv & Hp). destruct (ro_commit d Hr) as (Hr' & Hv' & Hp'). split; [done|].
  split; [destruct Hv' as [E|E]; rewrite E, ?Hp; done|]. intros T'. destruct Hp' as [E|E]; by rewrite E.
Qed.

Lemma untouched_rollback T A e : keeps (untouched T) (fun d => (Err e : result A, db_rollback d)).
Proof. intros d (Hr & Hv & Hp). destruct (ro_rollback d Hr) as (Hr' & Hv' & Hp'). split; [done|]. split; [cbn; congruence|done]. Qed.

Lemma untouched_Scan T A (q : Tables -> A) : keeps (untouched T) (raw_Scan q).
Proof.
  intros d (Hr & Hv & Hp). destruct (ro_Scan A q d Hr) as (Hr' & Hv' & Hp'). split; [done|]. split; [congruence|].
  intros T'. by rewrite Hp'.
Qed.

Lemma untouched_Exec T w : keeps (untouched T) (raw_Exec w).
Proof.
  intros d (Hr & Hv & Hp). destruct (ro_Exec w d Hr) as (c & d' & -> & Hr' & Hv' & Hp'). split; [done|].
  split; [cbn; congruence|]. intros T'. cbn. by rewrite Hp'.
Qed.

Ltac untouched_steps := repeat first
  [ apply keeps_bind; [|intros ?] | apply keeps_attempt; [|intros ?] | apply keeps_ret | apply keeps_fail
  | exact (untouched_select _ _ _ _) | apply untouched_write | case_match ].

Lemma untouched_call T h c : keeps (untouched T) (run_call h c).
Proof.
  destruct c; cbn [run_call st_Insert st_InsertIfNotExists st_Upsert st_Delete st_GetBlockRound st_GetBlockHash
      st_GetLatestBlockHash st_GetLastIndexedRound st_GetLastRetainedRound st_GetTransaction st_GetLatestBlockNumber
      st_GetBlockByHash st_GetBlockByNumber st_GetBlockTransactionCountByNumber st_GetBlockTransactionCountByHash
      st_GetBlockTransaction st_GetTransactionReceipt st_GetLogs PostDB_Storage];
    unfold ignore, PostDB_Insert, PostDB_InsertIfNotExists, PostDB_Upsert, insertSingle, PostDB_Delete,
      PostDB_GetBlockRound, PostDB_GetBlockHash, PostDB_GetLatestBlockHash, PostDB_GetLastIndexedRound,
      PostDB_GetLastRetainedRound, PostDB_GetTransaction, PostDB_GetLatestBlockNumber, PostDB_GetBlockByHash,
      PostDB_GetBlockByNumber, PostDB_GetBlockTransactionCountByNumber, PostDB_GetBlockTransactionCountByHash,
      PostDB_GetBlockTransaction, PostDB_GetTransactionReceipt, PostDB_GetLogs, scan_block, relation_Transactions,
      relation_Logs, scan_one; untouched_steps.
Qed.

Lemma untouched_fix_loop T budget : forall round, keeps (untouched T) (fix_loop budget round).
Proof.
  induction budget as [|budget IH]; intros round; cbn [fix_loop]; [apply keeps_fail|].
  apply keeps_attempt; [apply untouched_Exec|]. intros [n|e]; [|apply IH]. case_match; [apply keeps_ret|apply IH].
Qed.

Lemma untouched_task T t : keeps (untouched T) (run_task t).
Proof.
  destruct t as [budget|c|cs]; cbn [run_task].
  - unfold fixer_Start, findHighestMismatchedRound. apply keeps_attempt.
    + apply keeps_attempt; [apply untouched_Scan|]. intros [[n|]|e]; untouched_steps.
    + intros [n|e]; [|apply keeps_fail]. case_match; [apply keeps_ret|apply untouched_fix_loop].
  - apply untouched_call.
  - cbn [st_RunInTransaction PostDB_Storage]. unfold PostDB_RunInTransaction.
    apply keeps_bind; [apply untouched_begin|intros []]. apply keeps_attempt.
    + generalize tt. induction cs as [|c cs IH]; intros []; cbn [mfold]; [apply keeps_ret|].
      apply keeps_bind; [apply untouched_call|done].
    + intros [[]|e]; [|apply untouched_rollback]. apply keeps_bind; [apply untouched_commit|intros []; apply keeps_ret].
Qed.

(** Whatever the services do with a database opened read-only, its tables stay. *)
Lemma ro_tasks ts d : db_view (run_tasks ts (open_session true d)) = db_view d.
Proof.
  assert (H1 : untouched (db_view d) (open_session true d)) by apply ro_open.
  revert H1. generalize (open_session true d). induction ts as [|t ts IH]; intros d' H1; cbn [run_tasks]; [apply H1|].
  apply IH. by apply untouched_task.
Qed.
End Tasks.

(** ** A database in memory with read-only sessions *)
Record SessionDB := mkSessionDB { sd_readOnly : bool; sd_db : MemDB }.

(** [read_only_sql_transaction] *)
Definition ErrReadOnly : error := ErrDB 25006.

Definition on_mem {A} (m : M MemDB A) : M SessionDB A := fun d =>
  let '(r, m') := m (sd_db d) in (r, mkSessionDB (sd_readOnly d) m').

Definition unless_readOnly {A} (h : handle) (m : M MemDB A) : M SessionDB A := fun d =>
  if sd_readOnly d then (Err ErrReadOnly, mkSessionDB true (mem_abort h (sd_db d))) else on_mem m d.

#[export] Instance SessionDB_SqlDB : SqlDB SessionDB := {|
  db_view d := db_view (sd_db d);
  db_pending d := db_pending (sd_db d);
  db_up d := db_up (sd_db d);
  db_live d := db_live (sd_db d);
  db_select t h q := on_mem (db_select t h q);
  db_write h w := unless_readOnly h (db_write h w);
  db_begin := on_mem db_begin;
  db_commit := on_mem db_commit;
  db_rollback d := mkSessionDB (sd_readOnly d) (db_rollback (sd_db d));
|}.

#[export] Instance SessionDB_RawDB : RawDB SessionDB := {|
  raw_view d := raw_view (sd_db d);
  raw_up d := raw_up (sd_db d);
  raw_Scan A q := on_mem (raw_Scan q);
  raw_Exec w := unless_readOnly HDb (raw_Exec w);
|}.

#[export] Instance SessionDB_Sessions : Sessions SessionDB := {|
  open_session ro d := mkSessionDB ro (mkMemDB (mem_view (sd_db d)) id false (mem_plan (sd_db d)));
  ro_session d := sd_readOnly d = true;
|}.

Lemma on_mem_snd {A} (m : M MemDB A) d : (on_mem m d).2 = mkSessionDB (sd_readOnly d) (m (sd_db d)).2.
Proof. unfold on_mem. by destruct (m (sd_db d)). Qed.

#[export] Instance SessionDB_laws : SessionLaws SessionDB.
Proof.
  split; [done| | | | |done| |].
  - intros t h q [ro d] Hr. cbn zeta. cbn [db_select SessionDB_SqlDB]. rewrite on_mem_snd. cbn in Hr |- *. subst ro.
    destruct (law_select t h q d) as (r & d' & E & Hs). cbn in E. rewrite E. cbn. split; [done|].
    destruct Hs as [(l & _ & _ & Hv & Hp & _)|(c & _ & _ & Hv & Hp)]; (split; [done|]); [by left|]. destruct h; [by left|by right].
  - intros h w [ro d] Hr. cbn in Hr. subst ro. exists 25006. eexists. split; [done|]. split; [done|]. by destruct h.
  - intros [ro d] Hr. cbn zeta. cbn [db_begin SessionDB_SqlDB]. rewrite on_mem_snd. cbn in Hr |- *. subst ro.
    destruct (mem_guard_cases HDb (fun d => (Ok tt, mkMemDB (mem_view d) id true (mem_plan d))) d)
      as (plan & _ & [->|(c & -> & _)]); cbn; (split; [done|]); (split; [done|]); [by right|by left].
  - intros [ro d] Hr. cbn zeta. cbn [db_commit SessionDB_SqlDB]. rewrite on_mem_snd. cbn in Hr |- *. subst ro.
    destruct (mem_guard_cases HDb (fun d => (Ok tt, mkMemDB (mem_pend d (mem_view d)) id false (mem_plan d))) d)
      as (plan & _ & [->|(c & -> & _)]); cbn; (split; [done|]); [split; [by right|by right]|split; by left].
  - intros A q [ro d] Hr. cbn zeta. cbn [raw_Scan SessionDB_RawDB]. rewrite on_mem_snd. cbn in Hr |- *. subst ro.
    destruct (mem_guard_cases HDb (fun d => (Ok (q (mem_view d)), d)) d) as (plan & _ & [->|(c & -> & _)]); by cbn.
  - intros w [ro d] Hr. cbn in Hr. subst ro. exists 25006. eexists. by split.
Qed.

(** The fixer changes the log with the wrong index, unless the session is read-only. *)
Definition ex_session : SessionDB := mkSessionDB false (ex_mismatch 10001 []).

Lemma ro_tasks_example :
  t_logs (db_view (run_tasks [TaskFixer 3] (open_session false ex_session))) !! ("t"%string, 0)
    = Some (with_TxIndex (ex_wrong_log 10001) 1) /\
  t_logs (db_view (run_tasks [TaskFixer 3] (open_session true ex_session))) !! ("t"%string, 0)
    = Some (ex_wrong_log 10001).
Proof. vm_compute. done. Qed.
