(* ===== verification/Migrator.v ===== *)
(** * The database migrator (src/db/migrator)

    Migrations are applied in ascending order of their names, each in one
    database transaction together with the row that records it.  The database
    is [MigDB]: the rows of the migrations table, the rest of its content (of
    any type [U]) and a script of faults: a statement may fail, and a commit
    may also succeed without being acknowledged.  A migration function maps the
    content to the new content or fails. *)
From S2P Require Import Prelude GoLib.

Section Migrator.
Context {U : Type}.

Record Migration := mkMigration {
  mg_ID : Z;
  mg_Name : string;
  mg_Up : option (U -> result U);
  mg_Down : option (U -> result U);
}.

Definition IsApplied (m : Migration) : bool := 0 <? mg_ID m.

Inductive fault := Fine | Fails (code : Z) | Lost (code : Z).

Record MigDB := mkMigDB {
  md_rows : list (Z * string);
  md_nextID : Z;
  md_content : U;
  md_plan : list fault;
}.

(** ** Ordering

    [sort.Slice] by name; names are distinct, so every sort gives this one. *)
Definition cmpName (a b : Migration) : Z :=
  match String.compare (mg_Name a) (mg_Name b) with Lt => -1 | Eq => 0 | Gt => 1 end.

Definition sortAsc (ms : list Migration) : list Migration := SortStableFunc cmpName ms.
Definition sortDesc (ms : list Migration) : list Migration := SortStableFunc (fun a b => cmpName b a) ms.

(** [Migrations.Add]; a nameless migration panics. *)
Definition Add (ms : list Migration) (m : Migration) : result (list Migration) :=
  if bool_decide (mg_Name m = ""%string) then Err ErrPanic else Ok (ms ++ [m]).

Definition Migrations_Sorted (ms : list Migration) : list Migration := sortAsc ms.

Definition Applied (ms : list Migration) : list Migration :=
  sortDesc (List.filter IsApplied ms).
Definition Unapplied (ms : list Migration) : list Migration :=
  sortAsc (List.filter (fun m => negb (IsApplied m)) ms).

(** ** The database *)

(** The next statement of the script. *)
Definition next_fault (d : MigDB) : fault * MigDB :=
  match md_plan d with
  | f :: plan => (f, mkMigDB (md_rows d) (md_nextID d) (md_content d) plan)
  | [] => (Fine, d)
  end.

Definition stmt {A} (k : M MigDB A) : M MigDB A := fun d =>
  match next_fault d with
  | (Fine, d1) => k d1
  | (Fails c, d1) | (Lost c, d1) => (Err (ErrDB c), d1)
  end.

(** The state after a rollback: the sequence of IDs is not rolled back. *)
Definition rolled_back (d d' : MigDB) : MigDB :=
  mkMigDB (md_rows d) (md_nextID d') (md_content d) (md_plan d').

(** [bun.DB.RunInTx] *)
Definition RunInTx {A} (fn : M MigDB A) : M MigDB A :=
  stmt (fun d =>
    match fn d with
    | (Err e, d2) => (Err e, rolled_back d d2)
    | (Ok a, d2) =>
        match next_fault d2 with
        | (Fine, d3) => (Ok a, d3)
        | (Fails c, d3) => (Err (ErrDB c), rolled_back d d3)
        | (Lost c, d3) => (Err (ErrDB c), d3)
        end
    end).

(** The migrations table: created if it does not exist (one that does not exist counts
    as empty), and dropped. *)
Definition Init : M MigDB unit := stmt (mret tt).
Definition Delete : M MigDB unit :=
  stmt (fun d => (Ok tt, mkMigDB [] (md_nextID d) (md_content d) (md_plan d))).

Definition lockMigrations : M MigDB unit :=
  attempt (stmt (mret tt)) (fun r => match r with
    | Ok _ => mret tt
    | Err e => fail (ErrWrap "locking migrations" e)
    end).

(** The rows by name, and the migrations with the IDs of their rows. *)
Definition appliedMap (rows : list (Z * string)) : gmap string Z :=
  foldl (fun m r => <[snd r := fst r]> m) ∅ rows.

Definition with_status (am : gmap string Z) (m : Migration) : Migration :=
  match am !! mg_Name m with
  | Some id => mkMigration id (mg_Name m) (mg_Up m) (mg_Down m)
  | None => m
  end.

Definition migrationsWithStatus (ms : list Migration) : M MigDB (list Migration) :=
  applied ← stmt (fun d => (Ok (md_rows d), d));
  mret (map (with_status (appliedMap applied)) (Migrations_Sorted ms)).

Definition markApplied (m : Migration) : M MigDB unit :=
  stmt (fun d => (Ok tt, mkMigDB (md_rows d ++ [(md_nextID d, mg_Name m)]) (md_nextID d + 1)
                           (md_content d) (md_plan d))).

Definition markUnapplied (m : Migration) : M MigDB unit :=
  stmt (fun d => (Ok tt, mkMigDB (List.filter (fun r => negb (fst r =? mg_ID m)) (md_rows d))
                           (md_nextID d) (md_content d) (md_plan d))).

(** Running a migration function on the content. *)
Definition run_fn (f : option (U -> result U)) : M MigDB unit := fun d =>
  match f with
  | None => (Ok tt, d)
  | Some f => match f (md_content d) with
              | Ok u => (Ok tt, mkMigDB (md_rows d) (md_nextID d) u (md_plan d))
              | Err e => (Err e, d)
              end
  end.

(** The function of one transaction of [Migrate]: the result is [stop]. *)
Definition apply_next (ms : list Migration) : M MigDB bool :=
  _ ← lockMigrations;
  migrations ← migrationsWithStatus ms;
  match Unapplied migrations with
  | [] => mret true
  | migration :: _ =>
      _ ← run_fn (mg_Up migration);
      _ ← markApplied migration;
      mret false
  end.

Definition ErrFuel : error := ErrNew "out of fuel".

Fixpoint migrate_loop (fuel : nat) (ms : list Migration) : M MigDB unit :=
  match fuel with
  | 0%nat => fail ErrFuel
  | S fuel' =>
      attempt (RunInTx (apply_next ms)) (fun r => match r with
        | Err e => fail (ErrWrap "applying migration" e)
        | Ok true => mret tt
        | Ok false => migrate_loop fuel' ms
        end)
  end.

(** Every iteration but the last records a migration. *)
Definition Migrate (ms : list Migration) : M MigDB unit :=
  if (length (sortAsc ms) =? 0)%nat then fail (ErrNew "no migrations")
  else migrate_loop (S (length ms)) ms.

Definition Rollback (ms : list Migration) : M MigDB unit :=
  if (length (sortAsc ms) =? 0)%nat then fail (ErrNew "no migrations")
  else RunInTx (
    _ ← lockMigrations;
    migrations ← migrationsWithStatus ms;
    match Applied migrations with
    | [] => fail (ErrNew "no applied migrations")
    | migration :: _ =>
        _ ← run_fn (mg_Down migration);
        markUnapplied migration
    end).
(** ** Ordering lemmas *)
Lemma ascii_compare_N (a b : Ascii.ascii) : Ascii.compare a b = N.compare (Ascii.N_of_ascii a) (Ascii.N_of_ascii b).
Proof. reflexivity. Qed.

Lemma string_le_trans a : forall b c, String.compare a b <> Gt -> String.compare b c <> Gt -> String.compare a c <> Gt.
Proof.
  induction a as [|x a IH]; intros [|y b] [|z c]; cbn; try done. rewrite !ascii_compare_N.
  destruct (N.compare_spec (Ascii.N_of_ascii x) (Ascii.N_of_ascii y)) as [Hxy|Hxy|Hxy];
    destruct (N.compare_spec (Ascii.N_of_ascii y) (Ascii.N_of_ascii z)) as [Hyz|Hyz|Hyz]; try done;
    destruct (N.compare_spec (Ascii.N_of_ascii x) (Ascii.N_of_ascii z)) as [Hxz|Hxz|Hxz]; try done; try lia.
  intros H1 H2. by eapply IH.
Qed.

Lemma cmpName_le a b : cmpName a b <= 0 <-> String.compare (mg_Name a) (mg_Name b) <> Gt.
Proof. unfold cmpName. destruct (String.compare _ _); split; intros; try done; lia. Qed.

Lemma cmpName_opp a b : cmpName b a = - cmpName a b.
Proof.
  unfold cmpName. rewrite (String.compare_antisym (mg_Name b) (mg_Name a)).
  by destruct (String.compare (mg_Name a) (mg_Name b)).
Qed.

Lemma cmpName_trans a b c : cmpName a b <= 0 -> cmpName b c <= 0 -> cmpName a c <= 0.
Proof. rewrite !cmpName_le. apply string_le_trans. Qed.

Definition name_sorted (l : list Migration) : Prop := StronglySorted (fun a b => cmpName a b <= 0) l.

Lemma sortAsc_sorted ms : name_sorted (sortAsc ms).
Proof.
  apply SortStableFunc_sorted; [apply cmpName_trans|]. intros x y. rewrite (cmpName_opp x y). lia.
Qed.

Lemma insert_last x l : Forall (fun y => cmpName y x <= 0) l -> insert_stable cmpName x l = l ++ [x].
Proof.
  induction 1 as [|y l Hy Hl IH]; [done|]. cbn. rewrite (cmpName_opp y x), IH.
  destruct (Z.ltb_spec (- cmpName y x) 0); [lia|done].
Qed.

Lemma sortAsc_id l : name_sorted l -> sortAsc l = l.
Proof.
  unfold sortAsc, SortStableFunc.
  enough (H : forall l acc, Forall (fun x => Forall (fun y => cmpName y x <= 0) acc) l -> name_sorted l ->
    foldl (fun acc x => insert_stable cmpName x acc) acc l = acc ++ l) by (intros; apply H; [|done];
    apply Forall_forall; intros; constructor).
  clear l. induction l as [|x l IH]; intros acc Ha Hs; [by rewrite app_nil_r|]. cbn [foldl].
  apply Forall_cons in Ha as [Hx Ha]. apply StronglySorted_inv in Hs as [Hs Hxl].
  rewrite (insert_last x acc Hx), IH; [by rewrite <- app_assoc| |done].
  rewrite Forall_forall in Ha, Hxl |- *. intros y Hy. apply Forall_app. split; [by apply Ha|].
  constructor; [by apply Hxl|constructor].
Qed.

(** ** The migrations to do *)
Definition todo (ms : list Migration) (rows : list (Z * string)) : list Migration :=
  filter (fun m => mg_Name m ∉ rows.*2) (sortAsc ms).

Definition registered (ms : list Migration) : Prop :=
  NoDup (mg_Name <$> ms) /\ Forall (fun m => mg_ID m = 0) ms.
Definition ids_ok (d : MigDB) : Prop := Forall (fun r => 0 < fst r) (md_rows d) /\ 0 < md_nextID d.

Lemma appliedMap_spec rows n :
  match appliedMap rows !! n with
  | Some id => (id, n) ∈ rows
  | None => n ∉ rows.*2
  end.
Proof.
  unfold appliedMap. induction rows as [|[id m] rows IH] using rev_ind;
    [cbn; rewrite lookup_empty; apply not_elem_of_nil|].
  rewrite foldl_app. cbn. destruct (decide (m = n)) as [->|Hne].
  - rewrite lookup_insert_eq. apply elem_of_app. right. left.
  - rewrite lookup_insert_ne by done. destruct (foldl _ ∅ rows !! n).
    + apply elem_of_app. by left.
    + rewrite fmap_app. set_solver.
Qed.

Lemma list_filter_sub (l : list Migration) (P : Migration -> Prop) `{!forall x, Decision (P x)} :
  name_sorted l -> name_sorted (filter P l).
Proof. apply StronglySorted_filter. Qed.

Lemma unapplied_todo ms rows : Forall (fun m => mg_ID m = 0) ms -> Forall (fun r : Z * string => 0 < fst r) rows ->
  Unapplied (map (with_status (appliedMap rows)) (sortAsc ms)) = todo ms rows.
Proof.
  intros Hms Hrows. unfold Unapplied, todo.
  assert (Hz : Forall (fun m => mg_ID m = 0) (sortAsc ms)) by (unfold sortAsc; by rewrite SortStableFunc_perm).
  assert (Hf : List.filter (fun m => negb (IsApplied m)) (map (with_status (appliedMap rows)) (sortAsc ms)) =
    filter (fun m => mg_Name m ∉ rows.*2) (sortAsc ms)).
  { induction Hz as [|m l Hm Hl IH]; [done|]. rewrite filter_cons. cbn [map List.filter]. rewrite IH.
    pose proof (appliedMap_spec rows (mg_Name m)) as Ha. unfold with_status at 1 2.
    destruct (appliedMap rows !! mg_Name m) as [id|].
    - rewrite decide_False.
      + unfold IsApplied. cbn [mg_ID]. rewrite Forall_forall in Hrows. apply Hrows in Ha. cbn in Ha.
        by rewrite (proj2 (Z.ltb_lt _ _)).
      + intros Hn. apply Hn. apply list_elem_of_fmap. by exists (id, mg_Name m).
    - rewrite decide_True by done. unfold IsApplied. by rewrite Hm. }
  rewrite Hf. apply sortAsc_id, list_filter_sub, sortAsc_sorted.
Qed.

Lemma NoDup_names_filter (P : Migration -> Prop) `{!forall x, Decision (P x)} l :
  NoDup (mg_Name <$> l) -> NoDup (mg_Name <$> filter P l).
Proof.
  induction l as [|x l IH]; [done|]. rewrite fmap_cons, NoDup_cons, filter_cons. intros [Hx Hl].
  destruct (decide (P x)); [|by apply IH]. rewrite fmap_cons, NoDup_cons. split; [|by apply IH].
  intros (y & Ey & [_ Hy]%list_elem_of_filter)%list_elem_of_fmap. apply Hx, list_elem_of_fmap. eauto.
Qed.

(** Recording the first migration to do leaves the others. *)
Lemma todo_next ms rows m rest id : NoDup (mg_Name <$> ms) ->
  todo ms rows = m :: rest -> todo ms (rows ++ [(id, mg_Name m)]) = rest.
Proof.
  intros Hnd Ht. unfold todo in *.
  assert (Hnd' : NoDup (mg_Name <$> sortAsc ms)) by (unfold sortAsc; by rewrite SortStableFunc_perm).
  assert (Hf : filter (fun x => mg_Name x ∉ (rows ++ [(id, mg_Name m)]).*2) (sortAsc ms) =
    filter (fun x => mg_Name x <> mg_Name m) (filter (fun x => mg_Name x ∉ rows.*2) (sortAsc ms))).
  { rewrite list_filter_filter. apply list_filter_iff. intros x. rewrite fmap_app. set_solver. }
  rewrite Hf, Ht.
  assert (Hm : NoDup (mg_Name <$> m :: rest)).
  { rewrite <- Ht. by apply NoDup_names_filter. }
  rewrite fmap_cons, NoDup_cons in Hm. destruct Hm as [Hm _]. rewrite filter_cons_False by tauto.
  clear -Hm. induction rest as [|x rest IH]; [done|]. cbn in Hm. rewrite filter_cons_True by set_solver.
  rewrite IH; [done|set_solver].
Qed.
(** ** One transaction *)
Definition calm (d : MigDB) : Prop := Forall (eq Fine) (md_plan d).
Definition unchanged (d d' : MigDB) : Prop := md_rows d' = md_rows d /\ md_content d' = md_content d.

Definition up (m : Migration) (u : U) : result U :=
  match mg_Up m with Some f => f u | None => Ok u end.

(** The migration ran and is recorded. *)
Definition applied (m : Migration) (d d' : MigDB) : Prop :=
  (exists id, md_rows d' = md_rows d ++ [(id, mg_Name m)]) /\ up m (md_content d) = Ok (md_content d').

Lemma next_fault_spec d : exists f d1, next_fault d = (f, d1) /\ unchanged d d1 /\ md_nextID d1 = md_nextID d /\
  (calm d -> f = Fine /\ calm d1).
Proof.
  unfold next_fault, calm. destruct d as [rows id u [|f plan]]; cbn.
  - eexists _, _. repeat split; done.
  - eexists f, _. split; [done|]. do 2 (split; [done|]). cbn. by intros [-> ?]%Forall_cons.
Qed.

Lemma stmt_cases {A} (k : M MigDB A) d : exists d1, unchanged d d1 /\ md_nextID d1 = md_nextID d /\
  (calm d -> calm d1) /\ (stmt k d = k d1 \/ exists c, stmt k d = (Err (ErrDB c), d1) /\ ~ calm d).
Proof.
  destruct (next_fault_spec d) as (f & d1 & E & Hu & Hn & Hc). exists d1. unfold stmt. rewrite E.
  split; [done|]. split; [done|]. split; [intros; by apply Hc|].
  destruct f; [by left|right|right]; eexists; (split; [done|]); intros [? _]%Hc; done.
Qed.

Lemma ids_ok_same d d' : unchanged d d' -> md_nextID d' = md_nextID d -> ids_ok d -> ids_ok d'.
Proof. intros [Hr _] Hn [? ?]. split; congruence. Qed.

(** What the function of a transaction does, and when it fails. *)
Definition next_done (ms : list Migration) (d : MigDB) (r : result bool) (d' : MigDB) : Prop :=
  match todo ms (md_rows d) with
  | [] => (r = Ok true /\ unchanged d d') \/ (is_Ok r = false /\ ~ calm d)
  | m :: _ => (r = Ok false /\ applied m d d') \/
      (is_Ok r = false /\ (calm d -> is_Ok (up m (md_content d)) = false))
  end.

Lemma apply_next_spec ms d : registered ms -> ids_ok d ->
  exists r d', apply_next ms d = (r, d') /\ ids_ok d' /\ (calm d -> calm d') /\ 0 < md_nextID d' /\ next_done ms d r d'.
Proof.
  intros [Hnd Hz] Hids. unfold apply_next, next_done, lockMigrations, migrationsWithStatus.
  destruct (stmt_cases (mret tt) d) as (d1 & Hu1 & Hn1 & Hc1 & H1).
  pose proof (ids_ok_same _ _ Hu1 Hn1 Hids) as Hi1.
  unfold mbind, M_bind, attempt. destruct H1 as [->|(c & -> & Hnc)]; cbn [mret M_ret fail].
  2: { eexists _, d1. split; [done|]. split; [done|]. split; [done|]. split; [apply Hi1|].
       destruct (todo ms (md_rows d)); right; done. }
  unfold mret at 1, M_ret at 1.
  destruct (stmt_cases (fun d => (Ok (md_rows d), d)) d1) as (d2 & Hu2 & Hn2 & Hc2 & H2).
  pose proof (ids_ok_same _ _ Hu2 Hn2 Hi1) as Hi2. unfold mret at 1, M_ret at 1.
  destruct H2 as [->|(c & -> & Hnc)].
  2: { eexists _, d2. split; [done|]. split; [done|]. split; [auto|]. split; [apply Hi2|].
       destruct (todo ms (md_rows d)); right; (split; [done|]); [|intros; exfalso]; auto. }
  assert (Hr2 : md_rows d2 = md_rows d) by (destruct Hu1, Hu2; congruence).
  assert (Hk2 : md_content d2 = md_content d) by (destruct Hu1, Hu2; congruence).
  unfold mret at 1, M_ret at 1.
  change (Migrations_Sorted ms) with (sortAsc ms). rewrite (unapplied_todo ms (md_rows d2) Hz (proj1 Hi2)), Hr2.
  destruct (todo ms (md_rows d)) as [|m rest] eqn:Et.
  { eexists _, d2. split; [done|]. split; [done|]. split; [auto|]. split; [apply Hi2|]. left. split; [done|]. by split. }
  assert (Hup : exists r d3, run_fn (mg_Up m) d2 = (r, d3) /\ md_rows d3 = md_rows d2 /\ md_nextID d3 = md_nextID d2 /\
    md_plan d3 = md_plan d2 /\ ((r = Ok tt /\ up m (md_content d) = Ok (md_content d3)) \/
      (is_Ok r = false /\ is_Ok (up m (md_content d)) = false))).
  { unfold run_fn, up. rewrite Hk2. destruct (mg_Up m) as [f|].
    - destruct (f (md_content d)) as [u|e]; eexists _, _; (split; [done|]); do 3 (split; [done|]); [by left|by right].
    - eexists _, d2. split; [done|]. do 3 (split; [done|]). left. by rewrite Hk2. }
  destruct Hup as (r & d3 & -> & Hr3 & Hn3 & Hp3 & Hup).
  assert (Hi3 : ids_ok d3) by (destruct Hi2; split; congruence).
  assert (Hc3 : calm d -> calm d3) by (unfold calm in *; rewrite Hp3; auto).
  destruct Hup as [[-> Hup]|[Hne Hup]].
  2: { destruct r; [done|]. eexists _, d3. split; [done|]. split; [done|]. split; [done|]. split; [apply Hi3|]. by right. }
  unfold markApplied.
  match goal with |- context [stmt ?k d3] => destruct (stmt_cases k d3) as (d4 & Hu4 & Hn4 & Hc4 & H4) end.
  pose proof (ids_ok_same _ _ Hu4 Hn4 Hi3) as Hi4.
  destruct H4 as [->|(c & -> & Hnc)].
  2: { eexists _, d4. split; [done|]. split; [done|]. split; [auto|]. split; [apply Hi4|]. right. split; [done|].
       intros Hc. exfalso. auto. }
  eexists _, _. split; [done|]. destruct Hi4 as [Hf4 Hid4]. split; [|split; [|split]].
  - split; cbn; [apply Forall_app; split; [done|by repeat constructor]|lia].
  - intros Hc. apply Hc4, Hc3, Hc.
  - cbn. lia.
  - left. split; [done|]. destruct Hu4 as [Hr4 Hk4]. split; cbn.
    + eexists. rewrite Hr4, Hr3, Hr2. done.
    + by rewrite Hk4.
Qed.

(** The transaction around it: nothing, or the whole migration. *)
Lemma RunInTx_apply ms d : registered ms -> ids_ok d ->
  exists r d', RunInTx (apply_next ms) d = (r, d') /\ ids_ok d' /\ (calm d -> calm d') /\
    match todo ms (md_rows d) with
    | [] => unchanged d d' /\ (r = Ok true \/ is_Ok r = false /\ ~ calm d)
    | m :: _ => (r = Ok false /\ applied m d d') \/
        (is_Ok r = false /\ (unchanged d d' \/ applied m d d') /\ (calm d -> is_Ok (up m (md_content d)) = false))
    end.
Proof.
  intros Hreg Hids. unfold RunInTx.
  match goal with |- context [stmt ?k d] => destruct (stmt_cases k d) as (d1 & Hu1 & Hn1 & Hc1 & H1) end.
  pose proof (ids_ok_same _ _ Hu1 Hn1 Hids) as Hi1. destruct Hu1 as [Hr1 Hk1].
  destruct H1 as [->|(c & -> & Hnc)].
  2: { eexists _, d1. split; [done|]. split; [done|]. split; [done|].
       destruct (todo ms (md_rows d)); [split; [done|by right]|].
       right. split; [done|]. split; [left; by split|done]. }
  destruct (apply_next_spec ms d1 Hreg Hi1) as (r & d2 & -> & Hi2 & Hc2 & Hpos & Hd).
  unfold next_done in Hd. rewrite Hr1 in Hd.
  assert (Hroll : forall d3, 0 < md_nextID d3 -> ids_ok (rolled_back d1 d3) /\ unchanged d (rolled_back d1 d3))
    by (intros d3 H3; split; split; cbn; [apply Hi1|done|done|done]).
  assert (Happ : forall m d3, unchanged d2 d3 -> applied m d1 d2 -> applied m d d3).
  { intros m d3 [Hr Hk] [[id Hid] Hu]. split; [exists id; by rewrite Hr, Hid, Hr1|by rewrite Hk, <- Hk1]. }
  destruct r as [b|e].
  - destruct (next_fault_spec d2) as (f & d3 & -> & Hu3 & Hn3 & Hc3).
    pose proof (ids_ok_same _ _ Hu3 Hn3 Hi2) as Hi3.
    assert (Hpos3 : 0 < md_nextID d3) by (by rewrite Hn3). destruct (Hroll d3 Hpos3) as [Hri Hru].
    destruct f as [|c|c]; (eexists _, _; split; [done|]).
    + split; [done|]. split; [intros; by apply Hc3; auto|].
      destruct (todo ms (md_rows d)) as [|m rest].
      * destruct Hd as [[[= ->] Hu]|[? _]]; [|done]. split; [|by left]. destruct Hu, Hu3. split; congruence.
      * destruct Hd as [[[= ->] Ha]|[? _]]; [|done]. left. split; [done|]. by eapply Happ.
    + split; [done|]. split; [intros; by apply Hc3; auto|].
      assert (Hn : ~ calm d) by (intros Hc; by destruct (Hc3 (Hc2 (Hc1 Hc)))).
      destruct (todo ms (md_rows d)); [split; [done|by right]|right; split; [done|]; split; [by left|done]].
    + split; [done|]. split; [intros; by apply Hc3; auto|].
      assert (Hn : ~ calm d) by (intros Hc; by destruct (Hc3 (Hc2 (Hc1 Hc)))).
      destruct (todo ms (md_rows d)) as [|m rest].
      * destruct Hd as [[[= ->] Hu]|[? _]]; [|done]. split; [|by right]. destruct Hu, Hu3. split; congruence.
      * destruct Hd as [[[= ->] Ha]|[? _]]; [|done]. right. split; [done|]. split; [right; by eapply Happ|done].
  - destruct (Hroll d2 Hpos) as [Hri Hru]. eexists _, _. split; [done|]. split; [done|]. split; [auto|].
    destruct (todo ms (md_rows d)) as [|m rest].
    + destruct Hd as [[? _]|[_ Hn]]; [done|]. split; [done|]. right. split; [done|]. auto.
    + destruct Hd as [[? _]|[_ Hn]]; [done|]. right. split; [done|]. split; [by left|].
      intros Hc. rewrite <- Hk1. auto.
Qed.
(** ** Migrate *)

(** Running migrations in order, without a database. *)
Definition run_ups (ms : list Migration) (u : U) : result U := rfold (fun u m => up m u) u ms.

(** The first [k] migrations to do have been applied and recorded. *)
Definition migrated (ms : list Migration) (k : nat) (d d' : MigDB) : Prop :=
  run_ups (take k (todo ms (md_rows d))) (md_content d) = Ok (md_content d') /\
  (md_rows d').*2 = (md_rows d).*2 ++ (mg_Name <$> take k (todo ms (md_rows d))).

Lemma migrated_0 ms d d' : unchanged d d' -> migrated ms 0 d d'.
Proof. intros [Hr Hc]. split; cbn; [by rewrite Hc|]. by rewrite Hr, app_nil_r. Qed.

Lemma migrated_S ms m rest k d d1 d' : NoDup (mg_Name <$> ms) -> todo ms (md_rows d) = m :: rest ->
  applied m d d1 -> migrated ms k d1 d' -> migrated ms (S k) d d'.
Proof.
  intros Hnd Ht [[id Hid] Hu] [Hr Hn]. rewrite Hid, (todo_next ms (md_rows d) m rest id Hnd Ht) in Hr, Hn.
  unfold migrated, run_ups. rewrite Ht. cbn [take rfold]. rewrite Hu. split; [exact Hr|].
  rewrite Hn, fmap_app, <- app_assoc. done.
Qed.

Lemma migrate_loop_spec ms : registered ms -> forall fuel d, ids_ok d ->
  (length (todo ms (md_rows d)) < fuel)%nat ->
  exists r d' k, migrate_loop fuel ms d = (r, d') /\ migrated ms k d d' /\
    ((r = Ok tt /\ (length (todo ms (md_rows d)) <= k)%nat) \/ exists e, r = Err (ErrWrap "applying migration" e)) /\
    (calm d -> is_Ok (run_ups (todo ms (md_rows d)) (md_content d)) = true -> r = Ok tt).
Proof.
  intros Hreg fuel. induction fuel as [|fuel IH]; intros d Hids Hf; [lia|]. cbn [migrate_loop]. unfold attempt.
  destruct (RunInTx_apply ms d Hreg Hids) as (r & d1 & -> & Hi1 & Hc1 & Hd).
  destruct (todo ms (md_rows d)) as [|m rest] eqn:Et.
  - destruct Hd as [Hu [->|[Hr Hn]]].
    + eexists _, d1, 0%nat. split; [done|]. split; [by apply migrated_0|]. split; [left; split; [done|cbn; lia]|done].
    + destruct r as [|e]; [done|]. eexists _, d1, 0%nat. split; [done|]. split; [by apply migrated_0|].
      split; [right; eauto|done].
  - destruct Hd as [[-> Ha]|(Hr & Hd & Hn)].
    + destruct Ha as [[id Hid] Hu]. destruct Hreg as [Hnd Hz].
      pose proof (todo_next ms (md_rows d) m rest id Hnd Et) as Hnext. rewrite <- Hid in Hnext.
      destruct (IH d1 Hi1) as (r & d' & k & -> & Hm & Hr & Hok); [rewrite Hnext; cbn in Hf; lia|].
      exists r, d', (S k). split; [done|]. split; [eapply migrated_S; [done|done|split; [by exists id|done]|done]|].
      rewrite Hnext in Hr, Hok. split; [destruct Hr as [[-> ?]|?]; [left; split; [done|cbn; lia]|by right]|].
      intros Hc. unfold run_ups. cbn [rfold]. rewrite Hu. cbn. auto.
    + destruct r as [|e]; [done|]. destruct Hreg as [Hnd Hz].
      assert (Hk : exists k, migrated ms k d d1).
      { destruct Hd as [Hu|Ha]; [exists 0%nat; by apply migrated_0|]. exists 1%nat.
        eapply (migrated_S _ _ _ 0); [done|done|done|by apply migrated_0]. }
      destruct Hk as [k Hk]. eexists _, d1, k. split; [done|]. split; [done|]. split; [right; eauto|].
      intros Hc. unfold run_ups. cbn [rfold]. specialize (Hn Hc). by destruct (up m (md_content d)).
Qed.

Lemma Migrate_spec ms d : registered ms -> ids_ok d -> ms <> [] ->
  exists r d' k, Migrate ms d = (r, d') /\ migrated ms k d d' /\
    ((r = Ok tt /\ (length (todo ms (md_rows d)) <= k)%nat) \/ exists e, r = Err (ErrWrap "applying migration" e)) /\
    (calm d -> is_Ok (run_ups (todo ms (md_rows d)) (md_content d)) = true -> r = Ok tt).
Proof.
  intros Hreg Hids Hne. unfold Migrate.
  assert (Hlen : length (sortAsc ms) = length ms) by apply SortStableFunc_length.
  destruct (Nat.eqb_spec (length (sortAsc ms)) 0) as [Hz|Hz]; [destruct ms; [done|cbn in *; lia]|].
  apply (migrate_loop_spec ms Hreg (S (length ms)) d Hids).
  pose proof (length_filter (fun m => mg_Name m ∉ (md_rows d).*2) (sortAsc ms)). unfold todo. lia.
Qed.

(** A success leaves nothing to do, and all missing migrations have run. *)
Lemma Migrate_ok ms d d' : registered ms -> ids_ok d -> ms <> [] -> Migrate ms d = (Ok tt, d') ->
  todo ms (md_rows d') = [] /\ run_ups (todo ms (md_rows d)) (md_content d) = Ok (md_content d').
Proof.
  intros Hreg Hids Hne E. destruct (Migrate_spec ms d Hreg Hids Hne) as (r & d1 & k & E1 & [Hu Hn] & Hr & _).
  rewrite E in E1. injection E1 as <- <-. destruct Hr as [[_ Hk]|[e Hr]]; [|done].
  rewrite take_ge in Hu, Hn by done. split; [|done].
  apply filter_none, Forall_forall. intros m Hm Hin. apply Hin. rewrite Hn, elem_of_app.
  destruct (decide (mg_Name m ∈ (md_rows d).*2)) as [?|Hx]; [by left|right].
  apply list_elem_of_fmap_2. by apply list_elem_of_filter.
Qed.

(** C22: Migrations are atomic and ordered: whatever statements or commits fail,
    [Migrate] ends, and the database is then what running some number of the
    missing migrations, in ascending order of their names and each as a whole,
    makes of it, with exactly these recorded; running it again goes on from
    there.  When it reports success they have all been run, and it does so when
    nothing fails. *)
Theorem Migrate_atomic ms d : registered ms -> ids_ok d -> ms <> [] ->
  exists r d' k, Migrate ms d = (r, d') /\ migrated ms k d d' /\ name_sorted (todo ms (md_rows d)) /\
    ((r = Ok tt /\ (length (todo ms (md_rows d)) <= k)%nat) \/ exists e, r = Err (ErrWrap "applying migration" e)) /\
    (calm d -> is_Ok (run_ups (todo ms (md_rows d)) (md_content d)) = true -> r = Ok tt).
Proof.
  intros Hreg Hids Hne. destruct (Migrate_spec ms d Hreg Hids Hne) as (r & d' & k & E & Hm & Hr & Hok).
  exists r, d', k. split; [done|]. split; [done|]. split; [|done].
  apply list_filter_sub, sortAsc_sorted.
Qed.
End Migrator.

(** ** Witness: two migrations, registered out of order; the second fails once *)
Definition ex_migrations : list (Migration (U:=Z)) :=
  [mkMigration 0 "2024" (Some (fun u => Ok (2 * u))) None; mkMigration 0 "2021" (Some (fun u => Ok (u + 3))) None].

Definition ex_migdb (plan : list fault) : MigDB (U:=Z) := mkMigDB [] 1 4 plan.

Lemma Migrate_atomic_witness : exists r d' k,
  Migrate ex_migrations (ex_migdb []) = (r, d') /\ migrated ex_migrations k (ex_migdb []) d' /\ r = Ok tt /\
  md_content (snd (Migrate ex_migrations (ex_migdb []))) = 14.
Proof.
  destruct (Migrate_atomic ex_migrations (ex_migdb [])) as (r & d' & k & E & Hm & _ & _ & Hok).
  - split; [|by repeat constructor]. vm_compute.
    constructor; [|constructor; [by intros ?%not_elem_of_nil|constructor]].
    intros H%elem_of_cons. destruct H as [?|H]; [discriminate|]. by apply not_elem_of_nil in H.
  - split; [constructor|reflexivity].
  - discriminate.
  - exists r, d', k. split; [exact E|]. split; [exact Hm|]. split; [apply Hok; [constructor|reflexivity]|].
    vm_compute. reflexivity.
Defined.
