(* ===== verification/OasisApi.v ===== *)
(** * The oasis_, net_ and txpool_ APIs and the oasis_ health check (src/rpc/oasis, src/rpc/net, src/rpc/txpool)

    The health checker probes the key manager through the node; a step is the
    result of one probe, or the end of its context. *)
From S2P Require Import Prelude GoLib Model Sql Storage Psql Extern BlockModels EthViews StoreBlock Source.

(** ** The health checker *)
Definition healthCheckInterval : Z := 30.
Definition healthRetryInterval : Z := 5.
Definition healthUnhealthyThreshold : Z := 3.

Record healthChecker := mkHealthChecker {
  hc_health : Z;
  hc_failures : Z;
}.

Definition new_healthChecker : healthChecker := mkHealthChecker 0 0.

Definition oasis_Health (h : healthChecker) : result unit :=
  if hc_health h =? 0 then Err (ErrNew "oasis API not healthy") else Ok tt.

Definition oasis_updateHealth (h : healthChecker) (healthy : bool) : healthChecker :=
  mkHealthChecker (if healthy then 1 else 0) (hc_failures h).

Definition recordResult (h : healthChecker) (err : option error) : healthChecker :=
  match err with
  | None => oasis_updateHealth (mkHealthChecker (hc_health h) 0) true
  | Some _ =>
      let h := mkHealthChecker (hc_health h) (hc_failures h + 1)%u64 in
      if hc_failures h <? healthUnhealthyThreshold then h
      else oasis_updateHealth h false
  end.

(** The end of [run]. *)
Definition run_stop (h : healthChecker) : healthChecker := oasis_updateHealth h false.

(** In seconds. *)
Definition nextInterval (h : healthChecker) : Z :=
  if 0 <? hc_failures h then healthRetryInterval else healthCheckInterval.

Section OasisApi.
Context `{O : OasisLib} `{!NodeSource C}.

(** One iteration of [run] on the node. *)
Definition probe (h : healthChecker) : M C healthChecker :=
  attempt ns_CoreCallDataPublicKey (fun r =>
    mret (recordResult h (match r with Ok _ => None | Err e => Some e end))).

(** The loop of [run], over what wakes it up: the timer or the end of the context. *)
Inductive wake := Timer | Done.
#[export] Instance wake_eq_dec : EqDecision wake := ltac:(solve_decision).

Fixpoint oasis_run (ws : list wake) (h : healthChecker) : M C healthChecker :=
  match ws with
  | [] => mret h
  | Timer :: ws' => h' ← probe h; oasis_run ws' h'
  | Done :: _ => mret (run_stop h)
  end.

Record CallDataPublicKey := mkCallDataPublicKey {
  pk_PublicKey : list byte;
  pk_Checksum : list byte;
  pk_Signature : list byte;
  pk_Epoch : Z;
}.

Definition oasis_CallDataPublicKey : M C CallDataPublicKey :=
  attempt ns_CoreCallDataPublicKey (fun r => match r with
    | Err _ => fail ErrInternalError
    | Ok res => mret (mkCallDataPublicKey (ck_PublicKey res) (ck_Checksum res) (ck_Signature res) (ck_Epoch res))
    end).
End OasisApi.

Definition net_Version (chainID : Z) : string := big_String chainID.
Definition txpool_Content : gmap string (list unit) := {["pending"%string := []]}.

(** ** Correctness of the health check *)

Definition failed (r : option error) : Prop := r <> None.

Definition after (rs : list (option error)) : healthChecker := foldl recordResult new_healthChecker rs.

(** Failures in a row after a state without any. *)
Lemma failures_run h post : Forall failed post -> hc_failures h = 0 -> Z.of_nat (length post) < two64 ->
  foldl recordResult h post =
  mkHealthChecker (if (length post <? 3)%nat then hc_health h else 0) (Z.of_nat (length post)).
Proof.
  intros Hf H0. induction post as [|r post IH] using rev_ind; intros Hl; [destruct h; cbn in *; by subst|].
  rewrite foldl_app. rewrite length_app in *. cbn [length] in *. apply Forall_app in Hf as [Hf Hr].
  rewrite IH by (done || lia). apply Forall_cons_1 in Hr as [Hr _]. destruct r as [e|]; [|done]. cbn [foldl recordResult].
  cbn [hc_failures hc_health]. rewrite u64_small by u64_lia. unfold healthUnhealthyThreshold, oasis_updateHealth.
  cbn [hc_failures]. replace (Z.of_nat (length post + 1)) with (Z.of_nat (length post) + 1) by lia.
  destruct (Z.ltb_spec (Z.of_nat (length post) + 1) 3), (Nat.ltb_spec (length post) 3), (Nat.ltb_spec (length post + 1) 3);
    try lia; done.
Qed.

(** The oasis_ health check tolerates two failures: after any sequence of
    probes the API is healthy exactly when some probe has succeeded and fewer
    than three have failed since the last success; while the last probe has
    failed the next one comes after the short interval. *)
Theorem oasis_health_spec rs : Z.of_nat (length rs) < two64 ->
  (forall pre post, rs = pre ++ None :: post -> Forall failed post ->
     (oasis_Health (after rs) = Ok tt <-> (length post < 3)%nat) /\
     nextInterval (after rs) = if (length post =? 0)%nat then healthCheckInterval else healthRetryInterval) /\
  (Forall failed rs -> is_Ok (oasis_Health (after rs)) = false).
Proof.
  intros Hl. split.
  - intros pre post -> Hf. unfold after. rewrite foldl_app. cbn [foldl recordResult].
    rewrite length_app in Hl. cbn in Hl. rewrite failures_run by (done || lia).
    unfold oasis_Health, nextInterval. cbn [hc_health hc_failures oasis_updateHealth].
    split.
    + destruct (Nat.ltb_spec (length post) 3); cbn; split; try done; lia.
    + destruct (Z.ltb_spec 0 (Z.of_nat (length post))), (Nat.eqb_spec (length post) 0); try lia; done.
  - intros Hf. unfold after. rewrite failures_run by done. unfold oasis_Health. cbn [hc_health new_healthChecker].
    by destruct (length rs <? 3)%nat.
Qed.

Lemma oasis_health_spec_witness : oasis_Health (after [Some ErrPanic; None; Some ErrPanic; Some ErrPanic]) = Ok tt.
Proof.
  destruct (oasis_health_spec [Some ErrPanic; None; Some ErrPanic; Some ErrPanic]) as [Hw _]; [reflexivity|].
  apply (Hw [Some ErrPanic] [Some ErrPanic; Some ErrPanic]); [reflexivity|by repeat constructor|cbn; lia].
Defined.

(** The loop records the results of the probes in order, and at the end of the context
    the API becomes unhealthy. *)
Lemma oasis_run_records `{O : OasisLib} `{!NodeSource C} ws : forall h (c : C),
  exists rs c', (length rs <= length ws)%nat /\
    oasis_run ws h c = (Ok (let h' := foldl recordResult h rs in if bool_decide (Done ∈ ws) then run_stop h' else h'), c').
Proof.
  induction ws as [|[|] ws IH]; intros h c.
  - by exists [], c.
  - cbn [oasis_run]. unfold probe, attempt, mbind, M_bind. destruct (ns_CoreCallDataPublicKey c) as [r c1]. cbn.
    set (o := match r with Ok _ => None | Err e => Some e end).
    destruct (IH (recordResult h o) c1) as (rs & c2 & Hl & E). exists (o :: rs), c2. split; [cbn; lia|].
    rewrite E. assert (Hd : Done ∈ Timer :: ws <-> Done ∈ ws) by (rewrite elem_of_cons; naive_solver).
    by rewrite (bool_decide_ext _ _ Hd).
  - exists [], c. split; [cbn; lia|]. rewrite bool_decide_eq_true_2 by apply list_elem_of_here. done.
Qed.
