(* ===== verification/Pebble.v ===== *)
(** * The disk cache of node answers (src/source/pebble/pebble.go)

    A [NodeSource] in front of another one that keeps the answers for fixed
    rounds in a key-value store.  The CBOR encoding of keys and values is a
    parameter ([CborLib]), and so is the store ([KVStore]): a read may fail, and a
    write may fail without notice.  [PebbleDB] is a concrete store with a script of
    faults. *)
From stdpp Require Import countable.
From S2P Require Import Prelude GoLib Model Sql Storage Psql Extern BlockModels EthViews StoreBlock Source.

#[export] Instance byte_eq_decision : EqDecision byte := Byte.byte_eq_dec.
#[export] Program Instance byte_countable : Countable byte :=
  inj_countable Byte.to_N Byte.of_N _.
Next Obligation. intros b. apply Byte.of_to_N. Qed.

(** The parameters of the cached methods. *)
Inductive param `{O : OasisLib} :=
  | PUint (n : Z)
  | PBool (b : bool)
  | PBytes (bs : list byte)
  | PAddress (a : oaddr)
  | PTransaction (tx : otransaction).

(** [cbor.Marshal] and [cbor.Unmarshal] at a type. *)
Class Cbor (T : Type) := {
  marshal : T -> list byte;
  unmarshal : list byte -> result T;
}.
Class CborLaws (T : Type) `{Cbor T} : Prop := unmarshal_marshal : forall v : T, unmarshal (marshal v) = Ok v.

Class CborLib `{O : OasisLib} := {
  (** [cbor.Marshal] of a list of a string and a list *)
  marshal_any : string * list param -> list byte;
  cbor_block :: Cbor oheader;
  cbor_txs :: Cbor (list TxWithResults);
  cbor_params :: Cbor CoreParameters;
  cbor_rtinfo :: Cbor RuntimeInfoResponse;
  cbor_pubkey :: Cbor CallDataPublicKeyResponse;
  cbor_prices :: Cbor (gmap string N);
  cbor_uint :: Cbor Z;
  cbor_quantity :: Cbor N;
  cbor_bytestring :: Cbor (list byte);
}.

Definition makeKey `{O : OasisLib} `{L : !CborLib} (method : string) (params : list param) : list byte :=
  marshal_any (method, params).

(** The encoding of keys is injective. *)
Class CborLibLaws `{O : OasisLib} (L : CborLib) : Prop :=
  makeKey_inj : forall m p m' p', makeKey (L:=L) m p = makeKey m' p' -> m = m' /\ p = p'.

(** ** The key-value store *)
(** A store of github.com/cockroachdb/pebble: [kv_view] is its contents; [Ok None] of
    [db.Get] is [pebble.ErrNotFound]. *)
Class KVStore (K : Type) := {
  kv_view : K -> gmap (list byte) (list byte);
  kv_up : K -> Prop;
  kv_Get : list byte -> M K (option (list byte));
  kv_Set : list byte -> list byte -> M K unit;
}.

(** A read returns what is stored, or fails; a write takes effect, or fails, and then
    it may have been applied or not; a store that is up does not fail. *)
Class KVStoreLaws (K : Type) `{KVStore K} : Prop := {
  kv_law_Get : forall key (k : K), exists r k', kv_Get key k = (r, k') /\ kv_view k' = kv_view k /\
    (kv_up k -> kv_up k') /\ (r = Ok (kv_view k !! key) \/ (exists c, r = Err (ErrDB c)) /\ ~ kv_up k);
  kv_law_Set : forall key data (k : K), exists r k', kv_Set key data k = (r, k') /\ (kv_up k -> kv_up k') /\
    ((r = Ok tt /\ kv_view k' = <[key := data]> (kv_view k)) \/
     (exists c, r = Err (ErrDB c)) /\ ~ kv_up k /\
       (kv_view k' = kv_view k \/ kv_view k' = <[key := data]> (kv_view k)));
}.

Section Pebble.
Context `{O : OasisLib} `{L : !CborLib} `{KV : KVStore K} `{!NodeSource C}.

Record Source := mkSource {
  ps_db : K;
  ps_source : C;
}.

Definition ps_on_db {A} (m : M K A) : M Source A := fun s =>
  let '(r, db) := m (ps_db s) in (r, mkSource db (ps_source s)).
Definition ps_on_source {A} (m : M C A) : M Source A := fun s =>
  let '(r, c) := m (ps_source s) in (r, mkSource (ps_db s) c).

Definition getFromCacheOrFetch {T} `{!Cbor T} (key : list byte) (volatile : bool) (fetch : M C T) : M Source T :=
  if volatile then ps_on_source fetch
  else attempt (ps_on_db (kv_Get key)) (fun r => match r with
    | Ok (Some data) =>
        match unmarshal data with
        | Ok val => mret val
        | Err e => fail (ErrWrap "cached data" e)
        end
    | Ok None =>
        attempt (ps_on_source fetch) (fun r => match r with
          | Err e => fail (ErrWrap "fetching data" e)
          | Ok fetched =>
              attempt (ps_on_db (kv_Set key (marshal fetched))) (fun _ => mret fetched)
          end)
    | Err e => fail e
    end).

(** Rounds other than the latest one are cached. *)
Definition at_round {T} `{!Cbor T} (method : string) (round : Z) (params : list param) (fetch : M C T) : M Source T :=
  getFromCacheOrFetch (makeKey method (PUint round :: params)) (round =? RoundLatest) fetch.

Definition Source_GetBlock (height : Z) : M Source oheader := at_round "GetBlock" height [] (ns_GetBlock height).
Definition Source_GetTransactionsWithResults (height : Z) : M Source (list TxWithResults) :=
  at_round "GetTransactionsWithResults" height [] (ns_GetTransactionsWithResults height).
Definition Source_GetLastRetainedBlock : M Source oheader :=
  getFromCacheOrFetch (makeKey "GetLastRetainedBlock" []) true ns_GetLastRetainedBlock.
Definition Source_CoreParameters (height : Z) : M Source CoreParameters :=
  at_round "CoreParameters" height [] (ns_CoreParameters height).
Definition Source_CoreRuntimeInfo : M Source RuntimeInfoResponse :=
  getFromCacheOrFetch (makeKey "CoreRuntimeInfo" []) false ns_CoreRuntimeInfo.
Definition Source_CoreCallDataPublicKey : M Source CallDataPublicKeyResponse :=
  getFromCacheOrFetch (makeKey "CoreCallDataPublicKey" []) false ns_CoreCallDataPublicKey.
Definition Source_CoreEstimateGasForCaller (round : Z) (caller : list byte) (tx : otransaction)
    (propagateFailures : bool) : M Source Z :=
  at_round "CoreEstimateGasForCaller" round [PBytes caller; PTransaction tx; PBool propagateFailures]
    (ns_CoreEstimateGasForCaller round caller tx propagateFailures).
Definition Source_CoreMinGasPrice (round : Z) : M Source (gmap string N) :=
  at_round "CoreMinGasPrice" round [] (ns_CoreMinGasPrice round).
Definition Source_AccountsNonce (round : Z) (address : oaddr) : M Source Z :=
  at_round "AccountsNonce" round [PAddress address] (ns_AccountsNonce round address).
Definition Source_EVMCode (round : Z) (address : list byte) : M Source (list byte) :=
  at_round "EVMCode" round [PBytes address] (ns_EVMCode round address).
Definition Source_EVMBalance (round : Z) (address : list byte) : M Source N :=
  at_round "EVMBalance" round [PBytes address] (ns_EVMBalance round address).
Definition Source_EVMStorage (round : Z) (address slot : list byte) : M Source (list byte) :=
  at_round "EVMStorage" round [PBytes address; PBytes slot] (ns_EVMStorage round address slot).
Definition Source_EVMSimulateCall (a : SimulateCall) : M Source (list byte) :=
  at_round "EVMSimulateCall" (sc_round a)
    [PBytes (sc_gasPrice a); PUint (sc_gasLimit a); PBytes (sc_caller a); PBytes (sc_address a);
     PBytes (sc_value a); PBytes (sc_data a)] (ns_EVMSimulateCall a).
Definition Source_EVMCreate (s : Source) (value initCode : list byte) : otransaction :=
  ns_EVMCreate (ps_source s) value initCode.
Definition Source_EVMCall (s : Source) (address value data : list byte) : otransaction :=
  ns_EVMCall (ps_source s) address value data.
Definition Source_SubmitTxNoWait (body : list byte) (proofs : list string) : M Source unit :=
  fail (ErrNew "SubmitTxNoWait not supported on pebble source").

(** Opening and closing the store are calls of the pebble library. *)
Definition Source_Close (db_Close : M K unit) : M Source unit := ps_on_db db_Close.
Definition pebble_New (Open : string -> result K) (source : C) (path : string) : result Source :=
  match Open path with
  | Err err => Err err
  | Ok db => Ok (mkSource db source)
  end.

#[export] Instance Source_NodeSource : NodeSource Source := {|
  ns_GetBlock := Source_GetBlock;
  ns_GetTransactionsWithResults := Source_GetTransactionsWithResults;
  ns_GetLastRetainedBlock := Source_GetLastRetainedBlock;
  ns_CoreParameters := Source_CoreParameters;
  ns_CoreRuntimeInfo := Source_CoreRuntimeInfo;
  ns_CoreCallDataPublicKey := Source_CoreCallDataPublicKey;
  ns_CoreMinGasPrice := Source_CoreMinGasPrice;
  ns_AccountsNonce := Source_AccountsNonce;
  ns_EVMCode := Source_EVMCode;
  ns_EVMBalance := Source_EVMBalance;
  ns_EVMStorage := Source_EVMStorage;
  ns_EVMSimulateCall := Source_EVMSimulateCall;
  ns_EVMCreate := Source_EVMCreate;
  ns_EVMCall := Source_EVMCall;
  ns_CoreEstimateGasForCaller := Source_CoreEstimateGasForCaller;
  ns_SubmitTxNoWait := Source_SubmitTxNoWait;
|}.

(** ** Transparency *)
Context `{!CborLibLaws L} `{!KVStoreLaws K}.

(** The chain does not change: [ans] is the encoded answer of a fixed round. *)
Definition answers (ans : string -> list param -> list byte) {T} `{!Cbor T} (m : string) (p : list param) (fetch : M C T) : Prop :=
  forall c c' v, fetch c = (Ok v, c') -> marshal v = ans m p.

Definition coherent_db (ans : string -> list param -> list byte) (db : K) : Prop :=
  forall m p data, kv_view db !! makeKey m p = Some data -> data = ans m p.

Lemma Set_coherent ans m p db : coherent_db ans db -> exists r db',
  kv_Set (makeKey m p) (ans m p) db = (r, db') /\ coherent_db ans db'.
Proof.
  intros Hc. destruct (kv_law_Set (makeKey m p) (ans m p) db) as (r & db' & E & _ & Hr). exists r, db'. split; [done|].
  assert (Hi : kv_view db' = <[makeKey m p := ans m p]> (kv_view db) -> coherent_db ans db').
  { intros Hv m' p' data. rewrite Hv, lookup_insert. case_decide as Hk; [|apply Hc].
    apply makeKey_inj in Hk as [-> ->]. by intros [= <-]. }
  destruct Hr as [[_ ?]|(_ & _ & [Hv|?])]; [by apply Hi| |by apply Hi]. intros m' p' data. rewrite Hv. apply Hc.
Qed.

Lemma getFromCacheOrFetch_spec ans {T} `{!Cbor T} `{!CborLaws T} m p (fetch : M C T) s v :
  answers ans m p fetch -> coherent_db ans (ps_db s) -> marshal v = ans m p ->
  exists r s', getFromCacheOrFetch (makeKey m p) false fetch s = (r, s') /\ coherent_db ans (ps_db s') /\
    (forall x, r = Ok x -> x = v) /\
    (kv_view (ps_db s) !! makeKey m p <> None -> ps_source s' = ps_source s).
Proof.
  intros Ha Hc Hv. unfold getFromCacheOrFetch, attempt, ps_on_db, ps_on_source.
  destruct (kv_law_Get (makeKey m p) (ps_db s)) as (r & db1 & -> & Hm & _ & Hr).
  assert (Hc1 : coherent_db ans db1) by (intros m' p' data; rewrite Hm; apply Hc).
  destruct Hr as [->|[(c & ->) _]]; [|eexists _, _; split; [done|]; done].
  destruct (kv_view (ps_db s) !! makeKey m p) as [data|] eqn:E.
  - assert (data = marshal v) as -> by (rewrite Hv; by eapply Hc). rewrite unmarshal_marshal.
    eexists _, _. split; [done|]. split; [done|]. split; [by intros x [= <-]|done].
  - cbn [ps_source]. destruct (fetch (ps_source s)) as [[x|e] c'] eqn:Ef.
    + assert (x = v) as ->.
      { pose proof (unmarshal_marshal x) as Hx. rewrite (Ha _ _ _ Ef), <- Hv, unmarshal_marshal in Hx. by injection Hx. }
      cbn [ps_db]. rewrite Hv. destruct (Set_coherent ans m p db1 Hc1) as (r & db2 & -> & Hc2).
      eexists _, _. split; [done|]. split; [done|]. split; [by intros x [= <-]|done].
    + eexists _, _. split; [done|]. split; [done|]. split; [done|done].
Qed.

(** C37: The disk cache does not change what the gateway sees: as long as the
    node's block of a round stays the same, whatever reads and writes of the
    store fail, asking for a block of a fixed round through the cache gives that
    block or an error, keeps the store consistent with the chain, and does not
    ask the node when the block is stored; the latest block is always asked of
    the node. *)
Theorem pebble_transparent `{!CborLaws oheader} ans height s v :
  answers ans "GetBlock" [PUint height] (ns_GetBlock height) -> coherent_db ans (ps_db s) ->
  marshal v = ans "GetBlock"%string [PUint height] ->
  if height =? RoundLatest
  then fst (Source_GetBlock height s) = fst (ns_GetBlock height (ps_source s)) /\
       ps_db (snd (Source_GetBlock height s)) = ps_db s
  else exists r s', Source_GetBlock height s = (r, s') /\ coherent_db ans (ps_db s') /\
    (forall x, r = Ok x -> x = v) /\
    (kv_view (ps_db s) !! makeKey "GetBlock" [PUint height] <> None -> ps_source s' = ps_source s).
Proof.
  intros Ha Hc Hv. unfold Source_GetBlock, at_round. destruct (Z.eqb_spec height RoundLatest).
  - unfold getFromCacheOrFetch, ps_on_source. by destruct (ns_GetBlock height (ps_source s)).
  - by apply getFromCacheOrFetch_spec.
Qed.

(** The runtime information is not volatile: once it is stored the cache answers with
    it for ever, whatever the node says. *)
Lemma runtime_info_stays s data (i : RuntimeInfoResponse) : kv_up (ps_db s) ->
  kv_view (ps_db s) !! makeKey "CoreRuntimeInfo" [] = Some data -> unmarshal data = Ok i ->
  exists s', Source_CoreRuntimeInfo s = (Ok i, s') /\ ps_source s' = ps_source s /\
    kv_view (ps_db s') = kv_view (ps_db s).
Proof.
  intros Hu Hd Hi. unfold Source_CoreRuntimeInfo, getFromCacheOrFetch, attempt, ps_on_db.
  destruct (kv_law_Get (makeKey "CoreRuntimeInfo" []) (ps_db s)) as (r & db1 & -> & Hm & _ & [->|[_ ?]]); [|done].
  rewrite Hd, Hi. by eexists.
Qed.
End Pebble.

(** ** A store in memory *)
(** [Some c] in the script: the call fails; with [Some 0] a failing write has been
    applied. *)
Record PebbleDB := mkPebbleDB {
  pb_map : gmap (list byte) (list byte);
  pb_plan : list (option Z);
}.

Definition pebble_Get (key : list byte) : M PebbleDB (option (list byte)) := fun db =>
  match pb_plan db with
  | Some c :: plan => (Err (ErrDB c), mkPebbleDB (pb_map db) plan)
  | plan => (Ok (pb_map db !! key), mkPebbleDB (pb_map db) (drop 1 plan))
  end.

Definition pebble_Set (key data : list byte) : M PebbleDB unit := fun db =>
  match pb_plan db with
  | Some c :: plan => (Err (ErrDB c), mkPebbleDB (if c =? 0 then <[key := data]> (pb_map db) else pb_map db) plan)
  | plan => (Ok tt, mkPebbleDB (<[key := data]> (pb_map db)) (drop 1 plan))
  end.

#[export] Instance PebbleDB_KVStore : KVStore PebbleDB := {|
  kv_view := pb_map;
  kv_up db := Forall (eq None) (pb_plan db);
  kv_Get := pebble_Get;
  kv_Set := pebble_Set;
|}.

#[export] Instance PebbleDB_laws : KVStoreLaws PebbleDB.
Proof.
  split; intros *; cbn; unfold pebble_Get, pebble_Set; destruct (pb_plan k) as [|[c|] plan]; eexists _, _; (split; [done|]).
  - split; [done|]. split; [done|by left].
  - split; [done|]. split; [by intros ?%Forall_inv|]. right. split; [eauto|]. by intros ?%Forall_inv.
  - split; [done|]. split; [by intros [_ ?]%Forall_cons|by left].
  - split; [done|by left].
  - split; [by intros ?%Forall_inv|]. right. split; [eauto|]. split; [by intros ?%Forall_inv|].
    cbn. destruct (c =? 0); [by right|by left].
  - split; [by intros [_ ?]%Forall_cons|by left].
Qed.

(** ** Witness: an encoding by numbering *)
#[local] Instance ExHeader_eq_dec : EqDecision ExHeader.
Proof. solve_decision. Defined.
#[local] Instance ExHeader_countable : Countable ExHeader.
Proof.
  refine (inj_countable' (fun h => (xh_hash h, xh_round h)) (fun p => mkExHeader p.1 p.2) _). by intros [].
Defined.

Definition number_bytes {T} `{Countable T} (v : T) : list byte := big_Bytes (Z.pos (countable.encode v)).

Lemma number_bytes_decode {T} `{Countable T} (v : T) : countable.decode (Z.to_pos (be_value (number_bytes v))) = Some v.
Proof. unfold number_bytes. rewrite big_Bytes_value. cbn. apply countable.decode_encode. Qed.

#[local] Instance number_Cbor {T} `{Countable T} : Cbor T := {|
  marshal := number_bytes;
  unmarshal bs := match countable.decode (Z.to_pos (be_value bs)) with Some v => Ok v | None => Err (ErrNew "cbor") end;
|}.
#[local] Instance number_CborLaws {T} `{Countable T} : CborLaws T.
Proof. intros v. unfold marshal, unmarshal, number_Cbor. by rewrite number_bytes_decode. Qed.

Definition no_Cbor {T} : Cbor T := {| marshal _ := []; unmarshal _ := Err (ErrNew "cbor") |}.

(** The parameters as a countable sum. *)
Definition ex_param : Type := Z + (bool + (list byte + (string + list byte * nat))).
Definition param_sum (p : param (O:=ex_OasisLib)) : ex_param :=
  match p with
  | PUint n => inl n
  | PBool b => inr (inl b)
  | PBytes bs => inr (inr (inl bs))
  | PAddress a => inr (inr (inr (inl a)))
  | PTransaction tx => inr (inr (inr (inr tx)))
  end.

Lemma param_sum_inj p q : param_sum p = param_sum q -> p = q.
Proof. destruct p, q; cbn; intros [= E]; by subst. Qed.

#[local] Instance ex_CborLib : CborLib (O:=ex_OasisLib) := {|
  marshal_any k := number_bytes ((k.1, map param_sum k.2) : string * list ex_param);
  cbor_block := number_Cbor (T:=ExHeader) : Cbor (@oheader _ ex_OasisLib);
  cbor_txs := no_Cbor;
  cbor_params := no_Cbor;
  cbor_rtinfo := number_Cbor (T:=string) : Cbor (@RuntimeInfoResponse _ ex_OasisLib);
  cbor_pubkey := no_Cbor;
  cbor_prices := number_Cbor;
  cbor_uint := number_Cbor;
  cbor_quantity := number_Cbor;
  cbor_bytestring := number_Cbor;
|}.

#[local] Instance ex_CborLibLaws : CborLibLaws ex_CborLib.
Proof.
  intros m p m' p' E.
  change (number_bytes ((m, map param_sum p) : string * list ex_param) =
    number_bytes ((m', map param_sum p') : string * list ex_param)) in E.
  pose proof (number_bytes_decode ((m, map param_sum p) : string * list ex_param)) as Ed.
  rewrite E, number_bytes_decode in Ed.
  injection Ed as -> Ep. split; [done|]. clear E. symmetry in Ep. revert p' Ep.
  induction p as [|x p IH]; intros [|y p']; cbn; try done. intros [= Ex%param_sum_inj Ep]. f_equal; auto.
Qed.

Definition ex_header4 : @oheader _ ex_OasisLib := ex_node_header 4.
Definition ex_source : Source (K:=PebbleDB) (C:=ExNode) := mkSource (mkPebbleDB ∅ []) (mkExNode 9).

Lemma pebble_transparent_witness : exists r s', Source_GetBlock 4 ex_source = (r, s') /\
  forall x, r = Ok x -> x = ex_header4.
Proof.
  destruct (pebble_transparent (O:=ex_OasisLib) (fun _ _ => marshal ex_header4) 4 ex_source ex_header4)
    as (r & s' & E & _ & Hr & _).
  - intros c c' v. cbn. case_match; [|done]. by intros [= <- _].
  - intros m p data. cbn. rewrite lookup_empty. discriminate.
  - reflexivity.
  - exists r, s'. split; [exact E|exact Hr].
Defined.
