(* ===== verification/NodeClient.v ===== *)
(** * The node client and the stack of sources (src/source/node/node.go)

    [node.Source] forwards every method of the interface [NodeSource] to the
    clients of the Oasis SDK, which are outside of the sources: [OasisSdk] has
    their methods, on a state [W] that stands for the node and the connection.
    The second part puts the disk cache of Pebble.v in front of a node: a cached
    source serves the same chain, so the indexer catches up through it. *)
From S2P Require Import Prelude GoLib Model Sql Storage Psql Extern BlockModels EthViews StoreBlock IndexBackend Cache Source Indexer IndexerLoop Pebble.

(** [client.RuntimeClient] and the module clients [core.V1], [evm.V1] and
    [accounts.V1], which wrap it. *)
Class OasisSdk `{O : OasisLib} (W : Type) := {
  RuntimeClient : Type;
  CoreV1 : Type;
  EvmV1 : Type;
  AccountsV1 : Type;
  TransactionBuilder : Type;
  core_NewV1 : RuntimeClient -> CoreV1;
  evm_NewV1 : RuntimeClient -> EvmV1;
  accounts_NewV1 : RuntimeClient -> AccountsV1;
  client_GetBlock : RuntimeClient -> Z -> M W oheader;
  client_GetLastRetainedBlock : RuntimeClient -> M W oheader;
  client_GetTransactionsWithResults : RuntimeClient -> Z -> M W (list TxWithResults);
  client_SubmitTxNoWait : RuntimeClient -> list byte -> list string -> M W unit;
  core_Parameters : CoreV1 -> Z -> M W CoreParameters;
  core_RuntimeInfo : CoreV1 -> M W RuntimeInfoResponse;
  core_CallDataPublicKey : CoreV1 -> M W CallDataPublicKeyResponse;
  core_EstimateGasForCaller : CoreV1 -> Z -> list byte -> otransaction -> bool -> M W Z;
  core_MinGasPrice : CoreV1 -> Z -> M W (gmap string N);
  accounts_Nonce : AccountsV1 -> Z -> oaddr -> M W Z;
  evm_Code : EvmV1 -> Z -> list byte -> M W (list byte);
  evm_Balance : EvmV1 -> Z -> list byte -> M W N;
  evm_Storage : EvmV1 -> Z -> list byte -> list byte -> M W (list byte);
  evm_SimulateCall : EvmV1 -> SimulateCall -> M W (list byte);
  evm_Create : EvmV1 -> list byte -> list byte -> TransactionBuilder;
  evm_Call : EvmV1 -> list byte -> list byte -> list byte -> TransactionBuilder;
  GetTransaction : TransactionBuilder -> otransaction;
}.

Module Node.
Section Node.
Context `{O : OasisLib} `{!OasisSdk W}.

Record Source := mkSource {
  client : RuntimeClient;
  core : CoreV1;
  evm : EvmV1;
  accounts : AccountsV1;
}.

Definition CoreParameters_ (s : Source) (height : Z) : M W CoreParameters := core_Parameters (core s) height.
Definition CoreRuntimeInfo (s : Source) : M W RuntimeInfoResponse := core_RuntimeInfo (core s).
Definition CoreCallDataPublicKey (s : Source) : M W CallDataPublicKeyResponse := core_CallDataPublicKey (core s).
Definition CoreEstimateGasForCaller (s : Source) (round : Z) (caller : list byte) (tx : otransaction)
    (propagateFailures : bool) : M W Z :=
  core_EstimateGasForCaller (core s) round caller tx propagateFailures.
Definition CoreMinGasPrice (s : Source) (round : Z) : M W (gmap string N) := core_MinGasPrice (core s) round.
Definition AccountsNonce (s : Source) (round : Z) (address : oaddr) : M W Z := accounts_Nonce (accounts s) round address.
Definition GetBlock (s : Source) (height : Z) : M W oheader := client_GetBlock (client s) height.
Definition GetLastRetainedBlock (s : Source) : M W oheader := client_GetLastRetainedBlock (client s).
Definition GetTransactionsWithResults (s : Source) (height : Z) : M W (list TxWithResults) :=
  client_GetTransactionsWithResults (client s) height.
Definition EVMCode (s : Source) (round : Z) (address : list byte) : M W (list byte) := evm_Code (evm s) round address.
Definition EVMBalance (s : Source) (round : Z) (address : list byte) : M W N := evm_Balance (evm s) round address.
Definition EVMStorage (s : Source) (round : Z) (address slot : list byte) : M W (list byte) :=
  evm_Storage (evm s) round address slot.
Definition EVMSimulateCall (s : Source) (a : SimulateCall) : M W (list byte) := evm_SimulateCall (evm s) a.
Definition EVMCreate (s : Source) (value initCode : list byte) : otransaction :=
  GetTransaction (evm_Create (evm_NewV1 (client s)) value initCode).
Definition EVMCall (s : Source) (address value data : list byte) : otransaction :=
  GetTransaction (evm_Call (evm_NewV1 (client s)) address value data).
Definition SubmitTxNoWait (s : Source) (body : list byte) (proofs : list string) : M W unit :=
  client_SubmitTxNoWait (client s) body proofs.
Definition Close (s : Source) : result unit := Ok tt.

Definition New (client : RuntimeClient) : Source :=
  mkSource client (core_NewV1 client) (evm_NewV1 client) (accounts_NewV1 client).

(** A source together with the state its calls act on. *)
Record node := mkNode { nd_source : Source; nd_world : W }.

Definition on_node {A} (m : Source -> M W A) : M node A := fun n =>
  let '(r, w) := m (nd_source n) (nd_world n) in (r, mkNode (nd_source n) w).

#[global] Instance node_NodeSource : NodeSource node := {|
  ns_GetBlock round := on_node (fun s => GetBlock s round);
  ns_GetTransactionsWithResults round := on_node (fun s => GetTransactionsWithResults s round);
  ns_GetLastRetainedBlock := on_node GetLastRetainedBlock;
  ns_CoreParameters round := on_node (fun s => CoreParameters_ s round);
  ns_CoreRuntimeInfo := on_node CoreRuntimeInfo;
  ns_CoreCallDataPublicKey := on_node CoreCallDataPublicKey;
  ns_CoreMinGasPrice round := on_node (fun s => CoreMinGasPrice s round);
  ns_AccountsNonce round a := on_node (fun s => AccountsNonce s round a);
  ns_EVMCode round a := on_node (fun s => EVMCode s round a);
  ns_EVMBalance round a := on_node (fun s => EVMBalance s round a);
  ns_EVMStorage round a slot := on_node (fun s => EVMStorage s round a slot);
  ns_EVMSimulateCall a := on_node (fun s => EVMSimulateCall s a);
  ns_EVMCreate n value data := EVMCreate (nd_source n) value data;
  ns_EVMCall n to value data := EVMCall (nd_source n) to value data;
  ns_CoreEstimateGasForCaller round caller tx propagate := on_node (fun s => CoreEstimateGasForCaller s round caller tx propagate);
  ns_SubmitTxNoWait body proofs := on_node (fun s => SubmitTxNoWait s body proofs);
|}.

(** What the runtime client documents of its blocks is what the indexer relies on. *)
Class RuntimeClientLaws : Prop := {
  client_GetBlock_round : forall c round header (w w' : W), round <> RoundLatest ->
    client_GetBlock c round w = (Ok header, w') -> oh_Round header = round;
  client_GetBlock_range : forall c round header (w w' : W),
    client_GetBlock c round w = (Ok header, w') -> 0 <= oh_Round header < MaxUint64;
  client_GetLastRetainedBlock_range : forall c header (w w' : W),
    client_GetLastRetainedBlock c w = (Ok header, w') -> 0 <= oh_Round header < MaxUint64;
  client_RoundLatest : RoundLatest = MaxUint64;
}.

#[global] Instance node_laws `{!RuntimeClientLaws} : NodeSourceLaws node.
Proof.
  split; [| | |apply client_RoundLatest]; intros *; cbn; unfold on_node, GetBlock, GetLastRetainedBlock.
  - intros Hr. destruct (client_GetBlock _ _ _) as [[h|e] w] eqn:E; intros [= <- _]. by eapply client_GetBlock_round.
  - destruct (client_GetBlock _ _ _) as [[h|e] w] eqn:E; intros [= <- _]. by eapply client_GetBlock_range.
  - destruct (client_GetLastRetainedBlock _ _) as [[h|e] w] eqn:E; intros [= <- _].
    by eapply client_GetLastRetainedBlock_range.
Qed.
End Node.
End Node.

(** ** The disk cache in front of a node *)
Section CachedSource.
Context `{O : OasisLib} `{L : !CborLib} `{!CborLibLaws L} `{KV : KVStore K} `{!KVStoreLaws K} `{!NodeSource C}.
Notation cached := (Pebble.Source (K:=K) (C:=C)).

Context (up : C -> Prop) (ch : Chain) (lo hi : Z).

(** The values of the chain survive encoding. *)
Record codec_ok : Prop := {
  codec_block : forall r, lo <= r <= hi -> unmarshal (marshal (ch_block ch r)) = Ok (ch_block ch r);
  codec_txs : forall r, lo <= r <= hi -> unmarshal (marshal (ch_txs ch r)) = Ok (ch_txs ch r);
  codec_params : forall r, lo <= r <= hi -> unmarshal (marshal (ch_params ch r)) = Ok (ch_params ch r);
  codec_info : forall i : RuntimeInfoResponse, unmarshal (marshal i) = Ok i;
}.

(** What may be stored under a key. *)
Definition stored (m : string) (p : list param) (data : list byte) : Prop :=
  forall r, lo <= r <= hi ->
    (m = "GetBlock"%string -> p = [PUint r] -> data = marshal (ch_block ch r)) /\
    (m = "GetTransactionsWithResults"%string -> p = [PUint r] -> data = marshal (ch_txs ch r)) /\
    (m = "CoreParameters"%string -> p = [PUint r] -> data = marshal (ch_params ch r)) /\
    (m = "CoreRuntimeInfo"%string -> exists i : RuntimeInfoResponse, unmarshal data = Ok i).

(** The node is up, the store works and agrees with the chain. *)
Definition cached_up (s : cached) : Prop :=
  up (ps_source s) /\ kv_up (ps_db s) /\
  forall m p data, kv_view (ps_db s) !! makeKey m p = Some data -> stored m p data.

Lemma fetch_answers {T} (fetch : M C T) good : replies up fetch good -> replies cached_up (ps_on_source fetch) good.
Proof.
  intros Hf s (Hu & Hpl & Hst). destruct (Hf _ Hu) as (a & c & E & Ha & Hc).
  unfold ps_on_source. rewrite E. eexists a, _. done.
Qed.

Lemma cached_answers {T} `{!Cbor T} m p (fetch : M C T) (good : T -> Prop) : replies up fetch good ->
  (forall data, stored m p data -> exists v, unmarshal data = Ok v /\ good v) ->
  (forall v, good v -> stored m p (marshal v)) ->
  replies cached_up (getFromCacheOrFetch (makeKey m p) false fetch) good.
Proof.
  intros Hf Hread Hwrite s (Hu & Hpl & Hst). unfold getFromCacheOrFetch, attempt, ps_on_db.
  destruct (kv_law_Get (makeKey m p) (ps_db s)) as (r & db1 & -> & Hm & Hup & [->|[_ ?]]); [|done].
  destruct (kv_view (ps_db s) !! makeKey m p) as [data|] eqn:E.
  - destruct (Hread data (Hst _ _ _ E)) as (v & -> & Hv). eexists v, _. split; [done|]. split; [done|].
    split; [done|]. split; [by apply Hup|]. cbn [ps_db]. by rewrite Hm.
  - unfold ps_on_source. cbn [ps_source ps_db]. destruct (Hf _ Hu) as (v & c & -> & Hv & Hc). cbn [ps_db].
    destruct (kv_law_Set (makeKey m p) (marshal v) db1) as (r & db2 & -> & Hup2 & [[_ Hv2]|(_ & Hn & _)]).
    2: { destruct Hn. by apply Hup. }
    eexists v, _. split; [done|]. split; [done|].
    split; [done|]. split; [by apply Hup2, Hup|]. cbn [ps_db]. intros m' p' data. rewrite Hv2, Hm, lookup_insert.
    case_decide as Hk; [|apply Hst]. apply makeKey_inj in Hk as [<- <-]. intros [= <-]. by apply Hwrite.
Qed.

Lemma stored_of_round m r data : m <> "CoreRuntimeInfo"%string ->
  (m = "GetBlock"%string -> data = marshal (ch_block ch r)) ->
  (m = "GetTransactionsWithResults"%string -> data = marshal (ch_txs ch r)) ->
  (m = "CoreParameters"%string -> data = marshal (ch_params ch r)) -> stored m [PUint r] data.
Proof. intros Hm H1 H2 H3 r' _. repeat split; [..|done]; intros ? [= <-]; auto. Qed.

Lemma at_round_answers {T} `{!Cbor T} m (val : Z -> T) r (fetch : M C T) : lo <= r <= hi ->
  replies up fetch (fun v => v = val r) ->
  (forall data, stored m [PUint r] data -> unmarshal data = Ok (val r)) ->
  stored m [PUint r] (marshal (val r)) ->
  replies cached_up (at_round m r [] fetch) (fun v => v = val r).
Proof.
  intros Hr Hf Hread Hwrite. unfold at_round. destruct (r =? RoundLatest); [by apply fetch_answers|].
  apply cached_answers; [done| |by intros v ->]. intros data Hd. exists (val r). split; [by apply Hread|done].
Qed.

(** C18: The disk cache serves what the node serves: in front of a node that
    serves the rounds of a chain, a cache on a store that does not fail and whose
    entries agree with the chain serves the same rounds with the same blocks,
    transactions and parameters, whether an answer is stored or not, and goes on doing
    so; so the theorems about an indexer that catches up with a node that serves its
    rounds ([indexing_tracks_chain], [worker_reaches_end]) hold with the cache in
    between.  Of the runtime information [serves] only asks that there is an answer:
    the cache goes on with the first one ([runtime_info_stays]). *)
Theorem pebble_serves : codec_ok -> lo <= hi -> serves up ch lo hi -> serves (C:=cached) cached_up ch lo hi.
Proof.
  intros [Cb Ct Cp Ci] Hlohi [Hrd Hb Hl Hret Htx Hpar Hinf Hep]. split; [done|..|done]; cbn.
  - intros r Hr. apply (at_round_answers "GetBlock" (ch_block ch)); [done|by apply Hb| |by apply stored_of_round].
    intros data Hd. destruct (Hd r Hr) as (-> & _); auto.
  - unfold Source_GetBlock, at_round. rewrite Z.eqb_refl. by apply fetch_answers.
  - by apply fetch_answers.
  - intros r Hr. apply (at_round_answers "GetTransactionsWithResults" (ch_txs ch)); [done|by apply Htx| |by apply stored_of_round].
    intros data Hd. destruct (Hd r Hr) as (_ & -> & _); auto.
  - intros r Hr. apply (at_round_answers "CoreParameters" (ch_params ch)); [done|by apply Hpar| |by apply stored_of_round].
    intros data Hd. destruct (Hd r Hr) as (_ & _ & -> & _); auto.
  - apply cached_answers; [done| |].
    + intros data Hd. destruct (Hd lo ltac:(lia)) as (_ & _ & _ & Hi). destruct (Hi eq_refl) as [i Ei]. by exists i.
    + intros i _ r _. repeat split; try done. intros _. exists i. apply Ci.
Qed.
End CachedSource.

(** ** Witness: the indexer on the disk cache on the node client *)
#[local] Instance ExSdk : OasisSdk (O:=ex_OasisLib) ExNode := {|
  RuntimeClient := unit;
  CoreV1 := unit;
  EvmV1 := unit;
  AccountsV1 := unit;
  TransactionBuilder := list byte * nat;
  core_NewV1 c := c;
  evm_NewV1 c := c;
  accounts_NewV1 c := c;
  client_GetBlock _ := ns_GetBlock;
  client_GetLastRetainedBlock _ := ns_GetLastRetainedBlock;
  client_GetTransactionsWithResults _ := ns_GetTransactionsWithResults;
  client_SubmitTxNoWait _ := ns_SubmitTxNoWait;
  core_Parameters _ := ns_CoreParameters;
  core_RuntimeInfo _ := ns_CoreRuntimeInfo;
  core_CallDataPublicKey _ := ns_CoreCallDataPublicKey;
  core_EstimateGasForCaller _ := ns_CoreEstimateGasForCaller;
  core_MinGasPrice _ := ns_CoreMinGasPrice;
  accounts_Nonce _ := ns_AccountsNonce;
  evm_Code _ := ns_EVMCode;
  evm_Balance _ := ns_EVMBalance;
  evm_Storage _ := ns_EVMStorage;
  evm_SimulateCall _ := ns_EVMSimulateCall;
  evm_Create _ value data := (data, 0%nat);
  evm_Call _ address value data := (data, 0%nat);
  GetTransaction b := b : @otransaction _ ex_OasisLib;
|}.

#[local] Instance ExSdk_laws : Node.RuntimeClientLaws (O:=ex_OasisLib) (W:=ExNode).
Proof.
  split; [intros c; apply (ns_GetBlock_round (C:=ExNode))|intros c; apply (ns_GetBlock_range (C:=ExNode))
    |intros c; apply (ns_GetLastRetainedBlock_range (C:=ExNode))|reflexivity].
Qed.

(** The only transactions and parameters of the example chain. *)
#[local] Instance ex_chain_codec : CborLib (O:=ex_OasisLib) := {|
  marshal_any := @marshal_any _ ex_OasisLib ex_CborLib;
  cbor_block := @cbor_block _ ex_OasisLib ex_CborLib;
  cbor_txs := {| marshal _ := []; unmarshal _ := Ok [] |};
  cbor_params := {| marshal _ := []; unmarshal _ := Ok (mkCoreParameters ∅ 1000) |};
  cbor_rtinfo := @cbor_rtinfo _ ex_OasisLib ex_CborLib;
  cbor_pubkey := no_Cbor;
  cbor_prices := no_Cbor;
  cbor_uint := no_Cbor;
  cbor_quantity := no_Cbor;
  cbor_bytestring := no_Cbor;
|}.

#[local] Instance ex_chain_codec_laws : CborLibLaws ex_chain_codec.
Proof. exact ex_CborLibLaws. Qed.

Lemma ex_codec_ok : codec_ok (L:=ex_chain_codec) ex_chain 0 3.
Proof.
  split; try done.
  - intros r _. exact (number_CborLaws (T:=ExHeader) (ch_block ex_chain r)).
  - intros i. exact (number_CborLaws (T:=string) i).
Qed.

Definition ex_node : Node.node (O:=ex_OasisLib) (W:=ExNode) := Node.mkNode (Node.New tt) (mkExNode 3).

(** The node client answers as the node behind it. *)
Definition ex_node_up (n : Node.node (O:=ex_OasisLib) (W:=ExNode)) : Prop := n = ex_node.

Lemma ex_node_serves : serves ex_node_up ex_chain 0 3.
Proof.
  assert (Hf : forall A (m : Node.Source -> M ExNode A) good,
    replies ex_up (m (Node.New tt)) good -> replies ex_node_up (Node.on_node m) good).
  { intros A m good Hm n ->. destruct (Hm (mkExNode 3) eq_refl) as (a & c & E & Ha & ->).
    unfold Node.on_node. cbn [Node.nd_source Node.nd_world ex_node]. rewrite E. by eexists _, _. }
  destruct ex_serves as [Hrd Hb Hl Hret Htx Hpar Hinf Hep].
  split; [done|..|done]; cbn [ns_GetBlock ns_GetLastRetainedBlock ns_GetTransactionsWithResults ns_CoreParameters
    ns_CoreRuntimeInfo Node.node_NodeSource]; intros; apply Hf; [by apply Hb|done|done|by apply Htx|by apply Hpar|done].
Qed.

Definition ex_stack_source : Pebble.Source (K:=PebbleDB) (C:=Node.node (O:=ex_OasisLib) (W:=ExNode)) :=
  Pebble.mkSource (mkPebbleDB ∅ []) ex_node.

Definition ex_stack_service : Service (B:=CachingBackend (B:=indexBackend (D:=MemDB)))
    (C:=Pebble.Source (K:=PebbleDB) (C:=Node.node (O:=ex_OasisLib) (W:=ExNode))) :=
  mkService false 2 0 0 false (ex_stack []) ex_stack_source false None None 0.

Lemma ex_stack_ready : ready (cached_up ex_node_up ex_chain 0 3) ex_chain 0 3 ex_stack_service.
Proof.
  split; try done.
  - split; [apply cb_ok_new; split; [constructor|apply empty_tables_wf]|].
    split; [done|]. split; [constructor|]. intros m p data. cbn. by rewrite lookup_empty.
  - by left.
Qed.

Lemma pebble_serves_witness : exists s',
  indexingWorker [After 10] ex_stack_service = (Ok None, s') /\ last_indexed (sv_tables s') = Some 3.
Proof.
  assert (Hs : serves (cached_up ex_node_up ex_chain 0 3) ex_chain 0 3)
    by (apply pebble_serves; [exact ex_codec_ok|lia|exact ex_node_serves]).
  destruct (tracks_chain _ ex_chain 0 3 Hs 10 ex_stack_service ex_caught_up)
    as (s' & E & Hv & Hl & _).
  - exact ex_stack_ready.
  - reflexivity.
  - vm_compute. discriminate.
  - apply Nat.leb_le. reflexivity.
  - exact ex_caught_up_ok.
  - exists s'. rewrite Hv. split; [exact E|exact Hl].
Defined.
