(* ===== verification/Config.v ===== *)
(** * The configuration (src/conf/config.go) and the set-up of logging (src/log)

    The configuration records, their validation, the names of environment
    variables, [InitConfig] and [InitLogging].  The configuration library (koanf)
    and the log formats and levels of oasis-core are parameters. *)
From Stdlib Require Import Ascii.
From S2P Require Import Prelude GoLib Gas Cache EthApi.

(** ** Strings *)

(** [strings.ToLower] on the letters of ASCII. *)
Definition ascii_lower (c : ascii) : ascii :=
  let n := N_of_ascii c in
  if ((65 <=? n) && (n <=? 90))%N then ascii_of_N (n + 32) else c.

Definition ascii_upper (c : ascii) : ascii :=
  let n := N_of_ascii c in
  if ((97 <=? n) && (n <=? 122))%N then ascii_of_N (n - 32) else c.

Fixpoint string_map (f : ascii -> ascii) (s : string) : string :=
  match s with
  | EmptyString => EmptyString
  | String c s' => String (f c) (string_map f s')
  end.

Definition strings_ToLower : string -> string := string_map ascii_lower.

(** [strings.ReplaceAll(s, "__", ".")]: matches do not overlap and are found
    from the left. *)
Fixpoint replace_delim (s : string) : string :=
  match s with
  | String a (String b s' as t) =>
      if bool_decide (a = "_"%char) && bool_decide (b = "_"%char)
      then String "." (replace_delim s')
      else String a (replace_delim t)
  | _ => s
  end.

(** The key an environment variable sets; [__] is the hierarchy delimiter. *)
Definition env_key (s : string) : string := replace_delim (strings_ToLower s).

(** ** The records *)
Record LogConfig := mkLogConfig {
  lc_Format : string;
  lc_Level : string;
  lc_File : string;
}.

Record DatabaseConfig := mkDatabaseConfig {
  dc_Host : string;
  dc_Port : Z;
  dc_DB : string;
  dc_User : string;
  dc_Password : string;
  dc_DialTimeout : Z;
  dc_ReadTimeout : Z;
  dc_WriteTimeout : Z;
  dc_MaxOpenConns : Z;
}.

(** A [time.Duration] is a number of nanoseconds. *)
Record HTTPTimeouts := mkHTTPTimeouts {
  ht_Read : option Z;
  ht_Write : option Z;
  ht_Idle : option Z;
}.

Record GatewayHTTPConfig := mkGatewayHTTPConfig {
  hc_Host : string;
  hc_Port : Z;
  hc_Cors : list string;
  hc_VirtualHosts : list string;
  hc_PathPrefix : string;
  hc_Timeouts : option HTTPTimeouts;
}.

Record GatewayWSConfig := mkGatewayWSConfig {
  wc_Host : string;
  wc_Port : Z;
  wc_PathPrefix : string;
  wc_Origins : list string;
  wc_Timeouts : option HTTPTimeouts;
}.

Record GatewayMonitoringConfig := mkGatewayMonitoringConfig {
  mc_Host : string;
  mc_Port : Z;
}.

Record GatewayConfig := mkGatewayConfig {
  gw_HTTP : option GatewayHTTPConfig;
  gw_Monitoring : option GatewayMonitoringConfig;
  gw_WS : option GatewayWSConfig;
  gw_ChainID : Z;
  gw_MethodLimits : option MethodLimits;
  gw_ExposeOasisRPCs : bool;
}.

Record Config := mkConfig {
  cf_RuntimeID : string;
  cf_NodeAddress : string;
  cf_NodeCachePath : option string;
  cf_EnablePruning : bool;
  cf_PruningStep : Z;
  cf_IndexingStart : Z;
  cf_IndexingEnd : Z;
  cf_IndexingDisable : bool;
  cf_Log : option LogConfig;
  cf_Cache : option CacheConfig;
  cf_Database : option DatabaseConfig;
  cf_Gateway : option GatewayConfig;
  cf_Gas : option GasConfig;
  cf_ArchiveURI : string;
  cf_ArchiveHeightMax : Z;
  cf_PprofAddr : string;
}.

(** ** Methods of the parts *)

(** The receiver may be nil. *)
Definition Monitoring_Enabled (cfg : option GatewayMonitoringConfig) : bool :=
  match cfg with
  | None => false
  | Some cfg => negb (bool_decide (mc_Host cfg = EmptyString))
  end.

(** [fmt.Sprintf("%s:%d", host, port)] *)
Definition host_port (host : string) (port : Z) : string := host +:+ ":" +:+ big_String port.

Definition Monitoring_Address (cfg : option GatewayMonitoringConfig) : string :=
  match cfg with
  | Some c => if Monitoring_Enabled cfg then host_port (mc_Host c) (mc_Port c) else EmptyString
  | None => EmptyString
  end.

Definition DatabaseConfig_Validate (cfg : DatabaseConfig) : result unit :=
  if bool_decide (dc_Host cfg = EmptyString) then Err (ErrNew "malformed database host: ''") else Ok tt.

Definition GatewayConfig_Validate (cfg : GatewayConfig) : result unit := Ok tt.

Definition GasConfig_Validate (cfg : GasConfig) : result unit :=
  if f64_lt (gc_BlockFullThreshold cfg) (f64_of_Z 0) || f64_lt (f64_of_Z 1) (gc_BlockFullThreshold cfg)
  then Err (ErrNew "block full threshold must be in range [0, 1]") else Ok tt.

(** [if err := m; err != nil { return fmt.Errorf(msg + ": %w", err) }] *)
Definition rwrap {A} (msg : string) (r : result A) : result A :=
  match r with Ok a => Ok a | Err e => Err (ErrWrap msg e) end.

(** A check of an optional section. *)
Definition if_set {A} (o : option A) (f : A -> result unit) : result unit :=
  match o with None => Ok tt | Some a => f a end.

(** ** The libraries *)

(** Formats and levels of oasis-core's logging package, the files of the
    operating system, and the initialisation of the logger. *)
Class Logging := {
  Format : Type;
  Level : Type;
  Writer : Type;
  FmtLogfmt : Format;
  LevelDebug : Level;
  Stdout : Writer;
  Format_Set : string -> result Format;
  Level_Set : string -> result Level;
  OpenFile : string -> result Writer;
  logging_Initialize : Writer -> Format -> Level -> result unit;
}.

(** koanf: a tree of keys, loaded from a file, merged with key/value pairs of the
    environment, and decoded into the record. *)
Class Koanf := {
  tree : Type;
  koanf_New : tree;
  Load_yaml : string -> tree -> result tree;
  Load_env : list (string * string) -> tree -> result tree;
  Unmarshal : tree -> result Config;
}.

Section Config.
Context `{L : Logging}.

Definition LogConfig_Validate (cfg : LogConfig) : result unit :=
  _ ← Format_Set (lc_Format cfg);
  _ ← Level_Set (lc_Level cfg);
  Ok tt.

Definition Config_Validate (cfg : Config) : result unit :=
  if bool_decide (cf_RuntimeID cfg = EmptyString) then
    Err (ErrNew "malformed runtime ID ''")
  else if bool_decide (cf_NodeAddress cfg = EmptyString) then
    Err (ErrNew "malformed node address ''")
  else
    _ ← if_set (cf_Log cfg) LogConfig_Validate;
    _ ← if_set (cf_Database cfg) (fun c => rwrap "database" (DatabaseConfig_Validate c));
    _ ← if_set (cf_Gateway cfg) (fun c => rwrap "gateway" (GatewayConfig_Validate c));
    _ ← if_set (cf_Gas cfg) (fun c => rwrap "gas" (GasConfig_Validate c));
    Ok tt.

(** What the environment provider loads: every variable under its key. *)
Definition env_provider (cb : string -> string) (environ : list (string * string)) : list (string * string) :=
  (fun '(name, v) => (cb name, v)) <$> environ.

Definition InitConfig `{K : Koanf} (environ : list (string * string)) (f : string) : result Config :=
  k ← Load_yaml f koanf_New;
  k ← Load_env (env_provider env_key environ) k;
  config ← Unmarshal k;
  _ ← Config_Validate config;
  Ok config.

(** ** src/log/log.go *)
Definition getLoggingStream (cfg : option LogConfig) : result Writer :=
  match cfg with
  | None => Ok Stdout
  | Some cfg => if bool_decide (lc_File cfg = EmptyString) then Ok Stdout else OpenFile (lc_File cfg)
  end.

Definition InitLogging (cfg : Config) : result unit :=
  '(w, format, level) ← match cf_Log cfg with
    | None => Ok (Stdout, FmtLogfmt, LevelDebug)
    | Some lc =>
        w ← rwrap "opening log file" (getLoggingStream (Some lc));
        format ← Format_Set (lc_Format lc);
        level ← Level_Set (lc_Level lc);
        Ok (w, format, level)
    end;
  logging_Initialize w format level.
End Config.

(** ** Environment variables *)
Definition is_under (c : ascii) : bool := bool_decide (c = "_"%char).

(** No delimiter inside and no underscore at the end, so that the delimiter after
    the segment is found where it is. *)
Fixpoint segment_ok (s : string) : bool :=
  match s with
  | EmptyString => true
  | String a (String b _ as t) => negb (is_under a && is_under b) && segment_ok t
  | String a EmptyString => negb (is_under a)
  end.

(** Lower-case letters, digits, underscores: anything that upper-casing and
    lower-casing gives back. *)
Fixpoint lower_ok (s : string) : bool :=
  match s with
  | EmptyString => true
  | String c s' => bool_decide (ascii_lower (ascii_upper c) = c) && lower_ok s'
  end.

Definition key_segment (s : string) : bool := segment_ok s && lower_ok s.

Fixpoint join (sep : string) (path : list string) : string :=
  match path with
  | [] => EmptyString
  | [s] => s
  | s :: path' => s +:+ sep +:+ join sep path'
  end.

(** The variable that sets a key: upper-case segments with [__] between. *)
Definition env_name (path : list string) : string := string_map ascii_upper (join "__" path).

Lemma lower_upper s : lower_ok s = true -> strings_ToLower (string_map ascii_upper s) = s.
Proof.
  unfold strings_ToLower. induction s as [|c s IH]; [done|]. cbn.
  intros [Hc%bool_decide_eq_true Hs]%andb_true_iff. by rewrite Hc, IH.
Qed.

Lemma string_app_cons c s t : String c s +:+ t = String c (s +:+ t).
Proof. done. Qed.

Lemma lower_ok_app s t : lower_ok (s +:+ t) = lower_ok s && lower_ok t.
Proof. induction s as [|c s IH]; [done|]. rewrite string_app_cons. cbn [lower_ok]. by rewrite IH, andb_assoc. Qed.

Lemma lower_ok_join path : Forall (fun s => lower_ok s = true) path -> lower_ok (join "__" path) = true.
Proof.
  induction 1 as [|s path Hs Hp IH]; [done|]. destruct path as [|t path]; [done|].
  change (join "__" (s :: t :: path)) with (s +:+ "__" +:+ join "__" (t :: path)).
  by rewrite !lower_ok_app, Hs, IH.
Qed.

(** The first segment is left as it is, the delimiter becomes a dot. *)
Lemma replace_delim_segment s rest : segment_ok s = true ->
  replace_delim (s +:+ "__" +:+ rest) = s +:+ "." +:+ replace_delim rest.
Proof.
  induction s as [|a s IH]; intros Hs; [done|].
  destruct s as [|b s].
  - cbn in Hs. unfold is_under in Hs. rewrite string_app_cons. cbn [replace_delim String.append].
    destruct (bool_decide (a = "_"%char)); done.
  - cbn [segment_ok] in Hs. apply andb_true_iff in Hs as [Hn Ht]. unfold is_under in Hn.
    rewrite !string_app_cons in *. cbn [replace_delim].
    rewrite (negb_true_iff _) in Hn. rewrite Hn. by rewrite <- IH.
Qed.

Lemma replace_delim_last s : segment_ok s = true -> replace_delim s = s.
Proof.
  induction s as [|a s IH]; intros Hs; [done|]. destruct s as [|b s]; [done|].
  cbn [segment_ok] in Hs. apply andb_true_iff in Hs as [Hn Ht]. unfold is_under in Hn.
  cbn [replace_delim]. rewrite (negb_true_iff _) in Hn. rewrite Hn. f_equal. by apply IH.
Qed.

Lemma replace_delim_join path : Forall (fun s => segment_ok s = true) path ->
  replace_delim (join "__" path) = join "." path.
Proof.
  induction 1 as [|s path Hs Hp IH]; [done|]. destruct path as [|t path].
  - by apply replace_delim_last.
  - change (join "__" (s :: t :: path)) with (s +:+ "__" +:+ join "__" (t :: path)).
    rewrite replace_delim_segment by done. by rewrite IH.
Qed.

(** Every configuration key can be set by an environment variable: the name made
    of the upper-cased segments with a double underscore between them is mapped
    back to the key with dots, single underscores inside segments being kept. *)
Theorem env_key_env_name path : Forall (fun s => key_segment s = true) path ->
  env_key (env_name path) = join "." path.
Proof.
  intros H. assert (H' : Forall (fun s => segment_ok s = true) path /\ Forall (fun s => lower_ok s = true) path).
  { rewrite <- Forall_and. eapply Forall_impl; [exact H|]. intros s. unfold key_segment. by rewrite andb_true_iff. }
  destruct H' as [Hs Hl]. unfold env_key, env_name.
  rewrite lower_upper by by apply lower_ok_join. by apply replace_delim_join.
Qed.

Lemma env_key_env_name_witness :
  env_name ["gateway"; "http"; "path_prefix"] = "GATEWAY__HTTP__PATH_PREFIX" /\
  env_key (env_name ["gateway"; "http"; "path_prefix"]) = "gateway.http.path_prefix".
Proof. split; [reflexivity|]. apply (env_key_env_name ["gateway"; "http"; "path_prefix"]). repeat constructor. Defined.

(** ** Validation *)
(** A [float64] in the closed unit interval. *)
Definition f64_unit (x : float64) : Prop :=
  f64_le (f64_of_Z 0) x = true /\ f64_le x (f64_of_Z 1) = true.

(** What the two comparisons of [Validate] let through: NaN compares with nothing. *)
Definition f64_nan_or_unit (x : float64) : Prop := x = SpecFloat.S754_nan \/ f64_unit x.

Lemma f64_unit_iff x :
  f64_nan_or_unit x <-> f64_lt x (f64_of_Z 0) = false /\ f64_lt (f64_of_Z 1) x = false.
Proof.
  unfold f64_nan_or_unit, f64_unit, f64_lt, f64_le, SpecFloat.SFltb, SpecFloat.SFleb.
  change (f64_of_Z 0) with (SpecFloat.S754_zero false).
  change (f64_of_Z 1) with (SpecFloat.S754_finite false 4503599627370496 (-52)).
  generalize 4503599627370496%positive, (-52). intros k j.
  destruct x as [[]|[]| |[] m e]; cbn [SpecFloat.SFcompare]; [naive_solver..|].
  rewrite (Z.compare_antisym e j). change (Pos.compare_cont Eq ?a ?b) with (Pos.compare a b).
  rewrite (Pos.compare_antisym m k).
  destruct (Z.compare e j), (Pos.compare m k); cbn [CompOpp]; naive_solver.
Qed.

Section ConfigTheorems.
Context `{L : Logging}.

(** What every accepted configuration satisfies. *)
Record config_wf (cfg : Config) : Prop := {
  wf_runtime : cf_RuntimeID cfg <> EmptyString;
  wf_node : cf_NodeAddress cfg <> EmptyString;
  wf_log : forall lc, cf_Log cfg = Some lc ->
    is_Ok (Format_Set (lc_Format lc)) = true /\ is_Ok (Level_Set (lc_Level lc)) = true;
  wf_database : forall dc, cf_Database cfg = Some dc -> dc_Host dc <> EmptyString;
  wf_gas : forall gc, cf_Gas cfg = Some gc -> f64_nan_or_unit (gc_BlockFullThreshold gc);
}.

Lemma LogConfig_Validate_ok lc : LogConfig_Validate lc = Ok tt <->
  is_Ok (Format_Set (lc_Format lc)) = true /\ is_Ok (Level_Set (lc_Level lc)) = true.
Proof. unfold LogConfig_Validate. destruct (Format_Set _), (Level_Set _); cbn; naive_solver. Qed.

Lemma DatabaseConfig_Validate_ok dc : DatabaseConfig_Validate dc = Ok tt <-> dc_Host dc <> EmptyString.
Proof. unfold DatabaseConfig_Validate. case_bool_decide; naive_solver. Qed.

Lemma GasConfig_Validate_ok gc : GasConfig_Validate gc = Ok tt <-> f64_nan_or_unit (gc_BlockFullThreshold gc).
Proof. unfold GasConfig_Validate. rewrite f64_unit_iff. destruct (f64_lt _ _), (f64_lt _ _); cbn; naive_solver. Qed.

Lemma bind_unit_ok (r : result unit) (k : result unit) : (_ ← r; k) = Ok tt <-> r = Ok tt /\ k = Ok tt.
Proof. destruct r as [[]|e]; cbn; naive_solver. Qed.

Lemma rwrap_ok {A} msg (r : result A) a : rwrap msg r = Ok a <-> r = Ok a.
Proof. destruct r; cbn; naive_solver. Qed.

Lemma if_set_ok {A} (o : option A) f : if_set o f = Ok tt <-> forall a, o = Some a -> f a = Ok tt.
Proof. destruct o; cbn; naive_solver. Qed.

Lemma Config_Validate_iff cfg : Config_Validate cfg = Ok tt <-> config_wf cfg.
Proof.
  unfold Config_Validate. case_bool_decide as H1; [split; [done|by intros []]|].
  case_bool_decide as H2; [split; [done|by intros []]|].
  rewrite !bind_unit_ok, !if_set_ok. setoid_rewrite rwrap_ok.
  setoid_rewrite LogConfig_Validate_ok. setoid_rewrite DatabaseConfig_Validate_ok.
  setoid_rewrite GasConfig_Validate_ok. split.
  - intros (Hl & Hd & _ & Hg & _). by split.
  - intros []. auto.
Qed.

(** A configuration passes validation exactly when it names a runtime and a node,
    its log format and level are ones the logger knows, its database (if any) has a
    host, and its full-block threshold (if any) lies in the unit interval or is NaN,
    which no comparison rejects. *)
Theorem Config_Validate_spec cfg : Config_Validate cfg = Ok tt <-> config_wf cfg.
Proof. apply Config_Validate_iff. Qed.

Lemma InitConfig_inv `{K : Koanf} environ f cfg : InitConfig environ f = Ok cfg -> config_wf cfg.
Proof.
  unfold InitConfig, mbind, result_bind. repeat break_match; try done. intros [= <-].
  apply Config_Validate_iff. by destruct a2.
Qed.

(** C29: A configuration that [InitConfig] returns, whatever the file and the
    environment hold, is well formed: it names a runtime and a node, its log
    format and level are ones the logger knows, its database (if any) has a host,
    and its full-block threshold (if any) is a number from 0 to 1 or NaN, which no
    comparison rejects.  Nothing else is refused: when file and environment load
    and decode to a well-formed configuration, that configuration is returned. *)
Theorem InitConfig_well_formed `{K : Koanf} environ f cfg :
  (InitConfig environ f = Ok cfg -> config_wf cfg) /\
  (forall t1 t2, Load_yaml f koanf_New = Ok t1 -> Load_env (env_provider env_key environ) t1 = Ok t2 ->
     Unmarshal t2 = Ok cfg -> config_wf cfg -> InitConfig environ f = Ok cfg).
Proof.
  split; [apply InitConfig_inv|]. intros t1 t2 E1 E2 E3 Hwf. unfold InitConfig. rewrite E1. cbn. rewrite E2. cbn. rewrite E3. cbn.
  apply Config_Validate_iff in Hwf. by rewrite Hwf.
Qed.

(** NaN passes the check whose message asks for a value in [0, 1]. *)
Lemma nan_threshold_accepted gc : gc_BlockFullThreshold gc = SpecFloat.S754_nan ->
  GasConfig_Validate gc = Ok tt /\ ~ f64_unit (gc_BlockFullThreshold gc).
Proof. intros E. split; [apply GasConfig_Validate_ok; by left|]. rewrite E. by intros [H _]. Qed.

(** With a configuration from [InitConfig] the gas price oracle gets a full-block
    threshold in the unit interval (or NaN): the default where none is set. *)
Theorem oracle_threshold_bounds `{K : Koanf} environ f cfg :
  InitConfig environ f = Ok cfg -> f64_nan_or_unit (fullBlockThreshold (gas_New (cf_Gas cfg))).
Proof.
  intros [_ _ _ _ Hg]%InitConfig_inv. unfold gas_New. cbn [fullBlockThreshold].
  destruct (cf_Gas cfg) as [gc|]; [|right; by vm_compute].
  destruct (f64_eq _ _); [right; by vm_compute|by apply Hg].
Qed.

(** After [InitConfig] the set-up of logging can only fail because the log file
    cannot be opened or the logger cannot be initialised, never because of the
    format or the level. *)
Theorem InitLogging_after_InitConfig `{K : Koanf} environ f cfg e :
  InitConfig environ f = Ok cfg -> InitLogging cfg = Err e ->
  (exists lc e', cf_Log cfg = Some lc /\ OpenFile (lc_File lc) = Err e' /\ e = ErrWrap "opening log file" e') \/
  (exists w fm lv, logging_Initialize w fm lv = Err e).
Proof.
  intros [_ _ Hl _ _]%InitConfig_inv. unfold InitLogging, mbind, result_bind.
  destruct (cf_Log cfg) as [lc|]; [|eauto]. destruct (Hl lc eq_refl) as [Hf Hv].
  unfold getLoggingStream. case_bool_decide; cbn [rwrap].
  - destruct (Format_Set _), (Level_Set _); try done. eauto.
  - destruct (OpenFile (lc_File lc)) as [w|e'] eqn:Eo; cbn [rwrap].
    + destruct (Format_Set _), (Level_Set _); try done. eauto.
    + intros [= <-]. left. eauto 10.
Qed.
End ConfigTheorems.

(** ** A concrete instance *)
(** The formats and levels the logging package documents; files under a path that
    starts with a slash can be opened. *)
#[export] Instance ExLogging : Logging := {|
  Format := string; Level := string; Writer := string;
  FmtLogfmt := "LOGFMT"; LevelDebug := "DEBUG"; Stdout := "stdout";
  Format_Set s := if bool_decide (string_map ascii_upper s ∈ ["LOGFMT"; "JSON"])
    then Ok (string_map ascii_upper s) else Err (ErrNew "logging: invalid log format");
  Level_Set s := if bool_decide (string_map ascii_upper s ∈ ["DEBUG"; "INFO"; "WARN"; "ERROR"])
    then Ok (string_map ascii_upper s) else Err (ErrNew "logging: invalid log level");
  OpenFile s := if strings_HasPrefix s "/" then Ok s else Err (ErrNew "open: no such file or directory");
  logging_Initialize w f l := Ok tt;
|}.

Definition ex_http : GatewayHTTPConfig := mkGatewayHTTPConfig "localhost" 8545 ["*"] [] "" None.
Definition ex_ws : GatewayWSConfig := mkGatewayWSConfig "localhost" 8546 "" ["*"] None.
Definition ex_gateway : GatewayConfig :=
  mkGatewayConfig (Some ex_http) (Some (mkGatewayMonitoringConfig "localhost" 9999)) (Some ex_ws) 42262
    (Some (mkMethodLimits 100)) true.
Definition ex_config (log_file : string) (gw : option GatewayConfig) : Config :=
  mkConfig "8000" "unix:/node/internal.sock" None false 0 0 0 false
    (Some (mkLogConfig "json" "debug" log_file)) None
    (Some (mkDatabaseConfig "localhost" 5432 "db" "user" "pw" 5 10 5 0)) gw
    (Some (mkGasConfig 0%N (f64_div (f64_of_Z 1) (f64_of_Z 4)) 12 0%N 20)) "" 0 "".

(** A tree that is the decoded record; the environment may set the log file. *)
#[export] Instance ExKoanf : Koanf := {|
  tree := list (string * string);
  koanf_New := [];
  Load_yaml f t := if bool_decide (f = "server.yml"%string) then Ok (("log.file", "/var/log/gateway") :: t)
    else Err (ErrNew "open: no such file or directory");
  Load_env env t := Ok (env ++ t);
  Unmarshal t := Ok (ex_config (default EmptyString (snd <$> head (filter (fun kv => kv.1 = "log.file"%string) t)))
    (Some ex_gateway));
|}.

Lemma InitConfig_well_formed_witness :
  InitConfig [("LOG__FILE", "log.txt")] "server.yml" = Ok (ex_config "log.txt" (Some ex_gateway)) /\
  config_wf (ex_config "log.txt" (Some ex_gateway)).
Proof.
  split; [vm_compute; reflexivity|].
  apply (InitConfig_well_formed [("LOG__FILE", "log.txt")] "server.yml"). vm_compute. reflexivity.
Defined.

Lemma oracle_threshold_bounds_witness :
  f64_nan_or_unit (fullBlockThreshold (gas_New (cf_Gas (ex_config "/var/log/gateway" (Some ex_gateway))))).
Proof. apply (oracle_threshold_bounds [] "server.yml"). vm_compute. reflexivity. Defined.

Lemma InitLogging_after_InitConfig_witness :
  InitLogging (ex_config "log.txt" (Some ex_gateway)) =
    Err (ErrWrap "opening log file" (ErrNew "open: no such file or directory")) /\
  ((exists lc e', cf_Log (ex_config "log.txt" (Some ex_gateway)) = Some lc /\ OpenFile (lc_File lc) = Err e' /\
    ErrWrap "opening log file" (ErrNew "open: no such file or directory") = ErrWrap "opening log file" e') \/
   (exists w fm lv, logging_Initialize w fm lv =
     Err (ErrWrap "opening log file" (ErrNew "open: no such file or directory")))).
Proof.
  split; [vm_compute; reflexivity|].
  apply (InitLogging_after_InitConfig [("LOG__FILE", "log.txt")] "server.yml"); vm_compute; reflexivity.
Defined.
