(* ===== verification/Server.v ===== *)
(** * The JSON-RPC server (src/server)

    The HTTP and WebSocket servers of json_rpc.go and the lifecycle of
    [Web3Gateway] in server.go.  go-ethereum's RPC server and the network are
    parameters.  A router is the list of the routes added to it; the goroutine that
    serves a listener is the field [sd_listening] of the server it serves for.
    Messages leave out the values they print; logging is left out. *)
From Stdlib Require Import Ascii.
From S2P Require Import Prelude GoLib Config.

(** ** [net.SplitHostPort] and [strconv.Atoi] *)
Fixpoint index_byte (c : ascii) (s : string) : option nat :=
  match s with
  | EmptyString => None
  | String a s' => if bool_decide (a = c) then Some 0%nat else S <$> index_byte c s'
  end.

Fixpoint last_index_byte (c : ascii) (s : string) : option nat :=
  match s with
  | EmptyString => None
  | String a s' =>
      match last_index_byte c s' with
      | Some i => Some (S i)
      | None => if bool_decide (a = c) then Some 0%nat else None
      end
  end.

Definition has_byte (c : ascii) (s : string) : bool := bool_decide (is_Some (index_byte c s)).
Definition take_string (n : nat) (s : string) : string := String.substring 0 n s.

Definition addrErr {A} (why : string) : result A := Err (ErrWrap "address" (ErrNew why)).

Definition SplitHostPort (hostport : string) : result (string * string) :=
  match last_index_byte ":" hostport with
  | None => addrErr "missing port in address"
  | Some i =>
      let port := drop_string (S i) hostport in
      let checked host j k :=
        if has_byte "[" (drop_string j hostport) then addrErr "unexpected '[' in address"
        else if has_byte "]" (drop_string k hostport) then addrErr "unexpected ']' in address"
        else Ok (host, port) in
      if strings_HasPrefix hostport "[" then
        match index_byte "]" hostport with
        | None => addrErr "missing ']' in address"
        | Some end_ =>
            if bool_decide (S end_ = String.length hostport) then addrErr "missing port in address"
            else if bool_decide (S end_ = i) then
              checked (String.substring 1 (end_ - 1) hostport) 1%nat (S end_)
            else if bool_decide (String.get (S end_) hostport = Some ":"%char)
            then addrErr "too many colons in address"
            else addrErr "missing port in address"
        end
      else
        let host := take_string i hostport in
        if has_byte ":" host then addrErr "too many colons in address" else checked host 0%nat 0%nat
  end.

(** The value is returned beside the error: 0 for a malformed number, the nearest
    [int] for one out of range. *)
Definition strconv_Atoi (s : string) : Z * option error :=
  match big_SetString s with
  | None => (0, Some (ErrNew "invalid syntax"))
  | Some z =>
      if z <? -9223372036854775808 then (-9223372036854775808, Some (ErrNew "value out of range"))
      else if 9223372036854775807 <? z then (9223372036854775807, Some (ErrNew "value out of range"))
      else (z, None)
  end.

(** ** Parameters *)
Record rpcTimeouts := mkRpcTimeouts {
  ReadTimeout : Z;
  ReadHeaderTimeout : Z;
  WriteTimeout : Z;
  IdleTimeout : Z;
}.

#[export] Instance rpcTimeouts_eq_dec : EqDecision rpcTimeouts.
Proof. solve_decision. Defined.

(** go-ethereum's rpc package. *)
Class RpcLib (Svc : Type) := {
  rpcServer : Type;
  rpc_NewServer : rpcServer;
  SetBatchLimits : Z -> Z -> rpcServer -> rpcServer;
  RegisterName : string -> Svc -> rpcServer -> result rpcServer;
  DefaultHTTPTimeouts : rpcTimeouts;
}.
Arguments rpcServer Svc {_}.

(** One second in nanoseconds. *)
Definition Second : Z := 1000000000.

(** The defaults of the rpc package are meaningful: 30 s, 30 s and 120 s are
    documented. *)
Class RpcLaws (Svc : Type) `{RpcLib Svc} := {
  default_read : Second <= ReadTimeout DefaultHTTPTimeouts;
  default_write : Second <= WriteTimeout DefaultHTTPTimeouts;
  default_idle : Second <= IdleTimeout DefaultHTTPTimeouts;
}.

(** [net.Listen("tcp", addr)] returns the printed address of the listener;
    [fmt_errors] is what [%v] prints for a slice of errors. *)
Class Net (W : Type) := {
  net_Listen : string -> M W string;
  fmt_errors : list error -> string;
}.

Section Server.
Context {Svc Env W : Type} `{R : RpcLib Svc} `{N : Net W}.

(** A health check looks at the state of the process. *)
Definition HealthCheck : Type := Env -> result unit.

Record API := mkAPI {
  Namespace : string;
  Service_ : Svc;
  Public : bool;
}.

(** ** Handlers *)
Inductive target :=
  | ServeHTTP (srv : rpcServer Svc)
  | WebsocketHandler (origins : list string) (srv : rpcServer Svc)
  | HealthEndpoint (checks : list HealthCheck).

Record route := mkRoute {
  rt_PathPrefix : bool;
  rt_path : string;
  rt_target : target;
  rt_Methods : option (list string);
}.

Inductive handler :=
  | Router (routes : list route)
  | Cors (origins methods headers : list string) (maxAge : Z) (h : handler).

Record httpConfig := mkHttpConfig {
  h_Modules : list string;
  h_CorsAllowedOrigins : list string;
  h_Vhosts : list string;
  h_prefix : string;
}.

Record wsConfig := mkWsConfig {
  ws_Origins : list string;
  ws_Modules : list string;
  ws_prefix : string;
}.

(** [http.Server], with the address its goroutine serves. *)
Record httpd := mkHttpd {
  sd_Handler : option handler;
  sd_ReadTimeout : Z;
  sd_WriteTimeout : Z;
  sd_IdleTimeout : Z;
  sd_listening : option string;
}.

Record httpServer := mkHttpServer {
  hs_timeouts : rpcTimeouts;
  hs_server : option httpd;
  hs_rpcHandler : option handler;
  hs_rpcServer : option (rpcServer Svc);
  hs_httpConfig : httpConfig;
  hs_wsConfig : wsConfig;
  hs_endpoint : string;
  hs_host : string;
  hs_port : Z;
}.

Definition newHTTPServer (timeouts : rpcTimeouts) : httpServer :=
  mkHttpServer timeouts None None None (mkHttpConfig [] [] [] "") (mkWsConfig [] [] "") "" "" 0.

Definition set_listen (h : httpServer) (endpoint host : string) (port : Z) : httpServer :=
  mkHttpServer (hs_timeouts h) (hs_server h) (hs_rpcHandler h) (hs_rpcServer h) (hs_httpConfig h)
    (hs_wsConfig h) endpoint host port.

Definition set_server (h : httpServer) (t : rpcTimeouts) (d : option httpd) : httpServer :=
  mkHttpServer t d (hs_rpcHandler h) (hs_rpcServer h) (hs_httpConfig h)
    (hs_wsConfig h) (hs_endpoint h) (hs_host h) (hs_port h).

Definition setListenAddr (host : string) (port : Z) (h : httpServer) : httpServer :=
  set_listen h (host_port host port) host port.

(** The status of the response and the new value of the health gauge. *)
Fixpoint check_all (checks : list HealthCheck) (env : Env) : bool :=
  match checks with
  | [] => true
  | h :: checks' => match h env with Err _ => false | Ok _ => check_all checks' env end
  end.

Definition healthCheckHandler (checks : list HealthCheck) (method : string) (env : Env) : Z * option Z :=
  if negb (bool_decide (method = "GET"%string)) then (404, None)
  else if check_all checks env then (200, Some 1) else (503, Some 0).

Definition CheckTimeouts (t : rpcTimeouts) : rpcTimeouts :=
  mkRpcTimeouts
    (if ReadTimeout t <? Second then ReadTimeout DefaultHTTPTimeouts else ReadTimeout t)
    (ReadHeaderTimeout t)
    (if WriteTimeout t <? Second then WriteTimeout DefaultHTTPTimeouts else WriteTimeout t)
    (if IdleTimeout t <? Second then IdleTimeout DefaultHTTPTimeouts else IdleTimeout t).

Definition zeroTimeouts : rpcTimeouts := mkRpcTimeouts 0 0 0 0.

Definition httpd_serve (d : httpd) (addr : option string) : httpd :=
  mkHttpd (sd_Handler d) (sd_ReadTimeout d) (sd_WriteTimeout d) (sd_IdleTimeout d) addr.

(** [start]: the server field is set before the listener is tried; with port 0 the
    endpoint and the port are those of the listener. *)
Definition httpServer_start : M (httpServer * W) unit := fun '(h, w) =>
  if bool_decide (hs_endpoint h = EmptyString) then (Ok tt, (h, w))
  else
    let t := CheckTimeouts (if bool_decide (hs_timeouts h = zeroTimeouts)
      then DefaultHTTPTimeouts else hs_timeouts h) in
    let d := mkHttpd (hs_rpcHandler h) (ReadTimeout t) (WriteTimeout t) (IdleTimeout t) None in
    match net_Listen (hs_endpoint h) w with
    | (Err e, w') => (Err e, (set_server h t (Some d), w'))
    | (Ok addr, w') =>
        let h := set_server h t (Some (httpd_serve d (Some addr))) in
        if hs_port h =? 0 then
          match SplitHostPort addr with
          | Err e => (Err e, (set_listen h addr (hs_host h) (hs_port h), w'))
          | Ok (_, portStr) =>
              let '(port, err) := strconv_Atoi portStr in
              (match err with Some e => Err e | None => Ok tt end,
               (set_listen h addr (hs_host h) port, w'))
          end
        else (Ok tt, (h, w'))
    end.

Definition contains_meta (path : string) : bool := has_byte "?" path || has_byte "#" path.

Definition validatePrefix (what path : string) : result unit :=
  if bool_decide (path = EmptyString) then Ok tt
  else if negb (strings_HasPrefix path "/") then
    Err (ErrNew (what +:+ " RPC path prefix does not contain leading /"))
  else if contains_meta path then
    Err (ErrNew (what +:+ " RPC path prefix contains URL meta-characters"))
  else Ok tt.

(** [stop]: [Shutdown] closes the listeners first; a nil server is a panic. *)
Definition httpServer_stop (h : httpServer) : result httpServer :=
  match hs_server h with
  | None => Err ErrPanic
  | Some d => Ok (set_server h (hs_timeouts h) (Some (httpd_serve d None)))
  end.

(** The allow list is a map; with no modules the public APIs are allowed. *)
Definition api_allowed (modules : list string) (exposeAll : bool) (api : API) : bool :=
  let allowList : gset string := list_to_set modules in
  exposeAll || bool_decide (Namespace api ∈ allowList) ||
  (bool_decide (allowList = ∅) && Public api).

Fixpoint register_loop (allowed : API -> bool) (apis : list API) (srv : rpcServer Svc) : result (rpcServer Svc) :=
  match apis with
  | [] => Ok srv
  | api :: apis' =>
      if allowed api then
        srv ← RegisterName (Namespace api) (Service_ api) srv;
        register_loop allowed apis' srv
      else register_loop allowed apis' srv
  end.

Definition RegisterApis (apis : list API) (modules : list string) (srv : rpcServer Svc) (exposeAll : bool)
    : result (rpcServer Svc) :=
  register_loop (api_allowed modules exposeAll) apis srv.

Definition newCorsHandler (srv : handler) (allowedOrigins : list string) : handler :=
  match allowedOrigins with
  | [] => srv
  | _ => Cors allowedOrigins ["POST"; "GET"] ["*"] 600 srv
  end.

Definition batchItemLimit : Z := 1000.
Definition batchResponseLimit : Z := 25 * 1024 * 1024.

Definition enableRPC (apis : list API) (healthChecks : list HealthCheck) (config : httpConfig)
    (h : httpServer) : result httpServer :=
  let srv := SetBatchLimits batchItemLimit batchResponseLimit rpc_NewServer in
  srv ← RegisterApis apis (h_Modules config) srv false;
  let router := Router [mkRoute true (h_prefix config) (ServeHTTP srv) (Some ["POST"]);
                        mkRoute false "/health" (HealthEndpoint healthChecks) (Some ["GET"])] in
  let handler := newCorsHandler router (h_CorsAllowedOrigins (hs_httpConfig h)) in
  Ok (mkHttpServer (hs_timeouts h) (hs_server h) (Some handler) (Some srv) config
        (hs_wsConfig h) (hs_endpoint h) (hs_host h) (hs_port h)).

Definition enableWS (apis : list API) (config : wsConfig) (h : httpServer) : result httpServer :=
  let srv := SetBatchLimits batchItemLimit batchResponseLimit rpc_NewServer in
  srv ← RegisterApis apis (ws_Modules config) srv false;
  let router := Router [mkRoute true (ws_prefix config) (WebsocketHandler (ws_Origins config) srv) None] in
  Ok (mkHttpServer (hs_timeouts h) (hs_server h) (Some router) (Some srv) (hs_httpConfig h)
        config (hs_endpoint h) (hs_host h) (hs_port h)).

(** ** [Web3Gateway] *)
Definition initializingState : Z := 0.
Definition runningState : Z := 1.
Definition closedState : Z := 2.

Definition ErrServerStopped : error := ErrNew "web3 gateway server not started".
Definition ErrServerRunning : error := ErrNew "web3 gateway server already running".

(** [gw_stop] tells whether the channel [stop] is closed. *)
Record Web3Gateway := mkWeb3Gateway {
  gw_config : GatewayConfig;
  gw_stop : bool;
  gw_state : Z;
  gw_rpcAPIs : list API;
  gw_http : option httpServer;
  gw_ws : option httpServer;
  gw_healthChecks : list HealthCheck;
}.

Definition set_state (g : Web3Gateway) (st : Z) : Web3Gateway :=
  mkWeb3Gateway (gw_config g) (gw_stop g) st (gw_rpcAPIs g) (gw_http g) (gw_ws g) (gw_healthChecks g).
Definition set_stop (g : Web3Gateway) : Web3Gateway :=
  mkWeb3Gateway (gw_config g) true (gw_state g) (gw_rpcAPIs g) (gw_http g) (gw_ws g) (gw_healthChecks g).
Definition set_http (g : Web3Gateway) (h : httpServer) : Web3Gateway :=
  mkWeb3Gateway (gw_config g) (gw_stop g) (gw_state g) (gw_rpcAPIs g) (Some h) (gw_ws g) (gw_healthChecks g).
Definition set_ws (g : Web3Gateway) (h : httpServer) : Web3Gateway :=
  mkWeb3Gateway (gw_config g) (gw_stop g) (gw_state g) (gw_rpcAPIs g) (gw_http g) (Some h) (gw_healthChecks g).
Definition set_lists (g : Web3Gateway) (apis : list API) (checks : list HealthCheck) : Web3Gateway :=
  mkWeb3Gateway (gw_config g) (gw_stop g) (gw_state g) apis (gw_http g) (gw_ws g) checks.

Definition timeoutsFromCfg (cfg : option HTTPTimeouts) : rpcTimeouts :=
  match cfg with
  | None => DefaultHTTPTimeouts
  | Some cfg =>
      mkRpcTimeouts (default (ReadTimeout DefaultHTTPTimeouts) (ht_Read cfg))
        (ReadHeaderTimeout DefaultHTTPTimeouts)
        (default (WriteTimeout DefaultHTTPTimeouts) (ht_Write cfg))
        (default (IdleTimeout DefaultHTTPTimeouts) (ht_Idle cfg))
  end.

(** [New]: the prefixes are read before the sections are checked for nil. *)
Definition New (conf : option GatewayConfig) : result Web3Gateway :=
  match conf with
  | None => Err (ErrNew "missing gateway config")
  | Some conf =>
      match gw_HTTP conf with
      | None => Err ErrPanic
      | Some http =>
          _ ← validatePrefix "HTTP" (hc_PathPrefix http);
          match gw_WS conf with
          | None => Err ErrPanic
          | Some ws =>
              _ ← validatePrefix "WebSocket" (wc_PathPrefix ws);
              Ok (mkWeb3Gateway conf false initializingState []
                    (Some (newHTTPServer (timeoutsFromCfg (hc_Timeouts http))))
                    (Some (newHTTPServer (timeoutsFromCfg (wc_Timeouts ws)))) [])
          end
      end
  end.

(** The gateway and the network. *)
Definition sys : Type := Web3Gateway * W.

(** [if err := m; err != nil {...}]: a panic goes past the caller. *)
Definition try_call {A B} (m : M sys A) (k : result A -> M sys B) : M sys B := fun s =>
  match m s with
  | (Err ErrPanic, s') => (Err ErrPanic, s')
  | (r, s') => k r s'
  end.

(** A method on [srv.http] or [srv.ws]; the receiver may be nil. *)
Definition on_http {A} (m : M (httpServer * W) A) : M sys A := fun '(g, w) =>
  match gw_http g with
  | None => (Err ErrPanic, (g, w))
  | Some h => let '(r, (h', w')) := m (h, w) in (r, (set_http g h', w'))
  end.
Definition on_ws {A} (m : M (httpServer * W) A) : M sys A := fun '(g, w) =>
  match gw_ws g with
  | None => (Err ErrPanic, (g, w))
  | Some h => let '(r, (h', w')) := m (h, w) in (r, (set_ws g h', w'))
  end.

(** A method that has no effect when it fails. *)
Definition pure_update (f : httpServer -> result httpServer) : M (httpServer * W) unit := fun '(h, w) =>
  match f h with Ok h' => (Ok tt, (h', w)) | Err e => (Err e, (h, w)) end.

Definition rpcModules : list string := ["net"; "web3"; "eth"; "txpool"; "oasis"].

Definition configure_http (http : GatewayHTTPConfig) : M sys unit := fun s =>
  let config := mkHttpConfig rpcModules (hc_Cors http) (hc_VirtualHosts http) (hc_PathPrefix http) in
  (_ ← on_http (pure_update (fun h => Ok (setListenAddr (hc_Host http) (hc_Port http) h)));
   on_http (pure_update (enableRPC (gw_rpcAPIs s.1) (gw_healthChecks s.1) config))) s.

Definition configure_ws (ws : GatewayWSConfig) : M sys unit := fun s =>
  let config := mkWsConfig (wc_Origins ws) rpcModules (wc_PathPrefix ws) in
  (_ ← on_ws (pure_update (fun h => Ok (setListenAddr (wc_Host ws) (wc_Port ws) h)));
   on_ws (pure_update (enableWS (gw_rpcAPIs s.1) config))) s.

Definition startRPC : M sys unit := fun s =>
  (_ ← match gw_HTTP (gw_config s.1) with Some http => configure_http http | None => mret tt end;
   _ ← match gw_WS (gw_config s.1) with Some ws => configure_ws ws | None => mret tt end;
   _ ← on_http httpServer_start;
   on_ws httpServer_start) s.

Definition stopRPC : M sys unit := fun s =>
  (_ ← match gw_http s.1 with Some _ => on_http (pure_update httpServer_stop) | None => mret tt end;
   match gw_ws s.1 with Some _ => on_ws (pure_update httpServer_stop) | None => mret tt end) s.

(** Closing a closed channel is a panic. *)
Definition doClose (errs : list error) : M sys unit := fun '(g, w) =>
  if gw_stop g then (Err ErrPanic, (g, w))
  else (match errs with
        | [] => Ok tt
        | [e] => Err e
        | _ => Err (ErrNew (fmt_errors errs))
        end, (set_stop g, w)).

Definition startPrometheusServer (address : string) : M sys unit := fun '(g, w) =>
  match net_Listen address w with
  | (Ok _, w') => (Ok tt, (g, w'))
  | (Err e, w') => (Err e, (g, w'))
  end.

Definition Start : M sys unit := fun s =>
  if gw_state s.1 =? runningState then (Err ErrServerRunning, s)
  else if gw_state s.1 =? closedState then (Err ErrServerStopped, s)
  else
    try_call startRPC (fun r => match r with
      | Err e =>
          _ ← stopRPC;
          try_call (doClose []) (fun _ => fail e)
      | Ok _ =>
          fun s =>
            let monitoring := gw_Monitoring (gw_config s.1) in
            if Monitoring_Enabled monitoring
            then startPrometheusServer (Monitoring_Address monitoring) s
            else (Ok tt, s)
      end) (set_state s.1 runningState, s.2).

Definition Close : M sys unit := fun s =>
  let state := gw_state s.1 in
  if state =? initializingState then doClose [] s
  else if state =? runningState then doClose [ErrNew "error in function close"] s
  else if state =? closedState then (Err ErrServerStopped, s)
  else (Err ErrPanic, s).

(** [Wait] returns once [stop] is closed. *)
Definition Wait_returns (g : Web3Gateway) : bool := gw_stop g.

Definition RegisterAPIs (apis : list API) : M sys unit := fun '(g, w) =>
  if negb (gw_state g =? initializingState) then (Err ErrPanic, (g, w))
  else (Ok tt, (set_lists g (gw_rpcAPIs g ++ apis) (gw_healthChecks g), w)).

Definition RegisterHealthChecks (checks : list HealthCheck) : M sys unit := fun '(g, w) =>
  if negb (gw_state g =? initializingState) then (Err ErrPanic, (g, w))
  else (Ok tt, (set_lists g (gw_rpcAPIs g) (gw_healthChecks g ++ checks), w)).

Definition GetHTTPEndpoint (g : Web3Gateway) : result string :=
  match gw_http g with
  | None => Err (ErrNew "failed to obtain http endpoint")
  | Some h => Ok ("http://" +:+ hs_endpoint h)
  end.

Definition GetWSEndpoint (g : Web3Gateway) : result string :=
  match gw_ws g with
  | None => Err (ErrNew "failed to obtain websocket endpoint")
  | Some h => Ok ("ws://" +:+ hs_endpoint h)
  end.
End Server.

(** ** The handlers *)
Section Handlers.
Context {Svc Env W : Type} `{R : RpcLib Svc} `{N : Net W}.

Lemma check_all_spec (checks : list (HealthCheck (Env:=Env))) env :
  check_all checks env = true <-> Forall (fun h => h env = Ok tt) checks.
Proof.
  induction checks as [|h checks IH]; [done|]. cbn. rewrite Forall_cons, <- IH.
  destruct (h env) as [[]|e]; naive_solver.
Qed.

(** The health endpoint answers a GET with 200, and sets the gauge to 1, exactly
    when every registered check passes; it answers 503 and sets the gauge to 0
    otherwise, and leaves the gauge alone for any other method. *)
Theorem healthCheckHandler_spec (checks : list (HealthCheck (Env:=Env))) env method :
  (method <> "GET"%string -> healthCheckHandler checks method env = (404, None)) /\
  (method = "GET"%string ->
     (healthCheckHandler checks method env = (200, Some 1) <-> Forall (fun h => h env = Ok tt) checks) /\
     (healthCheckHandler checks method env = (503, Some 0) <-> Exists (fun h => h env <> Ok tt) checks)).
Proof.
  unfold healthCheckHandler. split; [intros; by rewrite bool_decide_eq_false_2|intros ->].
  rewrite bool_decide_eq_true_2 by done. cbn [negb].
  rewrite <- check_all_spec. destruct (check_all checks env) eqn:E; (split; [naive_solver|]); split; try done.
  - intros Hx. apply check_all_spec in E. exfalso. revert E. by apply Exists_not_Forall.
  - intros _. apply not_Forall_Exists; [intros h; apply _|]. rewrite <- check_all_spec. congruence.
Qed.

Lemma register_loop_filter allowed (apis : list (API (Svc:=Svc))) srv :
  register_loop allowed apis srv = register_loop (fun _ => true) (filter (fun a => allowed a = true) apis) srv.
Proof.
  revert srv. induction apis as [|a apis IH]; intros srv; [done|]. rewrite filter_cons. cbn [register_loop].
  destruct (allowed a) eqn:E; case_decide; try congruence; cbn [register_loop].
  unfold mbind, result_bind. destruct (RegisterName _ _ srv); [apply IH|done].
Qed.

(** With a non-empty module list and [exposeAll] unset, registration is the
    registration, in order, of exactly the APIs whose namespace is listed: repeated
    or reordered modules and public flags make no difference. *)
Theorem RegisterApis_allowed (apis : list (API (Svc:=Svc))) modules srv :
  modules <> [] ->
  RegisterApis apis modules srv false =
  RegisterApis (filter (fun a => Namespace a ∈ modules) apis) [] srv true.
Proof.
  intros Hm. unfold RegisterApis. rewrite register_loop_filter.
  rewrite (list_filter_iff _ (fun a => Namespace a ∈ modules)).
  - unfold api_allowed. cbn [orb]. done.
  - intros a. unfold api_allowed. cbn [orb]. rewrite (bool_decide_eq_false_2 (_ = ∅)).
    + cbn [andb]. rewrite orb_false_r, bool_decide_eq_true. apply elem_of_list_to_set.
    + destruct modules as [|m ms]; [done|]. cbn. set_solver.
Qed.

(** ** Timeouts *)
Definition meaningful (t : rpcTimeouts) : Prop :=
  Second <= ReadTimeout t /\ Second <= WriteTimeout t /\ Second <= IdleTimeout t.

Lemma CheckTimeouts_meaningful `{!RpcLaws Svc} t : meaningful (CheckTimeouts t).
Proof.
  pose proof default_read. pose proof default_write. pose proof default_idle.
  unfold meaningful, CheckTimeouts. cbn.
  repeat split; match goal with |- context [?a <? ?b] => destruct (Z.ltb_spec a b) end; lia.
Qed.

Lemma CheckTimeouts_id t : meaningful t -> CheckTimeouts t = t.
Proof.
  intros (H1 & H2 & H3). unfold CheckTimeouts.
  rewrite (proj2 (Z.ltb_ge (ReadTimeout t) Second)), (proj2 (Z.ltb_ge (WriteTimeout t) Second)),
    (proj2 (Z.ltb_ge (IdleTimeout t) Second)) by done. by destruct t.
Qed.

End Handlers.

(** ** Listen addresses *)
Section Addresses.

Lemma index_byte_app c s t : index_byte c s = None ->
  index_byte c (s +:+ t) = (fun i => String.length s + i)%nat <$> index_byte c t.
Proof.
  induction s as [|a s IH]; [change (EmptyString +:+ t) with t; by destruct (index_byte c t)|]. rewrite string_app_cons. cbn [index_byte String.length].
  case_bool_decide as Ha; [done|]. intros H. rewrite IH by by destruct (index_byte c s).
  by destruct (index_byte c t).
Qed.

Lemma has_byte_app c s t : has_byte c (s +:+ t) = has_byte c s || has_byte c t.
Proof.
  unfold has_byte. destruct (index_byte c s) as [i|] eqn:E.
  - rewrite (bool_decide_eq_true_2 (is_Some (Some i))) by by eexists. cbn [orb]. apply bool_decide_eq_true.
    revert i E. induction s as [|a s IH]; intros i; [done|]. rewrite string_app_cons. cbn [index_byte].
    case_bool_decide; [by eexists|]. destruct (index_byte c s) as [j|]; [|done]. intros _.
    destruct (IH j eq_refl) as [k ->]. by eexists.
  - rewrite (bool_decide_eq_false_2 (is_Some None)) by by intros [??]. cbn [orb].
    rewrite index_byte_app by done. apply bool_decide_ext. by rewrite fmap_is_Some.
Qed.

Lemma has_byte_cons c a s : has_byte c (String a s) = bool_decide (a = c) || has_byte c s.
Proof.
  unfold has_byte. cbn [index_byte]. destruct (decide (a = c)) as [->|Ha].
  - by rewrite (bool_decide_eq_true_2 (c = c)) by done.
  - rewrite (bool_decide_eq_false_2 (a = c)) by done. cbn [orb]. apply bool_decide_ext. by rewrite fmap_is_Some.
Qed.

Lemma has_byte_none c s : has_byte c s = false <-> index_byte c s = None.
Proof. unfold has_byte. rewrite bool_decide_eq_false. by rewrite eq_None_not_Some. Qed.

Lemma last_index_none c s : has_byte c s = false -> last_index_byte c s = None.
Proof.
  induction s as [|a s IH]; [done|]. rewrite has_byte_cons. intros [Ha Hs]%orb_false_iff. cbn. by rewrite IH, Ha.
Qed.

Lemma last_index_app c s t i : last_index_byte c t = Some i ->
  last_index_byte c (s +:+ t) = Some (String.length s + i)%nat.
Proof. induction s as [|a s IH]; [done|]. intros H. rewrite string_app_cons. cbn. by rewrite IH. Qed.

Lemma drop_string_app s t : drop_string (String.length s) (s +:+ t) = t.
Proof.
  induction s as [|a s IH]; [apply drop_string_0|]. rewrite string_app_cons. cbn [String.length].
  by rewrite drop_string_S.
Qed.

Lemma take_string_app s t : take_string (String.length s) (s +:+ t) = s.
Proof.
  unfold take_string. induction s as [|a s IH]; [by destruct t|]. rewrite string_app_cons. cbn. by rewrite IH.
Qed.

(** The decimal text of a number holds digits and a minus sign only. *)
Lemma has_byte_digits c u : digit_val c = None -> has_byte c (DecimalString.NilEmpty.string_of_uint u) = false.
Proof.
  intros Hc. induction u; cbn [DecimalString.NilEmpty.string_of_uint]; [done|..]; rewrite has_byte_cons, IHu;
    (rewrite bool_decide_eq_false_2; [done|]); intros <-; done.
Qed.

Lemma has_byte_big_String c z : digit_val c = None -> c <> "-"%char -> has_byte c (big_String z) = false.
Proof.
  intros Hc Hm. unfold big_String. assert (Hu : forall u, has_byte c (DecimalString.NilZero.string_of_uint u) = false).
  { intros u. destruct u; [change (has_byte c (String "0" EmptyString) = false); rewrite has_byte_cons, bool_decide_eq_false_2; [done|by intros <-]|..];
      apply (has_byte_digits c _ Hc). }
  destruct (Z.to_int z); cbn [DecimalString.NilZero.string_of_int]; [apply Hu|].
  rewrite has_byte_cons, Hu. rewrite bool_decide_eq_false_2; [done|congruence].
Qed.

Definition plain_host (s : string) : bool :=
  negb (has_byte ":" s) && negb (has_byte "[" s) && negb (has_byte "]" s).

Lemma SplitHostPort_host_port host port : plain_host host = true ->
  SplitHostPort (host_port host port) = Ok (host, big_String port).
Proof.
  unfold plain_host. rewrite !andb_true_iff, !negb_true_iff. intros [[H1 H2] H3]. unfold host_port, SplitHostPort.
  assert (Hd : forall c, digit_val c = None -> c <> "-"%char -> has_byte c (":" +:+ big_String port) = bool_decide (":"%char = c)).
  { intros c Hc Hm. change (":" +:+ big_String port) with (String ":" (big_String port)).
    by rewrite has_byte_cons, has_byte_big_String, orb_false_r. }
  assert (Hl : last_index_byte ":" (":" +:+ big_String port) = Some 0%nat).
  { change (":" +:+ big_String port) with (String ":" (big_String port)). cbn [last_index_byte].
    by rewrite last_index_none by by apply has_byte_big_String. }
  rewrite (last_index_app _ _ _ _ Hl), Nat.add_0_r.
  assert (Hp : strings_HasPrefix (host +:+ ":" +:+ big_String port) "[" = false).
  { destruct host as [|a host]; [done|]. rewrite string_app_cons. unfold strings_HasPrefix. cbn [String.prefix].
    rewrite has_byte_cons in H2. apply orb_false_iff in H2 as [Ha _]. apply bool_decide_eq_false in Ha.
    destruct (ascii_dec "[" a); [by destruct Ha|done]. }
  rewrite Hp, take_string_app, H1, drop_string_0, (has_byte_app "[" host), (has_byte_app "]" host), H2, H3, !Hd by done. cbn.
  change (S (String.length host)) with (1 + String.length host)%nat. f_equal. f_equal.
  assert (E : host +:+ ":" +:+ big_String port = (host +:+ ":") +:+ big_String port).
  { clear. induction host as [|a host IH]; [done|]. rewrite !string_app_cons. by rewrite <- IH. }
  rewrite E. replace (1 + String.length host)%nat with (String.length (host +:+ ":")); [apply drop_string_app|].
  clear. induction host as [|a host IH]; [done|]. rewrite string_app_cons. cbn [String.length]. lia.
Qed.

Lemma Atoi_String z : -9223372036854775808 <= z <= 9223372036854775807 -> strconv_Atoi (big_String z) = (z, None).
Proof. intros Hz. unfold strconv_Atoi. rewrite SetString_String. by rewrite !(proj2 (Z.ltb_ge _ _)) by lia. Qed.
End Addresses.

(** ** The lifecycle *)
Section Lifecycle.
Context {Svc Env W : Type} `{R : RpcLib Svc} `{!RpcLaws Svc} `{N : Net W}.

Local Abbreviation gateway := (Web3Gateway (Svc:=Svc) (Env:=Env)).
Local Abbreviation server := (httpServer (Svc:=Svc) (Env:=Env)).
Local Abbreviation gsys := (sys (Svc:=Svc) (Env:=Env) (W:=W)).

Inductive op :=
  | OpStart
  | OpClose
  | OpRegisterAPIs (apis : list (API (Svc:=Svc)))
  | OpRegisterHealthChecks (checks : list (HealthCheck (Env:=Env))).

Definition run_op (o : op) : M gsys unit :=
  match o with
  | OpStart => Start
  | OpClose => Close
  | OpRegisterAPIs apis => RegisterAPIs apis
  | OpRegisterHealthChecks checks => RegisterHealthChecks checks
  end.

(** A run: calls with their results; the lock makes each of them one step, and
    nothing runs after a panic. *)
Inductive trace : gsys -> list (op * result unit) -> gsys -> Prop :=
  | trace_nil s : trace s [] s
  | trace_step s o r s1 l s2 :
      run_op o s = (r, s1) -> r <> Err ErrPanic -> trace s1 l s2 -> trace s ((o, r) :: l) s2.

(** A handler with no CORS layer. *)
Definition is_router (h : handler (Svc:=Svc) (Env:=Env)) : bool :=
  match h with Router _ => true | Cors _ _ _ _ _ => false end.

Definition all_router (h : option (handler (Svc:=Svc) (Env:=Env))) : Prop :=
  forall hd, h = Some hd -> is_router hd = true.

Definition httpd_good (d : httpd (Svc:=Svc) (Env:=Env)) : Prop :=
  Second <= sd_ReadTimeout d /\ Second <= sd_WriteTimeout d /\ Second <= sd_IdleTimeout d /\
  all_router (sd_Handler d).

Definition hs_good (h : server) : Prop :=
  all_router (hs_rpcHandler h) /\ forall d, hs_server h = Some d -> httpd_good d.

(** A server that was not configured yet. *)
Definition hs_fresh (h : server) : Prop :=
  hs_server h = None /\ hs_rpcHandler h = None /\ h_CorsAllowedOrigins (hs_httpConfig h) = [].

Lemma hs_fresh_good h : hs_fresh h -> hs_good h.
Proof. intros (H1 & H2 & _). split; [rewrite H2; by intros|rewrite H1; by intros]. Qed.

Lemma setListenAddr_fresh host port h : hs_fresh h -> hs_fresh (setListenAddr host port h).
Proof. done. Qed.

Lemma setListenAddr_good host port h : hs_good h -> hs_good (setListenAddr host port h).
Proof. done. Qed.

Lemma enableRPC_good apis checks cfg h h' : hs_fresh h -> enableRPC apis checks cfg h = Ok h' -> hs_good h'.
Proof.
  intros (H1 & _ & H3). unfold enableRPC, mbind, result_bind. rewrite H3.
  destruct (RegisterApis _ _ _ _); [|done]. intros [= <-]. split; [by intros hd [= <-]|]. cbn. by rewrite H1.
Qed.

Lemma enableWS_good apis cfg h h' : hs_good h -> enableWS apis cfg h = Ok h' -> hs_good h'.
Proof.
  intros (_ & H2). unfold enableWS, mbind, result_bind.
  destruct (RegisterApis _ _ _ _); [|done]. intros [= <-]. split; [by intros hd [= <-]|done].
Qed.

Lemma httpServer_start_good : keeps (fun hw => hs_good hw.1) (httpServer_start (Env:=Env) (W:=W)).
Proof.
  intros [h w] [H1 H2]. unfold httpServer_start. case_bool_decide; [done|].
  match goal with |- context [CheckTimeouts ?t] => pose proof (CheckTimeouts_meaningful t) as (Hr & Hw & Hi) end.
  assert (Hd : forall a, httpd_good (mkHttpd (hs_rpcHandler h)
    (ReadTimeout (CheckTimeouts (if bool_decide (hs_timeouts h = zeroTimeouts) then DefaultHTTPTimeouts else hs_timeouts h)))
    (WriteTimeout (CheckTimeouts (if bool_decide (hs_timeouts h = zeroTimeouts) then DefaultHTTPTimeouts else hs_timeouts h)))
    (IdleTimeout (CheckTimeouts (if bool_decide (hs_timeouts h = zeroTimeouts) then DefaultHTTPTimeouts else hs_timeouts h))) a)).
  { intros a. split_and!; done. }
  destruct (net_Listen _ w) as [[addr|e] w']; [|split; [done|by intros d [= <-]]].
  destruct (_ =? 0); [|split; [done|by intros d [= <-]]].
  destruct (SplitHostPort addr) as [[? ps]|]; [destruct (strconv_Atoi ps)|]; split; try done; by intros d [= <-].
Qed.

Lemma httpServer_stop_good h h' : hs_good h -> httpServer_stop h = Ok h' -> hs_good h'.
Proof.
  intros [H1 H2]. unfold httpServer_stop. destruct (hs_server h) as [d|] eqn:E; [|done]. intros [= <-].
  split; [done|]. intros d' [= <-]. exact (H2 d eq_refl).
Qed.

(** What the RPC servers' methods leave alone. *)
Definition framed (g0 g : gateway) : Prop :=
  gw_config g = gw_config g0 /\ gw_stop g = gw_stop g0 /\ gw_state g = gw_state g0 /\
  gw_rpcAPIs g = gw_rpcAPIs g0 /\ gw_healthChecks g = gw_healthChecks g0.

Definition servers (P Q : server -> Prop) (g : gateway) : Prop :=
  exists h ws, gw_http g = Some h /\ gw_ws g = Some ws /\ P h /\ Q ws.

Definition good (g0 : gateway) (s : gsys) : Prop := framed g0 s.1 /\ servers hs_good hs_good s.1.

Lemma pure_update_keeps (P : server -> Prop) f :
  (forall h h', P h -> f h = Ok h' -> P h') -> keeps (fun hw => P hw.1) (pure_update (W:=W) f).
Proof. intros Hf [h w] Hh. unfold pure_update. destruct (f h) eqn:E; [by eapply Hf|done]. Qed.

Lemma on_http_good {A} g0 (m : M (server * W) A) :
  keeps (fun hw => hs_good hw.1) m -> keeps (good g0) (on_http m).
Proof.
  intros Hm [g w] [Hf (h & ws & H1 & H2 & H3 & H4)]. cbn in *. unfold on_http. rewrite H1.
  specialize (Hm (h, w) H3). destruct (m (h, w)) as [r [h' w']]. split; [done|]. cbn. exists h', ws. done.
Qed.

Lemma on_ws_good {A} g0 (m : M (server * W) A) :
  keeps (fun hw => hs_good hw.1) m -> keeps (good g0) (on_ws m).
Proof.
  intros Hm [g w] [Hf (h & ws & H1 & H2 & H3 & H4)]. cbn in *. unfold on_ws. rewrite H2.
  specialize (Hm (ws, w) H4). destruct (m (ws, w)) as [r [ws' w']]. split; [done|]. cbn. exists h, ws'. done.
Qed.

Lemma configure_http_good cfg (g : gateway) w :
  servers hs_fresh hs_good g -> good g (configure_http cfg (g, w)).2.
Proof.
  intros (h & ws & H1 & H2 & H3 & H4). unfold configure_http, mbind, M_bind, on_http, pure_update.
  cbn [fst]. rewrite H1. cbn [gw_http set_http].
  destruct (enableRPC _ _ _ _) as [h'|e] eqn:E; (split; [done|]); cbn.
  - exists h', ws. split_and!; try done. eapply enableRPC_good, E. done.
  - exists (setListenAddr (hc_Host cfg) (hc_Port cfg) h), ws. split_and!; try done.
    by apply setListenAddr_good, hs_fresh_good.
Qed.

Lemma configure_ws_good g0 cfg : keeps (good g0) (configure_ws cfg).
Proof.
  intros s Hs. unfold configure_ws.
  refine (keeps_bind (good g0) _ _ _ (fun _ => _) s Hs); apply on_ws_good, pure_update_keeps.
  - intros h h' Hh [= <-]. by apply setListenAddr_good.
  - intros h h'. apply enableWS_good.
Qed.

Lemma startRPC_good (g : gateway) w : is_Some (gw_HTTP (gw_config g)) ->
  servers hs_fresh hs_good g -> good g (startRPC (g, w)).2.
Proof.
  intros [cfg Hc] Hs. unfold startRPC. cbn [fst]. rewrite Hc. unfold mbind at 1, M_bind at 1.
  pose proof (configure_http_good cfg g w Hs) as Hg.
  destruct (configure_http cfg (g, w)) as [[[]|e] s1]; [|done]. cbn [snd] in Hg. revert s1 Hg.
  change (keeps (good g) (_ ← match gw_WS (gw_config g) with Some ws => configure_ws ws | None => mret tt end;
    _ ← on_http httpServer_start; on_ws httpServer_start)).
  apply keeps_bind; [destruct (gw_WS _); [apply configure_ws_good|apply keeps_ret]|intros _].
  apply keeps_bind; [|intros _]; [apply on_http_good|apply on_ws_good]; apply httpServer_start_good.
Qed.

Lemma stopRPC_good g0 : keeps (good g0) stopRPC.
Proof.
  intros s Hs. unfold stopRPC. refine (keeps_bind (good g0) _ _ _ (fun _ => _) s Hs).
  - destruct (gw_http s.1); [|apply keeps_ret]. apply on_http_good, pure_update_keeps. intros. by eapply httpServer_stop_good.
  - destruct (gw_ws s.1); [|apply keeps_ret]. apply on_ws_good, pure_update_keeps. intros. by eapply httpServer_stop_good.
Qed.

(** The invariant: a gateway is initializing and unconfigured, or running; its
    servers have sane timeouts and no CORS layer. *)
Definition gw_inv (s : gsys) : Prop :=
  is_Some (gw_HTTP (gw_config s.1)) /\ is_Some (gw_WS (gw_config s.1)) /\
  ((gw_state s.1 = initializingState /\ servers hs_fresh hs_fresh s.1) \/
   (gw_state s.1 = runningState /\ servers hs_good hs_good s.1)).

Lemma servers_mono (P Q P' Q' : server -> Prop) g :
  (forall h, P h -> P' h) -> (forall h, Q h -> Q' h) -> servers P Q g -> servers P' Q' g.
Proof. intros H1 H2 (h & ws & ? & ? & ? & ?). exists h, ws. auto. Qed.

Lemma New_inv conf g w : New conf = Ok g -> gw_inv (g, w) /\ gw_stop g = false /\ Some (gw_config g) = conf.
Proof.
  unfold New, mbind, result_bind. destruct conf as [conf|]; [|done].
  destruct (gw_HTTP conf) as [http|] eqn:E1; [|done]. destruct (validatePrefix _ _); [|done].
  destruct (gw_WS conf) as [ws|] eqn:E2; [|done]. destruct (validatePrefix _ _); [|done].
  intros [= <-]. split; [|done]. split; [cbn; rewrite E1; by eexists|]. split; [cbn; rewrite E2; by eexists|].
  left. split; [done|]. eexists _, _. by repeat split.
Qed.

Lemma doClose_inv errs s : gw_inv s -> gw_inv (doClose errs s).2.
Proof. destruct s as [g w]. intros H. unfold doClose. by destruct (gw_stop g). Qed.

Lemma good_inv (g0 : gateway) (s : gsys) :
  is_Some (gw_HTTP (gw_config g0)) -> is_Some (gw_WS (gw_config g0)) -> gw_state g0 = runningState ->
  good g0 s -> gw_inv s.
Proof. intros H1 H2 H3 [(Hc & _ & Hs & _) Hg]. unfold gw_inv. rewrite Hc, Hs. auto. Qed.

Lemma failed_start_inv (g1 : gateway) e : (forall s, good g1 s -> gw_inv s) ->
  forall s, good g1 s -> gw_inv ((_ ← stopRPC; try_call (doClose []) (fun _ => fail (A:=unit) e)) s).2.
Proof.
  intros Hok s1 Hg. unfold mbind, M_bind, try_call. pose proof (stopRPC_good g1 s1 Hg) as Hs.
  destruct (stopRPC s1) as [[[]|e'] s2]; [|by apply Hok]. apply Hok in Hs.
  pose proof (doClose_inv [] s2 Hs) as Hd. destruct (doClose [] s2) as [[|[]] s3]; done.
Qed.

Lemma Start_inv : keeps gw_inv (Start (Env:=Env) (W:=W)).
Proof.
  intros [g w] Hi. pose proof Hi as (H1 & H2 & H3). cbn [fst] in *. unfold Start. cbn [fst snd].
  destruct (Z.eqb_spec (gw_state g) runningState) as [|Hr]; [done|].
  destruct (gw_state g =? closedState); [done|]. destruct H3 as [[_ Hf]|[? _]]; [|done].
  set (g1 := set_state g runningState).
  assert (Hok : forall s, good g1 s -> gw_inv s) by (intros s; by apply good_inv).
  assert (Hg : good g1 (startRPC (g1, w)).2).
  { apply startRPC_good; [done|]. eapply servers_mono, Hf; [done|apply hs_fresh_good]. }
  unfold try_call at 1. destruct (startRPC (g1, w)) as [[[]|e] s1] eqn:E; cbn [snd] in Hg.
  - destruct (Monitoring_Enabled _); [|by apply Hok]. destruct s1 as [g2 w2]. unfold startPrometheusServer.
    destruct (net_Listen _ w2) as [[]]; apply Hok, Hg.
  - pose proof (failed_start_inv g1 e Hok s1 Hg) as Hfin.
    destruct e; first [exact Hfin|by apply Hok].
Qed.

Lemma run_op_inv o : keeps gw_inv (run_op o).
Proof.
  destruct o as [| |apis|checks]; [apply Start_inv|..]; intros [g w] H; cbn [run_op].
  - unfold Close. destruct (_ =? _); [by apply doClose_inv|]. destruct (_ =? _); [by apply doClose_inv|].
    by destruct (_ =? _).
  - unfold RegisterAPIs. by destruct (negb _).
  - unfold RegisterHealthChecks. by destruct (negb _).
Qed.

Lemma trace_inv s l s' : trace s l s' -> gw_inv s -> gw_inv s'.
Proof.
  induction 1 as [|s o r s1 l s2 Hr _ _ IH]; [done|]. intros Hi. apply IH.
  pose proof (run_op_inv o s Hi) as H. by rewrite Hr in H.
Qed.

Lemma reach_inv conf g w l s : New conf = Ok g -> trace (g, w) l s -> gw_inv s.
Proof. intros Hn Ht. eapply trace_inv; [exact Ht|]. by eapply New_inv. Qed.

Lemma gw_inv_good s : gw_inv s -> servers hs_good hs_good s.1.
Proof. intros (_ & _ & [[_ H]|[_ H]]); [|done]. eapply servers_mono, H; apply hs_fresh_good. Qed.

(** C28: Every HTTP or WebSocket server of a gateway, after any sequence of calls, has
    read, write and idle timeouts of at least one second, whatever is configured. *)
Theorem server_timeouts_bounded conf (g : gateway) w l s h d :
  New conf = Ok g -> trace (g, w) l s -> gw_http s.1 = Some h \/ gw_ws s.1 = Some h ->
  hs_server h = Some d ->
  Second <= sd_ReadTimeout d /\ Second <= sd_WriteTimeout d /\ Second <= sd_IdleTimeout d.
Proof.
  intros Hn Ht Hh Hd. destruct (gw_inv_good s (reach_inv _ _ _ _ _ Hn Ht)) as (h1 & h2 & E1 & E2 & [_ G1] & [_ G2]).
  destruct Hh as [Hh|Hh]; simplify_eq; [destruct (G1 d Hd)|destruct (G2 d Hd)]; naive_solver.
Qed.

(** The configured CORS origins are never applied: whatever the configuration and
    the sequence of calls, the handler of the HTTP server is the bare router, since
    [enableRPC] reads the origins of the previous (empty) configuration. *)
Theorem cors_never_applied conf (g : gateway) w l s h d hd :
  New conf = Ok g -> trace (g, w) l s -> gw_http s.1 = Some h ->
  hs_server h = Some d -> sd_Handler d = Some hd -> exists routes, hd = Router routes.
Proof.
  intros Hn Ht Hh Hd Hhd. destruct (gw_inv_good s (reach_inv _ _ _ _ _ Hn Ht)) as (h1 & h2 & E1 & E2 & [_ G1] & _).
  simplify_eq. destruct (G1 d Hd) as (_ & _ & _ & Hr). specialize (Hr hd Hhd). destruct hd; [eauto|done].
Qed.

(** The prefixes [validatePrefix] accepts. *)
Definition prefix_ok (p : string) : Prop :=
  p = EmptyString \/ (exists rest, p = String "/" rest /\ contains_meta rest = false).

Lemma validatePrefix_ok what p : validatePrefix what p = Ok tt <-> prefix_ok p.
Proof.
  unfold validatePrefix, prefix_ok. case_bool_decide as He; [naive_solver|].
  destruct p as [|a rest]; [done|]. unfold strings_HasPrefix. cbn [String.prefix].
  destruct (ascii_dec "/" a) as [<-|Ha]; cbn [negb].
  - replace (String.prefix "" rest) with true by by destruct rest. cbn [negb].
    unfold contains_meta. rewrite !has_byte_cons, !bool_decide_eq_false_2 by done. cbn [orb].
    destruct (has_byte "?" rest || has_byte "#" rest) eqn:E; split; try done.
    + intros [?|(r & [= <-] & Hr)]; [done|]. congruence.
    + intros _. right. eauto.
  - split; [done|]. intros [?|(r & [= -> _] & ?)]; done.
Qed.

Lemma validatePrefix_no_panic what p : validatePrefix what p <> Err ErrPanic.
Proof. unfold validatePrefix. repeat case_match; done. Qed.

(** [New] builds a gateway exactly for a configuration with both sections and valid
    prefixes (empty, or starting with a slash and free of URL meta-characters).
    Although [Validate] accepts every gateway section, a missing HTTP section, or a
    missing WebSocket section with a valid HTTP prefix, is a nil dereference. *)
Theorem New_spec c :
  GatewayConfig_Validate c = Ok tt /\
  ((exists g : gateway, New (Some c) = Ok g) <-> exists http ws, gw_HTTP c = Some http /\ gw_WS c = Some ws /\
     prefix_ok (hc_PathPrefix http) /\ prefix_ok (wc_PathPrefix ws)) /\
  (New (Env:=Env) (Some c) = Err ErrPanic <-> gw_HTTP c = None \/
     exists http, gw_HTTP c = Some http /\ prefix_ok (hc_PathPrefix http) /\ gw_WS c = None).
Proof.
  split; [done|]. unfold New, mbind, result_bind.
  destruct (gw_HTTP c) as [http|]; [|naive_solver].
  pose proof (validatePrefix_ok "HTTP" (hc_PathPrefix http)) as H1.
  pose proof (validatePrefix_no_panic "HTTP" (hc_PathPrefix http)) as P1.
  destruct (validatePrefix "HTTP" _) as [[]|e1]; [|naive_solver].
  destruct (gw_WS c) as [ws|]; [|naive_solver].
  pose proof (validatePrefix_ok "WebSocket" (wc_PathPrefix ws)) as H2.
  pose proof (validatePrefix_no_panic "WebSocket" (wc_PathPrefix ws)) as P2.
  destruct (validatePrefix "WebSocket" _) as [[]|e2]; naive_solver.
Qed.

(** *** Start *)
Local Ltac state_lia := cbn [fst] in *; unfold initializingState, runningState, closedState in *; lia.

Lemma Start_running s r s' : gw_inv s -> gw_state s.1 = initializingState ->
  Start s = (r, s') -> gw_state s'.1 = runningState.
Proof.
  destruct s as [g w]. cbn [fst]. intros Hi Hs E.
  assert (H : forall h ws, gw_http g = Some h -> gw_ws g = Some ws -> gw_state (Start (g, w)).2.1 <> initializingState).
  { intros h ws H1 H2. unfold Start. cbn [fst snd]. rewrite Hs. cbn [Z.eqb initializingState runningState closedState].
    set (g1 := set_state g runningState). pose proof Hi as (Hh & Hw & [[_ Hf]|[? _]]); [|state_lia].
    assert (Hg : good g1 (startRPC (g1, w)).2).
    { apply startRPC_good; [done|]. eapply servers_mono, Hf; [done|apply hs_fresh_good]. }
    assert (Hrun : forall s, good g1 s -> gw_state s.1 <> initializingState).
    { intros s [(_ & _ & -> & _) _]. done. }
    unfold try_call at 1. destruct (startRPC (g1, w)) as [[[]|e] s1]; cbn [snd] in Hg.
    - destruct (Monitoring_Enabled _); [|by apply Hrun]. destruct s1 as [g2 w2]. unfold startPrometheusServer.
      apply Hrun in Hg. destruct (net_Listen _ w2) as [[]]; exact Hg.
    - assert (Hfin : gw_state ((_ ← stopRPC; try_call (doClose []) (fun _ => fail (A:=unit) e)) s1).2.1 <> initializingState).
      { unfold mbind, M_bind, try_call. pose proof (stopRPC_good g1 s1 Hg) as Hst.
        destruct (stopRPC s1) as [[[]|e'] [g2 w2]]; [|by apply Hrun]. apply Hrun in Hst.
        unfold doClose. destruct (gw_stop g2); exact Hst. }
      destruct e; first [exact Hfin|by apply Hrun]. }
  pose proof Hi as (_ & _ & [[_ (h & ws & H1 & H2 & _)]|[? _]]); [|state_lia].
  specialize (H h ws H1 H2). rewrite E in H. cbn [snd] in H.
  pose proof (Start_inv _ Hi) as Hi'. rewrite E in Hi'. destruct Hi' as (_ & _ & [[? _]|[? _]]); [by destruct H|done].
Qed.

(** C31: Once started (successfully or not), a gateway is frozen: every later Start
    returns [ErrServerRunning], no API or health check can be registered any more
    (the attempt panics), and the servers, their handlers and the registered lists
    stay as they are, Close included. *)
Theorem started_gateway_frozen conf (g : gateway) w l1 s r s1 l2 s2 :
  New conf = Ok g -> trace (g, w) l1 s -> Start s = (r, s1) -> trace s1 l2 s2 ->
  Forall (fun '(o, r) => match o with
    | OpStart => r = Err ErrServerRunning
    | OpClose => r = Err (ErrNew "error in function close")
    | _ => False end) l2 /\
  gw_http s2.1 = gw_http s1.1 /\ gw_ws s2.1 = gw_ws s1.1 /\
  gw_rpcAPIs s2.1 = gw_rpcAPIs s1.1 /\ gw_healthChecks s2.1 = gw_healthChecks s1.1.
Proof.
  intros Hn Ht Hs Ht2.
  assert (Hst : gw_state s1.1 = runningState).
  { pose proof (reach_inv _ _ _ _ _ Hn Ht) as Hi. pose proof Hi as (_ & _ & [[Hini _]|[Hrun _]]).
    - by eapply Start_running.
    - unfold Start in Hs. rewrite Hrun in Hs. by injection Hs as <- <-. }
  clear Hn Ht Hs. induction Ht2 as [|s1 o r2 s3 l s2 Hr Hp _ IH]; [done|].
  enough ((match o with OpStart => r2 = Err ErrServerRunning
    | OpClose => r2 = Err (ErrNew "error in function close") | _ => False end) /\ gw_state s3.1 = runningState /\
    gw_http s3.1 = gw_http s1.1 /\ gw_ws s3.1 = gw_ws s1.1 /\
    gw_rpcAPIs s3.1 = gw_rpcAPIs s1.1 /\ gw_healthChecks s3.1 = gw_healthChecks s1.1) as (H1 & H2 & <- & <- & <- & <-).
  { destruct (IH H2) as (? & ?). split; [by constructor|done]. }
  destruct s1 as [g1 w1]. cbn [fst] in Hst.
  destruct o; cbn [run_op] in Hr; unfold Start, Close, RegisterAPIs, RegisterHealthChecks, doClose in Hr;
    cbn [fst] in Hr; rewrite Hst in Hr; cbn in Hr; try (destruct (gw_stop g1)); by simplify_eq.
Qed.

(** Closing a gateway, in any state it can reach, closes the channel [Wait] blocks
    on and nothing else: the servers keep listening; on a running gateway it reports
    an error although nothing failed; and a second Close panics on the closed
    channel instead of returning [ErrServerStopped], since the closed state is never
    entered. *)
Theorem Close_behaviour conf (g : gateway) w l s :
  New conf = Ok g -> trace (g, w) l s ->
  gw_state s.1 <> closedState /\
  Close s = (if gw_stop s.1 then (Err ErrPanic, s)
             else (if gw_state s.1 =? runningState then Err (ErrNew "error in function close") else Ok tt,
                   (set_stop s.1, s.2))).
Proof.
  intros Hn Ht. pose proof (reach_inv _ _ _ _ _ Hn Ht) as (_ & _ & Hst). destruct s as [g' w'].
  unfold Close. cbn [fst snd] in *. destruct Hst as [[-> _]|[-> _]]; (split; [done|]); cbn; by destruct (gw_stop g').
Qed.

(** *** What a start serves *)
(** The server [New] and [configure_http] prepare, before it is started. *)
Definition http_routes (http : GatewayHTTPConfig) (g : gateway) (srv : rpcServer Svc) : handler :=
  Router [mkRoute true (hc_PathPrefix http) (ServeHTTP srv) (Some ["POST"]);
          mkRoute false "/health" (HealthEndpoint (gw_healthChecks g)) (Some ["GET"])].

Definition ws_routes (ws : GatewayWSConfig) (srv : rpcServer Svc) : handler (Env:=Env) :=
  Router [mkRoute true (wc_PathPrefix ws) (WebsocketHandler (wc_Origins ws) srv) None].

Definition http_ready (http : GatewayHTTPConfig) (g : gateway) (srv : rpcServer Svc) (h : server) : server :=
  mkHttpServer (hs_timeouts h) None (Some (http_routes http g srv)) (Some srv)
    (mkHttpConfig rpcModules (hc_Cors http) (hc_VirtualHosts http) (hc_PathPrefix http)) (hs_wsConfig h)
    (host_port (hc_Host http) (hc_Port http)) (hc_Host http) (hc_Port http).

Definition ws_ready (ws : GatewayWSConfig) (srv : rpcServer Svc) (h : server) : server :=
  mkHttpServer (hs_timeouts h) None (Some (ws_routes ws srv)) (Some srv) (hs_httpConfig h)
    (mkWsConfig (wc_Origins ws) rpcModules (wc_PathPrefix ws))
    (host_port (wc_Host ws) (wc_Port ws)) (wc_Host ws) (wc_Port ws).

(** Registration of the gateway's APIs under the modules it serves. *)
Definition registered (g : gateway) : result (rpcServer Svc) :=
  RegisterApis (gw_rpcAPIs g) rpcModules (SetBatchLimits batchItemLimit batchResponseLimit rpc_NewServer) false.

Lemma configure_http_eq cfg (g : gateway) (w : W) h : gw_http g = Some h -> hs_fresh h ->
  configure_http cfg (g, w) =
  match registered g with
  | Ok srv => (Ok tt, (set_http g (http_ready cfg g srv h), w))
  | Err e => (Err e, (set_http g (setListenAddr (hc_Host cfg) (hc_Port cfg) h), w))
  end.
Proof.
  intros H1 (H2 & H3 & H4). unfold configure_http, mbind at 1, M_bind, on_http, pure_update. cbn [fst].
  rewrite H1. cbn [gw_http set_http]. unfold enableRPC, mbind, result_bind, registered.
  cbn [h_Modules hs_httpConfig setListenAddr set_listen].
  rewrite H4. destruct (RegisterApis _ _ _ _); [|done]. cbn. by rewrite H2.
Qed.

Lemma configure_ws_eq cfg (g : gateway) (w : W) h : gw_ws g = Some h -> hs_fresh h ->
  configure_ws cfg (g, w) =
  match registered g with
  | Ok srv => (Ok tt, (set_ws g (ws_ready cfg srv h), w))
  | Err e => (Err e, (set_ws g (setListenAddr (wc_Host cfg) (wc_Port cfg) h), w))
  end.
Proof.
  intros H1 (H2 & H3 & H4). unfold configure_ws, mbind at 1, M_bind, on_ws, pure_update. cbn [fst].
  rewrite H1. cbn [gw_ws set_ws]. unfold enableWS, mbind, result_bind, registered. cbn [ws_Modules].
  destruct (RegisterApis _ _ _ _); [|done]. cbn. by rewrite H2.
Qed.

(** With the APIs registered, starting is starting the two prepared servers. *)
Lemma startRPC_eq (g : gateway) (w : W) http ws h hw :
  gw_HTTP (gw_config g) = Some http -> gw_WS (gw_config g) = Some ws ->
  gw_http g = Some h -> gw_ws g = Some hw -> hs_fresh h -> hs_fresh hw ->
  match registered g with
  | Ok srv => startRPC (g, w) = (_ ← on_http httpServer_start; on_ws httpServer_start)
      (set_ws (set_http g (http_ready http g srv h)) (ws_ready ws srv hw), w)
  | Err e => exists s, startRPC (g, w) = (Err e, s)
  end.
Proof.
  intros C1 C2 H1 H2 F1 F2. pose proof (configure_http_eq http g w h H1 F1) as Eh.
  assert (Es : forall r s1, configure_http http (g, w) = (r, s1) -> startRPC (g, w) =
    match r with Err e => (Err e, s1)
    | Ok _ => (_ ← configure_ws ws; _ ← on_http httpServer_start; on_ws httpServer_start) s1 end).
  { intros r s1 E. unfold startRPC. cbn [fst]. rewrite C1, C2. unfold mbind at 1, M_bind at 1.
    rewrite E. by destruct r. }
  destruct (registered g) as [srv|e] eqn:E; rewrite (Es _ _ Eh); [|by eexists].
  unfold mbind at 1, M_bind at 1. rewrite (configure_ws_eq ws _ w hw) by done.
  change (registered (set_http g _)) with (registered g). by rewrite E.
Qed.

Lemma host_port_nonempty host port : host_port host port <> EmptyString.
Proof. unfold host_port. by destruct host. Qed.

(** A server in service: it listens and uses the handler. *)
Definition serving (h : server) (hd : handler) : Prop :=
  exists d addr, hs_server h = Some d /\ sd_Handler d = Some hd /\ sd_listening d = Some addr.

Lemma httpServer_start_ok h w h' w' hd : hs_endpoint h <> EmptyString -> hs_rpcHandler h = Some hd ->
  httpServer_start (h, w) = (Ok tt, (h', w')) -> serving h' hd.
Proof.
  intros He Hh. unfold httpServer_start. rewrite bool_decide_eq_false_2, Hh by done.
  destruct (net_Listen _ w) as [[addr|e] w1]; [|done].
  destruct (_ =? 0); [|intros [= <- <-]; by eexists _, _].
  destruct (SplitHostPort addr) as [[? ps]|]; [|done]. destruct (strconv_Atoi ps) as [? []]; [done|].
  intros [= <- <-]. by eexists _, _.
Qed.

Lemma httpServer_start_bind_error (h : server) w e w' : hs_endpoint h <> EmptyString ->
  net_Listen (hs_endpoint h) w = (Err e, w') ->
  exists t d, httpServer_start (h, w) = (Err e, (set_server h t (Some d), w')) /\ sd_listening d = None.
Proof.
  intros He El. unfold httpServer_start. rewrite bool_decide_eq_false_2, El by done. by eexists _, _.
Qed.

Lemma httpServer_start_bound (h : server) w addr w' : hs_endpoint h <> EmptyString -> hs_port h <> 0 ->
  net_Listen (hs_endpoint h) w = (Ok addr, w') ->
  exists t d, httpServer_start (h, w) = (Ok tt, (set_server h t (Some d), w')).
Proof.
  intros He Hp El. unfold httpServer_start. rewrite bool_decide_eq_false_2, El by done. cbn [hs_port set_server].
  rewrite (proj2 (Z.eqb_neq _ _) Hp). by eexists _, _.
Qed.

(** Start in terms of [startRPC]. *)
Lemma Start_failed (g : gateway) (w : W) e s1 : gw_state g = initializingState ->
  startRPC (set_state g runningState, w) = (Err e, s1) ->
  Start (g, w) = if bool_decide (e = ErrPanic) then (Err ErrPanic, s1)
    else (_ ← stopRPC; try_call (doClose []) (fun _ => fail e)) s1.
Proof.
  intros Hs E. unfold Start. cbn [fst snd]. rewrite Hs. cbn [Z.eqb initializingState runningState closedState].
  unfold try_call at 1. rewrite E. by destruct e.
Qed.

Lemma Start_succeeded (g : gateway) (w : W) s' : gw_state g = initializingState ->
  Start (g, w) = (Ok tt, s') ->
  exists s1, startRPC (set_state g runningState, w) = (Ok tt, s1) /\
    gw_http s'.1 = gw_http s1.1 /\ gw_ws s'.1 = gw_ws s1.1.
Proof.
  intros Hs. destruct (startRPC (set_state g runningState, w)) as [[[]|e] s1] eqn:E.
  - unfold Start. cbn [fst snd]. rewrite Hs. cbn [Z.eqb initializingState runningState closedState].
    unfold try_call at 1. rewrite E. destruct (Monitoring_Enabled _); [|intros [= <-]; by exists s1].
    destruct s1 as [g1 w1]. unfold startPrometheusServer.
    destruct (net_Listen _ w1) as [[]]; [|done]. intros [= <-]. by eexists.
  - rewrite (Start_failed g w e s1) by done. case_bool_decide; [done|]. unfold mbind, M_bind, try_call.
    destruct (stopRPC s1) as [[] s2], (doClose [] s2) as [[|[]] ?]; done.
Qed.

Lemma start_serving (s s' : gsys) : gw_inv s -> gw_state s.1 = initializingState -> Start s = (Ok tt, s') ->
  exists http ws srv h hw,
    gw_HTTP (gw_config s.1) = Some http /\ gw_WS (gw_config s.1) = Some ws /\ registered s.1 = Ok srv /\
    gw_http s'.1 = Some h /\ serving h (http_routes http s.1 srv) /\
    gw_ws s'.1 = Some hw /\ serving hw (ws_routes ws srv).
Proof.
  intros ([http Hh] & [ws Hw] & [[_ Hf]|[? _]]) Hini; [|state_lia].
  destruct s as [g1 w1]. cbn [fst] in *. intros (s1 & E & -> & ->)%Start_succeeded; [|done].
  destruct Hf as (h & hw & E1 & E2 & F1 & F2).
  pose proof (startRPC_eq (set_state g1 runningState) w1 http ws h hw Hh Hw E1 E2 F1 F2) as Es. rewrite E in Es.
  change (registered (set_state g1 runningState)) with (registered g1) in Es.
  destruct (registered g1) as [srv|e] eqn:Er; [|by destruct Es].
  revert Es. unfold mbind, M_bind, on_http. cbn [gw_http set_http set_ws].
  destruct (httpServer_start (_, w1)) as [[[]|e] [h' w2]] eqn:S1; [|done].
  unfold on_ws. cbn [gw_ws set_http set_ws].
  destruct (httpServer_start (_, w2)) as [[[]|e] [hw' w3]] eqn:S2; [|done]. intros [= ->].
  exists http, ws, srv, h', hw'.
  split_and!; try done; (eapply httpServer_start_ok; [| |eassumption]; [apply host_port_nonempty|done]).
Qed.

(** After a successful Start both servers listen.  The HTTP one serves POST requests
    under its prefix with the registered APIs of the allowed modules and GET /health
    with the registered checks; the WebSocket one serves its prefix with the
    configured origins and the same APIs. *)
Theorem Start_serves conf (g : gateway) w l s s' :
  New conf = Ok g -> trace (g, w) l s -> gw_state s.1 = initializingState -> Start s = (Ok tt, s') ->
  exists http ws srv h hw,
    gw_HTTP (gw_config s.1) = Some http /\ gw_WS (gw_config s.1) = Some ws /\ registered s.1 = Ok srv /\
    gw_http s'.1 = Some h /\ serving h (http_routes http s.1 srv) /\
    gw_ws s'.1 = Some hw /\ serving hw (ws_routes ws srv).
Proof. intros Hn Ht. apply start_serving. by eapply reach_inv. Qed.

(** When the HTTP port cannot be bound, Start does not return the error: it panics,
    because the clean-up stops the WebSocket server, which was never started. *)
Theorem Start_http_bind_failure_panics conf (g : gateway) w l s http srv e w' :
  New conf = Ok g -> trace (g, w) l s -> gw_state s.1 = initializingState ->
  gw_HTTP (gw_config s.1) = Some http -> registered s.1 = Ok srv ->
  net_Listen (host_port (hc_Host http) (hc_Port http)) s.2 = (Err e, w') ->
  (Start s).1 = Err ErrPanic.
Proof.
  intros Hn Ht Hini Hh Er El.
  pose proof (reach_inv _ _ _ _ _ Hn Ht) as (_ & [ws Hw] & [[_ Hf]|[? _]]); [|state_lia].
  destruct s as [g1 w1]. cbn [fst snd] in *.
  destruct Hf as (h & hw & E1 & E2 & F1 & F2).
  pose proof (startRPC_eq (set_state g1 runningState) w1 http ws h hw Hh Hw E1 E2 F1 F2) as Es.
  change (registered (set_state g1 runningState)) with (registered g1) in Es. rewrite Er in Es.
  destruct (httpServer_start_bind_error (http_ready http (set_state g1 runningState) srv h) w1 e w')
    as (t & d & S1 & _); [apply host_port_nonempty|done|].
  revert Es. unfold mbind, M_bind, on_http. cbn [gw_http set_http set_ws]. rewrite S1. intros Es.
  rewrite (Start_failed _ _ _ _ Hini Es). by case_bool_decide.
Qed.

(** When only the WebSocket port cannot be bound, Start returns that error, both
    servers have stopped listening, and [Wait] returns. *)
Theorem Start_ws_bind_failure conf (g : gateway) w l s http ws srv addr w1 e w2 :
  New conf = Ok g -> trace (g, w) l s -> gw_state s.1 = initializingState -> gw_stop s.1 = false ->
  gw_HTTP (gw_config s.1) = Some http -> gw_WS (gw_config s.1) = Some ws -> registered s.1 = Ok srv ->
  hc_Port http <> 0 -> e <> ErrPanic ->
  net_Listen (host_port (hc_Host http) (hc_Port http)) s.2 = (Ok addr, w1) ->
  net_Listen (host_port (wc_Host ws) (wc_Port ws)) w1 = (Err e, w2) ->
  exists s', Start s = (Err e, s') /\ Wait_returns s'.1 = true /\
    forall h d, gw_http s'.1 = Some h \/ gw_ws s'.1 = Some h -> hs_server h = Some d -> sd_listening d = None.
Proof.
  intros Hn Ht Hini Hst Hh Hw Er Hp He El1 El2.
  pose proof (reach_inv _ _ _ _ _ Hn Ht) as (_ & _ & [[_ Hf]|[? _]]); [|state_lia].
  destruct s as [g1 w0]. cbn [fst snd] in *.
  destruct Hf as (h & hw & E1 & E2 & F1 & F2).
  pose proof (startRPC_eq (set_state g1 runningState) w0 http ws h hw Hh Hw E1 E2 F1 F2) as Es.
  change (registered (set_state g1 runningState)) with (registered g1) in Es. rewrite Er in Es.
  destruct (httpServer_start_bound (http_ready http (set_state g1 runningState) srv h) w0 addr w1)
    as (t & d & S1); [apply host_port_nonempty|done..|].
  destruct (httpServer_start_bind_error (ws_ready ws srv hw) w1 e w2) as (t2 & d2 & S2 & _);
    [apply host_port_nonempty|done|].
  revert Es. unfold mbind at 1, M_bind at 1, on_http. cbn [gw_http set_http set_ws]. rewrite S1.
  unfold on_ws. cbn [gw_ws set_http set_ws]. rewrite S2. intros Es.
  rewrite (Start_failed _ _ _ _ Hini Es), bool_decide_eq_false_2 by done.
  eexists. split; [|split; [|intros h0 d0]].
  - unfold mbind, M_bind, try_call, stopRPC, doClose, mbind, M_bind. cbn. rewrite Hst. reflexivity.
  - done.
  - cbn. intros [[= <-]|[= <-]]; cbn; by intros [= <-].
Qed.

(** A server configured with port 0 ends up with the endpoint and the port of the
    listener the system chose. *)
Theorem start_random_port (h : server) w host p w' :
  hs_endpoint h <> EmptyString -> hs_port h = 0 -> plain_host host = true -> 0 <= p < 65536 ->
  net_Listen (hs_endpoint h) w = (Ok (host_port host p), w') ->
  exists h', httpServer_start (h, w) = (Ok tt, (h', w')) /\ hs_port h' = p /\ hs_endpoint h' = host_port host p.
Proof.
  intros He Hp Hh Hr El. unfold httpServer_start. rewrite bool_decide_eq_false_2, El by done.
  cbn [hs_port set_server]. rewrite Hp, SplitHostPort_host_port by done. cbn [Z.eqb].
  rewrite Atoi_String by lia. by eexists.
Qed.
End Lifecycle.

(** ** A concrete instance *)
(** Services are names; a registration with no name fails. *)
#[export] Instance ExRpc : RpcLib string := {|
  rpcServer := list (string * string);
  rpc_NewServer := [];
  SetBatchLimits _ _ srv := srv;
  RegisterName name svc srv := if bool_decide (name = EmptyString) then Err (ErrNew "no service name")
    else Ok (srv ++ [(name, svc)]);
  DefaultHTTPTimeouts := mkRpcTimeouts (30 * Second) (30 * Second) (30 * Second) (120 * Second);
|}.
#[export] Instance ExRpcLaws : RpcLaws string.
Proof. split; cbn; unfold Second; lia. Qed.

(** The addresses in use; a port 0 gets the port 40000. *)
#[export] Instance ExNet : Net (list string) := {|
  net_Listen addr w :=
    if bool_decide (addr ∈ w) then (Err (ErrNew "bind: address already in use"), w)
    else let addr := if bool_decide (addr = "localhost:0"%string) then "127.0.0.1:40000"%string else addr in
      (Ok addr, addr :: w);
  fmt_errors _ := "[errors]";
|}.

Local Abbreviation exsys := (sys (Svc:=string) (Env:=bool) (W:=list string)).
Local Abbreviation exgateway := (Web3Gateway (Svc:=string) (Env:=bool)).

Definition ex_check : HealthCheck (Env:=bool) := fun ok => if ok then Ok tt else Err ErrNotHealthy.
Definition ex_apis : list (API (Svc:=string)) := [mkAPI "eth" "ethService" false; mkAPI "admin" "adminService" true].

Definition ex_new : exgateway :=
  match New (Some ex_gateway) with Ok g => g | Err _ => mkWeb3Gateway ex_gateway true 0 [] None None [] end.

(** The gateway with an API and a health check registered. *)
Definition ex_registered (w : list string) : exsys :=
  (RegisterHealthChecks [ex_check] (RegisterAPIs ex_apis (ex_new, w)).2).2.

Lemma ex_registered_trace w :
  trace (ex_new, w) [(OpRegisterAPIs ex_apis, Ok tt); (OpRegisterHealthChecks [ex_check], Ok tt)] (ex_registered w).
Proof. repeat (econstructor; [reflexivity|done|]). constructor. Qed.

Definition ex_started : exsys := (Start (ex_registered [])).2.

Lemma ex_started_trace :
  trace (ex_new, []) [(OpRegisterAPIs ex_apis, Ok tt); (OpRegisterHealthChecks [ex_check], Ok tt); (OpStart, Ok tt)] ex_started.
Proof. repeat (econstructor; [reflexivity|done|]). constructor. Qed.

Definition ex_server (o : option (httpServer (Svc:=string) (Env:=bool))) : httpServer :=
  default (newHTTPServer zeroTimeouts) o.
Definition ex_httpd (h : httpServer (Svc:=string) (Env:=bool)) : httpd :=
  default (mkHttpd None 0 0 0 None) (hs_server h).

Lemma server_timeouts_bounded_witness :
  sd_listening (ex_httpd (ex_server (gw_ws ex_started.1))) = Some "localhost:8546"%string /\
  Second <= sd_IdleTimeout (ex_httpd (ex_server (gw_ws ex_started.1))).
Proof.
  split; [reflexivity|].
  apply (server_timeouts_bounded (Some ex_gateway) ex_new [] _ ex_started (ex_server (gw_ws ex_started.1))
    (ex_httpd (ex_server (gw_ws ex_started.1))) eq_refl ex_started_trace); [right|]; reflexivity.
Defined.

Lemma cors_never_applied_witness :
  hc_Cors ex_http = ["*"] /\ exists routes, sd_Handler (ex_httpd (ex_server (gw_http ex_started.1))) = Some (Router routes).
Proof.
  split; [reflexivity|].
  destruct (sd_Handler (ex_httpd (ex_server (gw_http ex_started.1)))) as [hd|] eqn:E; [|discriminate E].
  destruct (cors_never_applied (Some ex_gateway) ex_new [] _ ex_started (ex_server (gw_http ex_started.1))
    (ex_httpd (ex_server (gw_http ex_started.1))) hd eq_refl ex_started_trace eq_refl eq_refl E) as [routes ->].
  exists routes. reflexivity.
Defined.

Lemma started_gateway_frozen_witness :
  gw_rpcAPIs (Close ex_started).2.1 = ex_apis /\
  gw_http (Close ex_started).2.1 = gw_http ex_started.1.
Proof.
  split; [reflexivity|].
  apply (started_gateway_frozen (Some ex_gateway) ex_new [] _ (ex_registered []) (Ok tt) ex_started
    [(OpClose, Err (ErrNew "error in function close"))] (Close ex_started).2 eq_refl (ex_registered_trace []) eq_refl).
  econstructor; [reflexivity|discriminate|constructor].
Defined.

Lemma Close_behaviour_witness :
  Close ex_started = (Err (ErrNew "error in function close"), (set_stop ex_started.1, ex_started.2)) /\
  sd_listening (ex_httpd (ex_server (gw_http (Close ex_started).2.1))) = Some "localhost:8545"%string.
Proof.
  split; [|reflexivity].
  apply (Close_behaviour (Some ex_gateway) ex_new [] _ ex_started eq_refl ex_started_trace).
Defined.

Lemma Start_serves_witness : exists h, gw_http ex_started.1 = Some h /\
  serving h (http_routes ex_http (ex_registered []).1 [("eth", "ethService")]%string).
Proof.
  destruct (Start_serves (Some ex_gateway) ex_new [] _ (ex_registered []) ex_started eq_refl (ex_registered_trace [])
    eq_refl eq_refl) as (http & ws & srv & h & hw & E1 & _ & E2 & E3 & Hs & _).
  injection E1 as <-. injection E2 as <-. exists h. split; [exact E3|exact Hs].
Defined.

Lemma Start_http_bind_failure_panics_witness :
  (Start (ex_registered ["localhost:8545"%string])).1 = Err ErrPanic.
Proof.
  apply (Start_http_bind_failure_panics (Some ex_gateway) ex_new ["localhost:8545"%string] _
    (ex_registered ["localhost:8545"%string]) ex_http [("eth", "ethService")]%string
    (ErrNew "bind: address already in use") ["localhost:8545"%string] eq_refl (ex_registered_trace _)); reflexivity.
Defined.

Lemma Start_ws_bind_failure_witness : exists s',
  Start (ex_registered ["localhost:8546"%string]) = (Err (ErrNew "bind: address already in use"), s') /\
  Wait_returns s'.1 = true.
Proof.
  destruct (Start_ws_bind_failure (Some ex_gateway) ex_new ["localhost:8546"%string] _
    (ex_registered ["localhost:8546"%string]) ex_http ex_ws [("eth", "ethService")]%string "localhost:8545"%string
    ["localhost:8545"; "localhost:8546"]%string (ErrNew "bind: address already in use")
    ["localhost:8545"; "localhost:8546"]%string eq_refl (ex_registered_trace _)) as (s' & E & Hw & _);
    try reflexivity; try discriminate.
  exists s'. split; [exact E|exact Hw].
Defined.

Lemma RegisterApis_allowed_witness :
  RegisterApis ex_apis rpcModules [] false = Ok [("eth", "ethService")]%string /\
  RegisterApis ex_apis rpcModules [] false =
  RegisterApis (filter (fun a => Namespace a ∈ rpcModules) ex_apis) [] [] true.
Proof. split; [reflexivity|]. apply RegisterApis_allowed. discriminate. Defined.

Lemma start_random_port_witness : exists h', httpServer_start (setListenAddr "localhost" 0 (ex_server None), []) =
  (Ok tt, (h', ["127.0.0.1:40000"%string])) /\ hs_port h' = 40000.
Proof.
  destruct (start_random_port (setListenAddr "localhost" 0 (ex_server None)) [] "127.0.0.1" 40000
    ["127.0.0.1:40000"%string]) as (h' & E & Hp & _); try reflexivity; try discriminate; try lia.
  exists h'. split; [exact E|exact Hp].
Defined.
