(* ===== verification/ApiMetrics.v ===== *)
(** * The instrumented APIs (src/rpc/metrics, src/rpc/eth/metrics and the other metrics.go)

    Every API of the gateway can be wrapped by one that counts its calls.  [EthAPI]
    is the interface [eth.API] as a record of methods on a state; [eth_api] is its
    implementation by the modelled methods and [NewMetricsWrapper] the wrapper of
    any implementation.  [Metrics] holds the Prometheus collectors; a histogram is
    the number of its observations, except for the request heights, whose observed
    values are kept.  A goroutine that measures a request height is queued in
    [mt_pending] and runs as a step of its own, on the backend the API uses too. *)
From S2P Require Import Prelude GoLib Model Gas FeeHistory Sql Storage Psql Extern BlockModels EthViews StoreBlock IndexBackend Source Archive EthApi EthCall OasisApi.

(** ** Collectors *)
Record Metrics := mkMetrics {
  mt_requests : gmap string Z;
  mt_successes : gmap string Z;
  mt_failures : gmap string Z;
  mt_inflight : gmap string Z;
  mt_durations : gmap string Z;
  mt_signedQueries : Z;
  mt_heights : list (string * Z);
  mt_pending : list (string * Z);
}.

Definition noMetrics : Metrics := mkMetrics ∅ ∅ ∅ ∅ ∅ 0 [] [].

(** A collector with a label: 0 when the label was not used yet. *)
Definition value (m : gmap string Z) (k : string) : Z := default 0 (m !! k).
Definition add (k : string) (d : Z) (m : gmap string Z) : gmap string Z := <[k := value m k + d]> m.

Lemma value_add k d m k' : value (add k d m) k' = value m k' + (if bool_decide (k = k') then d else 0).
Proof.
  unfold value, add. case_bool_decide as E; [subst; by rewrite lookup_insert_eq|].
  rewrite lookup_insert_ne by done. lia.
Qed.

(** ** [InstrumentCaller] *)
(** The part that runs when the method is entered. *)
Definition InstrumentCaller (method : string) (m : Metrics) : Metrics :=
  mkMetrics (mt_requests m) (mt_successes m) (mt_failures m) (add method 1 (mt_inflight m))
    (mt_durations m) (mt_signedQueries m) (mt_heights m) (mt_pending m).

(** The updates of the returned function, which runs when the method is left:
    [timer.ObserveDuration()], *)
Definition observe_duration (method : string) (m : Metrics) : Metrics :=
  mkMetrics (mt_requests m) (mt_successes m) (mt_failures m) (mt_inflight m)
    (add method 1 (mt_durations m)) (mt_signedQueries m) (mt_heights m) (mt_pending m).

(** [count.Inc()], *)
Definition inc_count (method : string) (m : Metrics) : Metrics :=
  mkMetrics (add method 1 (mt_requests m)) (mt_successes m) (mt_failures m) (mt_inflight m)
    (mt_durations m) (mt_signedQueries m) (mt_heights m) (mt_pending m).

(** [if err != nil && *err != nil], where [err] is the error the pointer leads to,
    [None] for a nil error or a nil pointer, *)
Definition inc_outcome (method : string) (err : option error) (m : Metrics) : Metrics :=
  mkMetrics (mt_requests m)
    (match err with None => add method 1 (mt_successes m) | Some _ => mt_successes m end)
    (match err with None => mt_failures m | Some _ => add method 1 (mt_failures m) end)
    (mt_inflight m) (mt_durations m) (mt_signedQueries m) (mt_heights m) (mt_pending m).

(** [inflight.Dec()]. *)
Definition dec_inflight (method : string) (m : Metrics) : Metrics :=
  mkMetrics (mt_requests m) (mt_successes m) (mt_failures m) (add method (-1) (mt_inflight m))
    (mt_durations m) (mt_signedQueries m) (mt_heights m) (mt_pending m).

Definition InstrumentCaller_done (method : string) (err : option error) (m : Metrics) : Metrics :=
  dec_inflight method (inc_outcome method err (inc_count method (observe_duration method m))).

(** What the named result [err] holds when the deferred function runs: nothing was
    assigned to it when the method panicked. *)
Definition err_of {X} (r : result X) : option error :=
  match r with
  | Ok _ => None
  | Err ErrPanic => None
  | Err e => Some e
  end.

(** What the deferred function sees of it. *)
Definition seen_error {X} (ptr : bool) (r : result X) : option error := if ptr then err_of r else None.

(** [defer InstrumentCaller(..., &err)()] around a call on the wrapped API; with
    [ptr] false the pointer is nil. *)
Definition instrument {S X} (method : string) (ptr : bool) (m : M S X) : M (S * Metrics) X := fun '(s, mt) =>
  let mt := InstrumentCaller method mt in
  let '(r, s') := m s in
  (r, (s', InstrumentCaller_done method (seen_error ptr r) mt)).

(** A counter incremented in the body before the call. *)
Definition with_signed {S X} (signed : bool) (m : M (S * Metrics) X) : M (S * Metrics) X := fun '(s, mt) =>
  m (s, mkMetrics (mt_requests mt) (mt_successes mt) (mt_failures mt) (mt_inflight mt) (mt_durations mt)
    (mt_signedQueries mt + if signed then 1 else 0) (mt_heights mt) (mt_pending mt)).

(** [go m.meassureRequestHeightDiff(method, blockNum)] after the call. *)
Definition go_measure {S X} (method : string) (blockNum : Z) (m : M (S * Metrics) X) : M (S * Metrics) X := fun s =>
  let '(r, (s', mt)) := m s in
  (r, (s', mkMetrics (mt_requests mt) (mt_successes mt) (mt_failures mt) (mt_inflight mt) (mt_durations mt)
    (mt_signedQueries mt) (mt_heights mt) (mt_pending mt ++ [(method, blockNum)]))).

(** cbor decoding of a signed call data pack into the argument given. *)
Class CallDataCbor := {
  Unmarshal_SignedCallDataPack : list byte -> result unit;
}.

Section ApiMetrics.
Context `{O : OasisLib} `{!Backend B} `{!NodeSource C} `{!EthClient A} `{R : EthRpc} `{L : CallLib} `{K : CallDataCbor}.

Local Abbreviation API := (publicAPI (B:=B) (C:=C) (A:=A)).

(** ** The interface [eth.API] *)
Record EthAPI (S : Type) := mkEthAPI {
  e_Accounts : M S (list eaddr);
  e_BlockNumber : M S Z;
  e_Call : TransactionArgs -> BlockNumberOrHash -> M S (list byte);
  e_ChainId : M S Z;
  e_EstimateGas : TransactionArgs -> option Z -> M S Z;
  e_GasPrice : M S N;
  e_MaxPriorityFeePerGas : M S N;
  e_FeeHistory : Z -> Z -> list float64 -> M S FeeHistoryResult;
  e_GetBalance : eaddr -> BlockNumberOrHash -> M S Z;
  e_GetBlockByHash : ehash -> bool -> M S (option RPCBlock);
  e_GetBlockByNumber : Z -> bool -> M S (option RPCBlock);
  e_GetBlockHash : Z -> M S ehash;
  e_GetBlockTransactionCountByHash : ehash -> M S Z;
  e_GetBlockTransactionCountByNumber : Z -> M S Z;
  e_GetCode : eaddr -> BlockNumberOrHash -> M S (list byte);
  e_GetLogs : FilterCriteria -> M S (list EthLog);
  e_GetStorageAt : eaddr -> string -> BlockNumberOrHash -> M S (list byte);
  e_GetTransactionByBlockHashAndIndex : ehash -> Z -> M S (option RPCTransaction);
  e_GetTransactionByBlockNumberAndIndex : Z -> Z -> M S (option RPCTransaction);
  e_GetTransactionByHash : ehash -> M S (option RPCTransaction);
  e_GetTransactionCount : eaddr -> BlockNumberOrHash -> M S Z;
  e_GetTransactionReceipt : ehash -> M S (option RPCReceipt);
  e_Hashrate : M S Z;
  e_Mining : M S bool;
  e_SendRawTransaction : list byte -> M S ehash;
  e_Syncing : M S bool;
}.

(** A method that only reads the object. *)
Definition reader {S X} (f : S -> X) : M S X := fun s => (Ok (f s), s).

(** The implementation of src/rpc/eth/api.go. *)
Definition eth_api : EthAPI API := {|
  e_Accounts := mret Accounts;
  e_BlockNumber := api_BlockNumber;
  e_Call := api_Call;
  e_ChainId := reader ChainId;
  e_EstimateGas := api_EstimateGas;
  e_GasPrice := reader api_GasPrice;
  e_MaxPriorityFeePerGas := reader api_MaxPriorityFeePerGas;
  e_FeeHistory := api_FeeHistory;
  e_GetBalance := api_GetBalance;
  e_GetBlockByHash := api_GetBlockByHash;
  e_GetBlockByNumber := api_GetBlockByNumber;
  e_GetBlockHash := api_GetBlockHash;
  e_GetBlockTransactionCountByHash := api_GetBlockTransactionCountByHash;
  e_GetBlockTransactionCountByNumber := api_GetBlockTransactionCountByNumber;
  e_GetCode := api_GetCode;
  e_GetLogs := api_GetLogs;
  e_GetStorageAt := api_GetStorageAt;
  e_GetTransactionByBlockHashAndIndex := api_GetTransactionByBlockHashAndIndex;
  e_GetTransactionByBlockNumberAndIndex := api_GetTransactionByBlockNumberAndIndex;
  e_GetTransactionByHash := api_GetTransactionByHash;
  e_GetTransactionCount := api_GetTransactionCount;
  e_GetTransactionReceipt := api_GetTransactionReceipt;
  e_Hashrate := mret Hashrate;
  e_Mining := mret Mining;
  e_SendRawTransaction := api_SendRawTransaction;
  e_Syncing := mret Syncing;
|}.

(** ** src/rpc/eth/metrics/api.go *)
(** Whether the call looks like a signed query: the first byte is that of a CBOR map
    with three entries and the data decodes. *)
Definition isSignedQuery (args : TransactionArgs) : bool :=
  match (match ta_Data args with Some d => Some d | None => ta_Input args end) with
  | None => false
  | Some data =>
      match data with
      | b :: _ :: _ => if Byte.eqb b Byte.xa3 then is_Ok (Unmarshal_SignedCallDataPack data) else false
      | _ => false
      end
  end.

(** The methods of [metricsWrapper]. *)
Definition eth_wrapper_Accounts {S} (api : EthAPI S) :=
  instrument "eth_accounts" true (e_Accounts _ api).
Definition eth_wrapper_BlockNumber {S} (api : EthAPI S) :=
  instrument "eth_blockNumber" true (e_BlockNumber _ api).
Definition eth_wrapper_Call {S} (api : EthAPI S) args b :=
  with_signed (isSignedQuery args) (instrument "eth_call" true (e_Call _ api args b)).
Definition eth_wrapper_ChainId {S} (api : EthAPI S) :=
  instrument "eth_chainId" true (e_ChainId _ api).
Definition eth_wrapper_EstimateGas {S} (api : EthAPI S) args n :=
  instrument "eth_estimateGas" true (e_EstimateGas _ api args n).
Definition eth_wrapper_GasPrice {S} (api : EthAPI S) :=
  instrument "eth_gasPrice" true (e_GasPrice _ api).
Definition eth_wrapper_MaxPriorityFeePerGas {S} (api : EthAPI S) :=
  instrument "eth_maxPriorityFeePerGas" true (e_MaxPriorityFeePerGas _ api).
Definition eth_wrapper_FeeHistory {S} (api : EthAPI S) count last ps :=
  instrument "eth_feeHistory" true (e_FeeHistory _ api count last ps).
Definition eth_wrapper_GetBalance {S} (api : EthAPI S) addr b :=
  instrument "eth_getBalance" true (e_GetBalance _ api addr b).
Definition eth_wrapper_GetBlockByHash {S} (api : EthAPI S) h full :=
  instrument "eth_getBlockByHash" true (e_GetBlockByHash _ api h full).
Definition eth_wrapper_GetBlockByNumber {S} (api : EthAPI S) n full :=
  go_measure "eth_getBlockByNumber" n (instrument "eth_getBlockByNumber" true (e_GetBlockByNumber _ api n full)).
Definition eth_wrapper_GetBlockHash {S} (api : EthAPI S) n :=
  go_measure "eth_getBlockHash" n (instrument "eth_getBlockHash" true (e_GetBlockHash _ api n)).
Definition eth_wrapper_GetBlockTransactionCountByHash {S} (api : EthAPI S) h :=
  instrument "eth_getBlockTransationCountByHash" true (e_GetBlockTransactionCountByHash _ api h).
Definition eth_wrapper_GetBlockTransactionCountByNumber {S} (api : EthAPI S) n :=
  go_measure "eth_getBlockTransationCountByNumber" n
    (instrument "eth_getBlockTransationCountByNumber" true (e_GetBlockTransactionCountByNumber _ api n)).
Definition eth_wrapper_GetCode {S} (api : EthAPI S) addr b :=
  instrument "eth_getCode" true (e_GetCode _ api addr b).
Definition eth_wrapper_GetLogs {S} (api : EthAPI S) filter :=
  instrument "eth_getLogs" true (e_GetLogs _ api filter).
Definition eth_wrapper_GetStorageAt {S} (api : EthAPI S) addr slot b :=
  instrument "eth_getStorageAt" true (e_GetStorageAt _ api addr slot b).
Definition eth_wrapper_GetTransactionByBlockHashAndIndex {S} (api : EthAPI S) h i :=
  instrument "eth_getTransactionByBlockHashAndIndex" true (e_GetTransactionByBlockHashAndIndex _ api h i).
Definition eth_wrapper_GetTransactionByBlockNumberAndIndex {S} (api : EthAPI S) n i :=
  go_measure "eth_getTransactionByBlockNumberAndIndex" n
    (instrument "eth_getTransactionByBlockNumberAndIndex" true (e_GetTransactionByBlockNumberAndIndex _ api n i)).
Definition eth_wrapper_GetTransactionByHash {S} (api : EthAPI S) h :=
  instrument "eth_getTransactionByHash" true (e_GetTransactionByHash _ api h).
Definition eth_wrapper_GetTransactionCount {S} (api : EthAPI S) addr b :=
  instrument "eth_getTransactionCount" true (e_GetTransactionCount _ api addr b).
Definition eth_wrapper_GetTransactionReceipt {S} (api : EthAPI S) h :=
  instrument "eth_getTransactionReceipt" true (e_GetTransactionReceipt _ api h).
Definition eth_wrapper_Hashrate {S} (api : EthAPI S) :=
  instrument "eth_hashrate" false (e_Hashrate _ api).
Definition eth_wrapper_Mining {S} (api : EthAPI S) :=
  instrument "eth_mining" false (e_Mining _ api).
Definition eth_wrapper_SendRawTransaction {S} (api : EthAPI S) data :=
  instrument "eth_sendRawTransaction" true (e_SendRawTransaction _ api data).
Definition eth_wrapper_Syncing {S} (api : EthAPI S) :=
  instrument "eth_syncing" true (e_Syncing _ api).

Definition NewMetricsWrapper {S} (api : EthAPI S) : EthAPI (S * Metrics) := {|
  e_Accounts := eth_wrapper_Accounts api;
  e_BlockNumber := eth_wrapper_BlockNumber api;
  e_Call := eth_wrapper_Call api;
  e_ChainId := eth_wrapper_ChainId api;
  e_EstimateGas := eth_wrapper_EstimateGas api;
  e_GasPrice := eth_wrapper_GasPrice api;
  e_MaxPriorityFeePerGas := eth_wrapper_MaxPriorityFeePerGas api;
  e_FeeHistory := eth_wrapper_FeeHistory api;
  e_GetBalance := eth_wrapper_GetBalance api;
  e_GetBlockByHash := eth_wrapper_GetBlockByHash api;
  e_GetBlockByNumber := eth_wrapper_GetBlockByNumber api;
  e_GetBlockHash := eth_wrapper_GetBlockHash api;
  e_GetBlockTransactionCountByHash := eth_wrapper_GetBlockTransactionCountByHash api;
  e_GetBlockTransactionCountByNumber := eth_wrapper_GetBlockTransactionCountByNumber api;
  e_GetCode := eth_wrapper_GetCode api;
  e_GetLogs := eth_wrapper_GetLogs api;
  e_GetStorageAt := eth_wrapper_GetStorageAt api;
  e_GetTransactionByBlockHashAndIndex := eth_wrapper_GetTransactionByBlockHashAndIndex api;
  e_GetTransactionByBlockNumberAndIndex := eth_wrapper_GetTransactionByBlockNumberAndIndex api;
  e_GetTransactionByHash := eth_wrapper_GetTransactionByHash api;
  e_GetTransactionCount := eth_wrapper_GetTransactionCount api;
  e_GetTransactionReceipt := eth_wrapper_GetTransactionReceipt api;
  e_Hashrate := eth_wrapper_Hashrate api;
  e_Mining := eth_wrapper_Mining api;
  e_SendRawTransaction := eth_wrapper_SendRawTransaction api;
  e_Syncing := eth_wrapper_Syncing api;
|}.

(** The latest height and the one the request asks for. *)
Definition latestAndRequestHeights (blockNum : Z) : M B (Z * Z) :=
  if (blockNum =? PendingBlockNumber) || (blockNum =? LatestBlockNumber) then mret (0, 0)
  else
    height ← (if blockNum =? EarliestBlockNumber then bk_QueryLastRetainedRound else mret 0);
    if blockNum <? 0 then fail ErrMalformedBlockNumber
    else
      let height := if height =? 0 then blockNum else height in
      latest ← bk_QueryLastIndexedRound;
      mret (latest, height).

Definition observe_height (method : string) (d : Z) (mt : Metrics) : Metrics :=
  mkMetrics (mt_requests mt) (mt_successes mt) (mt_failures mt) (mt_inflight mt) (mt_durations mt)
    (mt_signedQueries mt) (mt_heights mt ++ [(method, d)]) (mt_pending mt).

Definition meassureRequestHeightDiff (method : string) (blockNum : Z) : M (B * Metrics) unit := fun '(b, mt) =>
  match latestAndRequestHeights blockNum b with
  | (Err _, b') => (Ok tt, (b', mt))
  | (Ok (latest, request), b') =>
      if latest <? request then (Ok tt, (b', mt))
      else (Ok tt, (b', observe_height method (latest - request)%u64 mt))
  end.

(** A queued goroutine runs; the backend is the one of the API. *)
Definition run_measure : M (API * Metrics) unit := fun '(api, mt) =>
  match mt_pending mt with
  | [] => (Ok tt, (api, mt))
  | (method, n) :: rest =>
      let mt := mkMetrics (mt_requests mt) (mt_successes mt) (mt_failures mt) (mt_inflight mt)
        (mt_durations mt) (mt_signedQueries mt) (mt_heights mt) rest in
      let '(r, (b', mt')) := meassureRequestHeightDiff method n (api_backend api, mt) in
      (r, (mkPublicAPI (api_source api) (api_archiveClient api) b' (api_gasPriceOracle api)
        (api_chainID api) (api_methodLimits api), mt'))
  end.

(** ** The other wrappers *)
(** src/rpc/web3: the version of the software and of the toolchain, the hash. *)
Definition web3_ClientVersion (software toolchain : string) : string :=
  ("oasis/" +:+ software +:+ "/" +:+ toolchain)%string.

Definition web3_wrapper_ClientVersion {S} (m : M S string) : M (S * Metrics) string := instrument "web3_clientVersion" false m.
Definition web3_wrapper_Sha3 {S} (m : list byte -> M S (list byte)) (input : list byte) : M (S * Metrics) (list byte) :=
  instrument "web3_sha3" false (m input).

(** src/rpc/net, src/rpc/txpool, src/rpc/oasis *)
Definition net_wrapper_Version {S} (m : M S string) : M (S * Metrics) string := instrument "net_version" false m.
Definition txpool_wrapper_Content {S} (m : M S (gmap string (list unit))) : M (S * Metrics) (gmap string (list unit)) :=
  instrument "txpool_content" true m.
Definition oasis_wrapper_CallDataPublicKey : M (C * Metrics) CallDataPublicKey :=
  instrument "oasis_callDataPublicKey" false oasis_CallDataPublicKey.
End ApiMetrics.

(** ** The wrapper is transparent *)
(** The instrumented call returns what the call returns and does to the object what
    the call does. *)
Definition same_call {S X} (m : M S X) (m' : M (S * Metrics) X) : Prop :=
  forall s mt, (m' (s, mt)).1 = (m s).1 /\ (m' (s, mt)).2.1 = (m s).2.

Lemma instrument_same {S X} k ptr (m : M S X) : same_call m (instrument k ptr m).
Proof. intros s mt. unfold instrument. by destruct (m s). Qed.

Lemma go_measure_same {S X} k n (m : M S X) m' : same_call m m' -> same_call m (go_measure k n m').
Proof.
  intros Hm s mt. unfold go_measure. destruct (Hm s mt) as [H1 H2].
  by destruct (m' (s, mt)) as [r [s' mt']].
Qed.

Lemma with_signed_same {S X} b (m : M S X) m' : same_call m m' -> same_call m (with_signed b m').
Proof. intros Hm s mt. apply Hm. Qed.

#[export] Hint Resolve instrument_same go_measure_same with_signed_same : gateway.

Section Transparency.
Context `{O : OasisLib} `{!Backend B} `{!NodeSource C} `{!EthClient A} `{R : EthRpc} `{L : CallLib} `{K : CallDataCbor}.

(** All methods of two implementations of the interface agree. *)
Definition same_api {S} (a : EthAPI S) (a' : EthAPI (S * Metrics)) : Prop :=
  same_call (e_Accounts _ a) (e_Accounts _ a') /\
  same_call (e_BlockNumber _ a) (e_BlockNumber _ a') /\
  (forall x y, same_call (e_Call _ a x y) (e_Call _ a' x y)) /\
  same_call (e_ChainId _ a) (e_ChainId _ a') /\
  (forall x y, same_call (e_EstimateGas _ a x y) (e_EstimateGas _ a' x y)) /\
  same_call (e_GasPrice _ a) (e_GasPrice _ a') /\
  same_call (e_MaxPriorityFeePerGas _ a) (e_MaxPriorityFeePerGas _ a') /\
  (forall x y z, same_call (e_FeeHistory _ a x y z) (e_FeeHistory _ a' x y z)) /\
  (forall x y, same_call (e_GetBalance _ a x y) (e_GetBalance _ a' x y)) /\
  (forall x y, same_call (e_GetBlockByHash _ a x y) (e_GetBlockByHash _ a' x y)) /\
  (forall x y, same_call (e_GetBlockByNumber _ a x y) (e_GetBlockByNumber _ a' x y)) /\
  (forall x, same_call (e_GetBlockHash _ a x) (e_GetBlockHash _ a' x)) /\
  (forall x, same_call (e_GetBlockTransactionCountByHash _ a x) (e_GetBlockTransactionCountByHash _ a' x)) /\
  (forall x, same_call (e_GetBlockTransactionCountByNumber _ a x) (e_GetBlockTransactionCountByNumber _ a' x)) /\
  (forall x y, same_call (e_GetCode _ a x y) (e_GetCode _ a' x y)) /\
  (forall x, same_call (e_GetLogs _ a x) (e_GetLogs _ a' x)) /\
  (forall x y z, same_call (e_GetStorageAt _ a x y z) (e_GetStorageAt _ a' x y z)) /\
  (forall x y, same_call (e_GetTransactionByBlockHashAndIndex _ a x y) (e_GetTransactionByBlockHashAndIndex _ a' x y)) /\
  (forall x y, same_call (e_GetTransactionByBlockNumberAndIndex _ a x y) (e_GetTransactionByBlockNumberAndIndex _ a' x y)) /\
  (forall x, same_call (e_GetTransactionByHash _ a x) (e_GetTransactionByHash _ a' x)) /\
  (forall x y, same_call (e_GetTransactionCount _ a x y) (e_GetTransactionCount _ a' x y)) /\
  (forall x, same_call (e_GetTransactionReceipt _ a x) (e_GetTransactionReceipt _ a' x)) /\
  same_call (e_Hashrate _ a) (e_Hashrate _ a') /\
  same_call (e_Mining _ a) (e_Mining _ a') /\
  (forall x, same_call (e_SendRawTransaction _ a x) (e_SendRawTransaction _ a' x)) /\
  same_call (e_Syncing _ a) (e_Syncing _ a').

(** Monitoring changes no answer: for every implementation of the eth_ interface,
    each method of its instrumented version returns the same result and leaves the
    wrapped object in the same state. *)
Theorem metrics_wrapper_transparent {S} (api : EthAPI S) : same_api api (NewMetricsWrapper api).
Proof.
  unfold same_api. split_and!; intros;
    first [apply instrument_same | apply go_measure_same, instrument_same | apply with_signed_same, instrument_same].
Qed.

(** A call of oasis_callDataPublicKey that fails is counted as a success: the
    wrapper passes no error pointer. *)
Theorem oasis_failure_counted_as_success (c c' : C) e mt :
  oasis_CallDataPublicKey c = (Err e, c') ->
  let mt' := (oasis_wrapper_CallDataPublicKey (c, mt)).2.2 in
  mt_failures mt' = mt_failures mt /\
  value (mt_successes mt') "oasis_callDataPublicKey" = value (mt_successes mt) "oasis_callDataPublicKey" + 1.
Proof.
  intros E. unfold oasis_wrapper_CallDataPublicKey, instrument. rewrite E.
  cbn [fst snd seen_error InstrumentCaller InstrumentCaller_done observe_duration inc_count inc_outcome dec_inflight
    mt_failures mt_successes]. split; [done|].
  rewrite value_add. by rewrite bool_decide_eq_true_2.
Qed.

(** ** Request heights *)
(** The measured height difference never wraps around: for a request not above the
    latest height the difference is recorded, which is at most that height, and for
    a request above it nothing is recorded. *)
Theorem height_diff_bounds k n (b : B) mt latest request b1 :
  latestAndRequestHeights n b = (Ok (latest, request), b1) -> is_u64 latest -> is_u64 request ->
  (request <= latest -> 0 <= latest - request <= latest /\
     meassureRequestHeightDiff k n (b, mt) = (Ok tt, (b1, observe_height k (latest - request) mt))) /\
  (latest < request -> meassureRequestHeightDiff k n (b, mt) = (Ok tt, (b1, mt))).
Proof.
  intros E Hl Hr. unfold meassureRequestHeightDiff. rewrite E.
  destruct (Z.ltb_spec latest request); (split; intros; [try lia|done || lia]).
  split; [u64_lia|]. by rewrite u64_small by u64_lia.
Qed.

(** With the block numbers of go-ethereum, where the earliest block is a negative
    constant, a request for the earliest block is never measured: the case falls
    through to the check for negative numbers. *)
Theorem earliest_never_measured k (b : B) mt :
  EarliestBlockNumber < 0 -> EarliestBlockNumber <> PendingBlockNumber -> EarliestBlockNumber <> LatestBlockNumber ->
  (meassureRequestHeightDiff k EarliestBlockNumber (b, mt)).2.2 = mt.
Proof.
  intros H1 H2 H3. unfold meassureRequestHeightDiff, latestAndRequestHeights.
  rewrite (proj2 (Z.eqb_neq _ _) H2), (proj2 (Z.eqb_neq _ _) H3), Z.eqb_refl. cbn [orb]. unfold mbind, M_bind.
  destruct (bk_QueryLastRetainedRound b) as [[low|] b2]; [|done].
  by rewrite (proj2 (Z.ltb_lt _ _) H1).
Qed.
End Transparency.

(** ** Concurrent calls *)
(** Where a call is: in the body of the method, or about to do the next update of the
    deferred function, with the result of the body; or it has left. *)
Inductive call_phase :=
  | InBody
  | AtTimer (r : result unit)
  | AtCount (r : result unit)
  | AtOutcome (r : result unit)
  | AtGauge (r : result unit)
  | Left (r : result unit).

(** A call of an instrumented method; whether it passes a pointer to its error. *)
Record call := mkCall { cl_method : string; cl_ptr : bool; cl_at : call_phase }.

(** The collectors and all calls so far, in the order they were made. *)
Definition calls : Type := Metrics * list call.

(** Calls run concurrently: one step is a new call, a body that returns, or one
    update of a collector by one of the calls. *)
Inductive call_step : calls -> calls -> Prop :=
  | call_begin k ptr mt cs : call_step (mt, cs) (InstrumentCaller k mt, cs ++ [mkCall k ptr InBody])
  | call_return i k ptr r mt cs : cs !! i = Some (mkCall k ptr InBody) ->
      call_step (mt, cs) (mt, <[i := mkCall k ptr (AtTimer r)]> cs)
  | call_observe i k ptr r mt cs : cs !! i = Some (mkCall k ptr (AtTimer r)) ->
      call_step (mt, cs) (observe_duration k mt, <[i := mkCall k ptr (AtCount r)]> cs)
  | call_count i k ptr r mt cs : cs !! i = Some (mkCall k ptr (AtCount r)) ->
      call_step (mt, cs) (inc_count k mt, <[i := mkCall k ptr (AtOutcome r)]> cs)
  | call_outcome i k ptr r mt cs : cs !! i = Some (mkCall k ptr (AtOutcome r)) ->
      call_step (mt, cs) (inc_outcome k (seen_error ptr r) mt, <[i := mkCall k ptr (AtGauge r)]> cs)
  | call_leave i k ptr r mt cs : cs !! i = Some (mkCall k ptr (AtGauge r)) ->
      call_step (mt, cs) (dec_inflight k mt, <[i := mkCall k ptr (Left r)]> cs).

(** The number of calls with a property. *)
Definition tally (P : call -> bool) (cs : list call) : Z :=
  Z.of_nat (sum_list_with (fun c => if P c then 1 else 0)%nat cs).

Definition is_call (k : string) (c : call) : bool := bool_decide (cl_method c = k).

Definition in_flight (c : call) : bool := match cl_at c with Left _ => false | _ => true end.
Definition observed (c : call) : bool :=
  match cl_at c with InBody | AtTimer _ => false | _ => true end.
Definition counted (c : call) : bool :=
  match cl_at c with InBody | AtTimer _ | AtCount _ => false | _ => true end.
(** Past the branch on the error, with an error seen or not. *)
Definition failed (c : call) : bool :=
  match cl_at c with AtGauge r | Left r => match seen_error (cl_ptr c) r with Some _ => true | None => false end | _ => false end.
Definition succeeded (c : call) : bool :=
  match cl_at c with AtGauge r | Left r => match seen_error (cl_ptr c) r with Some _ => false | None => true end | _ => false end.

Definition metrics_inv (c : calls) : Prop := forall k,
  value (mt_inflight c.1) k = tally (fun x => is_call k x && in_flight x) c.2 /\
  value (mt_durations c.1) k = tally (fun x => is_call k x && observed x) c.2 /\
  value (mt_requests c.1) k = tally (fun x => is_call k x && counted x) c.2 /\
  value (mt_failures c.1) k = tally (fun x => is_call k x && failed x) c.2 /\
  value (mt_successes c.1) k = tally (fun x => is_call k x && succeeded x) c.2.

Lemma tally_app P cs c : tally P (cs ++ [c]) = tally P cs + Z.b2z (P c).
Proof. unfold tally. rewrite sum_list_with_app. cbn. destruct (P c); cbn; lia. Qed.

Lemma tally_insert P i c c' cs : cs !! i = Some c ->
  tally P (<[i := c']> cs) = tally P cs + Z.b2z (P c') - Z.b2z (P c).
Proof.
  intros Hi. unfold tally. pose proof (sum_list_insert (fun c => if P c then 1 else 0)%nat i c' _ _ Hi).
  cbn beta in *. destruct (P c), (P c'); cbn; lia.
Qed.

Lemma tally_ext P Q cs : (forall c, c ∈ cs -> P c = Q c) -> tally P cs = tally Q cs.
Proof.
  intros H. unfold tally. f_equal. induction cs as [|c cs IH]; [done|]. cbn.
  rewrite (H c) by apply list_elem_of_here. rewrite IH; [done|]. intros x Hx. apply H. by apply list_elem_of_further.
Qed.

Lemma tally_false cs : tally (fun _ => false) cs = 0.
Proof. unfold tally. induction cs as [|c cs IH]; [done|]. cbn in *. lia. Qed.

Lemma tally_disjoint P Q cs : (forall c, c ∈ cs -> P c && Q c = false) ->
  tally (fun c => P c || Q c) cs = tally P cs + tally Q cs.
Proof.
  unfold tally. induction cs as [|c cs IH]; intros H; [done|]. cbn.
  pose proof (H c (list_elem_of_here _ _)) as Hc. assert (Hs : forall x, x ∈ cs -> P x && Q x = false)
    by (intros x Hx; apply H; by apply list_elem_of_further).
  specialize (IH Hs). destruct (P c), (Q c); cbn in *; (done || lia).
Qed.

Lemma call_step_inv c c' : call_step c c' -> metrics_inv c -> metrics_inv c'.
Proof.
  intros Hs Hi k'. destruct (Hi k') as (H1 & H2 & H3 & H4 & H5).
  destruct Hs as [k ptr mt cs|i k ptr r mt cs Hc|i k ptr r mt cs Hc|i k ptr r mt cs Hc|i k ptr r mt cs Hc|i k ptr r mt cs Hc];
    cbn [fst snd InstrumentCaller observe_duration inc_count inc_outcome dec_inflight
      mt_inflight mt_requests mt_successes mt_failures mt_durations] in *;
    rewrite ?tally_app, ?(fun P c' => tally_insert P i _ c' cs Hc), <- H1, <- H2, <- H3, <- H4, <- H5;
    unfold is_call, in_flight, observed, counted, failed, succeeded; cbn [cl_method cl_at cl_ptr];
    try (destruct (seen_error ptr r)); rewrite ?value_add;
    case_bool_decide; cbn [andb Z.b2z]; (split_and!; lia).
Qed.

Lemma reach_metrics_inv c : rtc call_step (noMetrics, []) c -> metrics_inv c.
Proof.
  intros H. remember (noMetrics, [] : list call) as c0. assert (H0 : metrics_inv c0) by (subst; by intros k).
  clear Heqc0. induction H as [|c0 c1 c2 Hs _ IH]; [done|]. eauto using call_step_inv.
Qed.

(** An instrumented method run on its own is such a call, with its result. *)
Lemma instrument_steps {S X} k ptr (m : M S X) s mt cs :
  rtc call_step (mt, cs)
    ((instrument k ptr m (s, mt)).2.2, cs ++ [mkCall k ptr (Left (_ ← (m s).1; Ok tt))]).
Proof.
  unfold instrument. destruct (m s) as [r s'] eqn:E. cbn [fst snd].
  assert (Hr : seen_error ptr r = seen_error ptr (_ ← r; Ok tt)) by (by destruct r as [x|[]]).
  rewrite Hr. set (u := (_ ← r; Ok tt)). unfold InstrumentCaller_done.
  assert (Hl : forall p, (cs ++ [mkCall k ptr p]) !! length cs = Some (mkCall k ptr p)) by (intros p; by rewrite list_lookup_middle).
  assert (Hn : forall p q, <[length cs := mkCall k ptr q]> (cs ++ [mkCall k ptr p]) = cs ++ [mkCall k ptr q])
    by (intros p q; by rewrite insert_app_r_alt, Nat.sub_diag by lia).
  eapply rtc_l; [apply (call_begin k ptr)|].
  eapply rtc_l; [apply (call_return (length cs) k ptr u), Hl|]. rewrite Hn.
  eapply rtc_l; [apply (call_observe (length cs) k ptr u), Hl|]. rewrite Hn.
  eapply rtc_l; [apply (call_count (length cs) k ptr u), Hl|]. rewrite Hn.
  eapply rtc_l; [apply (call_outcome (length cs) k ptr u), Hl|]. rewrite Hn.
  eapply rtc_l; [apply (call_leave (length cs) k ptr u), Hl|]. by rewrite Hn.
Qed.

(** When the calls of a method have left, its counters are those of finished calls. *)
Definition returned_error (c : call) : bool :=
  match cl_at c with Left r => match seen_error (cl_ptr c) r with Some _ => true | None => false end | _ => false end.

Definition idle (k : string) (cs : list call) : Prop :=
  forall c, c ∈ cs -> cl_method c = k -> in_flight c = false.

Lemma idle_tally k cs P Q : idle k cs -> (forall p r, P (mkCall k p (Left r)) = Q (mkCall k p (Left r))) ->
  tally (fun c => is_call k c && P c) cs = tally (fun c => is_call k c && Q c) cs.
Proof.
  intros Hi Hpq. apply tally_ext. intros [k' p a] Hc. unfold is_call. cbn. case_bool_decide as E; [|done]. subst k'.
  cbn. specialize (Hi _ Hc eq_refl). destruct a; done || apply Hpq.
Qed.

(** C36: However concurrent calls of the instrumented methods interleave, down to the
    single updates of the collectors, each collector of a method counts the calls of
    that method that are past its update: durations and requests those that have
    returned, the in-flight gauge those begun and not yet left, failures those whose
    body returned an error the wrapper sees, and successes the others.  So once the
    calls of a method have left, none is in flight, every call is counted once as a
    request and with one duration, failures are the calls that returned an error, and
    requests are successes and failures together. *)
Theorem metrics_consistent mt cs k : rtc call_step (noMetrics, []) (mt, cs) ->
  value (mt_inflight mt) k = tally (fun c => is_call k c && in_flight c) cs /\
  value (mt_durations mt) k = tally (fun c => is_call k c && observed c) cs /\
  value (mt_requests mt) k = tally (fun c => is_call k c && counted c) cs /\
  value (mt_failures mt) k = tally (fun c => is_call k c && failed c) cs /\
  value (mt_successes mt) k = tally (fun c => is_call k c && succeeded c) cs /\
  (idle k cs ->
     value (mt_inflight mt) k = 0 /\
     value (mt_requests mt) k = tally (is_call k) cs /\ value (mt_durations mt) k = tally (is_call k) cs /\
     value (mt_failures mt) k = tally (fun c => is_call k c && returned_error c) cs /\
     value (mt_requests mt) k = value (mt_successes mt) k + value (mt_failures mt) k).
Proof.
  intros H. destruct (reach_metrics_inv _ H k) as (H1 & H2 & H3 & H4 & H5). cbn [fst snd] in *.
  split_and!; [done..|]. intros Hi. rewrite H1, H2, H3, H4, H5.
  assert (Ht : forall P, (forall p r, P (mkCall k p (Left r)) = true) ->
    tally (fun c => is_call k c && P c) cs = tally (is_call k) cs).
  { intros P HP. rewrite (idle_tally k cs P (fun _ => true) Hi HP). apply tally_ext. intros c _. apply andb_true_r. }
  split_and!.
  - rewrite (idle_tally k cs in_flight (fun _ => false) Hi) by done. rewrite <- (tally_false cs).
    apply tally_ext. intros c _. apply andb_false_r.
  - by apply Ht.
  - by apply Ht.
  - by apply idle_tally.
  - rewrite <- tally_disjoint.
    + rewrite (Ht counted) by done. rewrite <- (Ht (fun c => succeeded c || failed c)).
      * apply tally_ext. intros c _. by destruct (is_call k c).
      * intros p r. unfold succeeded, failed. cbn. by destruct (seen_error p r).
    + intros c _. unfold succeeded, failed. destruct (is_call k c); [|done]. cbn.
      destruct (cl_at c); try done; by destruct (seen_error _ _).
Qed.

(** ** Concrete instances *)
(** Decoding into a value that is not a pointer is an error. *)
#[export] Instance ex_Cbor : CallDataCbor := {| Unmarshal_SignedCallDataPack _ := Err (ErrNew "cbor: Unmarshal(non-pointer)") |}.

Lemma oasis_failure_counted_as_success_witness :
  value (mt_successes (oasis_wrapper_CallDataPublicKey (mkExNode 0, noMetrics)).2.2) "oasis_callDataPublicKey" = 1.
Proof.
  apply (oasis_failure_counted_as_success (mkExNode 0) (mkExNode 0) ErrInternalError noMetrics). reflexivity.
Defined.

Definition ex_backend : indexBackend (D:=MemDB) := ex_after_index.

Lemma height_diff_bounds_witness : exists b1,
  meassureRequestHeightDiff "eth_getBlockByNumber" 2 (ex_backend, noMetrics) =
    (Ok tt, (b1, observe_height "eth_getBlockByNumber" 3 noMetrics)).
Proof.
  assert (Hf : match (latestAndRequestHeights 2 ex_backend).1 with Ok (a, b) => (a =? 5) && (b =? 2) | _ => false end = true)
    by (vm_compute; reflexivity).
  destruct (latestAndRequestHeights 2 ex_backend) as [[[l q]|e] b1] eqn:E; [|discriminate Hf]. cbn [fst] in Hf.
  assert (El : l = 5 /\ q = 2) by lia.
  destruct El as [-> ->]. exists b1.
  apply (height_diff_bounds "eth_getBlockByNumber" 2 ex_backend noMetrics 5 2 b1 E); [split; reflexivity || discriminate..|discriminate].
Defined.

Lemma earliest_never_measured_witness :
  (meassureRequestHeightDiff "eth_getBlockByNumber" EarliestBlockNumber (ex_backend, noMetrics)).2.2 = noMetrics.
Proof. apply earliest_never_measured; vm_compute; congruence. Defined.

(** Two concurrent calls; one has returned an error and is past the count of its
    failure, the other one is in its body. *)
Definition ex_calls : calls :=
  (inc_outcome "eth_call" (Some ErrInternalError) (inc_count "eth_call" (observe_duration "eth_call"
     (InstrumentCaller "eth_call" (InstrumentCaller "eth_call" noMetrics)))),
   [mkCall "eth_call" true (AtGauge (Err ErrInternalError)); mkCall "eth_call" true InBody]).

Lemma metrics_consistent_witness : rtc call_step (noMetrics, []) ex_calls /\
  value (mt_inflight ex_calls.1) "eth_call" = 2 /\ value (mt_failures ex_calls.1) "eth_call" = 1.
Proof.
  assert (Hr : rtc call_step (noMetrics, []) ex_calls).
  { eapply rtc_l; [apply (call_begin "eth_call" true)|]. eapply rtc_l; [apply (call_begin "eth_call" true)|].
    eapply rtc_l; [by apply (call_return 0 "eth_call" true (Err ErrInternalError))|].
    eapply rtc_l; [by eapply (call_observe 0)|]. eapply rtc_l; [by eapply (call_count 0)|].
    apply rtc_once. exact (call_outcome 0 "eth_call" true (Err ErrInternalError) _ [_; _] eq_refl). }
  split; [exact Hr|]. destruct (metrics_consistent _ _ "eth_call" Hr) as (H1 & _ & _ & H4 & _).
  split; [exact H1|exact H4].
Defined.
