(* ===== verification/EventLoop.v ===== *)
(** * The event loop and its subscribers (src/filters/event_system.go, src/rpc/eth/filters/api.go)

    The event loop writes to the channels of the subscribers, which are unbuffered,
    and the subscribers write to the channels of the loop, so that each may have to
    wait for the other.  Here the loop and the goroutines of the subscribers are
    processes that meet at these channels; what is written is the subject of Filters.v.
    A subscriber that wants to leave reads and drops messages until the loop has taken
    its request, which is what keeps the two from waiting for each other. *)
From S2P Require Import Prelude.

(** The goroutine of a subscriber. *)
Inductive sub_state :=
  | NotSubscribed
  | Installing      (** [es.install <- sub] *)
  | Starting        (** installed; the goroutine does not read yet *)
  | Receiving       (** in its select *)
  | Notifying       (** passing a message on to the client *)
  | Uninstalling    (** in the loop of [Unsubscribe] *)
  | AwaitErr        (** [<-sub.Err()] *)
  | Ended.

#[export] Instance sub_state_eq_dec : EqDecision sub_state.
Proof. solve_decision. Defined.

(** The loop is in its select, or has still to write to the given subscribers. *)
Record system := mkSystem {
  sy_loop : option (list nat);
  sy_index : gset nat;
  sy_subs : list sub_state;
}.

Definition es_start (n : nat) : system := mkSystem None ∅ (replicate n NotSubscribed).

Definition with_sub (s : system) (i : nat) (x : sub_state) : system :=
  mkSystem (sy_loop s) (sy_index s) (<[i := x]> (sy_subs s)).

(** [case ev := <-es.chainCh]: the loop starts to write to some subscribers of its
    index, those the event is for. *)
Inductive chain_step : system -> system -> Prop :=
  | chain_event s targets : sy_loop s = None -> Forall (fun i => i ∈ sy_index s) targets ->
      chain_step s (mkSystem (Some targets) (sy_index s) (sy_subs s)).

Inductive es_step : system -> system -> Prop :=
  (** [f.logs <- matchedLogs], [f.headers <- header]: read by the subscriber *)
  | loop_write s i rest : sy_loop s = Some (i :: rest) -> sy_subs s !! i = Some Receiving ->
      es_step s (mkSystem (Some rest) (sy_index s) (<[i := Notifying]> (sy_subs s)))
  (** the same, read and dropped by [Unsubscribe] *)
  | loop_drained s i rest : sy_loop s = Some (i :: rest) -> sy_subs s !! i = Some Uninstalling ->
      es_step s (mkSystem (Some rest) (sy_index s) (sy_subs s))
  (** the handlers return *)
  | loop_next s : sy_loop s = Some [] -> es_step s (mkSystem None (sy_index s) (sy_subs s))
  (** [case f := <-es.install] *)
  | loop_install s i : sy_loop s = None -> sy_subs s !! i = Some Installing ->
      es_step s (mkSystem None ({[i]} ∪ sy_index s) (<[i := Starting]> (sy_subs s)))
  (** [case f := <-es.uninstall] *)
  | loop_uninstall s i : sy_loop s = None -> sy_subs s !! i = Some Uninstalling ->
      es_step s (mkSystem None (sy_index s ∖ {[i]}) (<[i := AwaitErr]> (sy_subs s)))
  (** a client subscribes *)
  | sub_subscribe s i : sy_subs s !! i = Some NotSubscribed -> es_step s (with_sub s i Installing)
  | sub_started s i : sy_subs s !! i = Some Starting -> es_step s (with_sub s i Receiving)
  | sub_notified s i : sy_subs s !! i = Some Notifying -> es_step s (with_sub s i Receiving)
  (** [case <-rpcSub.Err()]: the client unsubscribes or goes away *)
  | sub_unsubscribe s i : sy_subs s !! i = Some Receiving -> es_step s (with_sub s i Uninstalling)
  (** the loop has closed [f.err] *)
  | sub_ended s i : sy_subs s !! i = Some AwaitErr -> es_step s (with_sub s i Ended).

Definition any_step (s s' : system) : Prop := chain_step s s' \/ es_step s s'.

(** ** The index *)
Definition is_installed (x : sub_state) : bool :=
  match x with Starting | Receiving | Notifying | Uninstalling => true | _ => false end.

(** The index holds the subscribers that are installed, and the loop writes only to
    them. *)
Definition es_inv (s : system) : Prop :=
  (forall i, i ∈ sy_index s <-> exists x, sy_subs s !! i = Some x /\ is_installed x = true) /\
  Forall (fun i => i ∈ sy_index s) (default [] (sy_loop s)).

(** A subscriber changes its state, and is in the new index accordingly. *)
Lemma index_insert (ix ix' : gset nat) (subs : list sub_state) i x y : subs !! i = Some x ->
  (forall j, j ∈ ix <-> exists z, subs !! j = Some z /\ is_installed z = true) ->
  (forall j, j <> i -> j ∈ ix' <-> j ∈ ix) -> (i ∈ ix' <-> is_installed y = true) ->
  forall j, j ∈ ix' <-> exists z, <[i := y]> subs !! j = Some z /\ is_installed z = true.
Proof.
  intros Hi Hix Hj Hy j. destruct (decide (j = i)) as [->|Hne].
  - rewrite list_lookup_insert_eq by (by eapply lookup_lt_Some). rewrite Hy. naive_solver.
  - rewrite Hj, Hix by done. by rewrite list_lookup_insert_ne by done.
Qed.

Lemma index_of s i x : es_inv s -> sy_subs s !! i = Some x -> i ∈ sy_index s <-> is_installed x = true.
Proof. intros [Hi _] Hx. rewrite Hi. naive_solver. Qed.

Lemma with_sub_inv s i x y : es_inv s -> sy_subs s !! i = Some x -> is_installed x = is_installed y ->
  es_inv (with_sub s i y).
Proof.
  intros Hs Hx Hy. pose proof (index_of s i x Hs Hx) as Hix. destruct Hs as [Hi Ht]. split; [|done].
  apply (index_insert (sy_index s) _ _ _ x); try done. by rewrite Hix, Hy.
Qed.

Lemma es_step_inv s s' : es_inv s -> es_step s s' -> es_inv s'.
Proof.
  intros Hs Hst. pose proof Hs as [Hi Ht].
  destruct Hst as [s i rest Hl Hx|s i rest Hl Hx|s Hl|s i Hl Hx|s i Hl Hx|s i Hx|s i Hx|s i Hx|s i Hx|s i Hx];
    try (by apply (with_sub_inv s i _ _ Hs Hx)).
  - rewrite Hl in Ht. cbn in Ht. apply Forall_cons in Ht as [? Ht]. split; [|done].
    by apply (with_sub_inv s i Receiving Notifying Hs Hx).
  - rewrite Hl in Ht. cbn in Ht. apply Forall_cons in Ht as [? Ht]. by split.
  - by split.
  - split; [|by apply Forall_nil]. apply (index_insert (sy_index s) _ _ _ Installing); try done; set_solver.
  - split; [|by apply Forall_nil]. apply (index_insert (sy_index s) _ _ _ Uninstalling); try done; set_solver.
Qed.

Lemma es_start_inv n : es_inv (es_start n).
Proof.
  split; [|by apply Forall_nil]. intros i. split; [set_solver|]. intros (x & [-> _]%lookup_replicate & Hx). done.
Qed.

Lemma es_reach_inv n s : rtc any_step (es_start n) s -> es_inv s.
Proof.
  intros Hr. pose proof (es_start_inv n) as H0. induction Hr as [|s0 s1 s2 [He|Hs] _ IH]; [done| |by eauto using es_step_inv].
  apply IH. destruct He as [s targets Hl Ht]. destruct H0 as [Hi _]. by split.
Qed.

(** ** No deadlock *)
Definition sub_weight (x : sub_state) : nat :=
  match x with
  | NotSubscribed => 6 | Installing => 5 | Starting => 4 | Notifying => 4 | Receiving => 3
  | Uninstalling => 2 | AwaitErr => 1 | Ended => 0
  end.

Definition es_weight (s : system) : nat :=
  (match sy_loop s with None => 0 | Some l => 1 + 2 * length l end + sum_list_with sub_weight (sy_subs s))%nat.

Lemma es_step_weight s s' : es_step s s' -> (es_weight s' < es_weight s)%nat.
Proof.
  destruct 1 as [s i rest Hl Hx|s i rest Hl Hx|s Hl|s i Hl Hx|s i Hl Hx|s i Hx|s i Hx|s i Hx|s i Hx|s i Hx];
    unfold es_weight; cbn [sy_loop sy_subs with_sub]; rewrite ?Hl; cbn [length];
    try (match goal with |- context [<[_ := ?y]> _] =>
      pose proof (sum_list_insert sub_weight i y _ _ Hx) as E; cbn [sub_weight] in E end); lia.
Qed.

(** A state in which nobody waits. *)
Definition at_rest (x : sub_state) : bool :=
  match x with NotSubscribed | Receiving | Ended => true | _ => false end.

Definition quiet (s : system) : Prop := sy_loop s = None /\ Forall (fun x => at_rest x = true) (sy_subs s).

Lemma loop_progress s : es_inv s -> sy_loop s = None \/ exists s', es_step s s'.
Proof.
  intros [Hi Ht]. destruct (sy_loop s) as [[|i rest]|] eqn:El; [right; eexists; by apply loop_next| |by left].
  right. cbn in Ht. apply Forall_cons in Ht as [Hin _]. apply Hi in Hin as (x & Hx & Hin).
  destruct x; try done; eexists;
    [by eapply sub_started|by eapply loop_write|by eapply sub_notified|by eapply loop_drained].
Qed.

Lemma quiet_progress s : es_inv s -> quiet s \/ exists s', es_step s s'.
Proof.
  intros Hs. destruct (loop_progress s Hs) as [Hl|]; [|by right].
  destruct (decide (Forall (fun x => at_rest x = true) (sy_subs s))) as [|Hn]; [by left|right].
  apply not_Forall_Exists in Hn; [|intros x; apply _]. apply Exists_exists in Hn as (x & [i Hx]%list_elem_of_lookup & Hr).
  destruct x; try (by destruct Hr); eexists; [eapply loop_install|eapply sub_started|eapply sub_notified
    |eapply loop_uninstall|eapply sub_ended]; done.
Qed.

(** C20: The event loop and its subscribers never wait for each other for ever.
    Whatever events, subscriptions and unsubscriptions have happened: the loop writes
    only to subscribers that are still installed; under every schedule it gets back
    to its select, also when the subscribers it writes to are leaving; and when no
    more events arrive, every subscription and unsubscription under way completes. *)
Theorem event_loop_live n s : rtc any_step (es_start n) s ->
  (forall i, i ∈ default [] (sy_loop s) -> exists x, sy_subs s !! i = Some x /\ is_installed x = true) /\
  inevitable es_step (fun s => sy_loop s = None) s /\ inevitable es_step quiet s.
Proof.
  intros Hs%es_reach_inv.
  assert (Hstep : forall s s', es_inv s -> es_step s s' -> es_inv s' /\ (es_weight s' < es_weight s)%nat)
    by (intros; split; [by eapply es_step_inv|by apply es_step_weight]).
  split; [|split].
  - intros i Hin. destruct Hs as [Hi Ht]. rewrite Forall_forall in Ht. by apply Hi, Ht.
  - by apply (inevitable_measure _ _ es_inv es_weight Hstep loop_progress).
  - by apply (inevitable_measure _ _ es_inv es_weight Hstep quiet_progress).
Qed.

(** ** Witness: an event for a subscriber that is leaving *)
Definition ex_leaving : system := mkSystem (Some [0%nat]) {[0%nat]} [Uninstalling].

Lemma ex_leaving_reachable : rtc any_step (es_start 1) ex_leaving.
Proof.
  eapply rtc_l; [right; by apply (sub_subscribe _ 0)|].
  eapply rtc_l; [right; by apply (loop_install _ 0)|].
  eapply rtc_l; [right; by apply (sub_started _ 0)|].
  eapply rtc_l; [right; by apply (sub_unsubscribe _ 0)|].
  eapply rtc_l; [left; apply (chain_event _ [0%nat]); [done|constructor; [|constructor]; cbn; set_solver]|].
  unfold ex_leaving. cbn. rewrite union_empty_r_L. constructor.
Qed.

Lemma event_loop_live_witness : inevitable es_step (fun s => sy_loop s = None) ex_leaving.
Proof. apply (event_loop_live 1 ex_leaving ex_leaving_reachable). Defined.
