(* ===== verification/FilterApi.v ===== *)
(** * The subscription API (src/rpc/eth/filters, src/filters/subscribe.go)

    eth_subscribe for new heads and logs, the goroutine that forwards what the event
    system sends to the client's notifier, and the instrumented version.  A method
    returns a pointer and an error, as in Go, and the goroutines it starts. *)
From S2P Require Import Prelude GoLib Model Gas FeeHistory Sql Storage Psql Extern BlockModels EthViews StoreBlock IndexBackend Source Archive EthApi Filters ApiMetrics.

(** ** src/filters/subscribe.go *)
(** The subscription of the event system to the chain events of the indexer; the
    channel is shared with the indexer, which sends to it. *)
Record Subscribe (Ch : Type) := mkSubscribe {
  sb_errClosed : bool;
  sb_once : bool;
  sb_chainCh : option Ch;
}.
Arguments mkSubscribe {Ch} _ _ _.
Arguments sb_errClosed {Ch} _.
Arguments sb_once {Ch} _.
Arguments sb_chainCh {Ch} _.

Definition NewSubscribeBackend {Ch} : Subscribe Ch := mkSubscribe false false None.

(** [close(s.err)] inside [errOnce.Do]; closing a closed channel would panic. *)
Definition Unsubscribe {Ch} (s : Subscribe Ch) : result (Subscribe Ch) :=
  if sb_once s then Ok s
  else if sb_errClosed s then Err ErrPanic
  else Ok (mkSubscribe true true (sb_chainCh s)).

Definition SubscribeChainEvent {Ch} (ch : Ch) (s : Subscribe Ch) : Subscribe Ch :=
  mkSubscribe (sb_errClosed s) (sb_once s) (Some ch).

Definition ChainChan {Ch} (s : Subscribe Ch) : option Ch := sb_chainCh s.

(** ** src/rpc/eth/filters/api.go *)
(** go-ethereum's [rpc.Subscription]: [rs_chan] tells whether it has an error channel,
    which is closed when the client unsubscribes; the zero value has none. *)
Record Subscription := mkRpcSubscription {
  rs_ID : string;
  rs_chan : bool;
}.

Definition ErrNotificationsUnsupported : error := ErrNew "notifications not supported".

(** What a forwarding goroutine receives: a message of the event system or the end of
    the client's subscription. *)
Inductive feed (X : Type) :=
  | FMsg (x : X)
  | FUnsub.
Arguments FMsg {X} _.
Arguments FUnsub {X}.

Section FilterApi.
Context `{O : OasisLib} `{R : EthRpc}.

(** A goroutine started by a method: it forwards for the RPC subscription what the
    event system sends for the subscription [f]. *)
Inductive goroutine :=
  | ForwardHeads (rpcID : string) (f : subscription)
  | ForwardLogs (rpcID : string) (f : subscription).

(** The loop of [NewHeads]: the notifications sent, and whether the goroutine has
    unsubscribed and returned. *)
Fixpoint forward_heads (evs : list (feed EthHeader)) : list EthHeader * bool :=
  match evs with
  | [] => ([], false)
  | FMsg h :: evs' => let '(out, d) := forward_heads evs' in (h :: out, d)
  | FUnsub :: _ => ([], true)
  end.

(** The loop of [Logs]: every log is a notification of its own. *)
Fixpoint forward_logs (evs : list (feed (list EthLog))) : list EthLog * bool :=
  match evs with
  | [] => ([], false)
  | FMsg logs :: evs' => let '(out, d) := forward_logs evs' in (logs ++ out, d)
  | FUnsub :: _ => ([], true)
  end.

(** [notifier] is the identifier the connection's notifier gives to the subscription,
    [None] when the connection has no notifications; [id] that of the event system. *)
Definition api_NewHeads (notifier : option string) (id : string)
    : (option Subscription * option error) * list goroutine :=
  match notifier with
  | None => ((Some (mkRpcSubscription "" false), Some ErrNotificationsUnsupported), [])
  | Some rpcID => ((Some (mkRpcSubscription rpcID true), None), [ForwardHeads rpcID (SubscribeNewHeads id)])
  end.

Definition api_Logs (notifier : option string) (id : string) (crit : FilterCriteria)
    : (option Subscription * option error) * list goroutine :=
  match notifier with
  | None => ((Some (mkRpcSubscription "" false), Some ErrNotificationsUnsupported), [])
  | Some rpcID =>
      match SubscribeLogs id crit with
      | Err e => ((None, Some e), [])
      | Ok f => ((Some (mkRpcSubscription rpcID true), None), [ForwardLogs rpcID f])
      end
  end.

(** ** src/rpc/eth/filters/metrics.go *)
(** The goroutine that waits for the end of a subscription. *)
Record waiter := mkWaiter {
  wt_method : string;
  wt_sub : option Subscription;
}.

Record SubMetrics := mkSubMetrics {
  sm_metrics : Metrics;
  sm_inflightSubs : gmap string Z;
  sm_durations : gmap string Z;
  sm_waiters : list waiter;
}.

Definition subscribe_metrics (method : string) (res : (option Subscription * option error) * list goroutine)
    (m : SubMetrics) : (option Subscription * option error) * list goroutine * SubMetrics :=
  let mt := InstrumentCaller method (sm_metrics m) in
  let infl := add method 1 (sm_inflightSubs m) in
  (res, mkSubMetrics (InstrumentCaller_done method (res.1.2) mt) infl (sm_durations m)
          (sm_waiters m ++ [mkWaiter method (res.1.1)])).

Definition wrapper_Logs (notifier : option string) (id : string) (crit : FilterCriteria) :=
  subscribe_metrics "eth_logs" (api_Logs notifier id crit).
Definition wrapper_NewHeads (notifier : option string) (id : string) :=
  subscribe_metrics "eth_newHeads" (api_NewHeads notifier id).

(** A waiter runs until it ends: [closed] are the RPC subscriptions whose client has
    unsubscribed.  [None]: it blocks.  Calling [Err] on a nil subscription panics. *)
Definition run_waiter (closed : list string) (w : waiter) (m : SubMetrics) : result (option SubMetrics) :=
  match wt_sub w with
  | None => Err ErrPanic
  | Some s =>
      if rs_chan s && bool_decide (rs_ID s ∈ closed)
      then Ok (Some (mkSubMetrics (sm_metrics m) (add (wt_method w) (-1) (sm_inflightSubs m))
             (add (wt_method w) 1 (sm_durations m)) (sm_waiters m)))
      else Ok None
  end.
End FilterApi.

(** ** What the client receives *)
Section Client.
Context `{O : OasisLib} `{R : EthRpc}.

Lemma forward_logs_msgs (msgs : list (list EthLog)) rest :
  forward_logs ((FMsg <$> msgs) ++ rest) = (concat msgs ++ (forward_logs rest).1, (forward_logs rest).2).
Proof.
  induction msgs as [|l msgs IH]; cbn [fmap list_fmap app]; [by destruct (forward_logs rest)|].
  cbn [forward_logs concat]. rewrite IH. cbn. by rewrite app_assoc.
Qed.

Lemma forward_heads_msgs (msgs : list EthHeader) rest :
  forward_heads ((FMsg <$> msgs) ++ rest) = (msgs ++ (forward_heads rest).1, (forward_heads rest).2).
Proof.
  induction msgs as [|h msgs IH]; cbn [fmap list_fmap app]; [by destruct (forward_heads rest)|].
  cbn [forward_heads]. by rewrite IH.
Qed.

Lemma SubscribeLogs_sub id crit f : SubscribeLogs id crit = Ok f ->
  sub_id f = id /\ sub_typ f = LogsSubscription /\ sub_logsCrit f = crit.
Proof. unfold SubscribeLogs. repeat case_match; naive_solver. Qed.

Lemma log_notifications rpcID id crit res f es evs later :
  api_Logs (Some rpcID) id crit = (res, [ForwardLogs rpcID f]) ->
  es_logs es !! id = None -> es_logsOut es !! id = None ->
  (forall ev, EvChain ev ∈ evs -> is_Ok (DB2EthHeader (ce_Block ev)) = true) ->
  (forall g, EvInstall g ∈ evs -> same_sub f g = true -> g = f) ->
  res = (Some (mkRpcSubscription rpcID true), None) /\ sub_logsCrit f = crit /\
  exists es', eventLoop es (EvInstall f :: evs) = Ok es' /\
    forward_logs ((FMsg <$> default [] (es_logsOut es' !! id)) ++ FUnsub :: later) =
      (concat (log_stream f true evs), true).
Proof.
  intros Hl Hn Ho Hev Hin. unfold api_Logs in Hl.
  destruct (SubscribeLogs id crit) as [f'|e] eqn:Es; [|done]. injection Hl as <- <-.
  destruct (SubscribeLogs_sub _ _ _ Es) as (Hid & Ht & Hc). split; [done|]. split; [done|].
  destruct (subscription_stream_run f' (EvInstall f' :: evs) false es) as (es' & E & Hs & _).
  - unfold installed. by rewrite Ht, Hid.
  - intros ev [|]%elem_of_cons; [done|]. auto.
  - intros g [[= ->]|]%elem_of_cons; auto.
  - exists es'. split; [exact E|]. specialize (Hs Ht). rewrite Hid, Ho in Hs. cbn [from_option] in Hs.
    rewrite Hs, forward_logs_msgs. cbn [log_stream next_on app forward_logs fst snd].
    rewrite app_nil_r. unfold same_sub. by rewrite bool_decide_eq_true_2.
Qed.

(** C26: End to end: a client that subscribes to logs over a connection with
    notifications gets, one notification per log and in order, exactly the logs of
    the indexed blocks that its criteria select, of those whose events the loop
    receives from the installation of its subscription until it unsubscribes, and
    nothing afterwards.  (The client leaves after the messages sent to it so far.) *)
Theorem client_log_notifications rpcID id crit res f es evs later :
  api_Logs (Some rpcID) id crit = (res, [ForwardLogs rpcID f]) ->
  es_logs es !! id = None -> es_logsOut es !! id = None ->
  (forall ev, EvChain ev ∈ evs -> is_Ok (DB2EthHeader (ce_Block ev)) = true) ->
  (forall g, EvInstall g ∈ evs -> same_sub f g = true -> g = f) ->
  res = (Some (mkRpcSubscription rpcID true), None) /\ sub_logsCrit f = crit /\
  exists es', eventLoop es (EvInstall f :: evs) = Ok es' /\
    forward_logs ((FMsg <$> default [] (es_logsOut es' !! id)) ++ FUnsub :: later) =
      (concat (log_stream f true evs), true).
Proof. apply log_notifications. Qed.

(** C39: With monitoring enabled, a log subscription with a refused block range brings
    the process down: the inner API returns no subscription, and the goroutine of the
    wrapper dereferences it. *)
Theorem wrapper_Logs_invalid_range_panics rpcID id crit e m :
  SubscribeLogs id crit = Err e ->
  exists w, sm_waiters (wrapper_Logs (Some rpcID) id crit m).2 = sm_waiters m ++ [w] /\
    (wrapper_Logs (Some rpcID) id crit m).1 = ((None, Some e), []) /\
    forall closed m', run_waiter closed w m' = Err ErrPanic.
Proof.
  intros E. exists (mkWaiter "eth_logs" None). unfold wrapper_Logs, subscribe_metrics, api_Logs. by rewrite E.
Qed.

(** The gauge of subscriptions counts the waiters that have not ended. *)
Lemma wrapper_inflight k res m :
  value (sm_inflightSubs (subscribe_metrics k res m).2) k = value (sm_inflightSubs m) k + 1.
Proof. cbn. rewrite value_add. by rewrite bool_decide_eq_true_2. Qed.

(** A subscription over a connection without notifications stays counted for ever:
    its waiter blocks on the nil channel of the zero subscription. *)
Theorem unsupported_subscription_stays_counted id m :
  exists w, sm_waiters (wrapper_NewHeads None id m).2 = sm_waiters m ++ [w] /\
    value (sm_inflightSubs (wrapper_NewHeads None id m).2) "eth_newHeads" =
      value (sm_inflightSubs m) "eth_newHeads" + 1 /\
    forall closed m', run_waiter closed w m' = Ok None.
Proof.
  exists (mkWaiter "eth_newHeads" (Some (mkRpcSubscription "" false))). split; [done|].
  split; [|done]. unfold wrapper_NewHeads. apply wrapper_inflight.
Qed.
End Client.

(** ** Witnesses *)
Definition ex_crit : FilterCriteria := sub_logsCrit ex_sub.
Definition ex_client_events : list loop_event := [EvChain ex_event; EvUninstall ex_sub; EvChain ex_event].

Lemma client_log_notifications_witness : exists es',
  eventLoop NewEventSystem (EvInstall ex_sub :: ex_client_events) = Ok es' /\
  forward_logs ((FMsg <$> default [] (es_logsOut es' !! sub_id ex_sub)) ++ FUnsub :: []) =
    (concat (log_stream ex_sub true ex_client_events), true).
Proof.
  destruct (client_log_notifications "rpc" (sub_id ex_sub) ex_crit
    (Some (mkRpcSubscription "rpc" true), None) ex_sub NewEventSystem ex_client_events []) as (_ & _ & H);
    [reflexivity..| | |exact H].
  - intros ev Hev. repeat (apply elem_of_cons in Hev as [Hev|Hev]; [try discriminate Hev; injection Hev as ->; reflexivity|]).
    by apply not_elem_of_nil in Hev.
  - intros g Hg. repeat (apply elem_of_cons in Hg as [Hg|Hg]; [discriminate Hg|]). by apply not_elem_of_nil in Hg.
Defined.

(** From block 9 to block 3. *)
Lemma wrapper_Logs_invalid_range_panics_witness : exists w,
  sm_waiters (wrapper_Logs (Some "rpc"%string) "id" (mkFilterCriteria (H:=ex_EthLib) None (Some 9) (Some 3) [] [])
    (mkSubMetrics noMetrics ∅ ∅ [])).2 = [w] /\
  run_waiter [] w (mkSubMetrics noMetrics ∅ ∅ []) = Err ErrPanic.
Proof.
  destruct (wrapper_Logs_invalid_range_panics "rpc" "id" (mkFilterCriteria (H:=ex_EthLib) None (Some 9) (Some 3) [] [])
    (ErrNew "invalid from and to block combination: from > to") (mkSubMetrics noMetrics ∅ ∅ [])) as (w & H1 & _ & H2);
    [reflexivity|].
  exists w. split; [exact H1|apply H2].
Defined.
