(* ===== verification/PushPull.v ===== *)
(** * Subscriptions and queries agree

    The indexer hands what it has stored to two kinds of readers: the event
    system, which pushes logs to subscribers (Filters.v, FilterApi.v), and the
    eth_ API, which reads the tables (EthApi.v).  This file follows a run of
    indexed blocks to both. *)
From S2P Require Import Prelude GoLib Model Gas FeeHistory Sql Storage Psql Extern BlockModels EthViews StoreBlock IndexBackend Cache Source Archive EthApi EndToEnd Filters FilterApi.

(** ** A run of indexed blocks *)
Section IndexRun.
Context `{O : OasisLib} `{!Backend B}.

(** The blocks passed to [Index] one after the other; the results are what
    [Index] sends to the event system and to the block watchers. *)
Definition index_blocks (blocks : list index_args) : M B (list (ChainEvent * BlockData)) :=
  mfold (fun outs a => let '(header, items, cp, rt) := a in
    out ← bk_Index header items cp rt; mret (outs ++ [out])) [] blocks.

(** Reference: the rows of the blocks and the tables that result. *)
Definition put_arg (a : index_args) (T : Tables) : result (blockModels * Tables) :=
  let '(header, items, cp, rt) := a in put_block header items cp T.

Definition sent (a : index_args) (m : blockModels) : ChainEvent * BlockData :=
  (mkChainEvent _ (bm_blk m) (blockHash a.1.1.1) (bm_logs m), models_bd m).

Inductive put_args : list index_args -> Tables -> list blockModels -> Tables -> Prop :=
  | put_args_nil T : put_args [] T [] T
  | put_args_cons a blocks T m T1 ms T2 : put_arg a T = Ok (m, T1) -> put_args blocks T1 ms T2 ->
      put_args (a :: blocks) T (m :: ms) T2.

(** The rounds follow each other, starting after the last indexed one. *)
Definition in_order (T : Tables) (blocks : list index_args) : Prop :=
  StronglySorted Z.lt (map arg_round blocks) /\ Forall (fun a => next_round T <= arg_round a) blocks.

Lemma index_blocks_run `{!IndexerBackend B} blocks : forall acc b outs b', iv_ok b -> in_order (iv_view b) blocks ->
  mfold (fun outs a => let '(header, items, cp, rt) := a in
    out ← bk_Index header items cp rt; mret (outs ++ [out])) acc blocks b = (Ok outs, b') ->
  iv_ok b' /\ exists ms, put_args blocks (iv_view b) ms (iv_view b') /\ outs = acc ++ zip_with sent blocks ms.
Proof.
  induction blocks as [|a blocks IH]; intros acc b outs b' Hok [Hs Hn]; cbn [mfold].
  { intros [= <- <-]. split; [done|]. exists []. rewrite app_nil_r. split; [constructor|done]. }
  destruct a as [[[header items] cp] rt]. cbn [map] in Hs. apply StronglySorted_inv in Hs as [Hs Hlt].
  apply Forall_cons in Hn as [Hn Hns]. unfold mbind at 1, M_bind at 1. unfold mbind at 1, M_bind at 1.
  destruct (iv_Index header items cp rt b Hok Hn) as (r & b1 & -> & Hok1 & Hr).
  destruct (put_block header items cp (iv_view b)) as [[m T]|e] eqn:Hp; [destruct Hr as [Hv ->]|by destruct Hr as [-> _]].
  cbn [mret M_ret]. intros Hrun. subst T. apply IH in Hrun as (Hok' & ms & Hms & ->); [|done|].
  - split; [done|]. exists (m :: ms). split; [by econstructor|]. by rewrite <- app_assoc.
  - split; [done|]. apply put_block_last in Hp as [Hl _]. unfold next_round. rewrite Hl.
    rewrite Forall_map in Hlt. eapply Forall_impl; [exact Hlt|]. unfold arg_round. cbn. intros a'. lia.
Qed.
End IndexRun.

(** ** The logs of a run *)
Section RunLogs.
Context `{O : OasisLib} `{!EthLibLaws H}.

(** The sizes that the row numbers of a block can count. *)
Definition countable (a : index_args) : Prop :=
  forall st, decode a.1.1.1 a.1.1.2 = Ok st ->
    Z.of_nat (length (ds_logs st)) < 2 ^ 64 /\ Z.of_nat (length (ds_ethTxs st)) < 2 ^ 32.

Definition run_logs (ms : list blockModels) : list Log := concat (map bm_logs ms).

(** The order of the logs, strictly. *)
Definition log_lt (a b : Log) : Prop := log_le a b /\ ~ log_le b a.

Lemma sorted_strict l : StronglySorted log_le l -> NoDup l ->
  (forall a b, a ∈ l -> b ∈ l -> log_le a b -> log_le b a -> a = b) -> StronglySorted log_lt l.
Proof.
  induction 1 as [|x l Hs IH Hx]; intros Hnd Hanti; constructor; apply NoDup_cons in Hnd as [Hnin Hnd].
  - apply IH; [done|]. intros a b Ha Hb. apply Hanti; by right.
  - apply Forall_forall. intros y Hy. rewrite Forall_forall in Hx. split; [by apply Hx|]. intros Hyx.
    apply Hnin. assert (x = y) as -> by (apply Hanti; [by left|by right|by apply Hx|done]). done.
Qed.

Lemma strict_facts l : StronglySorted log_lt l ->
  StronglySorted log_le l /\ NoDup l /\ (forall a b, a ∈ l -> b ∈ l -> log_le a b -> log_le b a -> a = b).
Proof.
  induction 1 as [|x l Hs (H1 & H2 & H3) Hx]; [repeat split; try constructor; set_solver|].
  rewrite Forall_forall in Hx. split; [|split].
  - constructor; [done|]. apply Forall_forall. intros y Hy. by apply Hx.
  - constructor; [|done]. intros Hin. by destruct (Hx x Hin).
  - intros a b [->|Ha]%elem_of_cons [->|Hb]%elem_of_cons Hab Hba; [done| | |by apply H3].
    + by destruct (Hx b Hb).
    + by destruct (Hx a Ha).
Qed.

Lemma log_lt_round a b : log_Round a < log_Round b -> log_lt a b.
Proof.
  intros Hlt. unfold log_lt, log_le, log_key. cbn [lexle].
  rewrite (proj2 (Z.ltb_lt _ _) Hlt), (proj2 (Z.ltb_ge (log_Round b) (log_Round a))), (proj2 (Z.eqb_neq (log_Round b) (log_Round a))) by lia.
  cbn. split; [done|]. by intros [].
Qed.

Lemma block_logs_strict header items cp m T T' : countable (header, items, cp, None) ->
  put_block header items cp T = Ok (m, T') ->
  StronglySorted log_lt (bm_logs m) /\ Forall (fun l => log_Round l = oh_Round header) (bm_logs m).
Proof.
  intros Hc (m' & Hm & (T1 & _ & [= -> _])%result_bind_ok)%result_bind_ok.
  pose proof Hm as (st & Hd & _)%result_bind_ok. destruct (Hc st Hd) as [H1 H2].
  rewrite (toModels_logs _ _ _ _ _ Hm Hd).
  destruct (block_logs_sorted _ _ _ Hd H1 H2) as (Hs & Hnd & Ha & Hr). split; [by apply sorted_strict|done].
Qed.

Lemma StronglySorted_app {X} (R : X -> X -> Prop) l1 l2 : StronglySorted R l1 -> StronglySorted R l2 ->
  (forall a b, a ∈ l1 -> b ∈ l2 -> R a b) -> StronglySorted R (l1 ++ l2).
Proof.
  intros H1 H2 H12. induction H1 as [|x l1 H1 IH Hx]; cbn; [done|]. constructor.
  - apply IH. intros a b Ha. apply H12. by right.
  - apply Forall_app. split; [done|]. apply Forall_forall. intros y Hy. apply H12; [by left|done].
Qed.

Lemma run_logs_strict blocks T ms T' : put_args blocks T ms T' -> Forall countable blocks ->
  StronglySorted Z.lt (map arg_round blocks) ->
  StronglySorted log_lt (run_logs ms) /\ (forall l, l ∈ run_logs ms -> exists a, a ∈ blocks /\ log_Round l = arg_round a).
Proof.
  induction 1 as [T|[[[header items] cp] rt] blocks T m T1 ms T2 Ha Hrun IH]; intros Hc Hs.
  { split; [constructor|]. by intros l []%not_elem_of_nil. }
  apply Forall_cons in Hc as [Hc Hcs]. cbn [map] in Hs. apply StronglySorted_inv in Hs as [Hs Hlt].
  destruct (IH Hcs Hs) as [Hst Hr]. destruct (block_logs_strict header items cp m T T1) as [Hst1 Hr1]; [exact Hc|exact Ha|].
  rewrite Forall_forall in Hr1. change (run_logs (m :: ms)) with (bm_logs m ++ run_logs ms). split.
  - apply StronglySorted_app; [done|done|]. intros x y Hx (a & Hin & Hy)%Hr. apply log_lt_round.
    rewrite (Hr1 x Hx), Hy. rewrite Forall_forall in Hlt. apply Hlt. by apply list_elem_of_fmap_2.
  - intros l [Hl|Hl]%elem_of_app.
    + exists (header, items, cp, rt). split; [by left|]. by apply Hr1.
    + destruct (Hr l Hl) as (a & Hin & E). exists a. split; [by right|done].
Qed.

(** Storing the run adds its logs, and no others. *)
Lemma run_logs_stored blocks T ms T' : put_args blocks T ms T' ->
  forall x, (exists k, t_logs T' !! k = Some x) <-> x ∈ run_logs ms \/ exists k, t_logs T !! k = Some x.
Proof.
  induction 1 as [T|[[[header items] cp] rt] blocks T m T1 ms T2 Ha Hrun IH]; intros x.
  - unfold run_logs. cbn. rewrite elem_of_nil. tauto.
  - apply result_bind_ok in Ha as (m' & Hm & (T3 & HT & [= -> ->])%result_bind_ok).
    rewrite IH, (put_models_logs _ _ _ HT). change (run_logs (m :: ms)) with (bm_logs m ++ run_logs ms).
    rewrite elem_of_app. tauto.
Qed.
End RunLogs.

(** ** What is pushed *)
Section Pushed.
Context `{O : OasisLib} `{!EthLibLaws H} `{R : EthRpc}.

Definition chain_events (evs : list loop_event) : list ChainEvent :=
  omap (fun e => match e with EvChain ev => Some ev | _ => None end) evs.

(** A subscription that stays installed. *)
Lemma log_stream_on f evs : (forall g, EvUninstall g ∈ evs -> same_sub f g = false) ->
  concat (log_stream f true evs) =
  filter (log_wanted (sub_logsCrit f)) (DB2EthLogs (concat (map ce_Logs (chain_events evs)))).
Proof.
  induction evs as [|e evs IH]; intros Hu; [done|]. cbn [log_stream].
  assert (Hon : next_on f true e = true).
  { destruct e as [ev|g|g]; cbn [next_on]; [done|by rewrite orb_true_r|]. by rewrite (Hu g) by (by left). }
  rewrite Hon, concat_app, IH by (intros g Hg; apply Hu; by right).
  destruct e as [ev|g|g]; [|done|done]. unfold chain_events. cbn [omap list_omap map concat]. fold (chain_events evs).
  unfold DB2EthLogs. rewrite map_app, filter_app. f_equal. unfold wanted_logs, DB2EthLogs.
  by destruct (filter (log_wanted (sub_logsCrit f)) (map db2EthLog (ce_Logs ev))); cbn; rewrite ?app_nil_r.
Qed.

Lemma put_block_header header items cp T m T' : put_block header items cp T = Ok (m, T') ->
  is_Ok (DB2EthHeader (bm_blk m)) = true.
Proof.
  intros (m' & Hm & (T1 & _ & [= -> _])%result_bind_ok)%result_bind_ok.
  apply result_bind_ok in Hm as (st & _ & ([[[blk txs] rcs] dbl] & Hb & [= <-])%result_bind_ok).
  apply rpc_header_faithful in Hb as (h & Hh & _). cbn. by rewrite Hh.
Qed.

Lemma run_headers blocks T ms T' : put_args blocks T ms T' ->
  Forall (fun ev => is_Ok (DB2EthHeader (ce_Block ev)) = true) (fst <$> zip_with sent blocks ms).
Proof.
  induction 1 as [T|[[[header items] cp] rt] blocks T m T1 ms T2 Ha Hrun IH]; [constructor|].
  cbn. constructor; [by eapply put_block_header|done].
Qed.

Lemma run_event_logs blocks T ms T' : put_args blocks T ms T' ->
  concat (map ce_Logs (fst <$> zip_with sent blocks ms)) = run_logs ms.
Proof. induction 1 as [T|a blocks T m T1 ms T2 Ha Hrun IH]; [done|]. cbn. by rewrite IH. Qed.
End Pushed.

(** ** Pushed and pulled logs are the same *)
Section PushPull.
Context `{O : OasisLib} `{!EthLibLaws H} `{St : Storage D} `{!StorageLaws D} `{!NodeSource C} `{!EthClient A} `{R : EthRpc}.
Context `{!NodeSourceLaws C} `{!EthRpcLaws R}.

(** A filter for the rounds [first] to [last]. *)
Definition for_rounds (f : FilterCriteria) (first last : Z) : Prop :=
  fc_BlockHash f = None /\ fc_FromBlock f = Some first /\ fc_ToBlock f = Some last /\
  0 < first <= last /\ last < 2 ^ 63.

Lemma wanted_selected f first last l : for_rounds f first last -> first <= log_Round l <= last ->
  log_wanted f (db2EthLog l) <-> log_selected f (db2EthLog l).
Proof.
  intros (_ & Hf & Ht & Hr & Hl) Hb. unfold log_wanted. split; [by intros [_ ?]|]. intros Hs. split; [|done].
  assert (Hu : forall n, 0 <= n < 2 ^ 63 -> big_Uint64 n = n).
  { intros n Hn. unfold big_Uint64. rewrite Z.abs_eq by lia. rewrite u64_small; [done|]. u64_lia. }
  unfold log_in_range. rewrite Hf, Ht, !Hu by lia. cbn [db2EthLog el_BlockNumber]. lia.
Qed.

(** What eth_getLogs returns after a run, on tables that had no log of its rounds. *)
Lemma pulled_logs f first last (api : index_api (D:=D) (C:=C) (A:=A)) T blocks ms :
  for_rounds f first last -> st_up (api_db api) -> tables_wf (st_view (api_db api)) ->
  put_args blocks T ms (st_view (api_db api)) -> Forall countable blocks ->
  StronglySorted Z.lt (map arg_round blocks) -> Forall (fun a => first <= arg_round a <= last) blocks ->
  (forall k x, t_logs T !! k = Some x -> ~ first <= log_Round x <= last) ->
  over_limit (api_methodLimits api) first last = false ->
  exists api', api_GetLogs f api = (Ok (filter (log_wanted f) (DB2EthLogs (run_logs ms))), api').
Proof.
  intros Hfr Hup Hwf Hrun Hc Hs Hr Hfresh Hlim. pose proof Hfr as (Hh & Hf & Ht & Hfl & Hl63).
  destruct (filter_range f api Hh) as [Hrange _]. specialize (Hrange first last Hf Ht ltac:(lia) ltac:(lia)).
  assert (Hu : is_u64 first /\ is_u64 last) by (unfold is_u64, two64; lia). destruct Hu as [Hu1 Hu2].
  pose proof (GetLogs_rows f first last api api Hrange Hup Hwf Hu1 Hu2) as HG.
  assert (Hno : (last <? first) || match api_methodLimits api with
     | Some l => negb (GetLogsMaxRounds l =? 0) && (GetLogsMaxRounds l <? last - first) | None => false end = false).
  { rewrite (proj2 (Z.ltb_ge _ _)) by lia. cbn [orb]. unfold over_limit in Hlim.
    destruct (api_methodLimits api); [|done]. by rewrite u64_small in Hlim by u64_lia. }
  rewrite Hno in HG. destruct HG as (rows & api2 & E & _ & Hnd & Hsort & Hin).
  destruct (run_logs_strict _ _ _ _ Hrun Hc Hs) as [(Hs1 & Hnd1 & Hanti)%strict_facts Hround].
  assert (Hround' : forall l, l ∈ run_logs ms -> first <= log_Round l <= last).
  { intros l (a & Ha & ->)%Hround. rewrite Forall_forall in Hr. by apply Hr. }
  exists api2. rewrite E. do 2 f_equal. unfold DB2EthLogs.
  change (map db2EthLog (run_logs ms)) with (db2EthLog <$> run_logs ms). rewrite (filter_fmap db2EthLog). f_equal.
  apply (StronglySorted_unique_strong log_le).
  - intros a b (Ha1 & _ & Ha2)%Hin [_ Hb]%list_elem_of_filter. apply Hanti; [|done].
    apply (run_logs_stored _ _ _ _ Hrun) in Ha2 as [Ha2|[k Hk]]; [done|]. by apply Hfresh in Hk.
  - apply Sorted_StronglySorted; [|done]. intros a b c. apply lexle_trans.
  - by apply StronglySorted_filter.
  - apply NoDup_Permutation; [done|by apply NoDup_filter|]. intros x.
    rewrite Hin, list_elem_of_filter, (run_logs_stored _ _ _ _ Hrun). cbn. split.
    + intros (H1 & H2 & [H3|[k Hk]]); [|by apply Hfresh in Hk]. split; [by eapply wanted_selected|done].
    + intros [H1 H2]. specialize (Hround' x H2). rewrite wanted_selected in H1 by done. auto.
Qed.

(** ** The indexer and the event loop, over their channel

    The indexer puts the events of blocks on the channel of the event system, or
    drops them when it is full, and the event loop takes them when it gets to it.
    The events of the loop so far are kept in order. *)
Record pipe := mkPipe {
  pp_ib : indexBackend (D:=D);
  pp_trace : list loop_event;
}.

Inductive pipe_action :=
  | PIndex (a : index_args)
  | PReceive
  | PInstall (g : subscription)
  | PUninstall (g : subscription).

Definition with_chan (ib : indexBackend (D:=D)) (ch : chain_chan) : indexBackend :=
  mkIndexBackend (ib_storage ib) (ib_rtInfo ib) ch.

(** The loop receives nothing from an empty channel. *)
Definition pipe_step (p : pipe) (act : pipe_action) : result pipe :=
  match act with
  | PIndex (header, items, cp, rt) =>
      match indexBackend_Index header items cp rt (pp_ib p) with
      | (Ok _, ib') => Ok (mkPipe ib' (pp_trace p))
      | (Err e, _) => Err e
      end
  | PReceive =>
      match ib_chainCh (pp_ib p) with
      | Some (ev :: rest) => Ok (mkPipe (with_chan (pp_ib p) (Some rest)) (pp_trace p ++ [EvChain ev]))
      | _ => Ok p
      end
  | PInstall g => Ok (mkPipe (pp_ib p) (pp_trace p ++ [EvInstall g]))
  | PUninstall g => Ok (mkPipe (pp_ib p) (pp_trace p ++ [EvUninstall g]))
  end.

Definition pipe_run (p : pipe) (acts : list pipe_action) : result pipe := rfold pipe_step p acts.

(** The blocks that are indexed. *)
Definition indexed (acts : list pipe_action) : list index_args :=
  omap (fun act => match act with PIndex a => Some a | _ => None end) acts.

(** The channel has room whenever a block is indexed. *)
Definition has_room (p : pipe) (act : pipe_action) : bool :=
  match act, ib_chainCh (pp_ib p) with
  | PIndex _, Some buf => (length buf <? chainEvChanSize)%nat
  | _, _ => true
  end.

Fixpoint fits (p : pipe) (acts : list pipe_action) : bool :=
  match acts with
  | [] => true
  | act :: rest => has_room p act && match pipe_step p act with Ok p' => fits p' rest | Err _ => true end
  end.

(** What the loop has done in a run: the events it has received, with those left on
    the channel, are among the ones of the indexed blocks, in their order, and all
    of them when they always fit. *)
Definition pipe_effect (p p' : pipe) (acts : list pipe_action) (ms : list blockModels) (evs : list loop_event) : Prop :=
  pp_trace p' = pp_trace p ++ evs /\
  (forall g, EvInstall g ∈ evs -> PInstall g ∈ acts) /\ (forall g, EvUninstall g ∈ evs -> PUninstall g ∈ acts) /\
  forall buf, ib_chainCh (pp_ib p) = Some buf -> exists buf', ib_chainCh (pp_ib p') = Some buf' /\
    (chain_events evs ++ buf') `sublist_of` (buf ++ (fst <$> zip_with sent (indexed acts) ms)) /\
    (fits p acts = true -> chain_events evs ++ buf' = buf ++ (fst <$> zip_with sent (indexed acts) ms)).

Lemma pipe_index_effect p p1 p' a acts m ms evs : pp_trace p1 = pp_trace p -> pipe_step p (PIndex a) = Ok p1 ->
  ib_chainCh (pp_ib p1) = send_or_drop (fst (sent a m)) (ib_chainCh (pp_ib p)) ->
  pipe_effect p1 p' acts ms evs -> pipe_effect p p' (PIndex a :: acts) (m :: ms) evs.
Proof.
  intros Ht Hst Hch (Htr & Hin & Hun & Hb). rewrite Ht in Htr. split; [done|].
  split; [intros g Hg; right; by apply Hin|]. split; [intros g Hg; right; by apply Hun|].
  intros buf Hbuf. rewrite Hbuf in Hch. cbn [send_or_drop] in Hch. cbn [fits has_room]. rewrite Hst, Hbuf.
  change (fst <$> zip_with sent (indexed (PIndex a :: acts)) (m :: ms))
    with (fst (sent a m) :: (fst <$> zip_with sent (indexed acts) ms)).
  set (ev := fst (sent a m)) in *.
  destruct (Nat.ltb_spec (length buf) chainEvChanSize).
  - destruct (Hb _ Hch) as (buf' & E & Hs & Hf). exists buf'. split; [done|].
    rewrite <- app_assoc in Hs. cbn [app] in Hs. split; [exact Hs|]. intros Hfit. cbn [andb] in Hfit.
    specialize (Hf Hfit). by rewrite <- app_assoc in Hf.
  - destruct (Hb _ Hch) as (buf' & E & Hs & _). exists buf'. split; [done|]. split; [|done].
    etransitivity; [exact Hs|]. apply sublist_app; [done|]. by apply sublist_cons.
Qed.

Lemma pipe_run_spec acts : forall p p', pipe_run p acts = Ok p' -> ib_ok (pp_ib p) ->
  in_order (st_view (ib_storage (pp_ib p))) (indexed acts) ->
  ib_ok (pp_ib p') /\ exists ms evs,
    put_args (indexed acts) (st_view (ib_storage (pp_ib p))) ms (st_view (ib_storage (pp_ib p'))) /\
    pipe_effect p p' acts ms evs.
Proof.
  induction acts as [|act acts IH]; intros p p' Hrun Hok [Hs Hn].
  { injection Hrun as <-. split; [done|]. exists [], []. split; [constructor|]. split; [by rewrite app_nil_r|].
    split; [by intros ? []%not_elem_of_nil|]. split; [by intros ? []%not_elem_of_nil|]. intros buf Hb. exists buf.
    cbn. by rewrite app_nil_r. }
  unfold pipe_run in Hrun. cbn [rfold] in Hrun. apply result_bind_ok in Hrun as (p1 & Hst & Hrun).
  destruct act as [[[[header items] cp] rt]| |g|g].
  - pose proof Hst as Hst'. cbn [pipe_step] in Hst.
    destruct (indexBackend_Index header items cp rt (pp_ib p)) as [[out|e] ib'] eqn:E; [|done]. injection Hst as <-.
    change (indexed (PIndex (header, items, cp, rt) :: acts)) with ((header, items, cp, rt) :: indexed acts) in *. cbn [map] in Hs.
    apply StronglySorted_inv in Hs as [Hs Hlt]. apply Forall_cons in Hn as [Hn Hns].
    destruct (indexBackend_Index_puts header items cp rt (pp_ib p) Hok) as (r & ib1 & E1 & Hok1 & Hr).
    rewrite E in E1. injection E1 as <- <-. pose proof (indexBackend_Index_chan _ _ _ _ _ _ _ E) as Hch.
    destruct (put_block header items cp (st_view (ib_storage (pp_ib p)))) as [[m T]|e] eqn:Hp; [|by destruct Hr].
    destruct Hr as [<- [= ->]]. destruct (IH _ _ Hrun Hok1) as (Hok' & ms & evs & Hms & He).
    + split; [done|]. apply put_block_last in Hp as [Hl _]. unfold next_round. cbn [pp_ib]. rewrite Hl.
      rewrite Forall_map in Hlt. eapply Forall_impl; [exact Hlt|]. unfold arg_round. cbn. intros a'. lia.
    + split; [done|]. exists (m :: ms), evs. split; [by econstructor|]. 
      eapply pipe_index_effect; [|exact Hst'|exact Hch|exact He]. done.
  - cbn [pipe_step] in Hst. destruct (ib_chainCh (pp_ib p)) as [[|ev rest]|] eqn:Ech; injection Hst as <-.
    + destruct (IH _ _ Hrun Hok (conj Hs Hn)) as (Hok' & ms & evs & Hms & Ht & Hi & Hu & Hb). split; [done|].
      exists ms, evs. split; [done|]. split; [done|]. split; [intros; right; by apply Hi|]. split; [intros; right; by apply Hu|].
      cbn [fits pipe_step has_room]. rewrite Ech in *. exact Hb.
    + destruct (IH _ _ Hrun Hok (conj Hs Hn)) as (Hok' & ms & evs & Hms & Ht & Hi & Hu & Hb). split; [done|].
      exists ms, (EvChain ev :: evs). split; [done|]. cbn [pp_trace] in Ht. split; [by rewrite Ht, <- app_assoc|].
      split; [intros g [?|?]%elem_of_cons; [done|right; by apply Hi]|].
      split; [intros g [?|?]%elem_of_cons; [done|right; by apply Hu]|].
      cbn [fits pipe_step has_room]. rewrite Ech. intros buf [= <-]. destruct (Hb rest eq_refl) as (buf' & E & Hsub & Hf).
      exists buf'. split; [done|]. change (chain_events (EvChain ev :: evs)) with (ev :: chain_events evs).
      split; [by apply sublist_skip|]. intros Hfit. cbn [app]. f_equal. by apply Hf.
    + destruct (IH _ _ Hrun Hok (conj Hs Hn)) as (Hok' & ms & evs & Hms & Ht & Hi & Hu & Hb). split; [done|].
      exists ms, evs. split; [done|]. split; [done|]. split; [intros; right; by apply Hi|]. split; [intros; right; by apply Hu|].
      by rewrite Ech.
  - injection Hst as <-. destruct (IH _ _ Hrun Hok (conj Hs Hn)) as (Hok' & ms & evs & Hms & Ht & Hi & Hu & Hb). split; [done|].
    exists ms, (EvInstall g :: evs). split; [done|]. cbn [pp_trace] in Ht. split; [by rewrite Ht, <- app_assoc|].
    split; [intros g' [[= ->]|?]%elem_of_cons; [by left|right; by apply Hi]|].
    split; [intros g' [?|?]%elem_of_cons; [done|right; by apply Hu]|]. exact Hb.
  - injection Hst as <-. destruct (IH _ _ Hrun Hok (conj Hs Hn)) as (Hok' & ms & evs & Hms & Ht & Hi & Hu & Hb). split; [done|].
    exists ms, (EvUninstall g :: evs). split; [done|]. cbn [pp_trace] in Ht. split; [by rewrite Ht, <- app_assoc|].
    split; [intros g' [?|?]%elem_of_cons; [done|right; by apply Hi]|].
    split; [intros g' [[= ->]|?]%elem_of_cons; [by left|right; by apply Hu]|]. exact Hb.
Qed.

Lemma sublist_filter_mono {X} (P : X -> Prop) `{!forall x, Decision (P x)} l1 l2 :
  l1 `sublist_of` l2 -> filter P l1 `sublist_of` filter P l2.
Proof.
  induction 1 as [|x l1 l2 Hs IH|x l1 l2 Hs IH]; [done| |]; rewrite ?filter_cons; case_decide; try done.
  - by apply sublist_skip.
  - by apply sublist_cons.
Qed.

Lemma sublist_map {X Y} (f : X -> Y) l1 l2 : l1 `sublist_of` l2 -> map f l1 `sublist_of` map f l2.
Proof. induction 1; cbn; [done|by apply sublist_skip|by apply sublist_cons]. Qed.

Lemma sublist_concat {X Y} (f : X -> list Y) l1 l2 :
  l1 `sublist_of` l2 -> concat (map f l1) `sublist_of` concat (map f l2).
Proof.
  induction 1 as [|x l1 l2 Hs IH|x l1 l2 Hs IH]; cbn; [done|by apply sublist_app|]. by apply sublist_inserts_l.
Qed.

(** C6: Push and pull agree up to dropped events.  A client subscribes to the logs of
    the rounds [first] to [last] before they are indexed and stays subscribed; then
    blocks of these rounds are indexed while the event loop receives their events, at
    any pace, and other subscriptions come and go.  The logs the client is notified of
    are, in their order, among the ones that eth_getLogs with the same filter returns
    afterwards; and they are exactly these when the channel had room at every indexed
    block and the loop has received all events.  (The client leaves after the messages
    sent to it so far.) *)
Theorem push_equals_pull rpcID id f first last res sub es acts later ib p (api : index_api (D:=D) (C:=C) (A:=A)) :
  for_rounds f first last ->
  api_Logs (Some rpcID) id f = (res, [ForwardLogs rpcID sub]) ->
  es_logs es !! id = None -> es_logsOut es !! id = None ->
  ib_ok ib -> ib_chainCh ib = Some [] ->
  in_order (st_view (ib_storage ib)) (indexed acts) -> Forall countable (indexed acts) ->
  Forall (fun a => first <= arg_round a <= last) (indexed acts) ->
  (forall k x, t_logs (st_view (ib_storage ib)) !! k = Some x -> ~ first <= log_Round x <= last) ->
  pipe_run (mkPipe ib []) acts = Ok p -> api_backend api = pp_ib p ->
  (forall g, PUninstall g ∈ acts -> same_sub sub g = false) ->
  (forall g, PInstall g ∈ acts -> same_sub sub g = true -> g = sub) ->
  over_limit (api_methodLimits api) first last = false ->
  exists es' pulled api', eventLoop es (EvInstall sub :: pp_trace p) = Ok es' /\
    api_GetLogs f api = (Ok pulled, api') /\
    let pushed := fst (forward_logs ((FMsg <$> default [] (es_logsOut es' !! id)) ++ FUnsub :: later)) in
    pushed `sublist_of` pulled /\
    (fits (mkPipe ib []) acts = true -> ib_chainCh (pp_ib p) = Some [] -> pushed = pulled).
Proof.
  intros Hfr Hl Hn Ho Hok Hch Hord Hc Hr Hfresh Hrun Hapi Hun Hin Hlim.
  destruct (pipe_run_spec acts _ _ Hrun Hok Hord) as ([Hup Hwf] & ms & evs & Hms & Ht & Hi & Hu & Hb).
  cbn [pp_ib pp_trace app] in *. destruct (Hb [] Hch) as (buf' & Hch' & Hsub & Hfit). cbn [app] in *.
  assert (Hsub' : chain_events evs `sublist_of` (fst <$> zip_with sent (indexed acts) ms)).
  { etransitivity; [|exact Hsub]. by apply sublist_inserts_r. }
  assert (Hhead : forall ev, EvChain ev ∈ evs -> is_Ok (DB2EthHeader (ce_Block ev)) = true).
  { intros ev He. pose proof (run_headers _ _ _ _ Hms) as Hh. rewrite Forall_forall in Hh. apply Hh.
    eapply elem_of_sublist; [|exact Hsub']. apply list_elem_of_omap. exists (EvChain ev). by split. }
  destruct (log_notifications rpcID id f res sub es evs later Hl Hn Ho Hhead) as (_ & Hcrit & es' & E & Hfw);
    [by intros g Hg; apply Hin, Hi|].
  assert (Hdb : api_db api = ib_storage (pp_ib p)) by (unfold api_db; by rewrite Hapi).
  rewrite <- Hdb in Hup, Hwf, Hms.
  destruct (pulled_logs f first last api _ _ ms Hfr Hup Hwf Hms Hc (proj1 Hord) Hr Hfresh Hlim) as [api' Hg].
  exists es', (filter (log_wanted f) (DB2EthLogs (run_logs ms))), api'. rewrite Ht. split; [exact E|]. split; [exact Hg|].
  cbv zeta. rewrite Hfw. cbn [fst]. rewrite log_stream_on by (by intros g Hg'; apply Hun, Hu). rewrite Hcrit.
  rewrite <- (run_event_logs _ _ _ _ Hms). split.
  - apply sublist_filter_mono. unfold DB2EthLogs. apply sublist_map. by apply sublist_concat.
  - intros Hf Hempty. rewrite Hch' in Hempty. injection Hempty as ->. specialize (Hfit Hf). rewrite app_nil_r in Hfit.
    by rewrite Hfit.
Qed.
End PushPull.

(** ** Witness: a subscription to the rounds 3 to 9, during which the block of StoreBlock.v is indexed *)
Definition ex_push_filter : FilterCriteria := mkFilterCriteria (H:=ex_EthLib) None (Some 3) (Some 9) [] [].
Definition ex_push_sub : subscription := mkSubscription (H:=ex_EthLib) "0x7" LogsSubscription ex_push_filter.

Lemma ex_countable : Forall countable ex_blocks.
Proof.
  constructor; [|constructor]. intros st Hd. cbn [fst snd] in Hd. rewrite ex_decodeState_ok in Hd. injection Hd as <-.
  split; vm_compute; reflexivity.
Qed.

Definition ex_push_ib : indexBackend := with_chan (NewIndexBackend (ex_db [])) (Some []).
Definition ex_push_acts : list pipe_action := [PIndex (ex_oheader, ex_items, None, None); PReceive].
Definition ex_pipe : pipe :=
  match pipe_run (mkPipe ex_push_ib []) ex_push_acts with Ok p => p | Err _ => mkPipe ex_push_ib [] end.
Definition ex_push_api : index_api (D:=MemDB) (C:=ExNode) (A:=nat) :=
  NewPublicAPI (mkExNode 9) None 42262 (pp_ib ex_pipe) ex_oracle None.

Lemma ex_pipe_ok : pipe_run (mkPipe ex_push_ib []) ex_push_acts = Ok ex_pipe.
Proof.
  unfold ex_pipe. assert (Hok : is_Ok (pipe_run (mkPipe ex_push_ib []) ex_push_acts) = true) by (vm_compute; reflexivity).
  by destruct (pipe_run (mkPipe ex_push_ib []) ex_push_acts).
Qed.

Lemma push_equals_pull_witness : exists es' logs api',
  eventLoop NewEventSystem (EvInstall ex_push_sub :: pp_trace ex_pipe) = Ok es' /\
  fst (forward_logs ((FMsg <$> default [] (es_logsOut es' !! "0x7"%string)) ++ [FUnsub])) = logs /\
  api_GetLogs ex_push_filter ex_push_api = (Ok logs, api') /\ length (pp_trace ex_pipe) = 1%nat.
Proof.
  destruct (push_equals_pull "rpc" "0x7" ex_push_filter 3 9 (Some (mkRpcSubscription "rpc" true), None) ex_push_sub
    NewEventSystem ex_push_acts [] ex_push_ib ex_pipe ex_push_api)
    as (es' & logs & api' & E1 & E2 & _ & E3).
  - repeat split; lia.
  - reflexivity.
  - reflexivity.
  - reflexivity.
  - split; [constructor|apply empty_tables_wf].
  - reflexivity.
  - split; [repeat constructor|]. constructor; [vm_compute; discriminate|constructor].
  - exact ex_countable.
  - constructor; [vm_compute; split; discriminate|constructor].
  - intros k x Hx. exfalso. revert Hx. cbn. by rewrite lookup_empty.
  - exact ex_pipe_ok.
  - reflexivity.
  - intros g Hg. exfalso. by repeat apply elem_of_cons in Hg as [Hg|Hg]; [..|apply not_elem_of_nil in Hg].
  - intros g Hg. exfalso. by repeat apply elem_of_cons in Hg as [Hg|Hg]; [..|apply not_elem_of_nil in Hg].
  - reflexivity.
  - exists es', logs, api'. split; [exact E1|]. split; [apply E3; vm_compute; reflexivity|].
    split; [exact E2|vm_compute; reflexivity].
Defined.
