(* ===== verification/GasFeed.v ===== *)
(** * The gas price oracle on the blocks of the indexer

    [Index] sends every block it has stored to the block watchers, of which the
    gas price oracle is one (src/gas/backend.go, Start).  A watcher has a bounded
    buffer, so the oracle may see only some of the blocks. *)
From S2P Require Import Prelude GoLib Model Gas FeeHistory Sql Storage Psql Extern BlockModels EthViews StoreBlock IndexBackend Cache Source Archive EthApi EndToEnd Filters FilterApi PushPull.

Section GasFeed.
Context `{O : OasisLib} `{!Backend B} `{!IndexerBackend B}.

(** ** The numbers of an indexed block parse *)
Lemma toModels_prices header items cp m : toModels header items cp = Ok m ->
  (exists fee, hd_BaseFee (blk_Header (bm_blk m)) = big_String fee) /\
  Forall (fun tx => exists tip cap, tx_GasTipCap tx = big_String tip /\ tx_GasFeeCap tx = big_String cap) (bm_txs m).
Proof.
  intros (st & _ & ([[[blk txs] rcs] dbl] & Hb & [= <-])%result_bind_ok)%result_bind_ok. cbn.
  apply blockToModels_inv in Hb as (_ & _ & _ & _ & Hl & _ & _ & _ & Hf & _ & bh & Hi).
  split; [by eexists|]. apply Forall_lookup. intros i tx Htx.
  assert (Hlt : (i < length (ds_ethTxs st))%nat) by (rewrite <- Hl; by eapply lookup_lt_Some).
  apply lookup_lt_is_Some_2 in Hlt as [e He].
  destruct (Hi i e He) as (tx' & rc' & Htx' & _ & status & gas & c & _ & _ & -> & _). simplify_eq.
  unfold modelTransaction. destruct (Tx_RawSignatureValues e) as [[v r] s]. by eexists _, _.
Qed.

Lemma fee_entries_total (l : list (Transaction * Receipt)) :
  Forall (fun p => exists tip cap, tx_GasTipCap p.1 = big_String tip /\ tx_GasFeeCap p.1 = big_String cap) l ->
  exists es, mapM tx_fee_entry l = Some es.
Proof.
  induction 1 as [|p l (tip & cap & Ht & Hc) _ [es IH]]; [by eexists|].
  assert (Hp : exists e, tx_fee_entry p = Some e).
  { unfold tx_fee_entry, tx_reward. rewrite Ht, Hc, !UnmarshalText_String. by eexists. }
  destruct Hp as [e He]. exists (e :: es). cbn [mapM]. rewrite He. cbn. by rewrite IH.
Qed.

(** The entry of the fee history for a stored block. *)
Definition entry_of (blk : Block) (d : feeHistoryBlockData) : Prop :=
  fh_height d = blk_Round blk /\ fh_gasUsed d = hd_GasUsed (blk_Header blk) /\
  big_UnmarshalText (hd_BaseFee (blk_Header blk)) = Some (fh_baseFee d).

Lemma indexed_fee_data header items cp m : toModels header items cp = Ok m ->
  aligned (models_bd m) /\ exists d, fee_data (models_bd m) = Some d /\ entry_of (bm_blk m) d.
Proof.
  intros Hm. split.
  { apply (Forall2_length receipt_of). by eapply observed_receipts_paired. }
  destruct (toModels_prices _ _ _ _ Hm) as [[fee Hfee] Htx]. unfold fee_data, entry_of. cbn [bd_Block models_bd].
  rewrite Hfee, UnmarshalText_String. cbn [mbind option_bind bd_UniqueTxes bd_Receipts models_bd].
  destruct (fee_entries_total (zip (succeeded_txs (bm_txs m)) (succeeded_receipts (bm_receipts m)))) as [es ->].
  - apply Forall_forall. intros [tx rc] Hin%elem_of_zip_l. rewrite Forall_forall in Htx. apply Htx.
    by apply list_elem_of_filter in Hin as [_ Hin].
  - eexists. split; [done|]. done.
Qed.

(** ** The oracle on a run of blocks *)
Definition event_blocks (evs : list gas_event) : list BlockData :=
  omap (fun e => match e with EvBlock bd => Some bd | EvMinGasPrice _ => None end) evs.

(** Every block sent to the watchers is stored, and has fee data. *)
Lemma run_sent blocks T ms T' : put_args blocks T ms T' -> forall bd, bd ∈ snd <$> zip_with sent blocks ms ->
  aligned bd /\ exists d, fee_data bd = Some d /\ entry_of (bd_Block bd) d /\
    t_blocks T' !! (bd_hash bd, 0) = Some (with_Transactions (bd_Block bd) []).
Proof.
  induction 1 as [T|[[[header items] cp] rt] blocks T m T1 ms T2 Ha Hrun IH]; intros bd; cbn [zip_with fmap list_fmap].
  { by intros []%not_elem_of_nil. }
  intros [->|Hin]%elem_of_cons; [|by apply IH].
  pose proof Ha as (m' & Hm & (T3 & HT & [= -> ->])%result_bind_ok)%result_bind_ok.
  destruct (indexed_fee_data _ _ _ _ Hm) as (Hal & d & Hd & He). split; [done|]. exists d. split; [done|]. split; [done|].
  apply put_models_found in HT as (Hb & _). cbn [snd sent models_bd bd_Block] in *.
  clear -Hb Hrun. unfold bd_hash. cbn [bd_Block models_bd]. revert Hb.
  generalize (blk_Hash (bm_blk m), 0). intros k Hb.
  induction Hrun as [T|[[[header' items'] cp'] rt'] blocks' T m' T3 ms' T4 Ha' Hrun' IH]; [done|]. apply IH.
  apply result_bind_ok in Ha' as (m2 & _ & (T5 & HT & [= -> ->])%result_bind_ok).
  apply put_models_found in HT as (_ & _ & _ & _ & _ & Kb & _). by apply Kb.
Qed.

Lemma fee_heights evs : (forall bd, bd ∈ event_blocks evs -> exists d, fee_data bd = Some d /\ entry_of (bd_Block bd) d) ->
  map fh_height (omap ev_fee evs) = map bd_round (event_blocks evs).
Proof.
  induction evs as [|[bd|r] evs IH]; intros Hall; [done| |by apply IH].
  unfold event_blocks in *. cbn [omap list_omap ev_fee map]. destruct (Hall bd) as (d & Hd & He & _); [by left|].
  rewrite Hd. cbn [map]. rewrite He. f_equal. apply IH. intros bd' Hin. apply Hall. by right.
Qed.

Lemma map_lastn {X Y} (f : X -> Y) n l : map f (lastn n l) = lastn n (map f l).
Proof. unfold lastn. rewrite length_map. symmetry. apply skipn_map. Qed.

(** C15: The gas price oracle follows the indexer: fed with any of the blocks that
    a run of [Index] has sent to the block watchers, in any order and mixed with
    any answers of the node, it never fails; its computed price is the maximum
    over the last [windowSize] blocks it has seen, and its fee history is about
    the last [feeHistorySize] of them, none left out, each entry with the height,
    the gas used and the base fee of a block that is stored in the index. *)
Theorem oracle_follows_index cfg blocks (b b' : B) outs evs :
  iv_ok b -> in_order (iv_view b) blocks -> index_blocks blocks b = (Ok outs, b') ->
  0 <= windowSize (gas_New cfg) < 2 ^ 63 -> 0 < feeHistorySize (gas_New cfg) < 2 ^ 63 ->
  (forall bd, bd ∈ event_blocks evs -> bd ∈ snd <$> outs) ->
  exists g, gas_run (gas_New cfg) evs = Some g /\
    computedGasPrice g = window_price (Z.to_nat (windowSize (gas_New cfg))) (omap (ev_price (gas_New cfg)) evs) /\
    map fh_height (feeHistoryData g) = lastn (Z.to_nat (feeHistorySize (gas_New cfg))) (map bd_round (event_blocks evs)) /\
    forall d, d ∈ feeHistoryData g -> exists k blk, t_blocks (iv_view b') !! k = Some blk /\ entry_of blk d.
Proof.
  intros Hok Hord Hrun Hw Hsz Hin.
  destruct (index_blocks_run blocks [] b outs b' Hok Hord Hrun) as (_ & ms & Hms & ->). cbn [app] in Hin.
  pose proof (run_sent _ _ _ _ Hms) as Hsent.
  assert (Hal : Forall ev_aligned evs).
  { apply Forall_forall. intros [bd|r] He; [|done]. apply (Hsent bd), Hin, list_elem_of_omap. by exists (EvBlock bd). }
  destruct (gas_run_ok (gas_New cfg) Hsz evs _ [] Hal (New_ok cfg Hw)) as (g & Hg & Hoo). exists g.
  split; [done|]. split; [apply Hoo|]. rewrite (oo_fees _ _ _ Hoo). split.
  - rewrite map_lastn, fee_heights; [done|]. intros bd Hbd. destruct (Hsent bd (Hin bd Hbd)) as (_ & d & Hd & He & _). eauto.
  - intros d Hd. unfold lastn in Hd. apply subseteq_drop in Hd. apply list_elem_of_omap in Hd as ([bd|r] & He & Hd); [|done].
    destruct (Hsent bd) as (_ & d' & Hd' & Hent & Hst); [apply Hin, list_elem_of_omap; by exists (EvBlock bd)|].
    cbn [ev_fee] in Hd. rewrite Hd' in Hd. injection Hd as ->. by eexists _, _.
Qed.
End GasFeed.

(** ** The loop of [Start] and its queries

    After a block the loop starts a goroutine that asks the node for its minimum
    price, unless [queryInProgress] is set; the goroutine clears it when it has
    stored the answer. *)
Inductive price_query :=
  | Fetching (round : Z)
  | Fetched.

Record gasLoop := mkGasLoop {
  gl_oracle : gasPriceOracle;
  gl_queryInProgress : bool;
  gl_queries : list price_query;
}.

Definition gas_Start (cfg : option GasConfig) : gasLoop := mkGasLoop (gas_New cfg) false [].

Inductive gl_step : gasLoop -> gasLoop -> option gas_event -> Prop :=
  | GlBlock g g' busy gs bd :
      gas_step g (EvBlock bd) = Some g' ->
      gl_step (mkGasLoop g busy gs)
        (mkGasLoop g' true (if busy then gs else gs ++ [Fetching (bd_round bd)])) (Some (EvBlock bd))
  | GlAnswer g busy gs1 gs2 round r :
      gl_step (mkGasLoop g busy (gs1 ++ Fetching round :: gs2))
        (mkGasLoop (fetchMinGasPrice g r) busy (gs1 ++ Fetched :: gs2)) (Some (EvMinGasPrice r))
  | GlDone g busy gs1 gs2 :
      gl_step (mkGasLoop g busy (gs1 ++ Fetched :: gs2)) (mkGasLoop g false (gs1 ++ gs2)) None.

Inductive gl_run (cfg : option GasConfig) : gasLoop -> list gas_event -> Prop :=
  | GlStart : gl_run cfg (gas_Start cfg) []
  | GlStep s s' evs ev : gl_run cfg s evs -> gl_step s s' ev -> gl_run cfg s' (evs ++ option_list ev).

Lemma gas_run_app g evs evs' : gas_run g (evs ++ evs') = (g' ← gas_run g evs; gas_run g' evs').
Proof.
  revert g. induction evs as [|ev evs IH]; intros g; [done|]. cbn [app gas_run].
  destruct (gas_step g ev) as [g1|]; [|done]. cbn. apply IH.
Qed.

(** What the loop does to the oracle is the run over its events, and there is never more
    than one query under way. *)
Definition gl_inv (cfg : option GasConfig) (s : gasLoop) (evs : list gas_event) : Prop :=
  gas_run (gas_New cfg) evs = Some (gl_oracle s) /\
  length (gl_queries s) = if gl_queryInProgress s then 1%nat else 0%nat.

Lemma gl_run_inv cfg s evs : gl_run cfg s evs -> gl_inv cfg s evs.
Proof.
  induction 1 as [|s s' evs ev _ [Hg Hn] Hs]; [done|].
  destruct Hs as [g g' busy gs bd Hb|g busy gs1 gs2 round r|g busy gs1 gs2];
    cbn [gl_oracle gl_queryInProgress gl_queries option_list] in *; split; cbn [gl_oracle gl_queryInProgress gl_queries].
  - rewrite gas_run_app, Hg. cbn [mbind option_bind]. change (gas_run g [EvBlock bd] = Some g'). cbn [gas_run]. by rewrite Hb.
  - destruct busy; [done|]. rewrite length_app, Hn. done.
  - rewrite gas_run_app, Hg. done.
  - rewrite length_app in *. done.
  - by rewrite app_nil_r.
  - rewrite length_app in *. cbn in Hn. destruct busy; lia.
Qed.

(** C14: The loop of the oracle asks the node for its price at most once at a time,
    however fast blocks arrive, and is never stuck with the guard of the query
    set; whatever the interleaving of blocks and answers, no block makes it panic
    and the computed price is the maximum over the prices of the last [windowSize]
    blocks (none when that maximum is zero), the node price the last one the node
    reported. *)
Theorem gas_loop_single_query cfg s evs :
  0 <= windowSize (gas_New cfg) < 2 ^ 63 -> 0 < feeHistorySize (gas_New cfg) < 2 ^ 63 ->
  Forall ev_aligned evs -> gl_run cfg s evs ->
  (length (gl_queries s) <= 1)%nat /\
  (gl_queryInProgress s = true -> forall r, exists s', gl_queryInProgress s' = false /\
     (gl_step s s' None \/ exists s1, gl_step s s1 (Some (EvMinGasPrice r)) /\ gl_step s1 s' None)) /\
  (forall bd, aligned bd -> exists s', gl_step s s' (Some (EvBlock bd))) /\
  computedGasPrice (gl_oracle s) =
    window_price (Z.to_nat (windowSize (gas_New cfg))) (omap (ev_price (gas_New cfg)) evs) /\
  nodeMinGasPrice (gl_oracle s) = last (omap ev_node evs).
Proof.
  intros Hw Hsz Hal [Hg Hn]%gl_run_inv.
  destruct (gas_run_ok (gas_New cfg) Hsz evs _ [] Hal (New_ok cfg Hw)) as (g & Hg' & Hoo).
  rewrite Hg in Hg'. injection Hg' as <-. destruct s as [g busy gs]. cbn [gl_oracle gl_queryInProgress gl_queries] in *.
  split; [destruct busy; lia|]. split.
  - intros -> r. destruct gs as [|[round|] [|]]; try done.
    + exists (mkGasLoop (fetchMinGasPrice g r) false []). split; [done|]. right. eexists.
      split; [apply (GlAnswer g true [] [])|apply (GlDone _ true [] [])].
    + exists (mkGasLoop g false []). split; [done|]. left. apply (GlDone g true [] []).
  - split; [|split; apply Hoo]. intros bd Hbd.
    destruct (gas_step_ok (gas_New cfg) g evs (EvBlock bd) Hsz Hbd Hoo) as (g' & Hg' & _).
    eexists. by apply GlBlock.
Qed.

(** ** Witness: the block of StoreBlock.v through the caching backend, seen twice by the oracle *)
Definition ex_feed : result (list (ChainEvent * BlockData)) * CachingBackend := index_blocks ex_blocks (ex_stack []).
Definition ex_feed_outs : list (ChainEvent * BlockData) := match fst ex_feed with Ok outs => outs | Err _ => [] end.
Definition ex_feed_events : list gas_event := EvMinGasPrice (Ok (Some 7%N)) :: map EvBlock (snd <$> ex_feed_outs).

Lemma oracle_follows_index_witness : exists g, gas_run (gas_New None) ex_feed_events = Some g /\
  map fh_height (feeHistoryData g) = [5].
Proof.
  assert (Hblocks : event_blocks ex_feed_events = snd <$> ex_feed_outs).
  { unfold ex_feed_events, event_blocks. cbn [omap list_omap]. induction (snd <$> ex_feed_outs) as [|x l IH]; [done|].
    cbn [map omap list_omap]. by f_equal. }
  destruct (oracle_follows_index None ex_blocks (ex_stack []) (snd ex_feed) ex_feed_outs ex_feed_events)
    as (g & Hg & _ & Hh & _).
  - apply cb_ok_new. split; [constructor|apply empty_tables_wf].
  - split; [repeat constructor|]. constructor; [vm_compute; discriminate|constructor].
  - unfold ex_feed_outs. assert (Hok : is_Ok (fst ex_feed) = true) by (vm_compute; reflexivity).
    destruct (fst ex_feed) as [outs|e] eqn:E; [|discriminate Hok]. rewrite <- E. apply surjective_pairing.
  - vm_compute. split; [discriminate|reflexivity].
  - vm_compute. split; reflexivity.
  - intros bd. by rewrite Hblocks.
  - exists g. split; [exact Hg|]. rewrite Hh, Hblocks. vm_compute. reflexivity.
Defined.

(** ** Witness: a block starts a query, the next one does not, and the query ends *)
Definition ex_gl_block : option BlockData := head (snd <$> ex_feed_outs).

Lemma gas_loop_single_query_witness : exists bd s, ex_gl_block = Some bd /\
  gl_run None s [EvBlock bd; EvBlock bd; EvMinGasPrice (Ok (Some 7%N))] /\ (length (gl_queries s) <= 1)%nat.
Proof.
  destruct ex_gl_block as [bd|] eqn:E; [|vm_compute in E; discriminate].
  assert (Ha : (length (bd_UniqueTxes bd) =? length (bd_Receipts bd))%nat = true).
  { assert (Hx : (match ex_gl_block with Some b => (length (bd_UniqueTxes b) =? length (bd_Receipts b))%nat | None => false end) = true)
      by (vm_compute; reflexivity). by rewrite E in Hx. }
  apply Nat.eqb_eq in Ha.
  assert (Hw : 0 <= windowSize (gas_New None) < 2 ^ 63) by (vm_compute; split; [discriminate|reflexivity]).
  assert (Hsz : 0 < feeHistorySize (gas_New None) < 2 ^ 63) by (vm_compute; split; reflexivity).
  destruct (gas_loop_single_query None _ _ Hw Hsz (List.Forall_nil _) (GlStart None)) as (_ & _ & Hb & _).
  destruct (Hb bd Ha) as [s1 H1]. pose proof (GlStep _ _ _ _ _ (GlStart None) H1) as R1.
  assert (A1 : Forall ev_aligned ([] ++ option_list (Some (EvBlock bd)))) by (repeat constructor; exact Ha).
  destruct (gas_loop_single_query None _ _ Hw Hsz A1 R1) as (_ & _ & Hb1 & _).
  destruct (Hb1 bd Ha) as [s2 H2]. pose proof (GlStep _ _ _ _ _ R1 H2) as R2.
  inversion H1; subst. inversion H2; subst.
  pose proof (GlStep _ _ _ _ _ R2 (GlAnswer g'0 true [] [] (bd_round bd) (Ok (Some 7%N)))) as R3.
  exists bd. eexists. split; [reflexivity|]. split; [exact R3|].
  refine (proj1 (gas_loop_single_query None _ _ Hw Hsz _ R3)). repeat constructor; exact Ha.
Defined.
