(* ===== verification/CacheLogs.v ===== *)
(** * The logs in the cache are those of the database

    The caching backend answers eth_getLogs for recent rounds from the logs of
    the receipts it has kept (src/indexer/backend_cache.go), the index backend
    from the logs table.  The two agree for blocks whose failed transactions
    have no logs, as the runtime drops the events of a failed transaction. *)
From S2P Require Import Prelude GoLib Model Gas FeeHistory Sql Storage Psql Extern BlockModels EthViews StoreBlock IndexBackend Cache Source Archive EthApi EndToEnd Filters FilterApi PushPull.

(** ** The logs of a block, by transaction *)
Record log_group := mkLogGroup {
  lg_hash : string;
  lg_success : bool;
  lg_logs : list Log;
}.

Definition group_ok (g : log_group) : Prop :=
  Forall (fun l => log_TxHash l = lg_hash g) (lg_logs g) /\ (lg_success g = false -> lg_logs g = []).

Definition all_logs (gs : list log_group) : list Log := concat (map lg_logs gs).
Definition succeeded (gs : list log_group) : list log_group := filter (fun g => lg_success g = true) gs.

Lemma succeeded_logs gs : Forall group_ok gs -> all_logs (succeeded gs) = all_logs gs.
Proof.
  unfold all_logs, succeeded. induction 1 as [|g gs [_ Hf] _ IH]; [done|]. rewrite filter_cons. cbn [map concat].
  case_decide as Hs; [cbn [map concat]; by rewrite IH|]. rewrite IH, Hf; [done|]. by destruct (lg_success g).
Qed.

(** The logs with the hash of one of several distinct transactions are its logs. *)
Lemma logs_of_hash gs : Forall group_ok gs -> NoDup (map lg_hash gs) ->
  forall g, g ∈ gs -> filter (fun l => log_TxHash l = lg_hash g) (all_logs gs) = lg_logs g.
Proof.
  induction 1 as [|g0 gs [Hg0 _] Hgs IH]; intros Hnd g; [by intros []%not_elem_of_nil|].
  cbn [map] in Hnd. apply NoDup_cons in Hnd as [Hnin Hnd].
  assert (Hother : forall h, h ∉ map lg_hash gs -> filter (fun l => log_TxHash l = h) (all_logs gs) = []).
  { intros h Hh. apply filter_none, Forall_forall. intros l Hl <-. apply Hh. unfold all_logs in Hl.
    apply list_elem_of_In, in_concat in Hl as (ls & Hls & Hl). apply list_elem_of_In in Hls, Hl.
    apply list_elem_of_fmap in Hls as (g' & -> & Hg').
    rewrite Forall_forall in Hgs. destruct (Hgs g' Hg') as [Hf _]. rewrite Forall_forall in Hf. rewrite (Hf l Hl).
    by apply list_elem_of_fmap_2. }
  unfold all_logs in *. cbn [map concat]. rewrite filter_app. intros [->|Hg]%elem_of_cons.
  - rewrite Hother by done. rewrite app_nil_r. by apply filter_all.
  - rewrite (IH Hnd g Hg). rewrite filter_none; [done|]. apply Forall_forall. intros l Hl E. apply Hnin. rewrite Forall_forall in Hg0.
    rewrite (Hg0 l Hl) in E. rewrite E. by apply list_elem_of_fmap_2.
Qed.

Lemma regroup gs : Forall group_ok gs -> NoDup (map lg_hash (succeeded gs)) ->
  concat (map (fun g => filter (fun l => log_TxHash l = lg_hash g) (all_logs gs)) (succeeded gs)) = all_logs gs.
Proof.
  intros Hok Hnd. rewrite <- (succeeded_logs gs Hok). unfold all_logs at 2. f_equal.
  apply map_ext_in. intros g Hg%list_elem_of_In. apply logs_of_hash; [|done|done].
  apply Forall_forall. intros g' [_ Hg']%list_elem_of_filter. rewrite Forall_forall in Hok. by apply Hok.
Qed.

Lemma rmapM_elem {X Y} (f : X -> result Y) l : forall ys y, rmapM f l = Ok ys -> y ∈ ys -> exists x, x ∈ l /\ f x = Ok y.
Proof.
  induction l as [|x l IH]; intros ys y; cbn [rmapM]; [intros [= <-]; by intros []%not_elem_of_nil|].
  intros (y0 & Hf & (ys0 & Hl & [= <-])%result_bind_ok)%result_bind_ok [->|Hin]%elem_of_cons.
  - exists x. split; [by left|done].
  - destruct (IH _ _ Hl Hin) as (x' & Hx & Hf'). exists x'. split; [by right|done].
Qed.

Section Block.
Context `{O : OasisLib} `{!EthLibLaws H}.

(** ** The groups of a decoded block *)
Fixpoint groups (bhash : ehash) (round : Z) (start txi : nat) (ds : list decoded) : list log_group :=
  match ds with
  | [] => []
  | d :: ds' =>
      mkLogGroup (Hash_Hex (Tx_Hash (dc_tx d))) (bool_decide (dc_status d <> ReceiptStatusFailed))
        (map modelLog (imap (fun i log => mkEthLog _ (ol_Address log) (ol_Topics log) (ol_Data log) round
          (Tx_Hash (dc_tx d)) (u32 (Z.of_nat txi)) bhash (u64 (Z.of_nat (start + i))) false) (dc_logs d)))
      :: groups bhash round (start + length (dc_logs d)) (S txi) ds'
  end.

(** A failed transaction has no logs. *)
Definition quiet (a : index_args) : Prop :=
  forall it d, it ∈ a.1.1.2 -> decode_tx it = Ok d -> IsSuccess (it_Result it) = false -> dc_logs d = [].

Lemma groups_all bhash round : forall ds start txi,
  all_logs (groups bhash round start txi ds) = map modelLog (number_logs bhash round start txi ds).
Proof.
  induction ds as [|d ds IH]; intros start txi; [done|]. cbn [groups number_logs]. rewrite map_app, <- IH. done.
Qed.

Lemma groups_ok bhash round : forall ds start txi,
  Forall (fun d => dc_status d = ReceiptStatusFailed -> dc_logs d = []) ds -> Forall group_ok (groups bhash round start txi ds).
Proof.
  induction ds as [|d ds IH]; intros start txi Hq; cbn [groups]; [constructor|].
  apply Forall_cons in Hq as [Hd Hq]. constructor; [|by apply IH]. split; cbn [lg_logs lg_hash lg_success].
  - apply Forall_forall. intros l Hl. apply list_elem_of_fmap in Hl as (e & -> & He).
    apply elem_of_lookup_imap in He as (i & log & -> & _). done.
  - intros Hf. apply bool_decide_eq_false in Hf. rewrite Hd; [done|].
    destruct (decide (dc_status d = ReceiptStatusFailed)); [done|]. by destruct Hf.
Qed.

Lemma groups_lookup bhash round : forall ds start txi j g, groups bhash round start txi ds !! j = Some g ->
  exists d, ds !! j = Some d /\ lg_hash g = Hash_Hex (Tx_Hash (dc_tx d)) /\
    lg_success g = bool_decide (dc_status d <> ReceiptStatusFailed).
Proof.
  induction ds as [|d ds IH]; intros start txi [|j] g; cbn [groups]; try done.
  - intros [= <-]. by exists d.
  - cbn [lookup list_lookup]. apply IH.
Qed.

Lemma groups_length bhash round : forall ds start txi, length (groups bhash round start txi ds) = length ds.
Proof. induction ds as [|d ds IH]; intros; cbn [groups length]; [done|]. by rewrite IH. Qed.

(** The rows of a transaction and its group. *)
Definition row_group (ls : list Log) (tx : Transaction) (rc : Receipt) (g : log_group) : Prop :=
  tx_Hash tx = lg_hash g /\ (tx_success tx <-> lg_success g = true) /\ (rc_success rc <-> lg_success g = true) /\
  rc_Logs rc = filter (fun l => log_TxHash l = lg_hash g) ls.

Lemma toModels_groups header items cp rt m : quiet (header, items, cp, rt) -> toModels header items cp = Ok m ->
  exists gs, Forall group_ok gs /\ all_logs gs = bm_logs m /\ length (bm_txs m) = length gs /\
    length (bm_receipts m) = length gs /\
    forall j g, gs !! j = Some g -> exists tx rc, bm_txs m !! j = Some tx /\ bm_receipts m !! j = Some rc /\
      row_group (bm_logs m) tx rc g.
Proof.
  intros Hq (st & Hd & ([[[blk txs] rcs] dbl] & Hb & [= <-])%result_bind_ok)%result_bind_ok.
  apply blockToModels_inv in Hb as (-> & _ & _ & _ & Hl1 & Hl2 & _ & _ & _ & _ & bh & Hi).
  rewrite decode_eq in Hd. destruct (rmapM decode_tx _) as [ds|] eqn:Eds; [|done]. injection Hd as <-.
  cbn [extend decode_init ds_ethTxs ds_logs ds_txsStatus ds_txsGas ds_results app length bm_txs bm_receipts bm_logs] in *.
  exists (groups (blockHash header) (oh_Round header) 0 0 ds). rewrite groups_length, groups_all.
  split; [|split; [done|]].
  - apply groups_ok. apply Forall_forall. intros d Hin Hf.
    destruct (rmapM_elem _ _ _ _ Eds Hin) as (it & Hit & Hdt). apply list_elem_of_filter in Hit as [_ Hit].
    apply (Hq it d Hit Hdt). revert Hdt Hf. unfold decode_tx. 
    intros (e & _ & (ev & _ & (p & _ & [= <-])%result_bind_ok)%result_bind_ok)%result_bind_ok. cbn.
    by destruct (IsSuccess (it_Result it)).
  - rewrite length_map in *. do 2 (split; [done|]). intros j g Hg.
    apply groups_lookup in Hg as (d & Hdj & Hh & Hs).
    assert (Htj : map dc_tx ds !! j = Some (dc_tx d)) by (by apply list_lookup_fmap_Some_2).
    destruct (Hi j _ Htj) as (tx & rc & Htx & Hrc & status & gas & c & Hst & _ & Etx & _ & Erc).
    apply list_lookup_fmap_Some in Hst as (d' & -> & Hd'). rewrite Hdj in Hd'. injection Hd' as <-.
    exists tx, rc. split; [done|]. split; [done|].
    assert (Hrow : tx_Hash tx = lg_hash g /\ tx_Status tx = dc_status d).
    { subst tx. unfold modelTransaction. destruct (Tx_RawSignatureValues (dc_tx d)) as [[v r] s]. by rewrite Hh. }
    destruct Hrow as [Hth Hts]. split; [done|]. unfold tx_success, rc_success. rewrite Hs, bool_decide_eq_true, Hts.
    split; [done|]. subst rc. cbn [modelReceipt rc_Status rc_Logs]. rewrite Hts. split; [done|].
    rewrite (proj2 (ethToModelLogs_spec _)), Hth. done.
Qed.

(** A stored block has no two successful transactions with the same hash. *)
Lemma put_txs_distinct txs : forall T T', rfold put_tx T txs = Ok T' ->
  NoDup (map tx_Hash (succeeded_txs txs)).
Proof.
  unfold succeeded_txs. induction txs as [|tx txs IH]; intros T T'; cbn [rfold]; [constructor|].
  intros (T1 & H1 & H2)%result_bind_ok. rewrite filter_cons. case_decide as Hs; [|by eapply IH].
  cbn [map]. constructor; [|by eapply IH]. intros Hin. apply list_elem_of_fmap in Hin as (tx' & Hh & [Hs' Hin]%list_elem_of_filter).
  pose proof (put_tx_stored _ _ _ H1 Hs) as Hst.
  destruct (rfold_elem put_tx (keeps_rows TTransaction tx_success) put_tx_keeps tx' _ _ _ H2 Hin)
    as (Ta & Tb & [_ Ha] & Hp & _).
  specialize (Ha (tx_Hash tx, 0) tx Hst Hs). unfold put_tx in Hp. cbn in Ha. rewrite <- Hh in Hp.
  change (rows TTransaction Ta) with (t_txs Ta) in Ha. rewrite Ha in Hp.
  rewrite (proj2 (Z.eqb_neq _ _) Hs'), (proj2 (Z.eqb_neq _ _) Hs) in Hp. done.
Qed.

Lemma receiptsLogs_concat rcs : receiptsLogs rcs = concat (map rc_Logs rcs).
Proof.
  unfold receiptsLogs. enough (forall acc, foldl (fun logs rc => logs ++ rc_Logs rc) acc rcs = acc ++ concat (map rc_Logs rcs))
    as He by apply (He []).
  induction rcs as [|rc rcs IH]; intros acc; cbn; [by rewrite app_nil_r|]. by rewrite IH, app_assoc.
Qed.

(** What the cache keeps as the logs of a block are the logs stored for it. *)
Lemma cached_block_logs header items cp rt m T T' : quiet (header, items, cp, rt) ->
  put_block header items cp T = Ok (m, T') -> receiptsLogs (succeeded_receipts (bm_receipts m)) = bm_logs m.
Proof.
  intros Hq (m' & Hm & (T1 & HT & [= -> _])%result_bind_ok)%result_bind_ok.
  destruct (toModels_groups _ _ _ _ _ Hq Hm) as (gs & Hok & Hall & Hlt & Hlr & Hrow).
  apply put_models_inv in HT as (T2 & _ & _ & _ & Htxs & _). apply put_txs_distinct in Htxs.
  assert (Htx : Forall2 (fun tx g => tx_Hash tx = lg_hash g) (succeeded_txs (bm_txs m)) (succeeded gs)).
  { apply (Forall2_impl (fun tx g => tx_Hash tx = lg_hash g /\ (tx_success tx <-> lg_success g = true))); [|by intros ?? [? _]].
    eapply Forall2_filter; [|by intros ?? [_ ?]]. apply Forall2_same_length_lookup_2; [done|].
    intros j tx g Ht Hg. destruct (Hrow j g Hg) as (tx' & rc & Ht' & _ & Hh & Hs & _). simplify_eq. done. }
  assert (Hrc : Forall2 (fun rc g => rc_Logs rc = filter (fun l => log_TxHash l = lg_hash g) (bm_logs m))
    (succeeded_receipts (bm_receipts m)) (succeeded gs)).
  { apply (Forall2_impl (fun rc g => rc_Logs rc = filter (fun l => log_TxHash l = lg_hash g) (bm_logs m) /\
      (rc_success rc <-> lg_success g = true))); [|by intros ?? [? _]].
    eapply Forall2_filter; [|by intros ?? [_ ?]]. apply Forall2_same_length_lookup_2; [done|].
    intros j rc g Hr Hg. destruct (Hrow j g Hg) as (tx & rc' & _ & Hr' & _ & _ & Hs & Hl). simplify_eq. done. }
  rewrite receiptsLogs_concat, <- Hall.
  transitivity (concat (map (fun g => filter (fun l => log_TxHash l = lg_hash g) (all_logs gs)) (succeeded gs))).
  - f_equal. rewrite Hall. clear -Hrc. induction Hrc as [|rc g rcs gs' Hr _ IH]; [done|]. cbn. by rewrite Hr, IH.
  - apply regroup; [done|]. replace (map lg_hash (succeeded gs)) with (map tx_Hash (succeeded_txs (bm_txs m))); [done|].
    clear -Htx. induction Htx as [|tx g txs gs' Ht _ IH]; [done|]. cbn. by rewrite Ht, IH.
Qed.
End Block.

(** ** The logs of the cached rounds *)
Section CachedLogs.
Context `{O : OasisLib} `{!EthLibLaws H} `{S : Storage D} `{!StorageLaws D}.
Notation cached := (CachingBackend (B:=indexBackend (D:=D))).

(** Every entry of the cache is about a round of the run. *)
Definition cached_entries (P : Z -> list Log -> Prop) (c : Cache) : Prop :=
  forall n ls, logsByBlockNumber c !! n = Some ls -> P n ls.

Lemma pruneCache_entries P c n c' : cached_entries P c -> pruneCache c n = Ok c' -> cached_entries P c'.
Proof.
  intros Hc. unfold pruneCache. destruct (blockDataByNumber c !! n); [|by intros [= <-]].
  case_match; [done|]. intros [= <-] k ls. cbn. intros [_ Hk]%lookup_delete_Some. by apply Hc.
Qed.

Lemma prune_loop_entries P rounds : forall c c', cached_entries P c -> prune_loop c rounds = Ok c' -> cached_entries P c'.
Proof.
  induction rounds as [|n rounds IH]; intros c c' Hc; cbn [prune_loop]; [by intros [= <-]|].
  intros (c1 & H1 & H2)%result_bind_ok. pose proof (pruneCache_entries P c n c1 Hc H1) as Hc1.
  destruct (cacheSize c1 <=? maxCacheSize c1); [by injection H2 as <-|by eapply IH].
Qed.

Lemma OnBlockIndexed_entries (P : Z -> list Log -> Prop) c bd c' : cached_entries P c ->
  P (bd_round bd) (receiptsLogs (bd_Receipts bd)) -> OnBlockIndexed c bd = Ok c' -> cached_entries P c'.
Proof.
  intros Hc Hbd. unfold OnBlockIndexed.
  assert (Hi : cached_entries P (cache_insert c bd)).
  { intros n ls. cbn. unfold cacheLogsByBlockNumber. rewrite lookup_insert. case_decide as Hn; [|apply Hc].
    intros [= <-]. by rewrite <- Hn. }
  case_match; [by apply prune_loop_entries|by intros [= <-]].
Qed.

(** The logs of a round of the run. *)
Definition run_round (ms : list blockModels) (n : Z) (ls : list Log) : Prop :=
  exists m, m ∈ ms /\ blk_Round (bm_blk m) = n /\ ls = bm_logs m.

Lemma run_entries blocks : forall acc (cb : cached) outs cb' pre, cb_ok cb -> in_order (iv_view cb) blocks ->
  Forall quiet blocks -> cached_entries (run_round pre) (cb_cache cb) ->
  mfold (fun outs a => let '(header, items, cp, rt) := a in
    out ← bk_Index header items cp rt; mret (outs ++ [out])) acc blocks cb = (Ok outs, cb') ->
  exists ms, put_args blocks (iv_view cb) ms (iv_view cb') /\ cached_entries (run_round (pre ++ ms)) (cb_cache cb') /\ cb_ok cb'.
Proof.
  induction blocks as [|[[[header items] cp] rt] blocks IH]; intros acc cb outs cb' pre Hok [Hs Hn] Hq Hc; cbn [mfold].
  { intros [= <- <-]. exists []. rewrite app_nil_r. split; [constructor|done]. }
  cbn [map] in Hs. apply StronglySorted_inv in Hs as [Hs Hlt]. apply Forall_cons in Hn as [Hn Hns].
  apply Forall_cons in Hq as [Hq Hqs]. unfold mbind at 1, M_bind at 1. unfold mbind at 1, M_bind at 1.
  destruct (CachingBackend_Index_puts header items cp rt cb Hok Hn) as (r & cb1 & E & Hok1 & Hr).
  change (bk_Index header items cp rt cb) with (CachingBackend_Index header items cp rt cb). rewrite E.
  destruct (put_block header items cp (iv_view (cb_inner cb))) as [[m T]|e] eqn:Hp; [|by destruct Hr as [-> _]].
  destruct Hr as [Hv ->]. cbn [mret M_ret]. intros Hrun.
  assert (Hc1 : cached_entries (run_round (pre ++ [m])) (cb_cache cb1)).
  { revert E. unfold CachingBackend_Index, on_inner, get_cache, put_cache, mbind, M_bind.
    destruct (bk_Index header items cp rt (cb_inner cb)) as [[out|e] b]; [|done]. cbn [cb_cache].
    destruct (OnBlockIndexed (cb_cache cb) (snd out)) as [c'|e] eqn:Eo; [|done]. intros [= -> <-]. cbn [cb_cache].
    eapply OnBlockIndexed_entries; [| |exact Eo].
    - intros n ls Hl. destruct (Hc n ls Hl) as (m0 & ? & ? & ?). exists m0. split; [apply elem_of_app; by left|done].
    - exists m. split; [apply elem_of_app; right; by left|]. split; [done|].
      cbn [snd bd_Receipts models_bd]. by eapply cached_block_logs. }
  assert (Hord : in_order (iv_view cb1) blocks).
  { split; [done|]. apply put_block_last in Hp as [Hl _]. unfold next_round. cbn [iv_view CachingBackend_IndexerBackend].
    rewrite Hv, Hl. rewrite Forall_map in Hlt. eapply Forall_impl; [exact Hlt|]. unfold arg_round. cbn. intros a'. lia. }
  destruct (IH _ _ _ _ _ Hok1 Hord Hqs Hc1 Hrun) as (ms & Hms & Hcms & Hok').
  exists (m :: ms). rewrite <- app_assoc in Hcms. split; [|done]. econstructor; [exact Hp|].
  cbn [iv_view CachingBackend_IndexerBackend] in Hms. by rewrite Hv in Hms.
Qed.

(** The rounds of the rows of a run. *)
Lemma put_args_rounds blocks T ms T' : put_args blocks T ms T' -> map (fun m => blk_Round (bm_blk m)) ms = map arg_round blocks.
Proof.
  induction 1 as [T|[[[header items] cp] rt] blocks T m T1 ms T2 Ha Hrun IH]; [done|]. cbn [map]. rewrite IH. f_equal.
  by apply put_block_last in Ha as (_ & _ & ->).
Qed.

Lemma put_args_log_rounds blocks T ms T' : put_args blocks T ms T' -> Forall countable blocks ->
  forall m l, m ∈ ms -> l ∈ bm_logs m -> log_Round l = blk_Round (bm_blk m).
Proof.
  induction 1 as [T|[[[header items] cp] rt] blocks T m T1 ms T2 Ha Hrun IH]; intros Hc m0 l; [by intros []%not_elem_of_nil|].
  apply Forall_cons in Hc as [Hc Hcs]. intros [->|Hin]%elem_of_cons Hl; [|by apply IH].
  destruct (block_logs_strict header items cp m T T1 Hc Ha) as [_ Hr]. rewrite Forall_forall in Hr. rewrite (Hr l Hl).
  symmetry. by apply put_block_last in Ha as (_ & _ & ->).
Qed.

(** The entries of a range of rounds, one after the other. *)
Lemma window_logs_run c ms : NoDup (map (fun m => blk_Round (bm_blk m)) ms) -> cached_entries (run_round ms) c ->
  (forall m l, m ∈ ms -> l ∈ bm_logs m -> log_Round l = blk_Round (bm_blk m)) ->
  (forall m, m ∈ ms -> StronglySorted log_lt (bm_logs m)) ->
  forall n i ls, window_logs c i n = Some ls ->
  StronglySorted log_lt ls /\
  forall l, l ∈ ls <-> l ∈ run_logs ms /\ i <= log_Round l < i + Z.of_nat n.
Proof.
  intros Hnd Hc Hr Hst. induction n as [|n IH]; intros i ls; cbn [window_logs].
  { intros [= <-]. split; [constructor|]. intros l. rewrite elem_of_nil. split; [done|lia]. }
  intros (bl & Hbl & (rest & Hrest & [= <-])%bind_Some)%bind_Some.
  destruct (IH _ _ Hrest) as [Hs2 Hin]. destruct (Hc i bl Hbl) as (m & Hm & Hmi & ->). split.
  - apply StronglySorted_app; [by apply Hst|done|]. intros a b Ha [_ Hb]%Hin. apply log_lt_round.
    rewrite (Hr m a Hm Ha). lia.
  - intros l. rewrite elem_of_app, Hin. split.
    + intros [Hl|[Hl Hb]]; [|split; [done|lia]]. split; [|rewrite (Hr m l Hm Hl); lia].
      unfold run_logs. apply list_elem_of_In, in_concat. exists (bm_logs m).
      split; [|by apply list_elem_of_In]. apply in_map. by apply list_elem_of_In.
    + intros [Hl Hb]. destruct (decide (log_Round l = i)) as [Hli|]; [left|right; split; [done|lia]].
      unfold run_logs in Hl. apply list_elem_of_In, in_concat in Hl as (ls0 & Hls & Hl).
      apply list_elem_of_In in Hls, Hl. apply list_elem_of_fmap in Hls as (m' & -> & Hm').
      assert (m' = m) as ->; [|done]. pose proof (Hr m' l Hm' Hl) as Hl'.
      apply list_elem_of_lookup in Hm as [j1 Hj1], Hm' as [j2 Hj2].
      assert (j1 = j2) as ->; [|congruence]. eapply (NoDup_lookup _ j1 j2); [exact Hnd|..];
        apply list_lookup_fmap_Some_2 with (f := fun m => blk_Round (bm_blk m)) in Hj1, Hj2; [exact Hj1|].
      refine (eq_trans Hj2 _). f_equal. lia.
Qed.

Lemma block_strict blocks T ms T' : put_args blocks T ms T' -> Forall countable blocks ->
  forall m, m ∈ ms -> StronglySorted log_lt (bm_logs m).
Proof.
  induction 1 as [T|[[[header items] cp] rt] blocks T m T1 ms T2 Ha Hrun IH]; intros Hc m0; [by intros []%not_elem_of_nil|].
  apply Forall_cons in Hc as [Hc Hcs]. intros [->|Hin]%elem_of_cons; [|by apply IH].
  by destruct (block_logs_strict header items cp m T T1 Hc Ha).
Qed.

Lemma rounds_NoDup rs : StronglySorted Z.lt rs -> NoDup rs.
Proof.
  induction 1 as [|x l Hs IH Hx]; constructor; [|done]. intros Hin. rewrite Forall_forall in Hx. specialize (Hx x Hin). lia.
Qed.

(** The rows of the run in a range are the answer of the database. *)
Lemma stored_range (ib : indexBackend (D:=D)) blocks T ms first s e ls : ib_ok ib -> put_args blocks T ms (st_view (ib_storage ib)) ->
  Forall countable blocks -> StronglySorted Z.lt (map arg_round blocks) ->
  (forall k x, t_logs T !! k = Some x -> log_Round x < first) -> first <= s ->
  StronglySorted log_lt ls -> (forall l, l ∈ ls <-> l ∈ run_logs ms /\ s <= log_Round l <= e) ->
  fst (indexBackend_GetLogs s e ib) = Ok ls.
Proof.
  intros [Hup Hwf] Hms Hc Hs Hold Hfs Hsort Hin. unfold indexBackend_GetLogs, on_storage.
  destruct (read_up _ _ (ib_storage ib) (st_law_GetLogs HDb s e) Hup) as (r & d & -> & Hr & _).
  pose proof Hr as (l & -> & _). destruct (logs_between_rows _ _ _ _ Hwf Hr) as (Hnd2 & Hsl & Hel).
  cbn [fst]. f_equal. destruct (strict_facts ls Hsort) as (Hle & Hnd & Hanti).
  assert (Hmem : forall x, x ∈ l <-> x ∈ ls).
  { intros x. rewrite Hel, Hin, (run_logs_stored _ _ _ _ Hms). split; [|tauto].
    intros [Hb [Hx|[k Hk]]]; [done|]. apply Hold in Hk. lia. }
  apply (StronglySorted_unique_strong log_le).
  - intros a b Ha%Hmem Hb. by apply Hanti.
  - apply Sorted_StronglySorted; [|done]. intros a b c. apply lexle_trans.
  - done.
  - by apply NoDup_Permutation.
Qed.

(** C12: The log cache is transparent: after any run of blocks indexed in order
    through a new caching backend on a healthy database, asking for the logs of
    rounds from the first round of the run on gives the same logs in the same
    order through the cache as from the database, whether all, some or none of
    the rounds are cached.  The blocks must not have more logs or transactions
    than their numbers can count, and failed transactions no logs. *)
Theorem cached_logs_transparent cfg (d : D) first blocks outs (cb : cached) s e :
  st_up d -> tables_wf (st_view d) -> in_order (st_view d) blocks -> Forall countable blocks -> Forall quiet blocks ->
  (forall k x, t_logs (st_view d) !! k = Some x -> log_Round x < first) ->
  index_blocks blocks (NewCachingBackend (NewIndexBackend d) cfg) = (Ok outs, cb) ->
  0 <= s <= e -> e < MaxUint64 -> first <= s ->
  fst (CachingBackend_GetLogs s e cb) = fst (indexBackend_GetLogs s e (cb_inner cb)).
Proof.
  intros Hup Hwf Hord Hc Hq Hold Hrun Hse He Hfs.
  assert (Hok0 : cb_ok (NewCachingBackend (NewIndexBackend d) cfg)) by (by apply cb_ok_new).
  assert (Hc0 : cached_entries (run_round []) (cb_cache (NewCachingBackend (NewIndexBackend d) cfg)))
    by (intros n ls; cbn; by rewrite lookup_empty).
  destruct (run_entries blocks [] _ outs cb [] Hok0 Hord Hq Hc0 Hrun) as (ms & Hms & Hent & (Hok & _)).
  rewrite GetLogs_from_cache by lia.
  destruct (e - s + 1 <? maxCacheSize (cb_cache cb));
    [destruct (window_logs (cb_cache cb) s (Z.to_nat (e - s + 1))) as [ls|] eqn:Ew|].
  2,3: unfold on_inner; cbn [bk_GetLogs indexBackend_Backend]; by destruct (indexBackend_GetLogs s e (cb_inner cb)).
  cbn [fst]. symmetry.
  assert (Hnd : NoDup (map (fun m => blk_Round (bm_blk m)) ms)).
  { rewrite (put_args_rounds _ _ _ _ Hms). apply rounds_NoDup, Hord. }
  destruct (window_logs_run (cb_cache cb) ms Hnd Hent (put_args_log_rounds _ _ _ _ Hms Hc)
    (block_strict _ _ _ _ Hms Hc) _ _ _ Ew) as [Hsort Hin].
  eapply (stored_range (cb_inner cb) blocks (st_view d) ms first); try done; [apply Hord|].
  intros l. rewrite Hin. split; intros [? ?]; (split; [done|lia]).
Qed.
End CachedLogs.

(** ** Witness: the block of StoreBlock.v, whose round is answered from the cache *)
Definition quietb (items : list TxWithResults) : bool :=
  forallb (fun it => match decode_tx it with
    | Ok d => IsSuccess (it_Result it) || (length (dc_logs d) =? 0)%nat
    | Err _ => true end) items.

Lemma quietb_quiet (a : index_args) : quietb a.1.1.2 = true -> quiet a.
Proof.
  unfold quietb. rewrite forallb_forall. intros Hq it d Hin%list_elem_of_In Hd Hf. specialize (Hq it Hin).
  cbv beta in Hq. rewrite Hd, Hf in Hq. cbn [orb] in Hq. by apply Nat.eqb_eq, nil_length_inv in Hq.
Qed.

Definition ex_quiet_blocks : list index_args := [(ex_oheader, take 2 ex_items, None, None)].

Lemma ex_quiet : Forall quiet ex_quiet_blocks.
Proof. constructor; [|constructor]. apply quietb_quiet. vm_compute. reflexivity. Qed.

Lemma ex_quiet_countable : Forall countable ex_quiet_blocks.
Proof.
  constructor; [|constructor]. intros st Hd.
  assert (Hs : match decode ex_oheader (take 2 ex_items) with
    | Ok st => (Z.of_nat (length (ds_logs st)) <? 2 ^ 64) && (Z.of_nat (length (ds_ethTxs st)) <? 2 ^ 32)
    | Err _ => true end = true) by (vm_compute; reflexivity).
  cbn [fst snd] in Hd. rewrite Hd in Hs. apply andb_true_iff in Hs as [H1%Z.ltb_lt H2%Z.ltb_lt]. done.
Qed.

Definition ex_cached_run (blocks : list index_args) : CachingBackend := snd (index_blocks blocks (ex_stack [])).

Lemma ex_cached_run_ok : exists outs, index_blocks ex_quiet_blocks (ex_stack []) = (Ok outs, ex_cached_run ex_quiet_blocks).
Proof.
  unfold ex_cached_run. assert (Hok : is_Ok (fst (index_blocks ex_quiet_blocks (ex_stack []))) = true) by (vm_compute; reflexivity).
  destruct (index_blocks ex_quiet_blocks (ex_stack [])) as [[outs|e] cb]; [by exists outs|done].
Qed.

Definition answer_length (r : result (list Log)) : nat := match r with Ok l => length l | Err _ => 0 end.

Lemma cached_logs_transparent_witness :
  fst (CachingBackend_GetLogs 5 5 (ex_cached_run ex_quiet_blocks)) =
    fst (indexBackend_GetLogs 5 5 (cb_inner (ex_cached_run ex_quiet_blocks))) /\
  (0 <? answer_length (fst (CachingBackend_GetLogs 5 5 (ex_cached_run ex_quiet_blocks))))%nat = true.
Proof.
  destruct ex_cached_run_ok as [outs Hrun]. split; [|vm_compute; reflexivity].
  apply (cached_logs_transparent ex_cache_cfg (ex_db []) 5 ex_quiet_blocks outs (ex_cached_run ex_quiet_blocks)).
  - constructor.
  - apply empty_tables_wf.
  - split; [repeat constructor|]. constructor; [vm_compute; discriminate|constructor].
  - exact ex_quiet_countable.
  - exact ex_quiet.
  - intros k x Hx. exfalso. revert Hx. cbn. by rewrite lookup_empty.
  - exact Hrun.
  - lia.
  - reflexivity.
  - lia.
Defined.

(** The condition on failed transactions is needed: the cache leaves out their
    logs, the database has them. *)
Lemma failed_logs_differ :
  answer_length (fst (CachingBackend_GetLogs 5 5 (ex_cached_run ex_blocks))) <>
  answer_length (fst (indexBackend_GetLogs 5 5 (cb_inner (ex_cached_run ex_blocks)))).
Proof. vm_compute. discriminate. Qed.

(** A failed transaction that had failed in an earlier block already is not
    stored again, so the database has no transaction for the second block; the
    cached block still has it.  The answer for the block changes when the block
    leaves the cache. *)
Definition ex_failed : list TxWithResults := [ex_item "evm.ethereum.v0" [Byte.x0b; Byte.x62] None []].
Definition ex_resubmitted : list index_args :=
  [(ex_oheader, ex_failed, None, None); (mkExHeader "h6" 6 : @oheader _ ex_OasisLib, ex_failed, None, None)].

Lemma cached_count_differs :
  fst (CachingBackend_GetBlockTransactionCountByRound 6 (ex_cached_run ex_resubmitted)) = Ok 1 /\
  fst (indexBackend_GetBlockTransactionCountByRound 6 (cb_inner (ex_cached_run ex_resubmitted))) = Ok 0.
Proof. vm_compute. done. Qed.
