(* ===== verification/CacheMetrics.v ===== *)
(** * The hit and miss counters of the cache (src/indexer/backend_cache.go)

    The lookups of the caching backend count hits and misses when metrics are
    enabled; a worker moves the counts to gauges.  [Tracked] is the caching
    backend of Cache.v with its counters; the counters are atomic, so the worker
    and the lookups interleave between single operations on them. *)
From S2P Require Import Prelude GoLib Model Sql Storage Psql Extern BlockModels EthViews StoreBlock IndexBackend Cache.

(** ** The counters *)
Record cacheMetrics := mkCacheMetrics {
  cm_hits : Z;
  cm_misses : Z;
}.

Definition OnHit (m : cacheMetrics) : cacheMetrics := mkCacheMetrics (u64 (cm_hits m + 1)) (cm_misses m).
Definition OnMiss (m : cacheMetrics) : cacheMetrics := mkCacheMetrics (cm_hits m) (u64 (cm_misses m + 1)).

(** The three gauges of a label. *)
Record gauges := mkGauges {
  ga_hits : float64;
  ga_misses : float64;
  ga_ratio : float64;
}.

(** The two swaps of [Accumulate], and what it reports. *)
Definition swap_hits (m : cacheMetrics) : Z * cacheMetrics := (cm_hits m, mkCacheMetrics 0 (cm_misses m)).
Definition swap_misses (m : cacheMetrics) : Z * cacheMetrics := (cm_misses m, mkCacheMetrics (cm_hits m) 0).

Definition report (hits misses : Z) : gauges :=
  let total := u64 (hits + misses) in
  let fTotal := f64_of_Z total in
  mkGauges (f64_of_Z hits) (f64_of_Z misses)
    (if f64_lt (f64_of_Z 0) fTotal then f64_div (f64_of_Z hits) fTotal else f64_of_Z 1).

Definition Accumulate (m : cacheMetrics) : gauges * cacheMetrics :=
  let '(hits, m) := swap_hits m in
  let '(misses, m) := swap_misses m in
  (report hits misses, m).

(** ** The backend with its counters *)
Section Tracked.
Context `{O : OasisLib} `{!Backend B}.

Record Tracked := mkTracked {
  tr_backend : CachingBackend (B:=B);
  trackMetrics : bool;
  metricsBlockCache : cacheMetrics;
  metricsTxCache : cacheMetrics;
  metricsLogCache : cacheMetrics;
  metricsReceiptCache : cacheMetrics;
}.

Definition NewTracked (backend : B) (cfg : option CacheConfig) : Tracked :=
  let zero := mkCacheMetrics 0 0 in
  mkTracked (NewCachingBackend backend cfg) (match cfg with Some c => cc_Metrics c | None => false end) zero zero zero zero.

(** The four caches. *)
Inductive cache_kind := KBlocks | KTransactions | KLogs | KReceipts.

Definition counter (k : cache_kind) (t : Tracked) : cacheMetrics :=
  match k with
  | KBlocks => metricsBlockCache t
  | KTransactions => metricsTxCache t
  | KLogs => metricsLogCache t
  | KReceipts => metricsReceiptCache t
  end.

Definition set_counter (k : cache_kind) (m : cacheMetrics) (t : Tracked) : Tracked :=
  let '(mkTracked b tr bl tx lo rc) := t in
  match k with
  | KBlocks => mkTracked b tr m tx lo rc
  | KTransactions => mkTracked b tr bl m lo rc
  | KLogs => mkTracked b tr bl tx m rc
  | KReceipts => mkTracked b tr bl tx lo m
  end.

(** [if cb.trackMetrics { cb.metrics.OnHit() }], or [OnMiss]. *)
Definition track (k : cache_kind) (hit : bool) (t : Tracked) : Tracked :=
  if trackMetrics t then set_counter k ((if hit then OnHit else OnMiss) (counter k t)) t else t.

(** A method that looks something up first: [hit] tells from the cache whether
    it is found, and is [None] when the method returns before the lookup. *)
Definition looking_up {X} (k : cache_kind) (hit : Cache -> option bool) (m : M (CachingBackend (B:=B)) X) : M Tracked X := fun t =>
  let t' := match hit (cb_cache (tr_backend t)) with Some h => track k h t | None => t end in
  let '(r, cb) := m (tr_backend t') in
  (r, mkTracked cb (trackMetrics t') (metricsBlockCache t') (metricsTxCache t') (metricsLogCache t') (metricsReceiptCache t')).

Definition is_some {X} (o : option X) : bool := match o with Some _ => true | None => false end.

(** The number a round stands for; the latest one is unknown without blocks. *)
Definition round_number (round : Z) (c : Cache) : option Z :=
  if round =? RoundLatest then (if lastIndexedRound c =? 0 then None else Some (lastIndexedRound c)) else Some round.

Definition hit_number (round : Z) (c : Cache) : option bool :=
  n ← round_number round c; Some (is_some (cachedBlockByNumber c n)).
Definition hit_hash (h : ehash) (c : Cache) : option bool := Some (is_some (cachedBlockByHash c h)).

(** [GetLogs] counts a hit when it answers from the cache. *)
Definition hit_logs (startRound endRound : Z) (c : Cache) : option bool :=
  Some ((u64 (endRound - startRound + 1) <? maxCacheSize c) &&
    fst (logs_loop (S (S (size (logsByBlockNumber c)))) c startRound endRound false [])).

Definition tr_QueryBlockRound (h : ehash) := looking_up KBlocks (hit_hash h) (CachingBackend_QueryBlockRound h).
Definition tr_QueryBlockHash (round : Z) := looking_up KBlocks (hit_number round) (CachingBackend_QueryBlockHash round).
Definition tr_QueryTransaction (h : ehash) :=
  looking_up KTransactions (fun c => Some (is_some (cachedTxByHash c h))) (CachingBackend_QueryTransaction h).
Definition tr_GetBlockByRound (round : Z) := looking_up KBlocks (hit_number round) (CachingBackend_GetBlockByRound round).
Definition tr_GetBlockByHash (h : ehash) := looking_up KBlocks (hit_hash h) (CachingBackend_GetBlockByHash h).
Definition tr_CountByRound (round : Z) :=
  looking_up KBlocks (hit_number round) (CachingBackend_GetBlockTransactionCountByRound round).
Definition tr_CountByHash (h : ehash) := looking_up KBlocks (hit_hash h) (CachingBackend_GetBlockTransactionCountByHash h).
Definition tr_GetTransactionByBlockHashAndIndex (h : ehash) (i : Z) :=
  looking_up KBlocks (hit_hash h) (CachingBackend_GetTransactionByBlockHashAndIndex h i).
Definition tr_GetTransactionReceipt (h : ehash) :=
  looking_up KReceipts (fun c => Some (is_some (cachedReceiptByTxHash c h))) (CachingBackend_GetTransactionReceipt h).
Definition tr_GetLogs (s e : Z) := looking_up KLogs (hit_logs s e) (CachingBackend_GetLogs s e).

(** [SetObserver] of the caching backend panics: it is itself the observer. *)
Definition CachingBackend_SetObserver : M (CachingBackend (B:=B)) unit := fail ErrPanic.

(** One round of [metricsWorker]: all four counters are reported. *)
Definition metrics_iteration (t : Tracked) : list (string * gauges) * Tracked :=
  let '(g1, m1) := Accumulate (metricsBlockCache t) in
  let '(g2, m2) := Accumulate (metricsTxCache t) in
  let '(g3, m3) := Accumulate (metricsReceiptCache t) in
  let '(g4, m4) := Accumulate (metricsLogCache t) in
  ([("blocks"%string, g1); ("transactions"%string, g2); ("transaction_receipts"%string, g3); ("transaction_logs"%string, g4)],
   mkTracked (tr_backend t) (trackMetrics t) m1 m2 m4 m3).
End Tracked.

(** ** Counting does not lose anything *)

(** An operation on one counter: a lookup, or one of the worker's swaps. *)
Inductive counter_op := OpHit | OpMiss | OpSwapHits | OpSwapMisses.

(** The counter, and what the worker has taken so far. *)
Record counting := mkCounting {
  co_counter : cacheMetrics;
  co_hits : Z;
  co_misses : Z;
}.

Definition count_step (c : counting) (op : counter_op) : counting :=
  match op with
  | OpHit => mkCounting (OnHit (co_counter c)) (co_hits c) (co_misses c)
  | OpMiss => mkCounting (OnMiss (co_counter c)) (co_hits c) (co_misses c)
  | OpSwapHits => let '(n, m) := swap_hits (co_counter c) in mkCounting m (co_hits c + n) (co_misses c)
  | OpSwapMisses => let '(n, m) := swap_misses (co_counter c) in mkCounting m (co_hits c) (co_misses c + n)
  end.

Definition op_eqb (a b : counter_op) : bool :=
  match a, b with
  | OpHit, OpHit | OpMiss, OpMiss | OpSwapHits, OpSwapHits | OpSwapMisses, OpSwapMisses => true
  | _, _ => false
  end.

Definition occurrences (op : counter_op) (ops : list counter_op) : Z :=
  Z.of_nat (length (filter (fun o => op_eqb op o = true) ops)).

Lemma occurrences_cons op o ops : occurrences op (o :: ops) = (if op_eqb op o then 1 else 0) + occurrences op ops.
Proof.
  unfold occurrences. rewrite filter_cons. destruct (op_eqb op o); [rewrite decide_True by done|rewrite decide_False by done];
    cbn [length]; lia.
Qed.

Lemma counting_exact ops : forall c,
  0 <= cm_hits (co_counter c) -> 0 <= cm_misses (co_counter c) ->
  cm_hits (co_counter c) + occurrences OpHit ops < two64 -> cm_misses (co_counter c) + occurrences OpMiss ops < two64 ->
  let c' := foldl count_step c ops in
  co_hits c' + cm_hits (co_counter c') = co_hits c + cm_hits (co_counter c) + occurrences OpHit ops /\
  co_misses c' + cm_misses (co_counter c') = co_misses c + cm_misses (co_counter c) + occurrences OpMiss ops.
Proof.
  induction ops as [|op ops IH]; intros c H1 H2 H3 H4; [cbn; unfold occurrences; cbn; lia|].
  rewrite occurrences_cons in H3, H4. cbn [foldl]. cbv zeta.
  assert (Hh : 0 <= occurrences OpHit ops) by (unfold occurrences; lia).
  assert (Hm : 0 <= occurrences OpMiss ops) by (unfold occurrences; lia).
  rewrite !occurrences_cons. destruct op; cbn [op_eqb] in *.
  - destruct (IH (count_step c OpHit)) as [E1 E2]; cbn [count_step co_counter OnHit cm_hits cm_misses co_hits co_misses] in *;
      rewrite ?u64_small in * by (unfold is_u64; lia); lia.
  - destruct (IH (count_step c OpMiss)) as [E1 E2]; cbn [count_step co_counter OnMiss cm_hits cm_misses co_hits co_misses] in *;
      rewrite ?u64_small in * by (unfold is_u64; lia); lia.
  - destruct (IH (count_step c OpSwapHits)) as [E1 E2]; cbn [count_step swap_hits co_counter cm_hits cm_misses co_hits co_misses] in *;
      lia.
  - destruct (IH (count_step c OpSwapMisses)) as [E1 E2]; cbn [count_step swap_misses co_counter cm_hits cm_misses co_hits co_misses] in *;
      lia.
Qed.

(** ** Tracking changes no answer *)
Section TrackedFacts.
Context `{O : OasisLib} `{!Backend B}.
Notation Tracked := (Tracked (B:=B)).

Lemma track_backend k hit (t : Tracked) : tr_backend (track k hit t) = tr_backend t /\ trackMetrics (track k hit t) = trackMetrics t.
Proof. unfold track. destruct t as [b [|] bl tx lo rc], k; done. Qed.

(** With metrics enabled a lookup adds one to the hits or the misses of its
    cache and to nothing else; the answer, the cache and the inner backend are
    those of the method without counters. *)
Lemma looking_up_spec {X} k hit (m : M (CachingBackend (B:=B)) X) (t : Tracked) :
  let '(r, t') := looking_up k hit m t in
  (r, tr_backend t') = m (tr_backend t) /\
  counter k t' = (if trackMetrics t then
     match hit (cb_cache (tr_backend t)) with
     | Some true => OnHit (counter k t) | Some false => OnMiss (counter k t) | None => counter k t end
   else counter k t) /\
  forall k', k' <> k -> counter k' t' = counter k' t.
Proof.
  unfold looking_up. destruct (hit (cb_cache (tr_backend t))) as [h|] eqn:Eh.
  - destruct (track_backend k h t) as [-> Ht]. destruct (m (tr_backend t)) as [r cb] eqn:Em.
    split; [done|]. unfold track in *. destruct t as [b [|] bl tx lo rc]; cbn [trackMetrics] in *.
    + split; [by destruct k, h|]. intros k' Hk. destruct k, k'; try done.
    + split; [by destruct k, h|]. intros k' Hk. by destruct k'.
  - destruct (m (tr_backend t)) as [r cb]. split; [done|]. destruct t as [b [|] bl tx lo rc].
    + split; [by destruct k|]. intros k' _. by destruct k'.
    + split; [by destruct k|]. intros k' _. by destruct k'.
Qed.

(** Whether a method answers from the cache is what is counted: the inner
    backend is left alone. *)
Lemma hit_asks_nothing h (t : Tracked) : hit_hash h (cb_cache (tr_backend t)) = Some true ->
  cb_inner (tr_backend (tr_GetBlockByHash h t).2) = cb_inner (tr_backend t).
Proof.
  intros Hh. pose proof (looking_up_spec KBlocks (hit_hash h) (CachingBackend_GetBlockByHash h) t) as Hl.
  unfold tr_GetBlockByHash. destruct (looking_up _ _ _ t) as [r t']. destruct Hl as [E _].
  unfold CachingBackend_GetBlockByHash, mbind, M_bind, get_cache in E. unfold hit_hash, is_some in Hh.
  destruct (cachedBlockByHash (cb_cache (tr_backend t)) h); [|done]. injection E as _ E. cbn. by rewrite E.
Qed.
End TrackedFacts.

(** No lookup is lost or counted twice: over any interleaving of lookups with
    the swaps of the metrics worker, as long as fewer than 2^64 of them happen,
    the hits the worker has taken and the ones still in the counter add up to
    the hits that happened, and the same for the misses. *)
Theorem cache_counts_exact ops : occurrences OpHit ops < two64 -> occurrences OpMiss ops < two64 ->
  let c := foldl count_step (mkCounting (mkCacheMetrics 0 0) 0 0) ops in
  co_hits c + cm_hits (co_counter c) = occurrences OpHit ops /\
  co_misses c + cm_misses (co_counter c) = occurrences OpMiss ops.
Proof. intros H1 H2. apply (counting_exact ops (mkCounting (mkCacheMetrics 0 0) 0 0)); cbn; lia. Qed.

Lemma cache_counts_exact_witness :
  let c := foldl count_step (mkCounting (mkCacheMetrics 0 0) 0 0) [OpHit; OpMiss; OpSwapHits; OpHit; OpSwapMisses] in
  co_hits c + cm_hits (co_counter c) = 2.
Proof.
  apply (cache_counts_exact [OpHit; OpMiss; OpSwapHits; OpHit; OpSwapMisses]); vm_compute; reflexivity.
Defined.
