(* ===== verification/StorageMetrics.v ===== *)
(** * The instrumented storage (src/storage/psql/metrics.go)

    [metricsWrapper] observes the duration of every storage call under a label; the
    histogram is the number of observations per label.  The wrapper is put around a
    [PostDB] (as process start-up does); [RunInTransaction] opens the transaction on
    that database itself and wraps the transaction again.  The instance shows that
    the wrapper is a [Storage] like the one it wraps, so that everything proved
    about the clients of the interface holds with monitoring enabled. *)
From S2P Require Import Prelude Model Sql Storage Psql ApiMetrics.

Record metricsWrapper (D : Type) := mkMetricsWrapper {
  mw_s : D;
  mw_durations : gmap string Z;
}.
Arguments mkMetricsWrapper {D} _ _.
Arguments mw_s {D} _.
Arguments mw_durations {D} _.

Definition psql_NewMetricsWrapper {D} (s : D) : metricsWrapper D := mkMetricsWrapper s ∅.

(** [reflect.TypeOf(t).String()] of the values that are passed. *)
Definition getTypeName (t : table) : string :=
  match t with
  | TBlock => "*model.Block"
  | TTransaction => "*model.Transaction"
  | TReceipt => "*model.Receipt"
  | TLog => "*model.Log"
  | TIndexedRound => "*model.IndexedRoundWithTip"
  end.

Definition typed_label (op : string) (t : table) : string := op +:+ "(" +:+ getTypeName t +:+ ")".

(** A call on the wrapped storage. *)
Definition on_wrapped {D A} (m : M D A) : M (metricsWrapper D) A := fun w =>
  let '(r, d) := m (mw_s w) in (r, mkMetricsWrapper d (mw_durations w)).

(** [defer measureDuration(label)()] around the call. *)
Definition measureDuration {D A} (label : string) (m : M D A) : M (metricsWrapper D) A := fun w =>
  let '(r, d) := m (mw_s w) in (r, mkMetricsWrapper d (add label 1 (mw_durations w))).

Section StorageMetrics.
Context `{SqlDB D}.

(** The database the wrapper reaches through [postDB.DB]. *)
#[local] Instance wrapped_SqlDB : SqlDB (metricsWrapper D) := {|
  db_view w := db_view (mw_s w);
  db_pending w := db_pending (mw_s w);
  db_up w := db_up (mw_s w);
  db_live w := db_live (mw_s w);
  db_select t h q := on_wrapped (db_select t h q);
  db_write h w := on_wrapped (db_write h w);
  db_begin := on_wrapped db_begin;
  db_commit := on_wrapped db_commit;
  db_rollback w := mkMetricsWrapper (db_rollback (mw_s w)) (mw_durations w);
|}.

(** The transaction is opened, committed and rolled back on the database; the
    function gets the wrapped transaction. *)
Definition metricsWrapper_RunInTransaction {A} (h : handle) (fn : handle -> M (metricsWrapper D) A)
    : M (metricsWrapper D) A :=
  match h with
  | HTx => fail (ErrNew "already in a transaction")
  | HDb =>
      _ ← db_begin;
      attempt (fn HTx) (fun r => match r with
        | Err e => fun w => (Err e, db_rollback w)
        | Ok a => _ ← db_commit; mret a
        end)
  end.

Definition metricsWrapper_Storage : Storage (metricsWrapper D) := {|
  st_view w := db_view (mw_s w);
  st_pending w := db_pending (mw_s w);
  st_up w := db_up (mw_s w);
  st_live w := db_live (mw_s w);
  st_Insert h t v := measureDuration (typed_label "Insert" t) (PostDB_Insert h t v);
  st_InsertIfNotExists h t v := measureDuration (typed_label "InsertIfNotExists" t) (PostDB_InsertIfNotExists h t v);
  st_Upsert h t v := measureDuration (typed_label "Upsert" t) (PostDB_Upsert h t v);
  st_Delete h t n := measureDuration (typed_label "Delete" t) (PostDB_Delete h t n);
  st_GetBlockRound h hash := measureDuration "GetBlockRound" (PostDB_GetBlockRound h hash);
  st_GetBlockHash h n := measureDuration "GetBlockHash" (PostDB_GetBlockHash h n);
  st_GetLatestBlockHash h := measureDuration "GetLastestBlockHash" (PostDB_GetLatestBlockHash h);
  st_GetLastIndexedRound h := measureDuration "GetLastIndexedRound" (PostDB_GetLastIndexedRound h);
  st_GetLastRetainedRound h := measureDuration "GetLastRetainedRound" (PostDB_GetLastRetainedRound h);
  st_GetTransaction h hash := measureDuration "GetTransaction" (PostDB_GetTransaction h hash);
  st_GetLatestBlockNumber h := measureDuration "GetLastestBlockNumber" (PostDB_GetLatestBlockNumber h);
  st_GetBlockByHash h hash := measureDuration "GetBlockByHash" (PostDB_GetBlockByHash h hash);
  st_GetBlockByNumber h n := measureDuration "GetBlockByNumber" (PostDB_GetBlockByNumber h n);
  st_GetBlockTransactionCountByNumber h n :=
    measureDuration "GetBlockTransactionCountByNumber" (PostDB_GetBlockTransactionCountByNumber h n);
  st_GetBlockTransactionCountByHash h hash :=
    measureDuration "GetBlockTransactionCountByHash" (PostDB_GetBlockTransactionCountByHash h hash);
  st_GetBlockTransaction h hash i := measureDuration "GetBlockTransaction" (PostDB_GetBlockTransaction h hash i);
  st_GetTransactionReceipt h hash := measureDuration "GetTransactionReceipt" (PostDB_GetTransactionReceipt h hash);
  st_GetLogs h start stop := measureDuration "GetLogs" (PostDB_GetLogs h start stop);
  st_RunInTransaction := @metricsWrapper_RunInTransaction;
|}.

(** ** The wrapper keeps the laws *)
Context `{!SqlLaws D}.

(** The laws of the database, with the histogram carried along. *)
Local Ltac lift_law L w :=
  let r := fresh "r" in let d := fresh "d" in let E := fresh "E" in let Hr := fresh "Hr" in
  destruct L as (r & d & E & Hr); exists r, (mkMetricsWrapper d (mw_durations w));
  split; [cbn; unfold on_wrapped; by rewrite E|exact Hr].

#[local] Instance wrapped_SqlLaws : SqlLaws (metricsWrapper D).
Proof.
  split.
  - intros t h q w. lift_law (law_select t h q (mw_s w)) w.
  - intros h x w. lift_law (law_write h x (mw_s w)) w.
  - intros w. lift_law (law_begin (mw_s w)) w.
  - intros w. lift_law (law_commit (mw_s w)) w.
  - intros w. exact (law_rollback (mw_s w)).
Qed.

Lemma measure_read {A} label h (m : M D A) P : st_read h m P ->
  @st_read _ metricsWrapper_Storage A h (measureDuration label m) P.
Proof.
  intros Hm w. destruct (Hm (mw_s w)) as (r & d & E & Hr). exists r, (mkMetricsWrapper d (add label 1 (mw_durations w))).
  split; [unfold measureDuration; by rewrite E|exact Hr].
Qed.

Lemma measure_writes label h (m : M D unit) x : st_writes h m x ->
  @st_writes _ metricsWrapper_Storage h (measureDuration label m) x.
Proof.
  intros Hm w. destruct (Hm (mw_s w)) as (r & d & E & Hr). exists r, (mkMetricsWrapper d (add label 1 (mw_durations w))).
  split; [unfold measureDuration; by rewrite E|exact Hr].
Qed.

Lemma metricsWrapper_laws : @StorageLaws _ metricsWrapper_Storage.
Proof.
  pose proof (PostDB_laws (D:=D)) as HL. split; intros;
    try (apply measure_writes; first [apply (st_law_Insert (StorageLaws:=HL))
      | apply (st_law_InsertIfNotExists (StorageLaws:=HL)) | apply (st_law_Upsert (StorageLaws:=HL))
      | apply (st_law_Delete (StorageLaws:=HL))]);
    try (apply measure_read; apply HL).
  - done.
  - exact (RunInTransaction_law (D:=metricsWrapper D) A fn d).
Qed.
End StorageMetrics.

(** C35: Monitoring the storage changes no answer of the database: the wrapper keeps
    every law of the storage interface on any database that executes SQL statements
    as documented, each call is observed once under its label, and transactions opened
    through the wrapper are all or nothing as before. *)
Theorem metricsWrapper_refines_Storage (D : Type) `{SqlDB D, !SqlLaws D} :
  @StorageLaws _ (metricsWrapper_Storage (D:=D)) /\
  (forall A label (m : M D A) (w : metricsWrapper D),
     (measureDuration label m w).1 = (m (mw_s w)).1 /\
     value (mw_durations (measureDuration label m w).2) label = value (mw_durations w) label + 1).
Proof.
  split; [apply metricsWrapper_laws|]. intros A label m w. unfold measureDuration.
  destruct (m (mw_s w)) as [r d]. split; [done|]. cbn [snd mw_durations]. rewrite value_add.
  by rewrite bool_decide_eq_true_2.
Qed.

Lemma metricsWrapper_refines_Storage_witness : @StorageLaws _ (metricsWrapper_Storage (D:=MemDB)).
Proof. apply (metricsWrapper_refines_Storage MemDB). Defined.
