(* ===== verification/SqlFile.v ===== *)
(** * SQL migration files (src/db/migrator/migration.go: NewSQLMigrationFunc)

    A migration file is a sequence of lines.  A line [--bun:split] ends a query, any
    other line that starts with [--bun:] is an error, and the queries are executed in
    order.  Files are lists of bytes; the scanner is [bufio.Scanner] with its default
    split function and its default limit on the length of a line. *)
From Stdlib Require Import Ascii.
From S2P Require Import Prelude GoLib Migrator.

Local Abbreviation bytes := (list ascii).

Definition nl : ascii := "010"%char.
Definition cr : ascii := "013"%char.

(** [bufio.ScanLines] without its removal of a carriage return: the lines of a text;
    the last one may lack its newline. *)
Fixpoint scan_lines (acc s : bytes) : list bytes :=
  match s with
  | [] => match acc with [] => [] | _ => [rev acc] end
  | c :: s => if bool_decide (c = nl) then rev acc :: scan_lines [] s else scan_lines (c :: acc) s
  end.

Definition dropCR (line : bytes) : bytes :=
  match last line with
  | Some c => if bool_decide (c = cr) then removelast line else line
  | None => line
  end.

Definition MaxScanTokenSize : Z := 64 * 1024.
Definition ErrTooLong : error := ErrNew "bufio.Scanner: token too long".

Definition directive : bytes := String.list_ascii_of_string "--bun:".

(** The loop over the lines. *)
Fixpoint sql_queries (lines : list bytes) (query : bytes) (queries : list bytes) : result (list bytes) :=
  match lines with
  | [] => Ok (match query with [] => queries | _ => queries ++ [query] end)
  | line :: lines =>
      if MaxScanTokenSize <=? Z.of_nat (length line) then Err ErrTooLong
      else
        let b := dropCR line in
        if bool_decide (directive `prefix_of` b) then
          let b := drop (length directive) b in
          if bool_decide (b = String.list_ascii_of_string "split") then sql_queries lines [] (queries ++ [query])
          else Err (ErrWrap "bun: unknown directive" (ErrNew (String.string_of_list_ascii b)))
        else sql_queries lines (query ++ b ++ [nl]) queries
  end.

Section SqlFile.
(** The embedded files, and a query on the content of the database. *)
Context {U : Type} (Open : string -> result bytes) (ExecContext : U -> bytes -> result U).

Definition NewSQLMigrationFunc (name : string) (u : U) : result U :=
  f ← Open name;
  queries ← sql_queries (scan_lines [] f) [] [];
  rfold ExecContext u queries.

(** ** Writing a file *)
Definition line_text (line : bytes) : bytes := line ++ [nl].
Definition query_text (lines : list bytes) : bytes := concat (line_text <$> lines).
Definition split_line : bytes := directive ++ String.list_ascii_of_string "split".

(** The queries, each a list of lines, with a directive between two of them. *)
Fixpoint file_lines (queries : list (list bytes)) (final : list bytes) : list bytes :=
  match queries with
  | [] => final
  | q :: queries => q ++ split_line :: file_lines queries final
  end.

(** A line the scanner hands on as it is. *)
Definition plain_line (line : bytes) : Prop :=
  nl ∉ line /\ last line <> Some cr /\ ~ directive `prefix_of` line /\ Z.of_nat (length line) < MaxScanTokenSize.

Lemma scan_line acc line s : nl ∉ line -> scan_lines acc (line_text line ++ s) = (rev acc ++ line) :: scan_lines [] s.
Proof.
  unfold line_text. revert acc. induction line as [|c line IH]; intros acc Hn.
  - cbn. by rewrite app_nil_r.
  - apply not_elem_of_cons in Hn as [Hc Hn]. cbn. rewrite bool_decide_eq_false_2 by congruence.
    rewrite IH by done. cbn [rev]. by rewrite <- app_assoc.
Qed.

Lemma scan_text lines : Forall (fun l => nl ∉ l) lines -> scan_lines [] (query_text lines) = lines.
Proof.
  induction 1 as [|l lines Hl _ IH]; [done|]. unfold query_text in *. cbn [fmap list_fmap concat].
  rewrite scan_line by done. by rewrite IH.
Qed.

Lemma dropCR_plain l : last l <> Some cr -> dropCR l = l.
Proof. unfold dropCR. destruct (last l); [|done]. intros Hn. rewrite bool_decide_eq_false_2 by congruence. done. Qed.

Lemma plain_step l lines query queries : plain_line l ->
  sql_queries (l :: lines) query queries = sql_queries lines (query ++ line_text l) queries.
Proof.
  intros (_ & Hc & Hd & Hl). cbn [sql_queries]. rewrite (proj2 (Z.leb_gt _ _) Hl), dropCR_plain by done.
  by rewrite bool_decide_eq_false_2.
Qed.

Lemma plain_steps ls lines query queries : Forall plain_line ls ->
  sql_queries (ls ++ lines) query queries = sql_queries lines (query ++ query_text ls) queries.
Proof.
  intros Hls. revert query. induction Hls as [|l ls Hl _ IH]; intros query; [by rewrite app_nil_r|].
  rewrite <- app_comm_cons, plain_step, IH by done. unfold query_text. cbn. by rewrite <- app_assoc.
Qed.

Lemma split_step lines query queries :
  sql_queries (split_line :: lines) query queries = sql_queries lines [] (queries ++ [query]).
Proof. reflexivity. Qed.

Lemma file_queries qs final : Forall (Forall plain_line) qs -> Forall plain_line final -> final <> [] ->
  forall queries, sql_queries (file_lines qs final) [] queries = Ok (queries ++ (query_text <$> qs ++ [final])).
Proof.
  intros Hqs Hf Hne. induction Hqs as [|q qs Hq _ IH]; intros queries; cbn [file_lines].
  - rewrite <- (app_nil_r final) at 1. rewrite plain_steps by done. cbn.
    destruct final as [|[|c l] rest]; [done| |]; by rewrite ?app_nil_r.
  - rewrite plain_steps, split_step, IH by done. cbn. by rewrite <- app_assoc.
Qed.

Lemma file_lines_no_nl qs final : Forall (Forall plain_line) qs -> Forall plain_line final ->
  Forall (fun l => nl ∉ l) (file_lines qs final).
Proof.
  assert (Hp : forall l, Forall plain_line l -> Forall (fun l => nl ∉ l) l)
    by (intros l Hl; apply (Forall_impl _ _ _ Hl); by intros ? []).
  intros Hqs Hf. induction Hqs as [|q qs Hq _ IH]; cbn [file_lines]; [auto|].
  apply Forall_app. split; [auto|]. constructor; [by apply (bool_decide_unpack _)|done].
Qed.

(** C38: A migration file is executed as it was written: from a file whose queries,
    with a [--bun:split] line between two of them, consist of lines that are no
    directives, exactly these queries are executed, in order, until one fails. *)
Theorem NewSQLMigrationFunc_executes name qs final u :
  Open name = Ok (query_text (file_lines qs final)) ->
  Forall (Forall plain_line) qs -> Forall plain_line final -> final <> [] ->
  NewSQLMigrationFunc name u = rfold ExecContext u (query_text <$> qs ++ [final]).
Proof.
  intros Ho Hqs Hf Hne. unfold NewSQLMigrationFunc. rewrite Ho. cbn [mbind result_bind].
  by rewrite scan_text, file_queries by (done || by apply file_lines_no_nl).
Qed.
End SqlFile.

(** ** Witness: two statements *)
Definition ex_stmt (s : string) : list (list ascii) := [String.list_ascii_of_string s; []].

Lemma NewSQLMigrationFunc_executes_witness :
  NewSQLMigrationFunc (fun _ => Ok (query_text (file_lines [ex_stmt "CREATE TABLE a;"] (ex_stmt "CREATE TABLE b;"))))
    (fun u q => Ok (u ++ [q])) "1.up.sql" [] =
  Ok [query_text (ex_stmt "CREATE TABLE a;"); query_text (ex_stmt "CREATE TABLE b;")].
Proof.
  assert (Hp : forall l, bool_decide (nl ∉ l /\ last l <> Some cr /\ ~ directive `prefix_of` l /\ (length l < 100)%nat) = true -> plain_line l).
  { intros l (H1 & H2 & H3 & H4)%bool_decide_eq_true. split_and!; try done. unfold MaxScanTokenSize. lia. }
  transitivity (rfold (fun u q => Ok (u ++ [q])) [] (query_text <$> [ex_stmt "CREATE TABLE a;"; ex_stmt "CREATE TABLE b;"])); [|reflexivity].
  apply (NewSQLMigrationFunc_executes _ (fun u q => Ok (u ++ [q])) _ [ex_stmt "CREATE TABLE a;"] (ex_stmt "CREATE TABLE b;"));
    [reflexivity| | |discriminate]; repeat constructor; apply Hp; vm_compute; reflexivity.
Defined.
