(* ===== verification/LogsMigration.v ===== *)
(** * The logs migration and the registered migrations (src/db/migrations)

    [LogsUp] renumbers the logs of every indexed round from 0.  It runs in the
    transaction of the migrator, so on the handle [HTx] of a database given by the
    laws of Sql.v; the columns of its private [Log] type are those of the model.  The
    bulk insert is one statement: since an error aborts the transaction, it is the
    sequence of the single inserts.  [DropTables] runs on the catalogue of a
    PostgreSQL database with a script of faults. *)
From S2P Require Import Prelude GoLib Model Sql Storage Psql Migrator SqlFile.

Section LogsMigration.
Context `{SqlDB D}.

Definition batchSize : Z := 100.

(** [Where("tip = ?", tip).Scan]: 0 when there is no such row. *)
Definition getTip (tip : string) : M D Z :=
  attempt (scan_one HTx (where_ (t:=TIndexedRound) (fun x => bool_decide (ir_Tip x = tip)))) (fun r =>
    match r with
    | Ok i => mret (ir_Round i)
    | Err e => if errors_Is e ErrNoRows then mret 0 else fail e
    end).

Definition mig_GetLastRetainedRound : M D Z := getTip LastRetained.
Definition mig_GetLastIndexedRound : M D Z := getTip Continues.

(** [round BETWEEN a AND b] *)
Definition between (a b : Z) (l : Log) : bool := (a <=? log_Round l) && (log_Round l <=? b).

Definition mig_GetLogs (startRound endRound : Z) : M D (list Log) :=
  db_select TLog HTx (mkQuery (t:=TLog) (between startRound endRound) (fun l => [log_Round l]) None).

Definition DeleteLogs (startRound endRound : Z) : M D unit :=
  _ ← db_write HTx (WDelete TLog (between startRound endRound)); mret tt.

Definition InsertLogs (values : list Log) : M D unit :=
  mfold (fun _ l => _ ← db_write HTx (WInsert TLog l NoClause); mret tt) tt values.

(** [Upsert], which [LogsUp] does not call. *)
Definition mig_Upsert (t : table) (value : row t) : M D unit :=
  _ ← db_write HTx (WInsert t value DoUpdate); mret tt.

Definition with_Index (l : Log) (i : Z) : Log :=
  mkLog (log_Address l) (log_Topics l) (log_Data l) (log_Round l) (log_BlockHash l) (log_TxHash l)
    (log_TxIndex l) i (log_Removed l).

(** The loop over the logs of a batch, with [currentIdx] and [currentRound]. *)
Fixpoint renumber (currentIdx currentRound : Z) (logs : list Log) : list Log :=
  match logs with
  | [] => []
  | l :: logs' =>
      let '(currentIdx, currentRound) :=
        if negb (log_Round l =? currentRound) then (0, log_Round l) else (currentIdx, currentRound) in
      with_Index l currentIdx :: renumber (u64 (currentIdx + 1)) currentRound logs'
  end.

(** [fmt.Errorf(msg + ": %w", err)] *)
Definition wrap_err {A} (msg : string) (m : M D A) : M D A :=
  attempt m (fun r => match r with Ok a => mret a | Err e => fail (ErrWrap msg e) end).

(** One batch. *)
Definition migrate_batch (bs be : Z) : M D unit :=
  logs ← wrap_err "GetLogs" (mig_GetLogs bs be);
  _ ← wrap_err "DeleteLogs" (DeleteLogs bs be);
  let logs := renumber 0 bs logs in
  if (0 <? length logs)%nat then wrap_err "BulkInsert" (InsertLogs logs) else mret tt.

(** [for i := start; i <= end; i += batchSize] *)
Fixpoint batches (fuel : nat) (i end_ : Z) : M D unit :=
  match fuel with
  | 0%nat => fail ErrFuel
  | S fuel' =>
      if i <=? end_ then
        _ ← migrate_batch i (Z.min ((i + batchSize)%u64 - 1)%u64 end_);
        batches fuel' (i + batchSize)%u64 end_
      else mret tt
  end.

(** One iteration per hundred rounds, and one to see the end. *)
Definition batch_fuel (start end_ : Z) : nat := S (Z.to_nat ((end_ - start) / batchSize + 1)).

Definition LogsUp : M D unit :=
  start ← wrap_err "GetLastRetainedRound" mig_GetLastRetainedRound;
  end_ ← wrap_err "GetLastIndexedRound" mig_GetLastIndexedRound;
  batches (batch_fuel start end_) start end_.
End LogsMigration.

(** ** The numbering *)
(** A log without its index. *)
Definition erase (l : Log) : Log := with_Index l 0.

Lemma renumber_erase logs : forall i r, erase <$> renumber i r logs = erase <$> logs.
Proof.
  induction logs as [|l logs IH]; intros i r; [done|]. cbn [renumber].
  destruct (negb _); rewrite !fmap_cons, IH; done.
Qed.

Lemma renumber_rounds logs i r : log_Round <$> renumber i r logs = log_Round <$> logs.
Proof.
  pose proof (renumber_erase logs i r) as E. apply (f_equal (fmap log_Round)) in E.
  by rewrite <- !list_fmap_compose in E.
Qed.

Lemma renumber_length logs i r : length (renumber i r logs) = length logs.
Proof. pose proof (f_equal length (renumber_erase logs i r)) as E. by rewrite !length_fmap in E. Qed.

Lemma filter_length_split {A} (p : A -> bool) (l : list A) :
  (length (filter (fun x => p x = false) l) + length (filter (fun x => p x = true) l))%nat = length l.
Proof. induction l as [|x l IH]; [done|]. rewrite !filter_cons. destruct (p x); repeat case_decide; try done; cbn [length]; lia. Qed.

(** Sorted by round, from [r] on. *)
Definition rounds_from (r : Z) (logs : list Log) : Prop :=
  StronglySorted (fun a b => log_Round a <= log_Round b) logs /\ Forall (fun l => r <= log_Round l) logs.

Lemma rounds_from_cons r l logs : rounds_from r (l :: logs) -> r <= log_Round l /\ rounds_from (log_Round l) logs.
Proof. intros [Hs Hr]. apply StronglySorted_inv in Hs as [Hs Hl]. apply Forall_cons in Hr as [? _]. done. Qed.

Lemma renumber_below r i r0 logs : rounds_from r0 logs -> r < r0 ->
  filter (fun l => log_Round l = r) (renumber i r0 logs) = [].
Proof.
  intros [_ Hr] Hlt. apply filter_none, Forall_forall. intros l Hl.
  assert (Hin : log_Round l ∈ log_Round <$> renumber i r0 logs) by (apply list_elem_of_fmap; eauto).
  rewrite renumber_rounds in Hin. apply list_elem_of_fmap in Hin as (l' & -> & Hl').
  rewrite Forall_forall in Hr. specialize (Hr _ Hl'). cbn in Hr. lia.
Qed.

(** The indices of the round that is being numbered go on from [i]; those of a later
    round start at 0. *)
Lemma renumber_round r logs : forall i r0, rounds_from r0 logs -> 0 <= i -> i + Z.of_nat (length logs) < two64 ->
  log_Index <$> filter (fun l => log_Round l = r) (renumber i r0 logs) =
  seqZ (if decide (r = r0) then i else 0)
    (Z.of_nat (length (filter (fun l => log_Round l = r) logs))).
Proof.
  induction logs as [|l logs IH]; intros i r0 Hs Hi Hb; [done|].
  apply rounds_from_cons in Hs as [Hr Hs]. cbn [renumber]. cbn [length] in Hb.
  set (i0 := if negb (log_Round l =? r0) then 0 else i).
  assert (Hi0 : 0 <= i0 <= i) by (unfold i0; destruct (negb _); lia).
  assert (E : (if negb (log_Round l =? r0) then (0, log_Round l) else (i, r0)) = (i0, log_Round l)).
  { unfold i0. destruct (Z.eqb_spec (log_Round l) r0) as [->|]; done. }
  rewrite E, !filter_cons. cbn [with_Index log_Round].
  rewrite u64_small by u64_lia.
  destruct (decide (log_Round l = r)) as [Hl|Hl].
  - rewrite fmap_cons, (IH (i0 + 1) (log_Round l)) by (done || lia). rewrite (decide_True (P:=r = log_Round l)) by done.
    cbn [length with_Index log_Index]. rewrite (seqZ_cons _ (Z.of_nat (S _))) by lia.
    assert (Ei : i0 = if decide (r = r0) then i else 0).
    { unfold i0. destruct (Z.eqb_spec (log_Round l) r0); cbn [negb]; case_decide; congruence. }
    rewrite <- Ei. f_equal. f_equal; lia.
  - rewrite (IH (i0 + 1) (log_Round l)) by (done || lia). rewrite (decide_False (P:=r = log_Round l)) by congruence.
    case_decide as Hd; [|done]. subst r0.
    (* all later rounds are above the first one *)
    assert (filter (fun x => log_Round x = r) logs = []) as ->; [|done].
    apply filter_none. destruct Hs as [_ Hall].
    eapply Forall_impl; [exact Hall|]. cbn. intros. lia.
Qed.

(** ** What a migration of rounds does to the stored logs *)
Definition vals (m : gmap key Log) : list Log := (map_to_list m).*2.

Definition in_round (r : Z) (L : list Log) : list Log := filter (fun l => log_Round l = r) L.

(** The logs of the rounds from [a] to [b] are numbered from 0 in each round and are
    otherwise the same logs; the other rounds are as before. *)
Definition logs_migrated (a b : Z) (L L' : list Log) : Prop := forall r,
  (~ (a <= r <= b) -> in_round r L' ≡ₚ in_round r L) /\
  (a <= r <= b -> erase <$> in_round r L' ≡ₚ erase <$> in_round r L /\
     log_Index <$> in_round r L' ≡ₚ seqZ 0 (Z.of_nat (length (in_round r L)))).

Lemma logs_migrated_empty a b L : b < a -> logs_migrated a b L L.
Proof. intros Hab r. split; [done|lia]. Qed.

#[export] Instance in_round_proper r : Proper ((≡ₚ) ==> (≡ₚ)) (in_round r).
Proof. intros L L' E. unfold in_round. by rewrite E. Qed.

Lemma logs_migrated_perm a b L L1 L2 : L1 ≡ₚ L2 -> logs_migrated a b L L1 -> logs_migrated a b L L2.
Proof. intros E Hm r. destruct (Hm r) as [H1 H2]. rewrite <- E. auto. Qed.

Lemma logs_migrated_trans a b c L L1 L2 : a <= b + 1 -> b <= c ->
  logs_migrated a b L L1 -> logs_migrated (b + 1) c L1 L2 -> logs_migrated a c L L2.
Proof.
  intros Hab Hbc H1 H2 r. destruct (H1 r) as [A1 B1], (H2 r) as [A2 B2]. split; intros Hr.
  - rewrite A2 by lia. apply A1. lia.
  - destruct (decide (r <= b)) as [Hle|Hgt].
    + rewrite (A2 ltac:(lia)). apply B1. lia.
    + destruct (B2 ltac:(lia)) as [Be Bi]. rewrite Be, Bi, (A1 ltac:(lia)). done.
Qed.

(** Every log after the migration is one from before, up to its index. *)
Lemma logs_migrated_elem a b L L' l' : logs_migrated a b L L' -> l' ∈ L' -> exists l, l ∈ L /\ erase l = erase l'.
Proof.
  intros Hm Hl. destruct (Hm (log_Round l')) as [A B].
  assert (Hin : l' ∈ in_round (log_Round l') L') by (by apply list_elem_of_filter).
  destruct (decide (a <= log_Round l' <= b)) as [Hr|Hr].
  - destruct (B Hr) as [Be _].
    assert (He : erase l' ∈ erase <$> in_round (log_Round l') L) by (rewrite <- Be; apply list_elem_of_fmap; eauto).
    apply list_elem_of_fmap in He as (l & El & [_ ?]%list_elem_of_filter). eauto.
  - rewrite (A Hr) in Hin. apply list_elem_of_filter in Hin as [_ ?]. eauto.
Qed.

Lemma in_round_erase r L : erase <$> in_round r L = in_round r (erase <$> L).
Proof. unfold in_round. by rewrite filter_fmap. Qed.

(** The renumbered batch in place of the old one. *)
Lemma batch_logs_migrated bs be L l : bs <= be -> l ≡ₚ filter (fun x => between bs be x = true) L ->
  rounds_from bs l -> Z.of_nat (length l) < two64 ->
  logs_migrated bs be L (filter (fun x => between bs be x = false) L ++ renumber 0 bs l).
Proof.
  intros Hb Hl Hs Hlen r. unfold in_round. rewrite filter_app.
  assert (Hbw : forall x, between bs be x = true <-> bs <= log_Round x <= be) by (intros x; unfold between; lia).
  split; intros Hr.
  - (* other rounds *)
    rewrite (filter_none _ (renumber 0 bs l)).
    + rewrite app_nil_r, list_filter_filter. erewrite list_filter_iff; [done|]. intros x. cbn.
      pose proof (Hbw x). destruct (between bs be x); naive_solver lia.
    + apply Forall_forall. intros x Hx Hxr.
      assert (Hin : log_Round x ∈ log_Round <$> l) by (rewrite <- (renumber_rounds l 0 bs); apply list_elem_of_fmap; eauto).
      apply list_elem_of_fmap in Hin as (y & Ey & Hy). rewrite Hl in Hy. apply list_elem_of_filter in Hy as [Hy _].
      apply Hbw in Hy. lia.
  - (* the rounds of the batch *)
    rewrite (filter_none _ (filter _ L)); cbn [app].
    2: { apply Forall_forall. intros x [Hx _]%list_elem_of_filter Hxr. pose proof (Hbw x). destruct (between bs be x); naive_solver lia. }
    assert (Hsame : filter (fun x => log_Round x = r) l ≡ₚ filter (fun x => log_Round x = r) L).
    { rewrite Hl, list_filter_filter. erewrite list_filter_iff; [done|]. intros x. cbn. pose proof (Hbw x). naive_solver lia. }
    split.
    + change (erase <$> in_round r (renumber 0 bs l) ≡ₚ erase <$> in_round r L).
      rewrite in_round_erase, renumber_erase, <- in_round_erase. unfold in_round. by rewrite Hsame.
    + rewrite renumber_round by (done || lia). rewrite Hsame. by case_decide.
Qed.

(** ** No two renumbered logs have the same key *)
Lemma NoDup_fmap_pair {A} (f g : A -> Z) (N : list A) :
  (forall r, NoDup (g <$> filter (fun x => f x = r) N)) -> NoDup ((fun x => (f x, g x)) <$> N).
Proof.
  induction N as [|x N IH]; intros Hn; [constructor|]. rewrite fmap_cons, NoDup_cons. split.
  - intros (y & [= Ef Eg] & Hy)%list_elem_of_fmap. specialize (Hn (f x)).
    rewrite filter_cons_True, fmap_cons, NoDup_cons in Hn by done. apply Hn, list_elem_of_fmap.
    exists y. split; [done|]. apply list_elem_of_filter. auto.
  - apply IH. intros r. specialize (Hn r). rewrite filter_cons in Hn. case_decide; [|done].
    rewrite fmap_cons, NoDup_cons in Hn. apply Hn.
Qed.

Lemma NoDup_fmap_weaken {A B C} (h : A -> B) (k : A -> C) (N : list A) :
  (forall x y, x ∈ N -> y ∈ N -> k x = k y -> h x = h y) -> NoDup (h <$> N) -> NoDup (k <$> N).
Proof.
  induction N as [|x N IH]; intros Hk; [constructor|]. rewrite !fmap_cons, !NoDup_cons. intros [Hx Hn]. split.
  - intros (y & Ek & Hy)%list_elem_of_fmap. apply Hx, list_elem_of_fmap. exists y. split; [|done].
    apply Hk; [by left|by right|done].
  - apply IH; [|done]. intros y z Hy Hz. apply Hk; by right.
Qed.

(** A transaction belongs to one round. *)
Definition one_round (L : list Log) : Prop :=
  forall x y, x ∈ L -> y ∈ L -> log_TxHash x = log_TxHash y -> log_Round x = log_Round y.

Lemma renumber_elem l' i r logs : l' ∈ renumber i r logs -> exists l, l ∈ logs /\ erase l = erase l'.
Proof.
  intros Hl. assert (He : erase l' ∈ erase <$> renumber i r logs) by (apply list_elem_of_fmap; eauto).
  rewrite renumber_erase in He. apply list_elem_of_fmap in He as (l & -> & ?). eauto.
Qed.

Lemma erase_fields x y : erase x = erase y -> log_TxHash x = log_TxHash y /\ log_Round x = log_Round y.
Proof. by intros [=]. Qed.

Lemma one_round_erase (L L' : list Log) : (forall x, x ∈ L' -> exists y, y ∈ L /\ erase y = erase x) ->
  one_round L -> one_round L'.
Proof.
  intros HL Ho x y (x' & Hx & Ex)%HL (y' & Hy & Ey)%HL E.
  apply erase_fields in Ex as [Ex1 Ex2]. apply erase_fields in Ey as [Ey1 Ey2].
  rewrite <- Ex2, <- Ey2. apply Ho; congruence.
Qed.

Lemma renumber_keys bs l : rounds_from bs l -> Z.of_nat (length l) < two64 -> one_round l ->
  NoDup (pk TLog <$> renumber 0 bs l).
Proof.
  intros Hs Hlen Ho.
  apply (NoDup_fmap_weaken (fun x => (log_Round x, log_Index x))).
  - assert (Hr : one_round (renumber 0 bs l)) by (eapply one_round_erase; [|done]; intros x; apply renumber_elem).
    intros x y Hx Hy [= Eh Ei]. f_equal; [by apply Hr|done].
  - apply NoDup_fmap_pair. intros r. rewrite renumber_round by (done || lia). apply NoDup_seqZ.
Qed.

(** ** The tables as the migration sees them *)
Lemma vals_insert m k l : m !! k = None -> vals (<[k := l]> m) ≡ₚ l :: vals m.
Proof. intros Hk. unfold vals. by rewrite map_to_list_insert. Qed.

Lemma vals_filter (p : Log -> bool) m :
  vals (filter (fun kr => p kr.2 = false) m) ≡ₚ filter (fun l => p l = false) (vals m).
Proof.
  unfold vals. rewrite map_filter_alt, map_to_list_to_map, filter_fmap; [done|].
  apply NoDup_fmap_fst; [|apply NoDup_filter, NoDup_map_to_list].
  intros k x y [_ Hx]%list_elem_of_filter [_ Hy]%list_elem_of_filter.
  apply elem_of_map_to_list in Hx, Hy. congruence.
Qed.

Lemma vals_elem m l : l ∈ vals m <-> exists k, m !! k = Some l.
Proof.
  unfold vals. rewrite list_elem_of_fmap. split.
  - intros ([k l'] & -> & Hk%elem_of_map_to_list). eauto.
  - intros [k Hk]. exists (k, l). split; [done|]. by apply elem_of_map_to_list.
Qed.

Definition keyed (m : gmap key Log) : Prop := forall k l, m !! k = Some l -> pk TLog l = k.

(** A primary key that no stored row has is free. *)
Lemma keyed_free m l : keyed m -> (forall x, x ∈ vals m -> pk TLog x <> pk TLog l) -> m !! pk TLog l = None.
Proof.
  intros Hk Hn. destruct (m !! pk TLog l) as [x|] eqn:E; [|done].
  exfalso. apply (Hn x); [apply vals_elem; eauto|]. by apply Hk.
Qed.

Section Effect.
Context `{SqlDB D} `{!SqlLaws D}.

Definition tx (d : D) : Tables := db_tabs HTx d.
Definition tx_logs (d : D) : gmap key Log := t_logs (tx d).

(** Only the logs have changed. *)
Definition others_same (d d' : D) : Prop := forall t, t <> TLog -> rows t (tx d') = rows t (tx d).

Lemma others_same_trans d1 d2 d3 : others_same d1 d2 -> others_same d2 d3 -> others_same d1 d3.
Proof. intros H1 H2 t Ht. by rewrite H2, H1. Qed.

Lemma tx_select t (q : query t) d : db_ready HTx d -> exists l d',
  db_select t HTx q d = (Ok l, d') /\ db_ready HTx d' /\ tx d' = tx d /\ select_spec q (rows t (tx d)) l.
Proof.
  intros Hr. destruct (law_select t HTx q d) as (r & d' & E & [(l & -> & Hs & Hv & Hp & Hu & Hl)|(c & _ & Hn & _)]); [|done].
  exists l, d'. split; [done|]. destruct Hr as [? ?]. split; [split; auto|]. split; [|done].
  unfold tx, db_tabs. by rewrite Hv, Hp.
Qed.

Lemma tx_write w d n : db_ready HTx d -> fst (sem_write w (tx d)) = Ok n -> exists d',
  db_write HTx w d = (Ok n, d') /\ db_ready HTx d' /\ tx d' = snd (sem_write w (tx d)).
Proof.
  intros Hr Hw. destruct (law_write HTx w d) as (r & d' & E & [(k & -> & Hk & [Hu Hl] & Hv & Hp)|(c & -> & [(_ & Hc & _)|[Hn _]])]).
  - exists d'. unfold tx in *. rewrite Hw in Hk. injection Hk as <-. split; [done|]. destruct Hr as [? ?].
    split; [split; auto|]. unfold db_tabs. by rewrite Hv, Hp.
  - unfold tx in Hw. congruence.
  - done.
Qed.

Lemma InsertLogs_ok ls : forall d, db_ready HTx d -> keyed (tx_logs d) -> NoDup (pk TLog <$> ls) ->
  (forall l, l ∈ ls -> tx_logs d !! pk TLog l = None) ->
  exists d', InsertLogs ls d = (Ok tt, d') /\ db_ready HTx d' /\ keyed (tx_logs d') /\ others_same d d' /\
    vals (tx_logs d') ≡ₚ vals (tx_logs d) ++ ls.
Proof.
  unfold InsertLogs. induction ls as [|l ls IH]; intros d Hr Hk Hnd Hfree.
  { exists d. rewrite app_nil_r. done. }
  rewrite fmap_cons, NoDup_cons in Hnd. destruct Hnd as [Hl Hnd].
  assert (Hf : rows TLog (tx d) !! pk TLog l = None) by (apply (Hfree l); by left).
  destruct (tx_write (WInsert TLog l NoClause) d 1 Hr) as (d1 & E & Hr1 & Ht); [cbn [sem_write]; by rewrite Hf|].
  cbn [sem_write] in Ht. rewrite Hf in Ht. cbn [snd columns set_rows] in Ht.
  assert (Hlog : tx_logs d1 = <[pk TLog l := l]> (tx_logs d)) by (unfold tx_logs; by rewrite Ht).
  destruct (IH d1 Hr1) as (d' & E' & Hr' & Hk' & Ho & Hv); [|done| |].
  - rewrite Hlog. intros k x [[<- <-]|[_ Hx]]%lookup_insert_Some; [done|by apply Hk].
  - intros x Hx. rewrite Hlog, lookup_insert_ne; [apply Hfree; by right|]. intros Ep. apply Hl. rewrite Ep.
    apply list_elem_of_fmap. eauto.
  - exists d'. split; [|split_and!; try done].
    + cbn [mfold]. unfold mbind at 1, M_bind at 1. erewrite M_bind_ok by exact E. exact E'.
    + eapply others_same_trans; [|exact Ho]. intros t Ht'. rewrite Ht. by destruct t.
    + rewrite Hv, Hlog, vals_insert by done. cbn [app]. apply Permutation_middle.
Qed.

Lemma sorted_rounds (l : list Log) :
  Sorted (fun a b => lexle [log_Round a] [log_Round b]) l -> StronglySorted (fun a b => log_Round a <= log_Round b) l.
Proof.
  assert (Hle : forall a b : Log, lexle [log_Round a] [log_Round b] <-> log_Round a <= log_Round b).
  { intros a b. cbn. destruct (Z.ltb_spec (log_Round a) (log_Round b)), (Z.eqb_spec (log_Round a) (log_Round b)); cbn; naive_solver lia. }
  intros Hs. eapply StronglySorted_mono; [intros x y; apply Hle|]. apply Sorted_StronglySorted; [|exact Hs].
  intros x y z. rewrite !Hle. lia.
Qed.

(** What the migration needs of the stored logs: they are under their keys, a
    transaction belongs to one round, and there are less than 2^64 of them. *)
Definition logs_ok (d : D) : Prop :=
  keyed (tx_logs d) /\ one_round (vals (tx_logs d)) /\ Z.of_nat (length (vals (tx_logs d))) < two64.

Lemma wrap_err_ok {A} msg (m : M D A) d a d' : m d = (Ok a, d') -> wrap_err msg m d = (Ok a, d').
Proof. unfold wrap_err, attempt. by intros ->. Qed.

(** The logs of a batch, read and deleted. *)
Lemma read_and_delete bs be d : db_ready HTx d -> exists l d1 d2,
  mig_GetLogs bs be d = (Ok l, d1) /\ DeleteLogs bs be d1 = (Ok tt, d2) /\ db_ready HTx d2 /\ others_same d d2 /\
  l ≡ₚ filter (fun x => between bs be x = true) (vals (tx_logs d)) /\ rounds_from bs l /\
  tx_logs d2 = filter (fun kr => between bs be kr.2 = false) (tx_logs d).
Proof.
  intros Hr. unfold mig_GetLogs.
  destruct (tx_select TLog (mkQuery (t:=TLog) (between bs be) (fun l => [log_Round l]) None) d Hr)
    as (l & d1 & E & Hr1 & Ht1 & (full & Hf & Hs & ->)).
  cbn [q_limit q_where q_order] in *. apply sorted_rounds in Hs.
  destruct (tx_write (WDelete TLog (between bs be)) d1 _ Hr1 eq_refl) as (d2 & E2 & Hr2 & Ht2).
  exists full, d1, d2. split; [exact E|]. split; [unfold DeleteLogs; by rewrite (M_bind_ok _ _ _ _ _ E2)|].
  split; [done|]. split; [intros t Ht; rewrite Ht2, Ht1; by destruct t|]. split; [exact Hf|]. split.
  - split; [done|]. rewrite Hf. apply Forall_forall. intros x [Hx _]%list_elem_of_filter. unfold between in Hx. lia.
  - unfold tx_logs. rewrite Ht2, Ht1. done.
Qed.

Lemma migrate_batch_ok bs be d : db_ready HTx d -> logs_ok d -> bs <= be -> exists d',
  migrate_batch bs be d = (Ok tt, d') /\ db_ready HTx d' /\ keyed (tx_logs d') /\ others_same d d' /\
  logs_migrated bs be (vals (tx_logs d)) (vals (tx_logs d')) /\ length (vals (tx_logs d')) = length (vals (tx_logs d)).
Proof.
  intros Hr (Hk & Ho & Hlen) Hb.
  destruct (read_and_delete bs be d Hr) as (l & d1 & d2 & E1 & E2 & Hr2 & Ho2 & Hl & Hs & Hlog).
  assert (Hll : Z.of_nat (length l) < two64).
  { rewrite Hl. pose proof (length_filter (fun x => between bs be x = true) (vals (tx_logs d))). lia. }
  assert (Hone : one_round l).
  { intros x y Hx Hy. rewrite Hl in Hx, Hy. apply list_elem_of_filter in Hx as [_ Hx], Hy as [_ Hy]. by apply Ho. }
  assert (Hk2 : keyed (tx_logs d2)).
  { rewrite Hlog. intros k x [Hx _]%map_lookup_filter_Some. by apply Hk. }
  assert (Hv2 : vals (tx_logs d2) ≡ₚ filter (fun x => between bs be x = false) (vals (tx_logs d))) by (rewrite Hlog; apply vals_filter).
  assert (Hfree : forall x, x ∈ renumber 0 bs l -> tx_logs d2 !! pk TLog x = None).
  { intros x (y & Hy & Exy)%renumber_elem. apply keyed_free; [done|]. intros z Hz Epk. rewrite Hv2 in Hz.
    apply list_elem_of_filter in Hz as [Hzb Hz]. rewrite Hl in Hy. apply list_elem_of_filter in Hy as [Hyb Hy].
    apply erase_fields in Exy as [Eh Er]. injection Epk as Ez _.
    assert (log_Round z = log_Round y) as Ezy by (apply Ho; [exact Hz|exact Hy|]; cbn in *; congruence).
    unfold between in Hzb, Hyb. rewrite Ezy in Hzb. congruence. }
  destruct (InsertLogs_ok (renumber 0 bs l) d2 Hr2 Hk2 (renumber_keys _ _ Hs Hll Hone) Hfree)
    as (d' & E3 & Hr' & Hk' & Ho' & Hv').
  exists d'. split; [|split_and!; try done].
  - unfold migrate_batch. rewrite (M_bind_ok _ _ _ _ _ (wrap_err_ok "GetLogs" _ _ _ _ E1)).
    rewrite (M_bind_ok _ _ _ _ _ (wrap_err_ok "DeleteLogs" _ _ _ _ E2)).
    destruct (0 <? length (renumber 0 bs l))%nat eqn:E0; [by apply wrap_err_ok|].
    destruct (renumber 0 bs l); [|done]. unfold InsertLogs in E3. cbn in E3. by injection E3 as <-.
  - by eapply others_same_trans.
  - eapply logs_migrated_perm; [by rewrite Hv', Hv2|]. by apply batch_logs_migrated.
  - rewrite Hv', length_app, Hv2, renumber_length, Hl. apply filter_length_split.
Qed.


Lemma logs_migrated_empty_range a a' b L L' : b < a -> b < a' -> logs_migrated a b L L' -> logs_migrated a' b L L'.
Proof. intros Ha Ha' Hm r. destruct (Hm r) as [H1 _]. split; [intros _; apply H1; lia|lia]. Qed.

Lemma batches_ok end_ : end_ + batchSize < two64 -> forall fuel i d,
  db_ready HTx d -> logs_ok d -> 0 <= i -> (Z.to_nat ((end_ - i) / batchSize + 1) < fuel)%nat ->
  exists d', batches fuel i end_ d = (Ok tt, d') /\ db_ready HTx d' /\ others_same d d' /\
    logs_migrated i end_ (vals (tx_logs d)) (vals (tx_logs d')).
Proof.
  unfold batchSize. intros He. induction fuel as [|fuel IH]; intros i d Hr Hok Hi Hf; [lia|].
  cbn [batches]. destruct (Z.leb_spec i end_) as [Hle|Hgt].
  2: { exists d. split; [done|]. split; [done|]. split; [done|]. by apply logs_migrated_empty. }
  unfold batchSize. rewrite (u64_small (i + 100)) by u64_lia. rewrite u64_small by u64_lia.
  set (be := Z.min (i + 100 - 1) end_).
  destruct (migrate_batch_ok i be d Hr Hok) as (d1 & E1 & Hr1 & Hk1 & Ho1 & Hm1 & Hlen1); [lia|].
  assert (Hok1 : logs_ok d1).
  { destruct Hok as (_ & Ho & Hlen). split; [done|]. split; [|by rewrite Hlen1].
    eapply one_round_erase; [|exact Ho]. intros x. by apply logs_migrated_elem with (1 := Hm1). }
  destruct (IH (i + 100) d1 Hr1 Hok1) as (d' & E' & Hr' & Ho' & Hm'); [lia|div_lia|].
  exists d'. split; [by rewrite (M_bind_ok _ _ _ _ _ E1)|]. split; [done|]. split; [by eapply others_same_trans|].
  apply (logs_migrated_trans i be end_ _ (vals (tx_logs d1))); [lia..|done|].
  destruct (decide (i + 99 <= end_)).
  - replace (be + 1) with (i + 100) by lia. done.
  - eapply logs_migrated_empty_range; [| |exact Hm']; lia.
Qed.

(** The round recorded under a tip, 0 when there is none. *)
Definition tip_round (tip : string) (T : Tables) (v : Z) : Prop :=
  (exists k x, t_rounds T !! k = Some x /\ ir_Tip x = tip /\ ir_Round x = v) \/
  (v = 0 /\ forall k x, t_rounds T !! k = Some x -> ir_Tip x <> tip).

Lemma getTip_ok tip d : db_ready HTx d -> exists v d',
  getTip tip d = (Ok v, d') /\ db_ready HTx d' /\ tx d' = tx d /\ tip_round tip (tx d) v.
Proof.
  intros Hr. unfold getTip, attempt, scan_one, where_.
  destruct (tx_select TIndexedRound (mkQuery (t:=TIndexedRound) (fun x => bool_decide (ir_Tip x = tip)) no_order None) d Hr)
    as (l & d' & E & Hr' & Ht & (full & Hf & _ & ->)).
  rewrite (M_bind_ok _ _ _ _ _ E). cbn [q_limit q_where] in *.
  assert (Hin : forall x, x ∈ full <-> ir_Tip x = tip /\ exists k, t_rounds (tx d) !! k = Some x).
  { intros x. rewrite Hf, list_elem_of_filter, bool_decide_eq_true, list_elem_of_fmap. split.
    - intros [? ([k y] & -> & Hk%elem_of_map_to_list)]. eauto.
    - intros [? [k Hk]]. split; [done|]. exists (k, x). split; [done|]. by apply elem_of_map_to_list. }
  destruct full as [|x full].
  - exists 0, d'. split; [done|]. split; [done|]. split; [done|]. right. split; [done|].
    intros k x Hk Et. assert (Hx : x ∈ @nil IndexedRoundWithTip) by (apply Hin; eauto). by apply not_elem_of_nil in Hx.
  - exists (ir_Round x), d'. split; [done|]. split; [done|]. split; [done|]. left.
    destruct (proj1 (Hin x)) as [? [k Hk]]; [by left|]. eauto.
Qed.

(** Rounds far enough from 2^64 for the loop counter. *)
Definition rounds_ok (T : Tables) : Prop :=
  forall k x, t_rounds T !! k = Some x -> 0 <= ir_Round x /\ ir_Round x + batchSize < two64.

Lemma tip_round_ok tip T v : rounds_ok T -> tip_round tip T v -> 0 <= v /\ v + batchSize < two64.
Proof. intros Hok [(k & x & Hk & _ & <-)|[-> _]]; [by eapply Hok|done]. Qed.

Lemma LogsUp_total d : db_ready HTx d -> logs_ok d -> rounds_ok (tx d) ->
  exists start end_ d', tip_round LastRetained (tx d) start /\ tip_round Continues (tx d) end_ /\
    LogsUp d = (Ok tt, d') /\ others_same d d' /\ logs_migrated start end_ (vals (tx_logs d)) (vals (tx_logs d')).
Proof.
  intros Hr Hok Hrd.
  destruct (getTip_ok LastRetained d Hr) as (start & d1 & E1 & Hr1 & Ht1 & Hs).
  destruct (getTip_ok Continues d1 Hr1) as (end_ & d2 & E2 & Hr2 & Ht2 & He).
  rewrite Ht1 in Ht2, He. destruct (tip_round_ok _ _ _ Hrd Hs) as [Hs0 _]. destruct (tip_round_ok _ _ _ Hrd He) as [_ He0].
  assert (Hl2 : tx_logs d2 = tx_logs d) by (unfold tx_logs; by rewrite Ht2).
  destruct (batches_ok end_ He0 (batch_fuel start end_) start d2 Hr2) as (d' & E3 & Hr' & Ho & Hm);
    [unfold logs_ok; by rewrite Hl2|done|unfold batch_fuel; lia|].
  exists start, end_, d'. split; [done|]. split; [done|]. split.
  - unfold LogsUp, mig_GetLastRetainedRound, mig_GetLastIndexedRound.
    rewrite (M_bind_ok _ _ _ _ _ (wrap_err_ok _ _ _ _ _ E1)). by rewrite (M_bind_ok _ _ _ _ _ (wrap_err_ok _ _ _ _ _ E2)).
  - rewrite <- Hl2. split; [|done]. intros t Ht. by rewrite Ho, Ht2.
Qed.

(** C27: The logs migration terminates and does what it is for.  In a working
    transaction, with rounds at least one batch below 2^64 and every transaction in
    one round, it succeeds; every round from the last retained to the last indexed one
    then has its logs numbered 0, 1, 2, ..., the logs being otherwise unchanged, and
    nothing else in the database has changed. *)
Theorem LogsUp_renumbers d : db_ready HTx d -> logs_ok d -> rounds_ok (tx d) ->
  exists start end_ d', tip_round LastRetained (tx d) start /\ tip_round Continues (tx d) end_ /\
    LogsUp d = (Ok tt, d') /\ others_same d d' /\ logs_migrated start end_ (vals (tx_logs d)) (vals (tx_logs d')).
Proof. apply LogsUp_total. Qed.
End Effect.

(** ** src/db/migrations/migrations.go *)
Section Migrations.
Context `{SqlDB D}.

(** The embedded files, and the execution of a query on the content of the database. *)
Context (Open : string -> result (list Ascii.ascii)) (ExecContext : D -> list Ascii.ascii -> result D).

(** [LogsUp] as a migration function on the content. *)
Definition LogsUp_fn (d : D) : result D :=
  match LogsUp d with (Ok _, d') => Ok d' | (Err e, _) => Err e end.

Definition migration_list : list (Migration (U:=D)) := [
  mkMigration 0 "20211213143752" (Some (NewSQLMigrationFunc Open ExecContext "20211213143752_initial.up.sql")) None;
  mkMigration 0 "20220109122505" (Some LogsUp_fn) None;
  mkMigration 0 "20220324091030" (Some (NewSQLMigrationFunc Open ExecContext "20220324091030_receipt_round_index.up.sql")) None;
  mkMigration 0 "20240527164010" (Some (NewSQLMigrationFunc Open ExecContext "20240527164010_receipt_effective_gas_price.up.sql")) None].

(** The function [init]: a panic stops the program before [main]. *)
Definition Migrations : result (list (Migration (U:=D))) := rfold Add [] migration_list.

Definition migrations_Init : M (MigDB (U:=D)) unit := Init.

(** [Migrate]: the migrations, then their status for the log. *)
Definition migrations_Migrate (ms : list (Migration (U:=D))) : M (MigDB (U:=D)) unit :=
  _ ← Migrate ms;
  _ ← migrationsWithStatus ms;
  mret tt.

Lemma Migrations_registered : exists ms, Migrations = Ok ms /\ registered ms /\ ms <> [] /\
  mg_Name <$> todo ms [] = ["20211213143752"; "20220109122505"; "20220324091030"; "20240527164010"]%string.
Proof.
  exists migration_list. split; [reflexivity|]. split; [|split; [done|reflexivity]]. split.
  - change (mg_Name <$> migration_list) with
      ["20211213143752"; "20220109122505"; "20220324091030"; "20240527164010"]%string. by apply (bool_decide_unpack _).
  - repeat constructor.
Qed.
End Migrations.

(** ** [DropTables] *)
(** The catalogue: schema and name of every table, and a script of faults. *)
Record PgDB := mkPgDB {
  pg_tables : list (string * string);
  pg_plan : list fault;
}.

Definition pg_stmt {A} (k : M PgDB A) : M PgDB A := fun d =>
  match pg_plan d with
  | [] | Fine :: _ => k (mkPgDB (pg_tables d) (tail (pg_plan d)))
  | Fails c :: plan | Lost c :: plan => (Err (ErrDB c), mkPgDB (pg_tables d) plan)
  end.

(** [SELECT * FROM pg_tables] and the scan of its rows. *)
Definition pg_query : M PgDB (list (string * string)) := pg_stmt (fun d => (Ok (pg_tables d), d)).

(** [DROP TABLE "name" CASCADE] *)
Definition drop_table (name : string) : M PgDB unit := pg_stmt (fun d =>
  (Ok tt, mkPgDB (filter (fun st => st <> ("public"%string, name)) (pg_tables d)) (pg_plan d))).

(** The body of the loop: a failed drop is logged and the loop goes on. *)
Definition drop_one (_ : unit) (st : string * string) : M PgDB unit :=
  if negb (bool_decide (st.1 = "public"%string)) then mret tt
  else attempt (drop_table st.2) (fun _ => mret tt).

Definition DropTables : M PgDB unit :=
  results ← pg_query;
  mfold drop_one tt results.

Lemma drop_one_spec u st d : exists d', drop_one u st d = (Ok tt, d') /\
  (forall x, x ∈ pg_tables d' <-> x ∈ pg_tables d /\ (x = st -> x ∈ pg_tables d')) /\
  (st.1 <> "public"%string -> pg_tables d' = pg_tables d) /\
  (pg_plan d = [] -> pg_plan d' = [] /\ (st.1 = "public"%string -> st ∉ pg_tables d')).
Proof.
  unfold drop_one. case_bool_decide as Hp; cbn [negb].
  2: { exists d. split; [done|]. split; [naive_solver|]. split; [done|]. intros; split; naive_solver. }
  unfold attempt, drop_table, pg_stmt. destruct st as [s n]. cbn in Hp. subst s.
  assert (Hdrop : forall plan, exists d', d' = mkPgDB (filter (fun st => st <> ("public"%string, n)) (pg_tables d)) plan /\
    (forall x, x ∈ pg_tables d' <-> x ∈ pg_tables d /\ (x = ("public"%string, n) -> x ∈ pg_tables d'))).
  { intros plan. eexists. split; [done|]. intros x. cbn [pg_tables]. rewrite list_elem_of_filter. naive_solver. }
  assert (Hgone : ("public"%string, n) ∉ filter (fun st => st <> ("public"%string, n)) (pg_tables d))
    by (intros [? _]%list_elem_of_filter; done).
  destruct (pg_plan d) as [|[|c|c] plan]; cbn [tail].
  - destruct (Hdrop []) as (d' & E & Hx). exists d'. rewrite E in *. split; [done|]. split; [done|]. split; [done|]. done.
  - destruct (Hdrop plan) as (d' & E & Hx). exists d'. rewrite E in *. split; [done|]. split; [done|]. split; [done|]. done.
  - eexists. split; [done|]. split; [naive_solver|]. done.
  - eexists. split; [done|]. split; [naive_solver|]. done.
Qed.

Lemma drop_loop_spec sts : forall d, exists d', mfold drop_one tt sts d = (Ok tt, d') /\
  (forall x, x ∈ pg_tables d' -> x ∈ pg_tables d) /\
  (forall x, x.1 <> "public"%string -> x ∈ pg_tables d -> x ∈ pg_tables d') /\
  (pg_plan d = [] -> forall x, x ∈ sts -> x.1 = "public"%string -> x ∉ pg_tables d').
Proof.
  induction sts as [|st sts IH]; intros d.
  { exists d. split; [done|]. split; [done|]. split; [done|]. intros _ x Hx. by apply not_elem_of_nil in Hx. }
  destruct (drop_one_spec tt st d) as (d1 & E1 & Hin & Hn & Hc). destruct (IH d1) as (d' & E' & Hin' & Hn' & Hc').
  exists d'. split; [cbn [mfold]; by rewrite (M_bind_ok _ _ _ _ _ E1)|]. split; [|split].
  - intros x Hx%Hin'. by apply Hin in Hx as [? _].
  - intros x Hp Hx. apply Hn'; [done|]. apply Hin. split; [done|]. intros ->. by rewrite (Hn Hp).
  - intros Hpl x Hx Hp. destruct (Hc Hpl) as [Hpl1 Hgone].
    apply elem_of_cons in Hx as [->|Hx]; [|by apply Hc'].
    intros Hx%Hin'. by apply Hgone.
Qed.

(** [DropTables] only ever removes tables, never one outside the schema [public],
    and on a database where every statement works it removes all tables of that
    schema. *)
Theorem DropTables_spec d : exists r d', DropTables d = (r, d') /\
  (forall x, x ∈ pg_tables d' -> x ∈ pg_tables d) /\
  (forall x, x.1 <> "public"%string -> x ∈ pg_tables d -> x ∈ pg_tables d') /\
  (pg_plan d = [] -> r = Ok tt /\ forall x, x ∈ pg_tables d' -> x.1 <> "public"%string).
Proof.
  assert (Hq : exists r d1, pg_query d = (r, d1) /\ pg_tables d1 = pg_tables d /\
    match r with Ok l => l = pg_tables d | Err _ => pg_plan d <> [] end /\ (pg_plan d = [] -> pg_plan d1 = [])).
  { unfold pg_query, pg_stmt. destruct (pg_plan d) as [|[|c|c] plan] eqn:Ep; (eexists _, _; split; [reflexivity|]); done. }
  destruct Hq as (r & d1 & E & Ht & Hr & Hp). unfold DropTables. destruct r as [l|e].
  - subst l. destruct (drop_loop_spec (pg_tables d) d1) as (d' & E' & H1 & H2 & H3). exists (Ok tt), d'.
    split; [by rewrite (M_bind_ok _ _ _ _ _ E)|]. rewrite Ht in H1, H2. split; [done|]. split; [done|].
    intros Hpl. split; [done|]. intros x Hx Hpub. by apply (H3 (Hp Hpl) x (H1 x Hx)).
  - exists (Err e), d1. split; [by rewrite (M_bind_err _ _ _ _ _ E)|]. rewrite Ht. split; [done|]. split; [done|].
    intros Hpl. by rewrite Hpl in Hr.
Qed.

(** A table that could not be dropped does not make [DropTables] fail: truncation
    reports success and the table is still there. *)
Theorem DropTables_ignores_failures name c :
  DropTables (mkPgDB [("public"%string, name)] [Fine; Fails c]) = (Ok tt, mkPgDB [("public"%string, name)] []).
Proof. reflexivity. Qed.

(** ** Witness: three logs of two rounds, badly numbered *)
Definition ex_mlog (tx : string) (round index : Z) : Log := mkLog "addr" [] "data" round "hash" tx 0 index false.

Definition ex_mig_tables : Tables :=
  mkTables ∅ ∅ ∅ (list_to_map [(("a"%string, 4), ex_mlog "a" 1 4); (("b"%string, 0), ex_mlog "b" 1 0);
    (("c"%string, 7), ex_mlog "c" 3 7)])
    (list_to_map [((Continues, 0), mkIndexedRound Continues 3)]).
Definition ex_migtx : MemDB := mkMemDB ex_mig_tables (fun T => T) true [].

Lemma ex_mig_rounds k x : t_rounds (tx ex_migtx) !! k = Some x <-> (Continues, 0) = k /\ mkIndexedRound Continues 3 = x.
Proof.
  change (t_rounds (tx ex_migtx)) with (<[(Continues, 0) := mkIndexedRound Continues 3]> (∅ : gmap key IndexedRoundWithTip)).
  rewrite lookup_insert_Some, lookup_empty. naive_solver.
Qed.

Lemma LogsUp_renumbers_witness : exists d', LogsUp ex_migtx = (Ok tt, d') /\
  logs_migrated 0 3 (vals (tx_logs ex_migtx)) (vals (tx_logs d')).
Proof.
  assert (Hk : bool_decide (map_Forall (fun k l => pk TLog l = k) (tx_logs ex_migtx)) = true) by (vm_compute; reflexivity).
  assert (Ho : bool_decide (Forall (fun x => Forall (fun y => log_TxHash x = log_TxHash y -> log_Round x = log_Round y)
    (vals (tx_logs ex_migtx))) (vals (tx_logs ex_migtx))) = true) by (vm_compute; reflexivity).
  apply bool_decide_eq_true in Hk, Ho.
  destruct (LogsUp_renumbers ex_migtx) as (start & end_ & d' & Hs & He & E & _ & Hm).
  - split; [constructor|reflexivity].
  - split; [exact Hk|]. split; [|vm_compute; reflexivity].
    intros x y Hx Hy. rewrite Forall_forall in Ho. specialize (Ho x Hx). cbv beta in Ho. rewrite Forall_forall in Ho. by apply Ho.
  - intros k x [_ <-]%ex_mig_rounds. vm_compute. split; [discriminate|reflexivity].
  - exists d'. split; [exact E|].
    assert (start = 0 /\ end_ = 3) as [<- <-]; [|exact Hm]. clear E Hm Hk Ho. split.
    + destruct Hs as [(k & x & [_ <-]%ex_mig_rounds & Ht & _)|[-> _]]; [discriminate Ht|reflexivity].
    + destruct He as [(k & x & [_ <-]%ex_mig_rounds & _ & <-)|[_ He]]; [reflexivity|].
      exfalso. apply (He (Continues, 0) (mkIndexedRound Continues 3)); [by apply ex_mig_rounds|reflexivity].
Defined.
