(* ===== verification/Services.v ===== *)
(** * Groups of services (src/main.go, src/indexer/indexer.go: Start)

    The process and the indexer both start a group of goroutines that report their
    errors on a buffered channel, wait for the first error, a signal or the end of
    the context, cancel the context and wait for the group.  A group is a state
    machine with two kinds of steps: the ones the code is bound to take once they are
    enabled, and the ones that depend on the outside (a service ending by itself, a
    signal, the timer).  What services do is not modelled here; the one thing relied
    on is that a service returns after the context it was given is cancelled, and
    nothing else ever obliges it to. *)
From S2P Require Import Prelude GoLib Model Gas Sql Storage Extern BlockModels StoreBlock IndexBackend Source Indexer Config.

(** A goroutine: at work, blocked on (or about to do) its send, or ended. *)
Inductive svc :=
  | Running
  | Sending (e : error)
  | Done.

#[export] Instance svc_eq_dec : EqDecision svc.
Proof. solve_decision. Defined.

(** The main goroutine: in its first select, past it and about to call [cancel], in
    its second select, past that with what it returns, or the process has been ended
    by [os.Exit(1)]. *)
Inductive phase := Waiting | Leaving | Draining | Finished (ret : option error) | Exited.

Record group := mkGroup {
  gr_svcs : list svc;
  gr_chan : list error;
  gr_received : nat;
  gr_cancelled : bool;
  gr_phase : phase;
}.

Definition start_group (n : nat) : group := mkGroup (replicate n Running) [] 0 false Waiting.

(** Where the two groups differ: the capacity of the error channel, the goroutine
    with a deferred [cancel()], a signal or the context of the caller as what stops the
    group from outside, and the other case of the second select, a timer or the end of
    the context. *)
Record group_code := mkGroupCode {
  gc_cap : nat;
  gc_cancels : option nat;
  gc_signal : bool;
  gc_caller : bool;
  gc_timer : bool;
  gc_context : bool;
}.

Definition set_svc (g : group) (i : nat) (s : svc) : group :=
  mkGroup (<[i := s]> (gr_svcs g)) (gr_chan g) (gr_received g) (gr_cancelled g) (gr_phase g).

Definition set_phase (g : group) (p : phase) : group :=
  mkGroup (gr_svcs g) (gr_chan g) (gr_received g) (gr_cancelled g) p.

(** [cancel()] *)
Definition cancel (g : group) : group :=
  mkGroup (gr_svcs g) (gr_chan g) (gr_received g) true (gr_phase g).

(** [errCh <- err] *)
Definition put_error (g : group) (e : error) : group :=
  mkGroup (gr_svcs g) (gr_chan g ++ [e]) (gr_received g) (gr_cancelled g) (gr_phase g).

Definition all_done (g : group) : Prop := Forall (fun s => s = Done) (gr_svcs g).

Section Groups.
Context (code : group_code).

(** The deferred calls of goroutine [i]: [cancel()] where it has one, [wg.Done()]. *)
Definition exit_svc (g : group) (i : nat) : group :=
  set_svc (if decide (gc_cancels code = Some i) then cancel g else g) i Done.

(** The steps the code takes once they are enabled. *)
Inductive must : group -> group -> Prop :=
  (** a service sees the end of the context and returns, *)
  | must_return g i : gr_svcs g !! i = Some Running -> gr_cancelled g = true -> must g (exit_svc g i)
  (** or has an error to report *)
  | must_error g i e : gr_svcs g !! i = Some Running -> gr_cancelled g = true -> must g (set_svc g i (Sending e))
  (** the channel takes an error if it has room *)
  | must_send g i e : gr_svcs g !! i = Some (Sending e) -> (length (gr_chan g) < gc_cap code)%nat ->
      must g (exit_svc (put_error g e) i)
  (** [case err := <-errCh] *)
  | must_receive g e rest : gr_phase g = Waiting -> gr_chan g = e :: rest ->
      must g (mkGroup (gr_svcs g) rest (S (gr_received g)) (gr_cancelled g) Leaving)
  (** [case <-ctx.Done()] *)
  | must_context g : gr_phase g = Waiting -> gr_cancelled g = true -> must g (set_phase g Leaving)
  (** [cancel()] after the first select *)
  | must_cancel g : gr_phase g = Leaving -> must g (set_phase (cancel g) Draining)
  (** [case <-done] of the second select: all goroutines have ended *)
  | must_done g : gr_phase g = Draining -> all_done g -> must g (set_phase g (Finished None))
  (** [case <-ctx.Done()] of the second select of the indexer *)
  | must_ctx_err g : gc_context code = true -> gr_phase g = Draining -> gr_cancelled g = true ->
      must g (set_phase g (Finished (Some ctx_Err))).

(** The steps that may happen or not. *)
Inductive may : group -> group -> Prop :=
  (** a service ends by itself, without an error or with one *)
  | may_return g i : gr_svcs g !! i = Some Running -> may g (exit_svc g i)
  | may_error g i e : gr_svcs g !! i = Some Running -> may g (set_svc g i (Sending e))
  (** [case <-stop] *)
  | may_signal g : gc_signal code = true -> gr_phase g = Waiting -> may g (set_phase g Leaving)
  (** the context of the caller ends *)
  | may_caller g : gc_caller code = true -> gr_cancelled g = false -> may g (cancel g)
  (** [case <-time.After(30 * time.Second)] of the second select: [os.Exit(1)] *)
  | may_timeout g : gc_timer code = true -> gr_phase g = Draining -> may g (set_phase g Exited).

Definition step (g g' : group) : Prop := must g g' \/ may g g'.

(** ** Every run ends *)
Definition svc_weight (s : svc) : nat := match s with Running => 2 | Sending _ => 1 | Done => 0 end.
Definition phase_weight (p : phase) : nat :=
  match p with Waiting => 3 | Leaving => 2 | Draining => 1 | Finished _ | Exited => 0 end.

Definition weight (g : group) : nat :=
  (sum_list_with svc_weight (gr_svcs g) + phase_weight (gr_phase g) + if gr_cancelled g then 0 else 1)%nat.

Lemma set_svc_weight g i s s0 : gr_svcs g !! i = Some s0 -> (svc_weight s < svc_weight s0)%nat ->
  (weight (set_svc g i s) < weight g)%nat.
Proof. intros Hi Hs. unfold weight. cbn. pose proof (sum_list_insert svc_weight i s _ _ Hi). lia. Qed.

Lemma cancel_weight g : (weight (cancel g) <= weight g)%nat.
Proof. unfold weight. cbn. destruct (gr_cancelled g); lia. Qed.

Lemma exit_svc_weight g i s : gr_svcs g !! i = Some s -> s <> Done -> (weight (exit_svc g i) < weight g)%nat.
Proof.
  intros Hi Hs. assert (0 < svc_weight s)%nat by (destruct s; cbn; (lia || done)). unfold exit_svc. case_decide.
  - eapply Nat.lt_le_trans; [by eapply set_svc_weight|apply cancel_weight].
  - by eapply set_svc_weight.
Qed.

Lemma set_phase_weight g p : (phase_weight p < phase_weight (gr_phase g))%nat -> (weight (set_phase g p) < weight g)%nat.
Proof. unfold weight. cbn. lia. Qed.

Lemma step_weight g g' : step g g' -> (weight g' < weight g)%nat.
Proof.
  intros [H|H].
  - destruct H as [g i Hi Hc|g i e Hi Hc|g i e Hi Hc|g e rest Hp Hc|g Hp Hc|g Hp|g Hp Ha|g Hx Hp Hc].
    + by eapply exit_svc_weight.
    + eapply set_svc_weight; [done|cbn; lia].
    + change (weight g) with (weight (put_error g e)). by eapply exit_svc_weight.
    + unfold weight. cbn. rewrite Hp. cbn. lia.
    + apply set_phase_weight. rewrite Hp. cbn. lia.
    + unfold weight. cbn. rewrite Hp. cbn. destruct (gr_cancelled g); lia.
    + apply set_phase_weight. rewrite Hp. cbn. lia.
    + apply set_phase_weight. rewrite Hp. cbn. lia.
  - destruct H as [g i Hi|g i e Hi|g Hx Hp|g Hx Hc|g Hx Hp].
    + by eapply exit_svc_weight.
    + eapply set_svc_weight; [done|cbn; lia].
    + apply set_phase_weight. rewrite Hp. cbn. lia.
    + unfold weight. cbn. rewrite Hc. lia.
    + apply set_phase_weight. rewrite Hp. cbn. lia.
Qed.

(** ** The channel *)
Definition is_done (s : svc) : bool := match s with Done => true | _ => false end.
Definition done_count (l : list svc) : nat := length (filter (fun s => is_done s = true) l).

(** The group is being stopped: an error was reported, the context is done, or the
    first select has been left. *)
Definition stopping (g : group) : Prop :=
  gr_phase g <> Waiting \/ gr_cancelled g = true \/ gr_chan g <> [].

(** Past [cancel()]. *)
Definition past_cancel (p : phase) : bool := match p with Waiting | Leaving => false | _ => true end.

(** An error on the channel, or received from it, comes from a goroutine that has
    ended; the context is cancelled before the group is waited for; nil is returned
    only when the group has ended. *)
Definition group_inv (n : nat) (g : group) : Prop :=
  length (gr_svcs g) = n /\ (length (gr_chan g) + gr_received g <= done_count (gr_svcs g))%nat /\
  (past_cancel (gr_phase g) = true -> gr_cancelled g = true) /\
  (gr_phase g = Finished None -> all_done g).

Lemma done_count_insert i s s0 l : l !! i = Some s0 -> is_done s0 = false ->
  done_count (<[i := s]> l) = (done_count l + if is_done s then 1 else 0)%nat.
Proof.
  unfold done_count. revert i. induction l as [|x l IH]; intros [|i]; cbn [lookup list_lookup]; try done.
  - intros [= ->] Hs. cbn [insert list_insert]. rewrite !filter_cons, Hs. repeat case_decide; try done; cbn [length];
      destruct (is_done s); try done; lia.
  - intros Hi Hs. change (<[S i := s]> (x :: l)) with (x :: <[i := s]> l). rewrite !filter_cons. specialize (IH _ Hi Hs).
    case_decide; cbn [length]; lia.
Qed.

Lemma not_all_done g i s : all_done g -> gr_svcs g !! i = Some s -> s = Done.
Proof. intros Ha Hi. by eapply (Forall_lookup_1 _ _ _ _ Ha). Qed.

Lemma cancel_inv n g : group_inv n g -> group_inv n (cancel g).
Proof. intros (Hn & Hc & Hx & Hf). by split_and!. Qed.

(** A goroutine that has not ended moves on. *)
Lemma set_svc_inv n g i s s0 : gr_svcs g !! i = Some s0 -> is_done s0 = false ->
  group_inv n g -> group_inv n (set_svc g i s).
Proof.
  intros Hi Hs (Hn & Hc & Hx & Hf). unfold group_inv.
  cbn [set_svc gr_svcs gr_chan gr_received gr_cancelled gr_phase]. rewrite length_insert, (done_count_insert _ _ _ _ Hi Hs).
  split_and!; [done|destruct (is_done s); lia|done|]. intros Hp. by rewrite (not_all_done _ _ _ (Hf Hp) Hi) in Hs.
Qed.

Lemma exit_svc_inv n g i s0 : gr_svcs g !! i = Some s0 -> is_done s0 = false ->
  group_inv n g -> group_inv n (exit_svc g i).
Proof. intros Hi Hs Hg. unfold exit_svc. case_decide; (eapply set_svc_inv; [done..|]); [by apply cancel_inv|done]. Qed.

Lemma exit_svc_fields g i : gr_svcs (exit_svc g i) = <[i := Done]> (gr_svcs g) /\ gr_chan (exit_svc g i) = gr_chan g /\
  gr_received (exit_svc g i) = gr_received g /\ gr_phase (exit_svc g i) = gr_phase g /\
  (gr_cancelled g = true -> gr_cancelled (exit_svc g i) = true).
Proof. unfold exit_svc. by case_decide. Qed.

(** The error and the end of its goroutine count together. *)
Lemma send_inv n g i e : gr_svcs g !! i = Some (Sending e) -> group_inv n g -> group_inv n (exit_svc (put_error g e) i).
Proof.
  intros Hi (Hn & Hc & Hx & Hf). destruct (exit_svc_fields (put_error g e) i) as (E1 & E2 & E3 & E4 & E5).
  unfold group_inv, all_done. rewrite E1, E2, E3, E4.
  cbn [put_error gr_svcs gr_chan gr_received gr_cancelled gr_phase]. rewrite length_insert, length_app, (done_count_insert i Done (Sending e)) by done.
  cbn. split_and!; [done|lia|by intros Hp; apply E5, Hx|]. intros Hp. by pose proof (not_all_done _ _ _ (Hf Hp) Hi).
Qed.

Lemma step_inv n g g' : step g g' -> group_inv n g -> group_inv n g'.
Proof.
  intros [H|H] Hg.
  - destruct H as [g i Hi Hc|g i e Hi Hc|g i e Hi Hc|g e rest Hp Hl|g Hp Hc|g Hp|g Hp Ha|g Hx Hp Hc];
      [by eapply exit_svc_inv|by eapply set_svc_inv|by apply send_inv|..];
      destruct Hg as (Hn & Hl' & Hx' & Hf); split_and!; cbn [set_phase gr_svcs gr_chan gr_received gr_cancelled gr_phase]; try done.
    + rewrite Hl in Hl'. cbn [length] in Hl'. lia.
    + intros _. apply Hx'. by rewrite Hp.
  - destruct H as [g i Hi|g i e Hi|g Hx Hp|g Hx Hc|g Hx Hp];
      [by eapply exit_svc_inv|by eapply set_svc_inv| |by apply cancel_inv|];
      destruct Hg as (Hn & Hl' & Hx' & Hf); split_and!; cbn; try done. intros _. apply Hx'. by rewrite Hp.
Qed.

Lemma group_reach_inv n g : rtc step (start_group n) g -> group_inv n g.
Proof.
  intros H. remember (start_group n) as g0. assert (H0 : group_inv n g0).
  { subst. split; [apply length_replicate|]. split; [cbn; lia|done]. }
  clear Heqg0. induction H as [|g0 g1 g2 Hs _ IH]; [done|]. eauto using step_inv.
Qed.

(** The main goroutine gets past its last wait: it returns nil with all goroutines
    ended, or takes the other case of its second select. *)
Definition settled (g : group) : Prop :=
  (gr_phase g = Finished None /\ all_done g) \/
  (gc_timer code = true /\ gr_phase g = Exited) \/
  (gc_context code = true /\ gr_phase g = Finished (Some ctx_Err)).

Definition finishes : group -> Prop := compelled must may settled.

Lemma not_done_lookup l : ~ Forall (fun s => s = Done) l -> exists i s, l !! i = Some s /\ is_done s = false.
Proof.
  induction l as [|x l IH]; intros Hn; [by destruct Hn|]. destruct (is_done x) eqn:E.
  - destruct IH as (i & s & Hi & Hs); [|by exists (S i), s]. intros Hl. apply Hn. constructor; [by destruct x|done].
  - by exists 0%nat, x.
Qed.

Lemma done_count_bound l i s : l !! i = Some s -> is_done s = false -> (done_count l < length l)%nat.
Proof.
  unfold done_count. revert i. induction l as [|x l IH]; intros [|i]; cbn [lookup list_lookup]; try done; intros Hi Hs.
  - injection Hi as ->. rewrite filter_cons_False by congruence.
    pose proof (length_filter (fun s => is_done s = true) l). cbn. lia.
  - specialize (IH _ Hi Hs). rewrite filter_cons. case_decide; cbn [length]; lia.
Qed.

(** The second select: with the context cancelled and room on the channel, the code
    has a step to take. *)
Lemma draining_progress n g : group_inv n g -> gr_phase g = Draining -> (n <= gc_cap code + gr_received g)%nat ->
  exists g', must g g'.
Proof.
  intros (Hn & Hc & Hx & _) Hp Hcap. rewrite Hp in Hx. specialize (Hx eq_refl).
  destruct (decide (Forall (fun s => s = Done) (gr_svcs g))) as [Ha|Ha]; [eexists; by apply must_done|].
  apply not_done_lookup in Ha as (i & s & Hi & Hs). destruct s as [|e|]; [eexists; by eapply must_return| |done].
  eexists. eapply must_send; [exact Hi|]. pose proof (done_count_bound _ _ _ Hi Hs). lia.
Qed.

Lemma exit_svc_stopping g i : stopping g -> stopping (exit_svc g i).
Proof.
  destruct (exit_svc_fields g i) as (_ & E2 & _ & E4 & E5). unfold stopping. rewrite E2, E4.
  intros [?|[?|?]]; [by left|right; left; by apply E5|by right; right].
Qed.

Lemma step_stopping g g' : step g g' -> stopping g -> stopping g' /\ (gr_received g <= gr_received g')%nat.
Proof.
  intros [H|H] Hg.
  - destruct H as [g i Hi Hc|g i e Hi Hc|g i e Hi Hc|g e rest Hp Hl|g Hp Hc|g Hp|g Hp Ha|g Hx Hp Hc];
      try (split; [by left|cbn; lia]).
    + split; [by apply exit_svc_stopping|]. destruct (exit_svc_fields g i) as (_ & _ & -> & _). lia.
    + done.
    + split; [|by destruct (exit_svc_fields (put_error g e) i) as (_ & _ & -> & _)].
      apply exit_svc_stopping. right. right. cbn. by destruct (gr_chan g).
  - destruct H as [g i Hi|g i e Hi|g Hx Hp|g Hx Hc|g Hx Hp]; try (split; [by left|cbn; lia]).
    + split; [by apply exit_svc_stopping|]. destruct (exit_svc_fields g i) as (_ & _ & -> & _). lia.
    + done.
    + split; [by right; left|cbn; lia].
Qed.

(** How the end is reached. *)
Definition over (p : phase) : bool := match p with Finished _ | Exited => true | _ => false end.

Lemma step_over g g' : step g g' -> over (gr_phase g) = false -> over (gr_phase g') = true -> settled g'.
Proof.
  intros [H|H]; unfold settled.
  - destruct H as [g i Hi Hc|g i e Hi Hc|g i e Hi Hc|g e rest Hp Hl|g Hp Hc|g Hp|g Hp Ha|g Hx Hp Hc];
      try (destruct (exit_svc_fields g i) as (_ & _ & _ & -> & _)); try (destruct (exit_svc_fields (put_error g e) i) as (_ & _ & _ & -> & _));
      cbn; try (congruence || discriminate); intros _ _; [by left|right; by right].
  - destruct H as [g i Hi|g i e Hi|g Hx Hp|g Hx Hc|g Hx Hp];
      try (destruct (exit_svc_fields g i) as (_ & _ & _ & -> & _)); cbn; try (congruence || discriminate).
    intros _ _. right. by left.
Qed.

(** The code has a step to take until the end, once the group is being stopped. *)
Lemma stopping_progress n g : group_inv n g -> stopping g -> over (gr_phase g) = false ->
  (n <= gc_cap code + gr_received g)%nat -> exists g', must g g'.
Proof.
  intros Hi Hs Ho Hn. destruct (gr_phase g) as [| | |ret|] eqn:Ep; [| | |done..].
  - destruct Hs as [?|[Hc|Hc]]; [done|eexists; by apply must_context|].
    destruct (gr_chan g) as [|e rest] eqn:Ec; [done|]. eexists. by eapply must_receive.
  - eexists. by apply must_cancel.
  - by eapply draining_progress.
Qed.

Lemma stopping_finishes n g : group_inv n g -> stopping g -> over (gr_phase g) = false ->
  (n <= gc_cap code + gr_received g)%nat -> finishes g.
Proof.
  intros Hi Hs Ho Hn. apply (compelled_measure must may _ (fun g => group_inv n g /\ stopping g /\
    (over (gr_phase g) = true -> settled g) /\ (n <= gc_cap code + gr_received g)%nat) weight);
    [|split_and!; [done..|congruence|done]]; clear.
  intros g (Hi & Hs & Ho & Hn). destruct (over (gr_phase g)) eqn:Eo; [left; by apply Ho|]. right.
  split; [by eapply stopping_progress|]. intros g' Hst. destruct (step_stopping g g' Hst Hs) as [Hs' Hr].
  split; [|by apply step_weight]. split_and!; [by eapply step_inv|done|by apply step_over with g|lia].
Qed.

(** C30: The shutdown of a group ends: from when an error is reported, the context is
    done or the first select is left, the code has steps to take, and whatever else
    happens meanwhile they lead to its end, with all services ended, unless the other
    case of the second select comes first (the timer of the process, which kills it;
    the end of the context in the indexer).  Services are taken to return once the
    context is cancelled, which the code does before it waits for them.  The channel
    must have room for the errors still to come: no more services than its capacity,
    or one more if the shutdown was caused by receiving an error. *)
Theorem shutdown_completes n g : rtc step (start_group n) g -> stopping g -> over (gr_phase g) = false ->
  (n <= gc_cap code + gr_received g)%nat -> finishes g.
Proof. intros Hr. by apply stopping_finishes, group_reach_inv. Qed.

(** The second select waits for goroutines that do not end: the only way on is the
    timer. *)
Definition hung (g : group) : Prop :=
  gr_phase g = Draining /\ ~ all_done g /\ (forall g', ~ must g g') /\ (forall g', may g g' -> g' = set_phase g Exited).
End Groups.

(** ** The process *)
Definition main_errCh : nat := 4.

(** The services of the process: the log fixer, the caching backend, the indexer, the
    gas price oracle and, with a gateway, the server. *)
Definition main_services (cfg : Config) : nat :=
  match cf_Gateway cfg with None => 4 | Some _ => 5 end.

(** [if cfg.Gateway == nil { defer cancel() }] in the goroutine of the indexer. *)
Definition main_code (cfg : Config) : group_code :=
  mkGroupCode main_errCh (match cf_Gateway cfg with None => Some 2%nat | Some _ => None end) true false true false.

(** All five services end with the error of the cancelled context after a signal: four
    of the errors fill the channel. *)
Definition hung_process : group :=
  mkGroup [Done; Done; Done; Done; Sending ctx_Err] (replicate 4 ctx_Err) 0 true Draining.

Section Process.
Context (cfg : Config).

(** One service ends with the error of the context. *)
Lemma service_reports g i : cf_Gateway cfg <> None -> gr_svcs g !! i = Some Running -> gr_cancelled g = true ->
  (length (gr_chan g) < main_errCh)%nat ->
  rtc (step (main_code cfg)) g
    (mkGroup (<[i := Done]> (gr_svcs g)) (gr_chan g ++ [ctx_Err]) (gr_received g) (gr_cancelled g) (gr_phase g)).
Proof.
  intros Hg Hi Hx Hc. eapply rtc_l; [left; by apply (must_error _ g i ctx_Err)|]. apply rtc_once. left.
  rewrite <- (list_insert_insert_eq (gr_svcs g) i Done (Sending ctx_Err)).
  pose proof (must_send (main_code cfg) (set_svc g i (Sending ctx_Err)) i ctx_Err) as Hs.
  unfold exit_svc in Hs. rewrite decide_False in Hs by (cbn; by destruct (cf_Gateway cfg)).
  apply Hs; [|done]. apply list_lookup_insert_eq. by eapply lookup_lt_Some.
Qed.

Lemma hung_process_reachable : cf_Gateway cfg <> None -> rtc (step (main_code cfg)) (start_group 5) hung_process.
Proof.
  intros Hg. eapply rtc_l; [right; by apply may_signal|]. eapply rtc_l; [left; by apply must_cancel|]. cbn.
  do 4 (match goal with |- rtc _ ?g _ => let l := eval cbn in (length (gr_chan g)) in
    etransitivity; [apply (service_reports g l); [done|reflexivity|done|cbn; unfold main_errCh; lia]|cbn] end).
  apply rtc_once. left. match goal with |- must _ ?g _ => exact (must_error _ g 4%nat ctx_Err eq_refl eq_refl) end.
Qed.

Lemma hung_process_hung : hung (main_code cfg) hung_process.
Proof.
  split; [done|]. split; [|split].
  - unfold all_done. cbn. rewrite !Forall_cons. by intros (_ & _ & _ & _ & ? & _).
  - intros g' H.
    inversion H as [g i Hi Hc|g i e Hi Hc|g i e Hi Hc|g e rest Hp Hl|g Hp Hc|g Hp|g Hp Ha|g Hx Hp Hc]; subst; try done.
    + do 5 (destruct i as [|i]; [done|]). done.
    + do 5 (destruct i as [|i]; [done|]). done.
    + cbn in Hc. unfold main_errCh in Hc. lia.
    + unfold all_done in Ha. cbn in Ha. rewrite !Forall_cons in Ha. by destruct Ha as (_ & _ & _ & _ & ? & _).
  - intros g' H. inversion H as [g i Hi|g i e Hi|g Hx Hp|g Hx Hc|g Hx Hp]; subst; try done.
    + do 5 (destruct i as [|i]; [done|]). done.
    + do 5 (destruct i as [|i]; [done|]). done.
Qed.

(** The process can fail to shut down cleanly: with a gateway it has five services
    and room for four errors, so that after a signal (when no error was received) the
    last service to report the end of its context blocks for ever, and the process is
    killed after its grace period. *)
Theorem main_shutdown_can_hang : cf_Gateway cfg <> None ->
  exists g, rtc (step (main_code cfg)) (start_group (main_services cfg)) g /\ hung (main_code cfg) g.
Proof.
  intros Hg. exists hung_process. split; [|apply hung_process_hung].
  unfold main_services. destruct (cf_Gateway cfg) eqn:E; [apply hung_process_reachable; by rewrite E|done].
Qed.
End Process.

Lemma main_shutdown_can_hang_witness : exists g,
  rtc (step (main_code (ex_config "" (Some ex_gateway)))) (start_group (main_services (ex_config "" (Some ex_gateway)))) g /\
  hung (main_code (ex_config "" (Some ex_gateway))) g.
Proof. apply main_shutdown_can_hang. discriminate. Defined.

(** Without a gateway the process always shuts down, here after the indexer has
    ended by itself. *)
Definition ex_stopping : group := mkGroup [Running; Running; Done; Running] [] 0 true Waiting.

Lemma shutdown_completes_witness :
  rtc (step (main_code (ex_config "" None))) (start_group (main_services (ex_config "" None))) ex_stopping /\
  finishes (main_code (ex_config "" None)) ex_stopping.
Proof.
  assert (Hr : rtc (step (main_code (ex_config "" None))) (start_group (main_services (ex_config "" None))) ex_stopping).
  { apply rtc_once. right. exact (may_return (main_code (ex_config "" None)) (start_group 4) 2 eq_refl). }
  split; [exact Hr|]. apply (shutdown_completes _ _ _ Hr); [by right; left|reflexivity|cbn; unfold main_errCh; lia].
Defined.

(** ** The indexer's Start *)
Section IndexerNew.
Context `{O : OasisLib} `{!Backend B} `{!NodeSource C}.

(** [New] of src/indexer/indexer.go. *)
Definition indexer_New (backend : B) (source : C) (cfg : Config) : Service (B:=B) (C:=C) :=
  mkService (cf_EnablePruning cfg) (cf_PruningStep cfg) (cf_IndexingStart cfg) (cf_IndexingEnd cfg)
    (cf_IndexingDisable cfg) backend source false None None 0.

(** A new service is not healthy; with indexing disabled, Start makes it healthy
    exactly when a round has been indexed. *)
Lemma disabled_health (b : B) (c : C) cfg :
  Health (indexer_New b c cfg) = Err ErrNotHealthy /\
  (Health (start_disabled (indexer_New b c cfg)).2 = Ok tt <-> exists r, (bk_QueryLastIndexedRound b).1 = Ok r).
Proof.
  split; [done|]. unfold start_disabled, mbind, M_bind, on_backend. cbn [sv_backend indexer_New].
  destruct (bk_QueryLastIndexedRound b) as [[r|e] b']; cbn; naive_solver.
Qed.
End IndexerNew.

Definition start_errCh : nat := 4.

(** Its workers: indexing, health and, with pruning, the pruning worker. *)
Definition start_workers (enablePruning : bool) : nat := if enablePruning then 3 else 2.

(** The goroutine of the indexing worker has a deferred [cancel()]; the context is
    derived from the caller's, and is the other case of the second select. *)
Definition start_code : group_code := mkGroupCode start_errCh (Some 0%nat) false true false true.

(** Start of the indexer returns, but does not wait for its workers: it returns
    nil only when they have all ended, yet in its second select the context it waits on
    is already cancelled, so that it can return at once with the error of the context,
    whatever its workers are doing. *)
Theorem indexer_Start_returns pruning g :
  rtc (step start_code) (start_group (start_workers pruning)) g ->
  (stopping g -> over (gr_phase g) = false -> finishes start_code g) /\
  (gr_phase g = Draining -> must start_code g (set_phase g (Finished (Some ctx_Err)))) /\
  (gr_phase g = Finished None -> all_done g).
Proof.
  intros Hr. pose proof (group_reach_inv _ _ _ Hr) as Hi. split; [|split].
  - intros Hs Ho. eapply stopping_finishes; [done..|]. unfold start_workers. destruct pruning; cbn; unfold start_errCh; lia.
  - intros Hp. apply must_ctx_err; [done..|]. apply Hi. by rewrite Hp.
  - apply Hi.
Qed.

(** The caller's context ends: Start returns while all three workers run. *)
Lemma indexer_Start_returns_witness :
  must start_code (mkGroup [Running; Running; Running] [] 0 true Draining)
    (mkGroup [Running; Running; Running] [] 0 true (Finished (Some ctx_Err))).
Proof.
  apply (indexer_Start_returns true (mkGroup [Running; Running; Running] [] 0 true Draining)); [|reflexivity].
  eapply rtc_l; [right; by apply (may_caller start_code (start_group 3))|].
  eapply rtc_l; [left; by apply must_context|]. apply rtc_once. left. apply (must_cancel start_code (set_phase (cancel (start_group 3)) Leaving)). reflexivity.
Defined.
