(* ===== verification/Main.v ===== *)
(** * Process start-up (src/main.go, src/rpc/apis.go, src/version, [InitDB] of src/storage/psql)

    The commands as sequences of fallible steps on the state of the process: the
    database with its migrations, its catalogue of tables, the network and a trace of
    what the process has done.  Configuration, migrations, truncation, the archive
    client and the server are the definitions of the other files; the class [Process]
    gives the results of calls into libraries (the node connection, opening the disk
    cache, closing a database).  The goroutines that are started run as modelled in
    Services.v; what they can do to a database opened read-only is in ReadOnly.v. *)
From S2P Require Import Prelude GoLib Model Gas Sql Psql Extern Archive Worker ReadOnly Config Migrator SqlFile LogsMigration Server.

(** ** [InitDB] *)
(** The options of the PostgreSQL driver; [None] leaves the driver's default. *)
Record DbOptions := mkDbOptions {
  do_Addr : string;
  do_Database : string;
  do_User : string;
  do_Password : string;
  do_DialTimeout : Z;
  do_ReadTimeout : option Z;
  do_WriteTimeout : option Z;
  do_ReadOnly : bool;
  do_MaxOpenConns : Z;
}.

(** [time.Duration(n) * time.Second] on 64-bit integers. *)
Definition seconds (n : Z) : Z := int64 (u64 (n * Second)).

Definition longReadWriteTimeout : Z := 12 * 3600 * Second.

Definition InitDB (gomaxprocs : Z) (cfg : option DatabaseConfig) (longTimeouts readOnly : bool) : result DbOptions :=
  match cfg with
  | None => Err (ErrNew "nil configuration")
  | Some cfg =>
      let readTimeout := seconds (dc_ReadTimeout cfg) in
      let writeTimeout := seconds (dc_WriteTimeout cfg) in
      Ok (mkDbOptions (host_port (dc_Host cfg) (dc_Port cfg)) (dc_DB cfg) (dc_User cfg) (dc_Password cfg)
        (seconds (dc_DialTimeout cfg))
        (if longTimeouts then (if readTimeout <? longReadWriteTimeout then Some longReadWriteTimeout else None)
         else Some readTimeout)
        (if longTimeouts then (if writeTimeout <? longReadWriteTimeout then Some longReadWriteTimeout else None)
         else Some writeTimeout)
        readOnly
        (if dc_MaxOpenConns cfg =? 0 then 4 * gomaxprocs else dc_MaxOpenConns cfg))
  end.

(** A database opened for migrations waits at least as long as one opened for
    service, unless a read timeout of twelve hours or more is configured: then no
    timeout is set at all and the driver's default applies. *)
Theorem InitDB_long_timeouts n cfg ro o1 o2 :
  InitDB n (Some cfg) true ro = Ok o1 -> InitDB n (Some cfg) false ro = Ok o2 ->
  (seconds (dc_ReadTimeout cfg) < longReadWriteTimeout ->
     exists t1 t2, do_ReadTimeout o1 = Some t1 /\ do_ReadTimeout o2 = Some t2 /\ t2 < t1) /\
  (longReadWriteTimeout <= seconds (dc_ReadTimeout cfg) -> do_ReadTimeout o1 = None).
Proof.
  unfold InitDB. intros [= <-] [= <-]. cbn [do_ReadTimeout]. destruct (Z.ltb_spec (seconds (dc_ReadTimeout cfg)) longReadWriteTimeout).
  - split; [intros _; eauto|lia].
  - split; [lia|done].
Qed.

(** ** src/version *)
(** The version of the oasis-sdk among the dependencies of the build. *)
Definition GetOasisSDKVersion (buildInfo : option (list (string * string))) : string :=
  match buildInfo with
  | None => "unknown"
  | Some deps =>
      match head (filter (fun d => d.1 = "github.com/oasisprotocol/oasis-sdk/client-sdk/go"%string) deps) with
      | Some d => d.2
      | None => "unknown"
      end
  end.

(** ** src/rpc/apis.go *)
(** The services of the API table; the flag tells whether they are instrumented. *)
Inductive service :=
  | Web3Service (metrics : bool)
  | NetService (metrics : bool)
  | EthService (metrics : bool)
  | TxpoolService (metrics : bool)
  | FiltersService (metrics : bool)
  | OasisService (metrics : bool).

Section Apis.
Context {Env : Type} (oasisHealth : HealthCheck (Env:=Env)).

Definition GetRPCAPIs (config : GatewayConfig) : list (API (Svc:=service)) * list (HealthCheck (Env:=Env)) :=
  let m := Monitoring_Enabled (gw_Monitoring config) in
  let apis := [mkAPI "web3" (Web3Service m) false; mkAPI "net" (NetService m) false; mkAPI "eth" (EthService m) false;
               mkAPI "txpool" (TxpoolService m) false; mkAPI "eth" (FiltersService m) false] in
  if gw_ExposeOasisRPCs config
  then (apis ++ [mkAPI "oasis" (OasisService m) false], [oasisHealth])
  else (apis, []).

(** Every API of the table is served: the server registers all of them, in order,
    under the modules it allows, and the oasis_ namespace exactly when it is enabled. *)
Theorem GetRPCAPIs_all_registered `{RpcLib service} config srv :
  RegisterApis (GetRPCAPIs config).1 rpcModules srv false = RegisterApis (GetRPCAPIs config).1 [] srv true /\
  ("oasis"%string ∈ Namespace <$> (GetRPCAPIs config).1 <-> gw_ExposeOasisRPCs config = true).
Proof.
  unfold GetRPCAPIs. destruct (gw_ExposeOasisRPCs config); (split; [done|]); cbn; set_solver.
Qed.
End Apis.

(** ** Commands *)
Class Process := {
  proc_environ : list (string * string);
  proc_gomaxprocs : Z;
  proc_UnmarshalHex : string -> result unit;
  proc_IsLocalAddress : string -> bool;
  proc_Dial : string -> bool -> result unit;
  proc_CloseDB : result unit;
  proc_pebble_Open : string -> result unit;
  proc_Open : string -> result (list Ascii.ascii);
}.

Section Commands.
Context `{L : Logging} `{K : Koanf} `{P : Process} `{R : RpcLib service} `{N : Net W} `{SqlDB D}.
Context `{EL : EthLib} `{!EthClient A}.
Context (ExecContext : D -> list Ascii.ascii -> result D).
(** The health of the process, and the two checks on it. *)
Context {Env : Type} (oasisHealth indexerHealth : HealthCheck (Env:=Env)).

Local Abbreviation gateway := (Web3Gateway (Svc:=service) (Env:=Env)).
Local Abbreviation gsys := (sys (Svc:=service) (Env:=Env) (W:=W)).

Inductive effect :=
  | EPprof (addr : string)
  | EDial (addr : string) (tls : bool)
  | EInitDB (o : DbOptions)
  | ERunMigrations
  | ECloseDB
  | EDropTables
  | EWrapStorage
  | EStartFixer
  | EStartBackend
  | EOpenPebble (path : string)
  | EStartIndexer
  | EStartOracle
  | EDialArchive (uri : string)
  | EServing (g : gateway)
  | EStarted.

Record Proc := mkProc {
  pr_db : MigDB (U:=D);
  pr_catalogue : PgDB;
  pr_net : W;
  pr_trace : list effect;
}.

Definition cmd : Type -> Type := M Proc.

Definition emit (e : effect) : cmd unit := fun p =>
  (Ok tt, mkProc (pr_db p) (pr_catalogue p) (pr_net p) (pr_trace p ++ [e])).
Definition call {X} (r : result X) : cmd X := fun p => (r, p).
Definition on_db {X} (m : M MigDB X) : cmd X := fun p =>
  let '(r, d) := m (pr_db p) in (r, mkProc d (pr_catalogue p) (pr_net p) (pr_trace p)).
Definition on_catalogue {X} (m : M PgDB X) : cmd X := fun p =>
  let '(r, d) := m (pr_catalogue p) in (r, mkProc (pr_db p) d (pr_net p) (pr_trace p)).
Definition on_gateway (g : gateway) (m : M gsys unit) : cmd gateway := fun p =>
  let '(r, (g', w)) := m (g, pr_net p) in
  (match r with Ok _ => Ok g' | Err e => Err e end, mkProc (pr_db p) (pr_catalogue p) w (pr_trace p)).

(** [return fmt.Errorf(msg + ": %w", err)]; a panic is not an error. *)
Definition wrapping {X} (msg : string) (m : cmd X) : cmd X := fun p =>
  match m p with
  | (Err ErrPanic, p') => (Err ErrPanic, p')
  | (r, p') => (rwrap msg r, p')
  end.

(** [RunMigrations] of src/storage/psql. *)
Definition RunMigrations (ms : list (Migration (U:=D))) : M MigDB unit :=
  _ ← wrap_err "init migrations" migrations_Init;
  wrap_err "migrations" (migrations_Migrate ms).

Definition all_migrations : list (Migration (U:=D)) := migration_list proc_Open ExecContext.

Definition open_db (cfg : Config) (long readOnly : bool) : cmd unit :=
  o ← call (InitDB proc_gomaxprocs (cf_Database cfg) long readOnly);
  emit (EInitDB o).

Definition migrate_db : cmd unit :=
  _ ← emit ERunMigrations;
  wrapping "failed to migrate DB" (on_db (RunMigrations all_migrations)).

(** The database is migrated and closed again, unless it is used read-only. *)
Definition migrate_first (cfg : Config) (dbReadOnly : bool) : cmd unit :=
  if negb dbReadOnly then
    _ ← wrapping "failed to initialize migrations DB" (open_db cfg true dbReadOnly);
    _ ← migrate_db;
    _ ← emit ECloseDB;
    wrapping "failed to close migrations DB" (call proc_CloseDB)
  else mret tt.

(** The services that index and watch the chain. *)
Definition start_services (cfg : Config) : cmd unit :=
  _ ← emit EStartFixer;
  _ ← emit EStartBackend;
  _ ← (match cf_NodeCachePath cfg with
       | Some path => _ ← emit (EOpenPebble path); wrapping "creating pebble source" (call (proc_pebble_Open path))
       | None => mret tt
       end);
  _ ← emit EStartIndexer;
  emit EStartOracle.

(** Registering the APIs and the health checks, and starting the server. *)
Definition start_server (gw : GatewayConfig) (w3 : gateway) : cmd unit :=
  let '(apis, checks) := GetRPCAPIs oasisHealth gw in
  w3 ← on_gateway w3 (RegisterAPIs apis);
  w3 ← on_gateway w3 (RegisterHealthChecks (checks ++ [indexerHealth]));
  w3 ← wrapping "starting web3 server" (on_gateway w3 Start);
  emit (EServing w3).

Definition start_gateway (cfg : Config) (gw : GatewayConfig) : cmd unit :=
  _ ← (if bool_decide (cf_ArchiveURI cfg = EmptyString) then mret tt
       else
         _ ← emit (EDialArchive (cf_ArchiveURI cfg));
         _ ← wrapping "creating archive client" (call (archive_New (cf_ArchiveURI cfg) (cf_ArchiveHeightMax cfg)));
         mret tt);
  w3 ← wrapping "creating web3 gateway" (call (New (Some gw)));
  start_server gw w3.

(** Everything after the migrations. *)
Definition serve (cfg : Config) (dbReadOnly : bool) : cmd unit :=
  _ ← wrapping "failed to initialize DB" (open_db cfg false dbReadOnly);
  _ ← (match cf_Gateway cfg with
       | Some gw => if Monitoring_Enabled (gw_Monitoring gw) then emit EWrapStorage else mret tt
       | None => mret tt
       end);
  _ ← start_services cfg;
  _ ← (match cf_Gateway cfg with Some gw => start_gateway cfg gw | None => mret tt end);
  emit EStarted.

(** Everything before them. *)
Definition connect (cfg : Config) : cmd unit :=
  _ ← (if bool_decide (cf_PprofAddr cfg = EmptyString) then mret tt else emit (EPprof (cf_PprofAddr cfg)));
  _ ← wrapping "invalid runtime ID" (call (proc_UnmarshalHex (cf_RuntimeID cfg)));
  let tls := negb (proc_IsLocalAddress (cf_NodeAddress cfg)) in
  _ ← emit (EDial (cf_NodeAddress cfg) tls);
  wrapping "failed to connect to node" (call (proc_Dial (cf_NodeAddress cfg) tls)).

(** [runRoot], up to the wait for the services. *)
Definition runRoot (configFile : string) : cmd unit :=
  cfg ← call (InitConfig proc_environ configFile);
  _ ← call (InitLogging cfg);
  _ ← connect cfg;
  let dbReadOnly := cf_IndexingDisable cfg in
  _ ← migrate_first cfg dbReadOnly;
  serve cfg dbReadOnly.

Definition truncateExec (configFile : string) (allowUnsafe : bool) : cmd unit :=
  cfg ← call (InitConfig proc_environ configFile);
  _ ← call (InitLogging cfg);
  if negb allowUnsafe then fail (ErrNew "unsafe not allowed")
  else
    _ ← open_db cfg true false;
    _ ← emit EDropTables;
    on_catalogue DropTables.

Definition migrateExec (configFile : string) : cmd unit :=
  cfg ← call (InitConfig proc_environ configFile);
  _ ← call (InitLogging cfg);
  _ ← open_db cfg true false;
  migrate_db.

(** The command line; the exit status of the process: [exec] exits with 1, the error
    of [Execute] is dropped by [main], and a panic exits with 2. *)
Inductive command := RootCmd | TruncateCmd (allowUnsafe : bool) | MigrateCmd.

Definition main (configFile : string) (c : command) (p : Proc) : Z * Proc :=
  match c with
  | RootCmd => match runRoot configFile p with
      | (Ok _, p') => (0, p') | (Err ErrPanic, p') => (2, p') | (Err _, p') => (1, p') end
  | TruncateCmd unsafe => match truncateExec configFile unsafe p with
      | (Err ErrPanic, p') => (2, p') | (_, p') => (0, p') end
  | MigrateCmd => match migrateExec configFile p with
      | (Err ErrPanic, p') => (2, p') | (_, p') => (0, p') end
  end.

(** ** What a command may touch *)
(** Every part of the state but the network is as [Q] and [T] say. *)
Definition within (Q : MigDB -> PgDB -> Prop) (T : effect -> Prop) (p : Proc) : Prop :=
  Q (pr_db p) (pr_catalogue p) /\ Forall T (pr_trace p).

Lemma call_keeps {X} Q T (r : result X) : keeps (within Q T) (call r).
Proof. by intros p. Qed.

Lemma emit_keeps Q (T : effect -> Prop) e : T e -> keeps (within Q T) (emit e).
Proof. intros He p [Hq Ht]. split; [done|]. apply Forall_app. by split; [|constructor]. Qed.

Lemma wrapping_keeps {X} Q T msg (m : cmd X) : keeps (within Q T) m -> keeps (within Q T) (wrapping msg m).
Proof. intros Hm p Hp. specialize (Hm p Hp). unfold wrapping. by destruct (m p) as [[|[]] p']. Qed.

Lemma on_gateway_keeps Q T g m : keeps (within Q T) (on_gateway g m).
Proof. intros p Hp. unfold on_gateway. by destruct (m _) as [[] [g' w]]. Qed.

Lemma open_db_keeps Q (T : effect -> Prop) cfg long ro :
  (forall o, do_ReadOnly o = ro -> T (EInitDB o)) -> keeps (within Q T) (open_db cfg long ro).
Proof.
  intros Ht p Hp. unfold open_db, InitDB. destruct (cf_Database cfg) as [c|]; [|done].
  apply emit_keeps; [by apply Ht|done].
Qed.

Ltac keeps_steps := repeat first
  [ apply open_db_keeps | apply keeps_bind; [|intros ?] | apply keeps_ret | apply call_keeps | apply wrapping_keeps
  | apply on_gateway_keeps | apply emit_keeps | case_match ].

(** The effects of [serve]. *)
Definition is_service (e : effect) : bool :=
  match e with
  | EWrapStorage | EStartFixer | EStartBackend | EOpenPebble _ | EStartIndexer | EStartOracle
  | EDialArchive _ | EServing _ | EStarted => true
  | _ => false
  end.

Lemma serve_keeps Q (T : effect -> Prop) cfg ro :
  (forall e, is_service e = true -> T e) -> (forall o, do_ReadOnly o = ro -> T (EInitDB o)) ->
  keeps (within Q T) (serve cfg ro).
Proof.
  intros Hs Ho. unfold serve, start_services, start_gateway, start_server. keeps_steps; auto.
Qed.

Lemma connect_keeps Q (T : effect -> Prop) cfg :
  (forall a, T (EPprof a)) -> (forall a tls, T (EDial a tls)) -> keeps (within Q T) (connect cfg).
Proof. intros. unfold connect. keeps_steps; auto. Qed.

(** What a read-only process may do. *)
Definition read_only (e : effect) : Prop :=
  match e with
  | EInitDB o => do_ReadOnly o = true
  | ERunMigrations | ECloseDB | EDropTables => False
  | _ => True
  end.

(** After the configuration is read and logging is set up. *)
Lemma runRoot_eq f cfg p : InitConfig proc_environ f = Ok cfg ->
  runRoot f p = match InitLogging cfg with
    | Err e => (Err e, p)
    | Ok _ => (_ ← connect cfg; _ ← migrate_first cfg (cf_IndexingDisable cfg); serve cfg (cf_IndexingDisable cfg)) p
    end.
Proof. unfold runRoot, mbind at 1 2, M_bind at 1 2, call. intros ->. by destruct (InitLogging cfg). Qed.

(** C34: With indexing disabled the process changes no table: whatever fails, start-up
    runs no migration and leaves the database as it was, every database it opens is
    opened read-only, and on a connection opened like that whatever the services do,
    the updates of the log fixer and calls and transactions of the storage interface
    in any order and number, leaves the tables as they were, given that the server
    refuses writes in read-only sessions. *)
Theorem runRoot_read_only `{SQ : SqlDB Q} `{RQ : RawDB Q} `{!Sessions Q} `{!SessionLaws Q} f cfg p r p' :
  InitConfig proc_environ f = Ok cfg -> cf_IndexingDisable cfg = true -> Forall read_only (pr_trace p) ->
  runRoot f p = (r, p') ->
  pr_db p' = pr_db p /\ pr_catalogue p' = pr_catalogue p /\ Forall read_only (pr_trace p') /\
  (forall o, EInitDB o ∈ pr_trace p' -> forall ts (q : Q),
     db_view (run_tasks ts (open_session (do_ReadOnly o) q)) = db_view q).
Proof.
  intros Hc Hd Ht Hr.
  enough (pr_db p' = pr_db p /\ pr_catalogue p' = pr_catalogue p /\ Forall read_only (pr_trace p')) as (? & ? & Hro).
  { split_and!; [done..|]. intros o Ho ts q. rewrite Forall_forall in Hro. specialize (Hro _ Ho). cbn in Hro.
    rewrite Hro. apply ro_tasks. }
  enough (within (fun d c => d = pr_db p /\ c = pr_catalogue p) read_only (runRoot f p).2) as [[? ?] ?] by (by rewrite Hr in *).
  rewrite (runRoot_eq f cfg p Hc), Hd. assert (Hp : within (fun d c => d = pr_db p /\ c = pr_catalogue p) read_only p) by done.
  destruct (InitLogging cfg); [|exact Hp]. revert p Hp Ht Hr. intros p0 Hp _ _. revert Hp.
  generalize (pr_db p0) (pr_catalogue p0). intros d c. revert p0.
  change (keeps (within (fun d' c' => d' = d /\ c' = c) read_only) (connect cfg ≫= fun _ => migrate_first cfg true ≫= fun _ => serve cfg true)).
  apply keeps_bind; [by apply connect_keeps|intros _]. apply keeps_bind; [apply keeps_ret|intros _].
  apply serve_keeps; [by intros []|done].
Qed.

(** ** Migrations before services *)
(** A success of [RunMigrations]: nothing is left to do. *)
Definition migrated_db (d d' : MigDB) : Prop :=
  todo all_migrations (md_rows d') = [] /\
  run_ups (todo all_migrations (md_rows d)) (md_content d) = Ok (md_content d').

Lemma wrap_err_inv {S X} msg (m : M S X) s x s' : wrap_err msg m s = (Ok x, s') -> m s = (Ok x, s').
Proof. unfold wrap_err, attempt. by destruct (m s) as [[] ?]. Qed.

Lemma stmt_same {X} (x : MigDB (U:=D) -> X) d : unchanged d (stmt (fun d => (Ok (x d), d)) d).2.
Proof. destruct (stmt_cases (fun d => (Ok (x d), d)) d) as (d1 & Hd & _ & _ & [->|[c [-> _]]]); done. Qed.

Lemma all_migrations_registered : Migrator.registered all_migrations /\ all_migrations <> [].
Proof.
  destruct (Migrations_registered proc_Open ExecContext) as (ms & E1 & Hr & Hn & _).
  change (Ok all_migrations = Ok ms) in E1. injection E1 as <-. done.
Qed.

Lemma RunMigrations_ok d d' : ids_ok d -> RunMigrations all_migrations d = (Ok tt, d') -> migrated_db d d'.
Proof.
  intros Hids. unfold RunMigrations, mbind at 1, M_bind at 1. destruct all_migrations_registered as [Hreg Hne].
  destruct (wrap_err _ migrations_Init d) as [[[]|e] d1] eqn:E1; [|done]. apply wrap_err_inv in E1.
  assert (H1 : unchanged d d1 /\ md_nextID d1 = md_nextID d).
  { unfold migrations_Init, Init in E1. destruct (stmt_cases (mret tt) d) as (d2 & ? & ? & _ & [E2|[c [E2 _]]]); rewrite E2 in E1; [|done]. apply (f_equal snd) in E1. cbn in E1. by subst d2. }
  intros E2%wrap_err_inv. revert E2. unfold migrations_Migrate, mbind, M_bind.
  destruct (Migrate all_migrations d1) as [[[]|e] d2] eqn:E2; [|done].
  apply (Migrate_ok _ _ _ Hreg (ids_ok_same _ _ (proj1 H1) (proj2 H1) Hids) Hne) in E2 as [Ht Hu].
  destruct H1 as [[Hr Hc] _]. rewrite Hr, Hc in Hu. unfold migrationsWithStatus, mbind, M_bind.
  pose proof (stmt_same (fun d => md_rows d) d2) as Hs.
  destruct (stmt _ d2) as [[rows|e] d3]; [|done]. intros [= <-]. destruct Hs as [Hsr Hsc]. cbn [snd] in *.
  split; [by rewrite Hsr|by rewrite Hsc].
Qed.

(** An error before the services start leaves a trace without them. *)
Lemma bind_cases {S X Y} (m : M S X) (k : X -> M S Y) s r s' : (m ≫= k) s = (r, s') ->
  (exists e, m s = (Err e, s') /\ r = Err e) \/ exists x s1, m s = (Ok x, s1) /\ k x s1 = (r, s').
Proof. unfold mbind, M_bind. destruct (m s) as [[x|e] s1]; [right; eauto|]. intros [= <- <-]. left. eauto. Qed.

Lemma wrapping_ok {X} msg (m : cmd X) p x p' : wrapping msg m p = (Ok x, p') -> m p = (Ok x, p').
Proof. unfold wrapping. destruct (m p) as [[|[]] ?]; cbn [rwrap]; congruence. Qed.

Definition no_service (e : effect) : Prop := is_service e = false.

Lemma on_db_keeps T {X} (m : M MigDB X) : keeps (within (fun _ _ => True) T) (on_db m).
Proof. intros p Hp. unfold on_db. by destruct (m _). Qed.

Lemma migrate_first_keeps cfg ro : keeps (within (fun _ _ => True) no_service) (migrate_first cfg ro).
Proof. unfold migrate_first, migrate_db. keeps_steps; try done. apply on_db_keeps. Qed.

Lemma migrate_first_ok cfg p p' : ids_ok (pr_db p) -> migrate_first cfg false p = (Ok tt, p') ->
  migrated_db (pr_db p) (pr_db p').
Proof.
  intros Hids. unfold migrate_first. cbn [negb].
  intros [(? & _ & [=])|([] & p1 & E1 & E)]%bind_cases. apply wrapping_ok in E1.
  assert (Hdb : pr_db p1 = pr_db p).
  { destruct (open_db_keeps (fun d _ => d = pr_db p) (fun _ => True) cfg true false (fun _ _ => I) p) as [Hd _];
      [split; [done|by apply Forall_true]|]. by rewrite E1 in Hd. }
  unfold migrate_db in E. apply bind_cases in E as [(? & _ & [=])|([] & p2 & E2 & E)].
  apply bind_cases in E as [(? & _ & [=])|([] & p3 & E3 & E)]. injection E3 as <-.
  apply wrapping_ok in E. injection E as _ <-. cbn [pr_db].
  apply bind_cases in E2 as [(? & _ & [=])|([] & p4 & [= <-] & E2)]. apply wrapping_ok in E2.
  unfold on_db in E2. cbn [pr_db] in E2. rewrite Hdb in E2.
  destruct (RunMigrations _ (pr_db p)) as [r d] eqn:Em. injection E2 as -> <-. by apply RunMigrations_ok.
Qed.

(** C19: No service runs on a database that is not up to date: unless indexing is
    disabled, whatever fails, once any service has been started all migrations have
    been applied, in order and each exactly once, to what the database was. *)
Theorem runRoot_migrates_first f cfg p r p' :
  InitConfig proc_environ f = Ok cfg -> cf_IndexingDisable cfg = false ->
  ids_ok (pr_db p) -> Forall no_service (pr_trace p) ->
  runRoot f p = (r, p') -> Exists (fun e => is_service e = true) (pr_trace p') ->
  migrated_db (pr_db p) (pr_db p').
Proof.
  intros Hc Hd Hids Ht Hr Hx.
  assert (Hno : forall q, within (fun _ _ => True) no_service q -> pr_trace q = pr_trace p' -> migrated_db (pr_db p) (pr_db p')).
  { intros q [_ Hq] Eq. rewrite Eq in Hq. exfalso. revert Hx. apply Forall_not_Exists.
    apply (Forall_impl _ _ _ Hq). unfold no_service. intros; congruence. }
  rewrite (runRoot_eq f cfg p Hc), Hd in Hr. destruct (InitLogging cfg) as [[]|e]; [|injection Hr as _ <-; by apply (Hno p)].
  assert (Hk : within (fun d _ => d = pr_db p) no_service (connect cfg p).2) by (apply connect_keeps; done).
  apply bind_cases in Hr as [(e & E & _)|([] & p1 & E & Hr)]; rewrite E in Hk; cbn [snd] in Hk.
  { apply (Hno p'); [|done]. by destruct Hk. }
  destruct Hk as [Hdb Hk]. rewrite <- Hdb. pose proof (migrate_first_keeps cfg false p1 (conj I Hk)) as Hm.
  apply bind_cases in Hr as [(e & E2 & _)|([] & p2 & E2 & Hr)].
  { rewrite E2 in Hm. rewrite Hdb. by apply (Hno p'). }
  apply migrate_first_ok in E2; [|by rewrite Hdb].
  destruct (serve_keeps (fun d _ => d = pr_db p2) (fun _ => True) cfg false (fun _ _ => I) (fun _ _ => I) p2) as [Hs _];
    [split; [done|by apply Forall_true]|]. rewrite Hr in Hs. cbn [snd] in Hs. by rewrite Hs.
Qed.

(** ** What the process serves *)
(** The routes of the HTTP server: JSON-RPC under the prefix and the health endpoint. *)
Definition http_table (http : GatewayHTTPConfig) (srv : rpcServer service) (checks : list HealthCheck) : handler (Env:=Env) :=
  Router [mkRoute true (hc_PathPrefix http) (ServeHTTP srv) (Some ["POST"]);
          mkRoute false "/health" (HealthEndpoint checks) (Some ["GET"])].

(** The gateway serves all APIs of the table, and 200 on its health endpoint exactly
    when the indexer, and the oasis_ API where it is enabled, are healthy. *)
Definition serves (gw : GatewayConfig) (g : gateway) : Prop :=
  exists http srv h checks,
    gw_HTTP gw = Some http /\ gw_http g = Some h /\ serving h (http_table http srv checks) /\
    RegisterApis (GetRPCAPIs oasisHealth gw).1 [] (SetBatchLimits batchItemLimit batchResponseLimit rpc_NewServer) true
      = Ok srv /\
    forall env, healthCheckHandler checks "GET" env = (200, Some 1) <->
      indexerHealth env = Ok tt /\ (gw_ExposeOasisRPCs gw = true -> oasisHealth env = Ok tt).

Lemma all_registered config srv :
  RegisterApis (GetRPCAPIs oasisHealth config).1 rpcModules srv false = RegisterApis (GetRPCAPIs oasisHealth config).1 [] srv true.
Proof. unfold GetRPCAPIs. by destruct (gw_ExposeOasisRPCs config). Qed.

Lemma health_table gw env :
  healthCheckHandler ((GetRPCAPIs oasisHealth gw).2 ++ [indexerHealth]) "GET" env = (200, Some 1) <->
  indexerHealth env = Ok tt /\ (gw_ExposeOasisRPCs gw = true -> oasisHealth env = Ok tt).
Proof.
  unfold healthCheckHandler. rewrite bool_decide_eq_true_2 by done. cbn [negb].
  transitivity (check_all ((GetRPCAPIs oasisHealth gw).2 ++ [indexerHealth]) env = true).
  { destruct (check_all _ _); naive_solver. }
  rewrite check_all_spec, Forall_app, Forall_singleton. unfold GetRPCAPIs.
  destruct (gw_ExposeOasisRPCs gw); cbn [snd]; rewrite ?Forall_singleton, ?Forall_nil; naive_solver.
Qed.

Lemma start_server_ok gw g p p' : New (Some gw) = Ok g -> start_server gw g p = (Ok tt, p') ->
  exists g', EServing g' ∈ pr_trace p' /\ serves gw g'.
Proof.
  intros Hn. destruct (New_inv _ _ (pr_net p) Hn) as (Hi & _ & Hcf). injection Hcf as Hcf.
  assert (H0 : gw_state g = initializingState /\ gw_rpcAPIs g = [] /\ gw_healthChecks g = []).
  { revert Hn. unfold New, mbind, result_bind. repeat case_match; try done. by intros [= <-]. }
  destruct H0 as (Hst & Ha & Hh). unfold start_server. destruct (GetRPCAPIs oasisHealth gw) as [apis checks] eqn:Eg.
  set (g2 := set_lists g apis (checks ++ [indexerHealth])).
  intros [(? & _ & [=])|(g1 & p1 & E1 & Er)]%bind_cases.
  unfold on_gateway, RegisterAPIs in E1. rewrite Hst, Ha, Hh in E1. cbn in E1. injection E1 as <- <-.
  apply bind_cases in Er as [(? & _ & [=])|(g1 & p1 & E1 & Er)].
  unfold on_gateway, RegisterHealthChecks in E1. cbn in E1. rewrite Hst in E1. cbn in E1. injection E1 as <- <-.
  apply bind_cases in Er as [(? & _ & [=])|(g3 & p3 & E1 & Er)]. apply wrapping_ok in E1. injection Er as <-.
  unfold on_gateway in E1. cbn [pr_net] in E1. change (set_lists _ _ _) with g2 in E1.
  destruct (Start (g2, pr_net p)) as [[[]|e] [g' w']] eqn:Es; [|done]. injection E1 as <- <-.
  exists g'. split; [cbn; apply elem_of_app; right; by apply list_elem_of_singleton|].
  destruct (start_serving (g2, pr_net p) (g', w')) as (http & ws & srv & h & hw & E1 & _ & E2 & E3 & Hs & _); try done.
  exists http, srv, h, (checks ++ [indexerHealth]). cbn [fst] in *. rewrite Eg. cbn [fst].
  split; [by rewrite <- Hcf|]. split; [done|]. split; [done|]. split.
  - unfold registered in E2. cbn [gw_rpcAPIs g2 set_lists] in E2. pose proof (all_registered gw) as Hall. rewrite Eg in Hall.
    cbn [fst] in Hall. by rewrite <- Hall.
  - intros env. pose proof (health_table gw env) as Hall. by rewrite Eg in Hall.
Qed.

(** C21: A process that has started with a gateway serves: POST requests under the
    configured prefix with every API of the table and GET /health, which answers 200
    exactly when the indexer is healthy and, if the oasis_ namespace is exposed, that
    API is healthy too. *)
Theorem runRoot_serves f cfg gw p p' :
  InitConfig proc_environ f = Ok cfg -> cf_Gateway cfg = Some gw -> runRoot f p = (Ok tt, p') ->
  exists g, EServing g ∈ pr_trace p' /\ serves gw g.
Proof.
  intros Hc Hg Hr. rewrite (runRoot_eq f cfg p Hc) in Hr. destruct (InitLogging cfg) as [[]|e]; [|done].
  apply bind_cases in Hr as [(? & _ & [=])|([] & p1 & _ & Hr)].
  apply bind_cases in Hr as [(? & _ & [=])|([] & p2 & _ & Hr)]. unfold serve in Hr.
  do 3 apply bind_cases in Hr as [(? & _ & [=])|([] & ? & _ & Hr)].
  apply bind_cases in Hr as [(? & _ & [=])|([] & p3 & E & Hr)]. injection Hr as <-. cbn [pr_trace].
  rewrite Hg in E. unfold start_gateway in E. apply bind_cases in E as [(? & _ & [=])|([] & p4 & _ & E)].
  apply bind_cases in E as [(? & _ & [=])|(w3 & p5 & En & E)]. apply wrapping_ok in En. injection En as En <-.
  apply start_server_ok in E as (g & Hin & Hs); [|done]. exists g. split; [|done]. apply elem_of_app. by left.
Qed.

(** ** Exit status *)
(** Only the root command reports a failure to its caller: it exits with 0 exactly
    when it started everything.  The errors of truncate-db and migrate-db are dropped
    and the process exits with 0, also when the command refused to run or failed. *)
Theorem command_exit_status f p :
  ((main f RootCmd p).1 = 0 <-> (runRoot f p).1 = Ok tt) /\
  (forall unsafe, (truncateExec f unsafe p).1 <> Err ErrPanic -> (main f (TruncateCmd unsafe) p).1 = 0) /\
  ((migrateExec f p).1 <> Err ErrPanic -> (main f MigrateCmd p).1 = 0).
Proof.
  unfold main. split; [|split; [intros unsafe|]].
  - destruct (runRoot f p) as [[[]|[]] p']; cbn; split; done.
  - by destruct (truncateExec f unsafe p) as [[[]|[]] p'].
  - by destruct (migrateExec f p) as [[[]|[]] p'].
Qed.

(** Truncate-db without --unsafe touches nothing: it opens no database and drops
    no table. *)
Theorem truncate_needs_unsafe f p : exists e, truncateExec f false p = (Err e, p).
Proof.
  unfold truncateExec, mbind, M_bind, call. destruct (InitConfig _ _); [|eauto]. destruct (InitLogging _); [|eauto].
  cbn [negb]. unfold fail. eauto.
Qed.
End Commands.

(** ** A concrete process *)
#[local] Instance ExMainRpc : RpcLib service := {|
  rpcServer := list (string * service);
  rpc_NewServer := [];
  SetBatchLimits _ _ srv := srv;
  RegisterName name svc srv := if bool_decide (name = EmptyString) then Err (ErrNew "no service name")
    else Ok (srv ++ [(name, svc)]);
  DefaultHTTPTimeouts := mkRpcTimeouts (30 * Second) (30 * Second) (30 * Second) (120 * Second);
|}.

(** Local node addresses start with unix:; there is no disk cache. *)
#[local] Instance ExProcess : Process := {|
  proc_environ := [];
  proc_gomaxprocs := 8;
  proc_UnmarshalHex s := if bool_decide (s = "8000"%string) then Ok tt else Err (ErrNew "malformed namespace");
  proc_IsLocalAddress a := strings_HasPrefix a "unix:";
  proc_Dial _ _ := Ok tt;
  proc_CloseDB := Ok tt;
  proc_pebble_Open _ := Err (ErrNew "no such directory");
  proc_Open _ := Ok [];
|}.

Definition ex_main_config (disable : bool) : Config :=
  let c := ex_config "/var/log/gateway" (Some ex_gateway) in
  mkConfig (cf_RuntimeID c) (cf_NodeAddress c) (cf_NodeCachePath c) (cf_EnablePruning c) (cf_PruningStep c)
    (cf_IndexingStart c) (cf_IndexingEnd c) disable (cf_Log c) (cf_Cache c) (cf_Database c) (cf_Gateway c)
    (cf_Gas c) "http://archive" 7 (cf_PprofAddr c).

#[local] Instance ExMainKoanf (disable : bool) : Koanf := {|
  tree := list (string * string);
  koanf_New := [];
  Load_yaml _ t := Ok t;
  Load_env env t := Ok (env ++ t);
  Unmarshal _ := Ok (ex_main_config disable);
|}.

Definition ex_exec (d : MemDB) (q : list Ascii.ascii) : result MemDB := Ok d.

Definition ex_proc : Proc (W:=list string) (D:=MemDB) (Env:=bool * bool) :=
  mkProc (mkMigDB [(1, "20211213143752"%string)] 2 ex_migtx []) (mkPgDB [("public", "logs")]%string []) [] [].

Definition ex_oasis : HealthCheck (Env:=bool * bool) := fun env => if env.1 then Ok tt else Err ErrNotHealthy.
Definition ex_indexer : HealthCheck (Env:=bool * bool) := fun env => if env.2 then Ok tt else Err ErrNotHealthy.

Definition ex_run (disable : bool) : result unit * Proc :=
  runRoot (K:=ExMainKoanf disable) ex_exec ex_oasis ex_indexer "server.yml" ex_proc.

Lemma ex_run_ok disable : (ex_run disable).1 = Ok tt.
Proof. destruct disable; vm_compute; reflexivity. Qed.

Lemma ex_run_eq disable :
  runRoot (K:=ExMainKoanf disable) ex_exec ex_oasis ex_indexer "server.yml" ex_proc = (Ok tt, (ex_run disable).2).
Proof. fold (ex_run disable). rewrite <- (ex_run_ok disable). by destruct (ex_run disable). Qed.

Lemma ex_run_config disable : InitConfig (K:=ExMainKoanf disable) [] "server.yml" = Ok (ex_main_config disable).
Proof. destruct disable; vm_compute; reflexivity. Qed.

(** With indexing disabled: started, and the database is as before, also after the
    fixer has run on a database with a wrong index. *)
Lemma runRoot_read_only_witness :
  (ex_run true).1 = Ok tt /\ pr_db (ex_run true).2 = pr_db ex_proc /\
  exists o, EInitDB o ∈ pr_trace (ex_run true).2 /\
    db_view (run_tasks [TaskFixer 3] (open_session (do_ReadOnly o) ex_session)) = db_view ex_session.
Proof.
  destruct (runRoot_read_only (Q:=SessionDB) (K:=ExMainKoanf true) ex_exec ex_oasis ex_indexer "server.yml" _ ex_proc (Ok tt)
    (ex_run true).2 (ex_run_config true) eq_refl (Forall_nil_2 _) (ex_run_eq true)) as (E & _ & _ & Ho).
  split; [apply ex_run_ok|]. split; [exact E|].
  assert (Hx : existsb (fun e => match e with EInitDB _ => true | _ => false end) (pr_trace (ex_run true).2) = true)
    by (vm_compute; reflexivity).
  apply existsb_exists in Hx as (e & Hin%list_elem_of_In & He). destruct e; try discriminate He.
  eexists. split; [exact Hin|]. apply (Ho _ Hin).
Defined.

(** With one migration recorded, the other three are run before the services. *)
Lemma runRoot_migrates_first_witness :
  length (todo (all_migrations ex_exec) (md_rows (pr_db ex_proc))) = 3%nat /\
  todo (all_migrations ex_exec) (md_rows (pr_db (ex_run false).2)) = [].
Proof.
  split; [vm_compute; reflexivity|].
  destruct (runRoot_migrates_first (K:=ExMainKoanf false) ex_exec ex_oasis ex_indexer "server.yml" _ ex_proc (Ok tt)
    (ex_run false).2 (ex_run_config false) eq_refl) as [E _]; [|constructor|apply ex_run_eq| |exact E].
  - split; [repeat constructor|reflexivity].
  - assert (Hx : existsb is_service (pr_trace (ex_run false).2) = true) by (vm_compute; reflexivity).
    apply existsb_exists in Hx as (e & Hin & He). apply Exists_exists. exists e. split; [by apply list_elem_of_In|done].
Defined.

(** The gateway of the process: unhealthy as long as the oasis_ API is. *)
Lemma runRoot_serves_witness : exists g, EServing g ∈ pr_trace (ex_run false).2 /\ serves ex_oasis ex_indexer ex_gateway g.
Proof.
  apply (runRoot_serves (K:=ExMainKoanf false) ex_exec ex_oasis ex_indexer "server.yml" _ ex_gateway ex_proc _
    (ex_run_config false) eq_refl (ex_run_eq false)).
Defined.

(** A refused truncation exits with 0. *)
Lemma command_exit_status_witness :
  (main (K:=ExMainKoanf false) ex_exec ex_oasis ex_indexer "server.yml" (TruncateCmd false) ex_proc).1 = 0.
Proof.
  apply (command_exit_status (K:=ExMainKoanf false) ex_exec ex_oasis ex_indexer "server.yml" ex_proc).
  vm_compute. discriminate.
Defined.

(** A database with a read timeout of ten seconds. *)
Lemma InitDB_long_timeouts_witness : exists t1 t2,
  do_ReadTimeout (mkDbOptions "localhost:5432" "db" "user" "pw" (seconds 5) (Some longReadWriteTimeout)
    (Some longReadWriteTimeout) true 32) = Some t1 /\
  do_ReadTimeout (mkDbOptions "localhost:5432" "db" "user" "pw" (seconds 5) (Some (seconds 10)) (Some (seconds 5)) true 32)
    = Some t2 /\ t2 < t1.
Proof.
  apply (InitDB_long_timeouts 8 (mkDatabaseConfig "localhost" 5432 "db" "user" "pw" 5 10 5 0) true); vm_compute; reflexivity.
Defined.
